(** * PayFlow protocol contracts: a shallow embedding and its properties

    The Solidity contracts [ComplianceEngine], [SmartEscrow], [PayFlowCore]
    and [OracleAggregator] are embedded as pure functions over explicit
    contract states.  A call either returns a new state ([Ok]) or reverts
    ([Revert]); a reverted call leaves the state it was made in.

    Conventions of the embedding:
    - [uint256] values are integers; every [+], [-], [*] of the source is
      the checked operation of Solidity 0.8 and reverts outside
      [0 .. 2^256-1];
    - a Solidity [mapping] is a total function with the zero value as
      default, updated pointwise;
    - [block.timestamp] and [msg.sender] are explicit arguments [now] and
      [sender];
    - dynamic arrays are lists; an index out of range reverts. *)

From Stdlib Require Import ZArith List String Bool Lia.
Import ListNotations.
Local Open Scope Z_scope.

(* ====================================================================== *)
(** * Part I: the embedding                                                *)
(* ====================================================================== *)

(** ** Solidity basics *)

Module Sol.

Definition uint256 := Z.
Definition address := Z.
Definition bytes32 := Z.

Definition MAX_UINT256 : Z := 2 ^ 256 - 1.

Inductive Result (A : Type) : Type :=
| Ok (a : A)
| Revert (reason : string).

Arguments Ok {A} a.
Arguments Revert {A} reason.

Definition bind {A B : Type} (c : Result A) (k : A -> Result B) : Result B :=
  match c with
  | Ok a => k a
  | Revert r => Revert r
  end.

Definition require (cond : bool) (reason : string) : Result unit :=
  if cond then Ok tt else Revert reason.

(** Arithmetic overflow or underflow: [Panic(0x11)]. *)
Definition checked (z : Z) : Result uint256 :=
  if (0 <=? z) && (z <=? MAX_UINT256) then Ok z else Revert "Panic(0x11)".

Definition add (a b : uint256) : Result uint256 := checked (a + b).
Definition sub (a b : uint256) : Result uint256 := checked (a - b).
Definition mul (a b : uint256) : Result uint256 := checked (a * b).

(** Division by zero: [Panic(0x12)]. *)
Definition div (a b : uint256) : Result uint256 :=
  if b =? 0 then Revert "Panic(0x12)" else Ok (a / b).

(** Mappings keyed by a 160- or 256-bit word. *)
Definition upd {V : Type} (m : Z -> V) (k : Z) (v : V) : Z -> V :=
  fun k' => if k' =? k then v else m k'.

(** Array access [a[i]]: [Panic(0x32)] when out of range. *)
Definition index {A : Type} (a : list A) (i : nat) : Result A :=
  match nth_error a i with
  | Some x => Ok x
  | None => Revert "Panic(0x32)"
  end.

Fixpoint replace {A : Type} (a : list A) (i : nat) (x : A) : option (list A) :=
  match a, i with
  | [], _ => None
  | _ :: t, O => Some (x :: t)
  | h :: t, S i' =>
      match replace t i' x with
      | Some t' => Some (h :: t')
      | None => None
      end
  end.

(** Array store [a[i] = x]. *)
Definition store {A : Type} (a : list A) (i : nat) (x : A) : Result (list A) :=
  match replace a i x with
  | Some a' => Ok a'
  | None => Revert "Panic(0x32)"
  end.

(** [a.pop()]: [Panic(0x31)] on an empty array. *)
Definition pop {A : Type} (a : list A) : Result (list A) :=
  match a with
  | [] => Revert "Panic(0x31)"
  | _ => Ok (removelast a)
  end.

(** A call made in state [s]: a revert rolls every change back. *)
Definition commit {S : Type} (s : S) (r : Result S) : S :=
  match r with
  | Ok s' => s'
  | Revert _ => s
  end.

Definition succeeds {A : Type} (r : Result A) : bool :=
  match r with
  | Ok _ => true
  | Revert _ => false
  end.

End Sol.

Import Sol.

Notation "x <- c1 ;; c2" := (bind c1 (fun x => c2))
  (at level 61, c1 at next level, right associativity).
Notation "c1 ;; c2" := (bind c1 (fun _ => c2))
  (at level 61, right associativity).

(* ---------------------------------------------------------------------- *)
(** ** OracleAggregator                                                    *)
(* ---------------------------------------------------------------------- *)

Module OracleAggregator.

Inductive Role := DEFAULT_ADMIN_ROLE | ORACLE_ADMIN | PRICE_UPDATER.

Definition Role_eqb (a b : Role) : bool :=
  match a, b with
  | DEFAULT_ADMIN_ROLE, DEFAULT_ADMIN_ROLE => true
  | ORACLE_ADMIN, ORACLE_ADMIN => true
  | PRICE_UPDATER, PRICE_UPDATER => true
  | _, _ => false
  end.

Module PriceData.
Record t := mk {
  rate : uint256;
  timestamp : uint256;
  confidence : uint256;
  isActive : bool
}.
Definition zero : t := mk 0 0 0 false.
End PriceData.

Module OracleSource.
Record t := mk {
  oracle : address;
  name : string;
  weight : uint256;
  isActive : bool;
  lastUpdate : uint256;
  totalUpdates : uint256
}.
Definition zero : t := mk 0 "" 0 false 0 0.
Definition set_weight (w : uint256) (o : t) : t :=
  mk (oracle o) (name o) w (isActive o) (lastUpdate o) (totalUpdates o).
Definition set_isActive (b : bool) (o : t) : t :=
  mk (oracle o) (name o) (weight o) b (lastUpdate o) (totalUpdates o).
Definition set_lastUpdate (u : uint256) (o : t) : t :=
  mk (oracle o) (name o) (weight o) (isActive o) u (totalUpdates o).
Definition set_totalUpdates (u : uint256) (o : t) : t :=
  mk (oracle o) (name o) (weight o) (isActive o) (lastUpdate o) u.
End OracleSource.

Module CurrencyPair.
Record t := mk {
  base : string;
  quote : string;
  pairId : bytes32;
  isActive : bool;
  currentRate : uint256;
  lastUpdate : uint256;
  rateHistory : list uint256;
  timestamps : list uint256;
  twapPeriod : uint256;
  maxDeviation : uint256;
  circuitBreakerTripped : bool
}.
Definition zero : t := mk "" "" 0 false 0 0 [] [] 0 0 false.
Definition set_currentRate (r : uint256) (p : t) : t :=
  mk (base p) (quote p) (pairId p) (isActive p) r (lastUpdate p)
     (rateHistory p) (timestamps p) (twapPeriod p) (maxDeviation p)
     (circuitBreakerTripped p).
Definition set_lastUpdate (u : uint256) (p : t) : t :=
  mk (base p) (quote p) (pairId p) (isActive p) (currentRate p) u
     (rateHistory p) (timestamps p) (twapPeriod p) (maxDeviation p)
     (circuitBreakerTripped p).
Definition set_history (rh ts : list uint256) (p : t) : t :=
  mk (base p) (quote p) (pairId p) (isActive p) (currentRate p) (lastUpdate p)
     rh ts (twapPeriod p) (maxDeviation p) (circuitBreakerTripped p).
Definition set_twapPeriod (u : uint256) (p : t) : t :=
  mk (base p) (quote p) (pairId p) (isActive p) (currentRate p) (lastUpdate p)
     (rateHistory p) (timestamps p) u (maxDeviation p)
     (circuitBreakerTripped p).
Definition set_maxDeviation (u : uint256) (p : t) : t :=
  mk (base p) (quote p) (pairId p) (isActive p) (currentRate p) (lastUpdate p)
     (rateHistory p) (timestamps p) (twapPeriod p) u
     (circuitBreakerTripped p).
Definition set_circuitBreakerTripped (b : bool) (p : t) : t :=
  mk (base p) (quote p) (pairId p) (isActive p) (currentRate p) (lastUpdate p)
     (rateHistory p) (timestamps p) (twapPeriod p) (maxDeviation p) b.
End CurrencyPair.

Module RateResponse.
Record t := mk {
  spotRate : uint256;
  twapRate : uint256;
  confidence : uint256;
  timestamp : uint256;
  isStale : bool;
  circuitBreakerActive : bool
}.
End RateResponse.

(** Contract storage.  [roles] is the role table of AccessControl. *)
Record State := mkState {
  roles : Role -> address -> bool;
  pairs : bytes32 -> CurrencyPair.t;
  oraclePrices : bytes32 -> address -> PriceData.t;
  oracleSources : address -> OracleSource.t;
  activePairs : list bytes32;
  activeOracles : list address;
  stalenessThreshold : uint256;
  defaultTwapPeriod : uint256;
  defaultMaxDeviation : uint256;
  minOracleCount : uint256;
  totalPriceUpdates : uint256;
  totalQueries : uint256;
  circuitBreakerTriggers : uint256
}.

Definition set_roles (r : Role -> address -> bool) (s : State) : State :=
  mkState r (pairs s) (oraclePrices s) (oracleSources s) (activePairs s)
    (activeOracles s) (stalenessThreshold s) (defaultTwapPeriod s)
    (defaultMaxDeviation s) (minOracleCount s) (totalPriceUpdates s)
    (totalQueries s) (circuitBreakerTriggers s).

Definition set_pair (id : bytes32) (p : CurrencyPair.t) (s : State) : State :=
  mkState (roles s) (upd (pairs s) id p) (oraclePrices s) (oracleSources s)
    (activePairs s) (activeOracles s) (stalenessThreshold s)
    (defaultTwapPeriod s) (defaultMaxDeviation s) (minOracleCount s)
    (totalPriceUpdates s) (totalQueries s) (circuitBreakerTriggers s).

Definition set_oraclePrice (id : bytes32) (o : address) (d : PriceData.t)
  (s : State) : State :=
  mkState (roles s) (pairs s)
    (upd (oraclePrices s) id (upd (oraclePrices s id) o d))
    (oracleSources s) (activePairs s) (activeOracles s)
    (stalenessThreshold s) (defaultTwapPeriod s) (defaultMaxDeviation s)
    (minOracleCount s) (totalPriceUpdates s) (totalQueries s)
    (circuitBreakerTriggers s).

Definition set_oracleSource (o : address) (src : OracleSource.t)
  (s : State) : State :=
  mkState (roles s) (pairs s) (oraclePrices s) (upd (oracleSources s) o src)
    (activePairs s) (activeOracles s) (stalenessThreshold s)
    (defaultTwapPeriod s) (defaultMaxDeviation s) (minOracleCount s)
    (totalPriceUpdates s) (totalQueries s) (circuitBreakerTriggers s).

Definition push_activePair (id : bytes32) (s : State) : State :=
  mkState (roles s) (pairs s) (oraclePrices s) (oracleSources s)
    (activePairs s ++ [id]) (activeOracles s) (stalenessThreshold s)
    (defaultTwapPeriod s) (defaultMaxDeviation s) (minOracleCount s)
    (totalPriceUpdates s) (totalQueries s) (circuitBreakerTriggers s).

Definition push_activeOracle (o : address) (s : State) : State :=
  mkState (roles s) (pairs s) (oraclePrices s) (oracleSources s)
    (activePairs s) (activeOracles s ++ [o]) (stalenessThreshold s)
    (defaultTwapPeriod s) (defaultMaxDeviation s) (minOracleCount s)
    (totalPriceUpdates s) (totalQueries s) (circuitBreakerTriggers s).

Definition set_stalenessThreshold (v : uint256) (s : State) : State :=
  mkState (roles s) (pairs s) (oraclePrices s) (oracleSources s)
    (activePairs s) (activeOracles s) v (defaultTwapPeriod s)
    (defaultMaxDeviation s) (minOracleCount s) (totalPriceUpdates s)
    (totalQueries s) (circuitBreakerTriggers s).

Definition set_minOracleCount (v : uint256) (s : State) : State :=
  mkState (roles s) (pairs s) (oraclePrices s) (oracleSources s)
    (activePairs s) (activeOracles s) (stalenessThreshold s)
    (defaultTwapPeriod s) (defaultMaxDeviation s) v (totalPriceUpdates s)
    (totalQueries s) (circuitBreakerTriggers s).

Definition set_totalPriceUpdates (v : uint256) (s : State) : State :=
  mkState (roles s) (pairs s) (oraclePrices s) (oracleSources s)
    (activePairs s) (activeOracles s) (stalenessThreshold s)
    (defaultTwapPeriod s) (defaultMaxDeviation s) (minOracleCount s) v
    (totalQueries s) (circuitBreakerTriggers s).

Definition set_circuitBreakerTriggers (v : uint256) (s : State) : State :=
  mkState (roles s) (pairs s) (oraclePrices s) (oracleSources s)
    (activePairs s) (activeOracles s) (stalenessThreshold s)
    (defaultTwapPeriod s) (defaultMaxDeviation s) (minOracleCount s)
    (totalPriceUpdates s) (totalQueries s) v.

(** [onlyRole(role)] of AccessControl. *)
Definition onlyRole (role : Role) (sender : address) (s : State) : Result unit :=
  require (roles s role sender) "AccessControlUnauthorizedAccount".

Definition grant (role : Role) (a : address) (s : State) : State :=
  set_roles (fun r x => if Role_eqb r role && (x =? a) then true
                        else roles s r x) s.

Definition revoke (role : Role) (a : address) (s : State) : State :=
  set_roles (fun r x => if Role_eqb r role && (x =? a) then false
                        else roles s r x) s.

(** *** Deviation, aggregation, history *)

Definition _calculateDeviation (oldRate newRate : uint256) : Result uint256 :=
  if oldRate =? 0 then Ok 0
  else
    diff <- (if newRate <? oldRate then sub oldRate newRate
             else sub newRate oldRate) ;;
    scaled <- mul diff 10000 ;;
    div scaled oldRate.

(** The loop of [_calculateAggregatedRate] over [activeOracles], carrying
    [(weightedSum, totalWeight, validOracles)]. *)
Fixpoint aggregateLoop (s : State) (now : uint256) (pairId : bytes32)
  (oracles : list address) (acc : uint256 * uint256 * uint256)
  : Result (uint256 * uint256 * uint256) :=
  match oracles with
  | [] => Ok acc
  | oracle :: rest =>
      let '(weightedSum, totalWeight, validOracles) := acc in
      if negb (OracleSource.isActive (oracleSources s oracle))
      then aggregateLoop s now pairId rest acc
      else
        let price := oraclePrices s pairId oracle in
        if negb (PriceData.isActive price)
        then aggregateLoop s now pairId rest acc
        else
          age <- sub now (PriceData.timestamp price) ;;
          if stalenessThreshold s <? age
          then aggregateLoop s now pairId rest acc
          else
            let weight := OracleSource.weight (oracleSources s oracle) in
            term <- mul (PriceData.rate price) weight ;;
            weightedSum' <- add weightedSum term ;;
            totalWeight' <- add totalWeight weight ;;
            validOracles' <- add validOracles 1 ;;
            aggregateLoop s now pairId rest
              (weightedSum', totalWeight', validOracles')
  end.

Definition _calculateAggregatedRate (pairId : bytes32) (now : uint256)
  (s : State) : Result uint256 :=
  acc <- aggregateLoop s now pairId (activeOracles s) (0, 0, 0) ;;
  let '(weightedSum, totalWeight, validOracles) := acc in
  if (totalWeight =? 0) || (validOracles <? minOracleCount s)
  then Ok (CurrencyPair.currentRate (pairs s pairId))
  else div weightedSum totalWeight.

(** The [while] loop of [_trimHistory]: the number of leading timestamps
    older than [cutoff]. *)
Fixpoint firstWithin (cutoff : uint256) (ts : list uint256) : nat :=
  match ts with
  | [] => O
  | t :: ts' => if t <? cutoff then S (firstWithin cutoff ts') else O
  end.

(** [for (j = 0; j < newLength; j++)] shifting both arrays by [i]. *)
Fixpoint shiftLoop (count j i : nat) (rh ts : list uint256)
  : Result (list uint256 * list uint256) :=
  match count with
  | O => Ok (rh, ts)
  | S count' =>
      r <- index rh (j + i) ;;
      rh' <- store rh j r ;;
      t <- index ts (j + i) ;;
      ts' <- store ts j t ;;
      shiftLoop count' (S j) i rh' ts'
  end.

(** [for (j = 0; j < i; j++)] popping both arrays. *)
Fixpoint popLoop (count : nat) (rh ts : list uint256)
  : Result (list uint256 * list uint256) :=
  match count with
  | O => Ok (rh, ts)
  | S count' =>
      rh' <- pop rh ;;
      ts' <- pop ts ;;
      popLoop count' rh' ts'
  end.

Definition _trimHistory (now : uint256) (pair : CurrencyPair.t)
  : Result CurrencyPair.t :=
  cutoff <- sub now (CurrencyPair.twapPeriod pair) ;;
  let i := firstWithin cutoff (CurrencyPair.timestamps pair) in
  let len := List.length (CurrencyPair.rateHistory pair) in
  if (0 <? i)%nat && (100 <? len)%nat then
    require (i <=? len)%nat "Panic(0x11)" ;;
    shifted <- shiftLoop (len - i) 0 i (CurrencyPair.rateHistory pair)
                 (CurrencyPair.timestamps pair) ;;
    popped <- popLoop i (fst shifted) (snd shifted) ;;
    Ok (CurrencyPair.set_history (fst popped) (snd popped) pair)
  else Ok pair.

(** *** Price updates *)

Definition updatePrice (sender : address) (now : uint256) (pairId : bytes32)
  (rate confidence : uint256) (s : State) : Result State :=
  onlyRole PRICE_UPDATER sender s ;;
  require (CurrencyPair.isActive (pairs s pairId)) "Pair not active" ;;
  require (0 <? rate) "Invalid rate" ;;
  require (confidence <=? 100) "Invalid confidence" ;;
  let pair := pairs s pairId in
  (* Circuit breaker check *)
  tripping <- (if 0 <? CurrencyPair.currentRate pair then
                 deviation <- _calculateDeviation
                                (CurrencyPair.currentRate pair) rate ;;
                 Ok (CurrencyPair.maxDeviation pair <? deviation)
               else Ok false) ;;
  if tripping then
    triggers <- add (circuitBreakerTriggers s) 1 ;;
    Ok (set_circuitBreakerTriggers triggers
          (set_pair pairId
             (CurrencyPair.set_circuitBreakerTripped true pair) s))
  else
    (* Update oracle-specific price *)
    let s1 := set_oraclePrice pairId sender
                (PriceData.mk rate now confidence true) s in
    updates <- add (OracleSource.totalUpdates (oracleSources s1 sender)) 1 ;;
    let s2 := set_oracleSource sender
                (OracleSource.set_totalUpdates updates
                   (OracleSource.set_lastUpdate now (oracleSources s1 sender)))
                s1 in
    (* Calculate aggregated rate *)
    aggregatedRate <- _calculateAggregatedRate pairId now s2 ;;
    (* Update pair data, add to history for TWAP *)
    let pair1 := CurrencyPair.set_lastUpdate now
                   (CurrencyPair.set_currentRate aggregatedRate
                      (pairs s2 pairId)) in
    let pair2 := CurrencyPair.set_history
                   (CurrencyPair.rateHistory pair1 ++ [aggregatedRate])
                   (CurrencyPair.timestamps pair1 ++ [now]) pair1 in
    pair3 <- _trimHistory now pair2 ;;
    total <- add (totalPriceUpdates s2) 1 ;;
    Ok (set_totalPriceUpdates total (set_pair pairId pair3 s2)).

(** The loop body of [batchUpdatePrices] for one index. *)
Definition batchEntry (sender : address) (now : uint256)
  (entry : bytes32 * uint256 * uint256) (s : State) : State :=
  let '(pairId, rate, confidence) := entry in
  if CurrencyPair.isActive (pairs s pairId) && (0 <? rate) then
    let s1 := set_oraclePrice pairId sender
                (PriceData.mk rate now confidence true) s in
    set_pair pairId
      (CurrencyPair.set_lastUpdate now
         (CurrencyPair.set_currentRate rate (pairs s1 pairId))) s1
  else s.

Fixpoint batchLoop (sender : address) (now : uint256)
  (entries : list (bytes32 * uint256 * uint256)) (s : State) : State :=
  match entries with
  | [] => s
  | e :: rest => batchLoop sender now rest (batchEntry sender now e s)
  end.

Definition batchUpdatePrices (sender : address) (now : uint256)
  (pairIds : list bytes32) (rates confidences : list uint256) (s : State)
  : Result State :=
  onlyRole PRICE_UPDATER sender s ;;
  require (List.length pairIds =? List.length rates)%nat "Length mismatch" ;;
  require (List.length pairIds =? List.length confidences)%nat "Length mismatch" ;;
  let s1 := batchLoop sender now
              (combine (combine pairIds rates) confidences) s in
  total <- add (totalPriceUpdates s1) (Z.of_nat (List.length pairIds)) ;;
  Ok (set_totalPriceUpdates total s1).

(** *** Rate queries (view functions) *)

(** The loop of [_calculateTWAP] from index [i], carrying
    [(weightedSum, totalTime)]. *)
Fixpoint twapLoop (count i : nat) (now cutoff : uint256)
  (rh ts : list uint256) (acc : uint256 * uint256)
  : Result (uint256 * uint256) :=
  match count with
  | O => Ok acc
  | S count' =>
      t <- index ts i ;;
      if t <? cutoff then twapLoop count' (S i) now cutoff rh ts acc
      else
        timeDelta <- (if (i =? List.length rh - 1)%nat then sub now t
                      else (t' <- index ts (i + 1) ;; sub t' t)) ;;
        r <- index rh i ;;
        term <- mul r timeDelta ;;
        weightedSum' <- add (fst acc) term ;;
        totalTime' <- add (snd acc) timeDelta ;;
        twapLoop count' (S i) now cutoff rh ts (weightedSum', totalTime')
  end.

Definition _calculateTWAP (now : uint256) (pair : CurrencyPair.t)
  : Result uint256 :=
  match CurrencyPair.rateHistory pair with
  | [] => Ok (CurrencyPair.currentRate pair)
  | [r] => Ok r
  | rh =>
      cutoff <- sub now (CurrencyPair.twapPeriod pair) ;;
      acc <- twapLoop (List.length rh) 0 now cutoff rh
               (CurrencyPair.timestamps pair) (0, 0) ;;
      if snd acc =? 0 then Ok (CurrencyPair.currentRate pair)
      else div (fst acc) (snd acc)
  end.

(** The loop of [_calculateConfidence], carrying
    [(validOracles, totalConfidence)]. *)
Fixpoint confidenceLoop (s : State) (now : uint256) (pairId : bytes32)
  (oracles : list address) (acc : uint256 * uint256)
  : Result (uint256 * uint256) :=
  match oracles with
  | [] => Ok acc
  | oracle :: rest =>
      let price := oraclePrices s pairId oracle in
      if PriceData.isActive price then
        age <- sub now (PriceData.timestamp price) ;;
        if age <=? stalenessThreshold s then
          validOracles' <- add (fst acc) 1 ;;
          totalConfidence' <- add (snd acc) (PriceData.confidence price) ;;
          confidenceLoop s now pairId rest (validOracles', totalConfidence')
        else confidenceLoop s now pairId rest acc
      else confidenceLoop s now pairId rest acc
  end.

Definition _calculateConfidence (pairId : bytes32) (now : uint256)
  (s : State) : Result uint256 :=
  acc <- confidenceLoop s now pairId (activeOracles s) (0, 0) ;;
  if fst acc =? 0 then Ok 0 else div (snd acc) (fst acc).

Definition _getRate (pairId : bytes32) (now : uint256) (s : State)
  : Result RateResponse.t :=
  let pair := pairs s pairId in
  age <- sub now (CurrencyPair.lastUpdate pair) ;;
  let isStale := stalenessThreshold s <? age in
  twapRate <- _calculateTWAP now pair ;;
  confidence <- _calculateConfidence pairId now s ;;
  Ok (RateResponse.mk (CurrencyPair.currentRate pair) twapRate confidence
        (CurrencyPair.lastUpdate pair) isStale
        (CurrencyPair.circuitBreakerTripped pair)).

Definition getRate := _getRate.

Definition convert (pairId : bytes32) (amount : uint256) (inverse : bool)
  (s : State) : Result (uint256 * uint256) :=
  let pair := pairs s pairId in
  require (CurrencyPair.isActive pair) "Pair not active" ;;
  require (negb (CurrencyPair.circuitBreakerTripped pair))
    "Circuit breaker active" ;;
  let rateUsed := CurrencyPair.currentRate pair in
  convertedAmount <-
    (if inverse then (scaled <- mul amount (10 ^ 18) ;; div scaled rateUsed)
     else (scaled <- mul amount rateUsed ;; div scaled (10 ^ 18))) ;;
  Ok (convertedAmount, rateUsed).

(** *** Oracle management, circuit breaker, settings *)

Definition addOracle (sender : address) (oracle : address) (name : string)
  (weight : uint256) (s : State) : Result State :=
  onlyRole ORACLE_ADMIN sender s ;;
  require (negb (oracle =? 0)) "Invalid oracle" ;;
  require (negb (OracleSource.isActive (oracleSources s oracle)))
    "Oracle exists" ;;
  Ok (push_activeOracle oracle
        (set_oracleSource oracle
           (OracleSource.mk oracle name weight true 0 0) s)).

Definition updateOracleWeight (sender : address) (oracle : address)
  (weight : uint256) (s : State) : Result State :=
  onlyRole ORACLE_ADMIN sender s ;;
  require (OracleSource.isActive (oracleSources s oracle)) "Oracle not found" ;;
  Ok (set_oracleSource oracle
        (OracleSource.set_weight weight (oracleSources s oracle)) s).

Definition deactivateOracle (sender : address) (oracle : address)
  (s : State) : Result State :=
  onlyRole ORACLE_ADMIN sender s ;;
  Ok (set_oracleSource oracle
        (OracleSource.set_isActive false (oracleSources s oracle)) s).

Definition resetCircuitBreaker (sender : address) (pairId : bytes32)
  (s : State) : Result State :=
  onlyRole ORACLE_ADMIN sender s ;;
  Ok (set_pair pairId
        (CurrencyPair.set_circuitBreakerTripped false (pairs s pairId)) s).

Definition setMaxDeviation (sender : address) (pairId : bytes32)
  (maxDeviation : uint256) (s : State) : Result State :=
  onlyRole ORACLE_ADMIN sender s ;;
  Ok (set_pair pairId
        (CurrencyPair.set_maxDeviation maxDeviation (pairs s pairId)) s).

Definition setStalenessThreshold (sender : address) (threshold : uint256)
  (s : State) : Result State :=
  onlyRole ORACLE_ADMIN sender s ;;
  Ok (set_stalenessThreshold threshold s).

Definition setMinOracleCount (sender : address) (count : uint256)
  (s : State) : Result State :=
  onlyRole ORACLE_ADMIN sender s ;;
  Ok (set_minOracleCount count s).

Definition setTwapPeriod (sender : address) (pairId : bytes32)
  (period : uint256) (s : State) : Result State :=
  onlyRole ORACLE_ADMIN sender s ;;
  Ok (set_pair pairId
        (CurrencyPair.set_twapPeriod period (pairs s pairId)) s).

(** Role administration inherited from AccessControl: every role is
    administered by [DEFAULT_ADMIN_ROLE]; an account may renounce its own
    role. *)
Definition grantRole (sender : address) (role : Role) (account : address)
  (s : State) : Result State :=
  onlyRole DEFAULT_ADMIN_ROLE sender s ;;
  Ok (grant role account s).

Definition revokeRole (sender : address) (role : Role) (account : address)
  (s : State) : Result State :=
  onlyRole DEFAULT_ADMIN_ROLE sender s ;;
  Ok (revoke role account s).

Definition renounceRole (sender : address) (role : Role) (s : State)
  : Result State :=
  Ok (revoke role sender s).

(** *** Pair management and the call interface

    [keccak256] is kept abstract; the pair id of [base] and [quote] is the
    hash of [abi.encodePacked(base, "/", quote)], the concatenation. *)

Section Hashing.

Variable keccak256 : string -> bytes32.

Definition pairIdOf (base quote : string) : bytes32 :=
  keccak256 (base ++ "/" ++ quote)%string.

Definition _addPair (base quote : string) (s : State) : Result State :=
  let pairId := pairIdOf base quote in
  require (negb (CurrencyPair.isActive (pairs s pairId))) "Pair exists" ;;
  let pair := pairs s pairId in
  let pair' :=
    CurrencyPair.mk base quote pairId true
      (CurrencyPair.currentRate pair) (CurrencyPair.lastUpdate pair)
      (CurrencyPair.rateHistory pair) (CurrencyPair.timestamps pair)
      (defaultTwapPeriod s) (defaultMaxDeviation s)
      (CurrencyPair.circuitBreakerTripped pair) in
  Ok (push_activePair pairId (set_pair pairId pair' s)).

Definition addPair (sender : address) (base quote : string) (s : State)
  : Result State :=
  onlyRole ORACLE_ADMIN sender s ;;
  _addPair base quote s.

Definition getRateBySymbols (base quote : string) (now : uint256)
  (s : State) : Result RateResponse.t :=
  _getRate (pairIdOf base quote) now s.

(** Storage before the constructor body runs: everything zero but the
    initialised settings. *)
Definition emptyState : State :=
  mkState (fun _ _ => false) (fun _ => CurrencyPair.zero)
    (fun _ _ => PriceData.zero) (fun _ => OracleSource.zero) [] []
    3600 900 500 2 0 0 0.

Definition constructor (sender : address) : Result State :=
  let s0 := grant PRICE_UPDATER sender
              (grant ORACLE_ADMIN sender
                 (grant DEFAULT_ADMIN_ROLE sender emptyState)) in
  s1 <- _addPair "USD" "EUR" s0 ;;
  s2 <- _addPair "USD" "GBP" s1 ;;
  s3 <- _addPair "USD" "JPY" s2 ;;
  s4 <- _addPair "EUR" "GBP" s3 ;;
  s5 <- _addPair "USD" "USDC" s4 ;;
  s6 <- _addPair "USD" "USDT" s5 ;;
  _addPair "ETH" "USD" s6.

(** The external interface.  View functions are calls that return the
    state they were made in. *)
Inductive Call :=
| AddPair (base quote : string)
| AddOracle (oracle : address) (name : string) (weight : uint256)
| UpdateOracleWeight (oracle : address) (weight : uint256)
| DeactivateOracle (oracle : address)
| UpdatePrice (pairId : bytes32) (rate confidence : uint256)
| BatchUpdatePrices (pairIds : list bytes32) (rates confidences : list uint256)
| GetRate (pairId : bytes32)
| GetRateBySymbols (base quote : string)
| Convert (pairId : bytes32) (amount : uint256) (inverse : bool)
| ResetCircuitBreaker (pairId : bytes32)
| SetMaxDeviation (pairId : bytes32) (maxDeviation : uint256)
| SetStalenessThreshold (threshold : uint256)
| SetMinOracleCount (count : uint256)
| SetTwapPeriod (pairId : bytes32) (period : uint256)
| GrantRole (role : Role) (account : address)
| RevokeRole (role : Role) (account : address)
| RenounceRole (role : Role).

Definition view {A : Type} (q : Result A) (s : State) : Result State :=
  _ <- q ;; Ok s.

Definition step (sender : address) (now : uint256) (c : Call) (s : State)
  : Result State :=
  match c with
  | AddPair base quote => addPair sender base quote s
  | AddOracle oracle name weight => addOracle sender oracle name weight s
  | UpdateOracleWeight oracle weight => updateOracleWeight sender oracle weight s
  | DeactivateOracle oracle => deactivateOracle sender oracle s
  | UpdatePrice pairId rate confidence =>
      updatePrice sender now pairId rate confidence s
  | BatchUpdatePrices pairIds rates confidences =>
      batchUpdatePrices sender now pairIds rates confidences s
  | GetRate pairId => view (getRate pairId now s) s
  | GetRateBySymbols base quote => view (getRateBySymbols base quote now s) s
  | Convert pairId amount inverse => view (convert pairId amount inverse s) s
  | ResetCircuitBreaker pairId => resetCircuitBreaker sender pairId s
  | SetMaxDeviation pairId maxDeviation =>
      setMaxDeviation sender pairId maxDeviation s
  | SetStalenessThreshold threshold => setStalenessThreshold sender threshold s
  | SetMinOracleCount count => setMinOracleCount sender count s
  | SetTwapPeriod pairId period => setTwapPeriod sender pairId period s
  | GrantRole role account => grantRole sender role account s
  | RevokeRole role account => revokeRole sender role account s
  | RenounceRole role => renounceRole sender role s
  end.

(** A transaction: who calls, when, and what. *)
Definition Tx : Type := address * uint256 * Call.

Fixpoint run (txs : list Tx) (s : State) : State :=
  match txs with
  | [] => s
  | (sender, now, c) :: rest => run rest (commit s (step sender now c s))
  end.

End Hashing.

End OracleAggregator.

(* ---------------------------------------------------------------------- *)
(** ** ComplianceEngine                                                    *)
(* ---------------------------------------------------------------------- *)

Module ComplianceEngine.

Inductive Role :=
  DEFAULT_ADMIN_ROLE | COMPLIANCE_OFFICER | KYC_VERIFIER | SANCTIONS_UPDATER.

Definition Role_eqb (a b : Role) : bool :=
  match a, b with
  | DEFAULT_ADMIN_ROLE, DEFAULT_ADMIN_ROLE => true
  | COMPLIANCE_OFFICER, COMPLIANCE_OFFICER => true
  | KYC_VERIFIER, KYC_VERIFIER => true
  | SANCTIONS_UPDATER, SANCTIONS_UPDATER => true
  | _, _ => false
  end.

Inductive ComplianceTier := NONE | BASIC | STANDARD | ENHANCED | INSTITUTIONAL.

(** The enum's underlying value, by which Solidity compares tiers. *)
Definition tierValue (t : ComplianceTier) : Z :=
  match t with
  | NONE => 0
  | BASIC => 1
  | STANDARD => 2
  | ENHANCED => 3
  | INSTITUTIONAL => 4
  end.

Definition Tier_eqb (a b : ComplianceTier) : bool := tierValue a =? tierValue b.

Module EntityProfile.
Record t := mk {
  entity : address;
  tier : ComplianceTier;
  isVerified : bool;
  isSanctioned : bool;
  identityHash : bytes32;
  jurisdiction : string;
  isPEP : bool;
  dailyLimit : uint256;
  monthlyLimit : uint256;
  singleTxLimit : uint256;
  dailyVolume : uint256;
  monthlyVolume : uint256;
  lastDayReset : uint256;
  lastMonthReset : uint256;
  verifiedAt : uint256;
  expiresAt : uint256;
  verifiedBy : address;
  riskScore : Z;
  underReview : bool
}.
Definition zero : t :=
  mk 0 NONE false false 0 "" false 0 0 0 0 0 0 0 0 0 0 0 false.
Definition set_daily (volume reset : uint256) (p : t) : t :=
  mk (entity p) (tier p) (isVerified p) (isSanctioned p) (identityHash p)
     (jurisdiction p) (isPEP p) (dailyLimit p) (monthlyLimit p)
     (singleTxLimit p) volume (monthlyVolume p) reset (lastMonthReset p)
     (verifiedAt p) (expiresAt p) (verifiedBy p) (riskScore p) (underReview p).
Definition set_monthly (volume reset : uint256) (p : t) : t :=
  mk (entity p) (tier p) (isVerified p) (isSanctioned p) (identityHash p)
     (jurisdiction p) (isPEP p) (dailyLimit p) (monthlyLimit p)
     (singleTxLimit p) (dailyVolume p) volume (lastDayReset p) reset
     (verifiedAt p) (expiresAt p) (verifiedBy p) (riskScore p) (underReview p).
Definition set_volumes (daily monthly : uint256) (p : t) : t :=
  mk (entity p) (tier p) (isVerified p) (isSanctioned p) (identityHash p)
     (jurisdiction p) (isPEP p) (dailyLimit p) (monthlyLimit p)
     (singleTxLimit p) daily monthly (lastDayReset p) (lastMonthReset p)
     (verifiedAt p) (expiresAt p) (verifiedBy p) (riskScore p) (underReview p).
Definition set_tier (tr : ComplianceTier) (daily monthly single : uint256)
  (p : t) : t :=
  mk (entity p) tr (isVerified p) (isSanctioned p) (identityHash p)
     (jurisdiction p) (isPEP p) daily monthly single (dailyVolume p)
     (monthlyVolume p) (lastDayReset p) (lastMonthReset p) (verifiedAt p)
     (expiresAt p) (verifiedBy p) (riskScore p) (underReview p).
Definition set_sanction (sanctioned review : bool) (p : t) : t :=
  mk (entity p) (tier p) (isVerified p) sanctioned (identityHash p)
     (jurisdiction p) (isPEP p) (dailyLimit p) (monthlyLimit p)
     (singleTxLimit p) (dailyVolume p) (monthlyVolume p) (lastDayReset p)
     (lastMonthReset p) (verifiedAt p) (expiresAt p) (verifiedBy p)
     (riskScore p) review.
End EntityProfile.

Module TransactionCheck.
Record t := mk {
  passed : bool;
  reason : string;
  requiresTravelRule : bool;
  requiresEnhancedDD : bool;
  timestamp : uint256
}.
End TransactionCheck.

Record State := mkState {
  roles : Role -> address -> bool;
  profiles : address -> EntityProfile.t;
  sanctionsList : bytes32 -> bool;
  restrictedJurisdictions : string -> bool;
  travelRuleThreshold : uint256;
  tierDailyLimits : ComplianceTier -> uint256;
  tierMonthlyLimits : ComplianceTier -> uint256;
  tierSingleTxLimits : ComplianceTier -> uint256;
  totalVerifications : uint256;
  totalChecks : uint256;
  totalRejections : uint256;
  sanctionsListSize : uint256
}.

Definition set_profile (a : address) (p : EntityProfile.t) (s : State)
  : State :=
  mkState (roles s) (upd (profiles s) a p) (sanctionsList s)
    (restrictedJurisdictions s) (travelRuleThreshold s) (tierDailyLimits s)
    (tierMonthlyLimits s) (tierSingleTxLimits s) (totalVerifications s)
    (totalChecks s) (totalRejections s) (sanctionsListSize s).

Definition set_totalVerifications (v : uint256) (s : State) : State :=
  mkState (roles s) (profiles s) (sanctionsList s)
    (restrictedJurisdictions s) (travelRuleThreshold s) (tierDailyLimits s)
    (tierMonthlyLimits s) (tierSingleTxLimits s) v
    (totalChecks s) (totalRejections s) (sanctionsListSize s).

Definition set_totalChecks (v : uint256) (s : State) : State :=
  mkState (roles s) (profiles s) (sanctionsList s)
    (restrictedJurisdictions s) (travelRuleThreshold s) (tierDailyLimits s)
    (tierMonthlyLimits s) (tierSingleTxLimits s) (totalVerifications s)
    v (totalRejections s) (sanctionsListSize s).

Definition set_totalRejections (v : uint256) (s : State) : State :=
  mkState (roles s) (profiles s) (sanctionsList s)
    (restrictedJurisdictions s) (travelRuleThreshold s) (tierDailyLimits s)
    (tierMonthlyLimits s) (tierSingleTxLimits s) (totalVerifications s)
    (totalChecks s) v (sanctionsListSize s).

Definition set_travelRuleThreshold (v : uint256) (s : State) : State :=
  mkState (roles s) (profiles s) (sanctionsList s)
    (restrictedJurisdictions s) v (tierDailyLimits s)
    (tierMonthlyLimits s) (tierSingleTxLimits s) (totalVerifications s)
    (totalChecks s) (totalRejections s) (sanctionsListSize s).

Definition updTier (m : ComplianceTier -> uint256) (t : ComplianceTier)
  (v : uint256) : ComplianceTier -> uint256 :=
  fun t' => if Tier_eqb t' t then v else m t'.

Definition set_tierLimits (t : ComplianceTier) (daily monthly single : uint256)
  (s : State) : State :=
  mkState (roles s) (profiles s) (sanctionsList s)
    (restrictedJurisdictions s) (travelRuleThreshold s)
    (updTier (tierDailyLimits s) t daily)
    (updTier (tierMonthlyLimits s) t monthly)
    (updTier (tierSingleTxLimits s) t single) (totalVerifications s)
    (totalChecks s) (totalRejections s) (sanctionsListSize s).

Definition set_restricted (j : string) (b : bool) (s : State) : State :=
  mkState (roles s) (profiles s) (sanctionsList s)
    (fun j' => if String.eqb j' j then b else restrictedJurisdictions s j')
    (travelRuleThreshold s) (tierDailyLimits s)
    (tierMonthlyLimits s) (tierSingleTxLimits s) (totalVerifications s)
    (totalChecks s) (totalRejections s) (sanctionsListSize s).

Definition onlyRole (role : Role) (sender : address) (s : State) : Result unit :=
  require (roles s role sender) "AccessControlUnauthorizedAccount".

(** Storage as the constructor leaves it for deployer [sender]. *)
Definition constructor (sender : address) : State :=
  let e18 := 10 ^ 18 in
  mkState (fun _ a => a =? sender) (fun _ => EntityProfile.zero)
    (fun _ => false) (fun _ => false) (3000 * e18)
    (fun t => match t with
              | NONE => 1000 * e18
              | BASIC => 10000 * e18
              | STANDARD => 50000 * e18
              | ENHANCED => 500000 * e18
              | INSTITUTIONAL => MAX_UINT256
              end)
    (fun t => match t with
              | NONE => 5000 * e18
              | BASIC => 50000 * e18
              | STANDARD => 250000 * e18
              | ENHANCED => 2500000 * e18
              | INSTITUTIONAL => MAX_UINT256
              end)
    (fun t => match t with
              | NONE => 500 * e18
              | BASIC => 5000 * e18
              | STANDARD => 25000 * e18
              | ENHANCED => 100000 * e18
              | INSTITUTIONAL => MAX_UINT256
              end)
    0 0 0 0.

(** *** KYC verification *)

Definition verifyEntity (sender : address) (now : uint256) (entity : address)
  (tier : ComplianceTier) (identityHash : bytes32) (jurisdiction : string)
  (isPEP : bool) (riskScore : Z) (validityPeriod : uint256) (s : State)
  : Result State :=
  onlyRole KYC_VERIFIER sender s ;;
  require (negb (entity =? 0)) "Invalid entity" ;;
  require (negb (restrictedJurisdictions s jurisdiction))
    "Restricted jurisdiction" ;;
  let profile := profiles s entity in
  expires <- add now validityPeriod ;;
  let profile' :=
    EntityProfile.mk entity tier true (EntityProfile.isSanctioned profile)
      identityHash jurisdiction isPEP
      (tierDailyLimits s tier) (tierMonthlyLimits s tier)
      (tierSingleTxLimits s tier)
      (EntityProfile.dailyVolume profile) (EntityProfile.monthlyVolume profile)
      (EntityProfile.lastDayReset profile)
      (EntityProfile.lastMonthReset profile)
      now expires sender riskScore (EntityProfile.underReview profile) in
  total <- add (totalVerifications s) 1 ;;
  Ok (set_totalVerifications total (set_profile entity profile' s)).

Definition upgradeEntity (sender : address) (entity : address)
  (newTier : ComplianceTier) (s : State) : Result State :=
  onlyRole KYC_VERIFIER sender s ;;
  let profile := profiles s entity in
  require (EntityProfile.isVerified profile) "Not verified" ;;
  require (tierValue (EntityProfile.tier profile) <? tierValue newTier)
    "Must be higher tier" ;;
  Ok (set_profile entity
        (EntityProfile.set_tier newTier (tierDailyLimits s newTier)
           (tierMonthlyLimits s newTier) (tierSingleTxLimits s newTier)
           profile) s).

Definition sanctionEntity (sender : address) (entity : address) (s : State)
  : Result State :=
  onlyRole COMPLIANCE_OFFICER sender s ;;
  Ok (set_profile entity
        (EntityProfile.set_sanction true true (profiles s entity)) s).

Definition clearEntity (sender : address) (entity : address) (s : State)
  : Result State :=
  onlyRole COMPLIANCE_OFFICER sender s ;;
  Ok (set_profile entity
        (EntityProfile.set_sanction false false (profiles s entity)) s).

(** *** Transaction compliance *)

Definition _reject (now : uint256) (reason : string) (s : State)
  : Result (State * TransactionCheck.t) :=
  total <- add (totalRejections s) 1 ;;
  Ok (set_totalRejections total s,
      TransactionCheck.mk false reason false false now).

Definition _resetLimitsIfNeeded (now : uint256) (profile : EntityProfile.t)
  : EntityProfile.t :=
  let currentDay := now / 86400 in
  let currentMonth := now / 2592000 in
  let profile1 :=
    if EntityProfile.lastDayReset profile <? currentDay
    then EntityProfile.set_daily 0 currentDay profile
    else profile in
  if EntityProfile.lastMonthReset profile1 <? currentMonth
  then EntityProfile.set_monthly 0 currentMonth profile1
  else profile1.

(** [senderProfile] and [recipientProfile] are storage references: every
    read below goes to the storage as it is at that point. *)
Definition checkPaymentCompliance (now : uint256) (paymentId : bytes32)
  (sender recipient : address) (amount : uint256)
  (requireSanctionsCheck : bool)
  (requiredSenderTier requiredRecipientTier : ComplianceTier) (s : State)
  : Result (State * TransactionCheck.t) :=
  checks <- add (totalChecks s) 1 ;;
  let s := set_totalChecks checks s in
  let senderProfile := profiles s sender in
  let recipientProfile := profiles s recipient in
  (* Sanctions check *)
  if requireSanctionsCheck && EntityProfile.isSanctioned senderProfile
  then _reject now "Sender is sanctioned" s
  else if requireSanctionsCheck && EntityProfile.isSanctioned recipientProfile
  then _reject now "Recipient is sanctioned" s
  (* Tier verification *)
  else if tierValue (EntityProfile.tier senderProfile)
          <? tierValue requiredSenderTier
  then _reject now "Sender tier insufficient" s
  else if tierValue (EntityProfile.tier recipientProfile)
          <? tierValue requiredRecipientTier
  then _reject now "Recipient tier insufficient" s
  (* Verification expiry *)
  else if EntityProfile.isVerified senderProfile
          && (EntityProfile.expiresAt senderProfile <? now)
  then _reject now "Sender verification expired" s
  else
    (* Limit checks *)
    let s := set_profile sender (_resetLimitsIfNeeded now senderProfile) s in
    let senderProfile := profiles s sender in
    if EntityProfile.singleTxLimit senderProfile <? amount
    then _reject now "Exceeds single transaction limit" s
    else
      daily <- add (EntityProfile.dailyVolume senderProfile) amount ;;
      if EntityProfile.dailyLimit senderProfile <? daily
      then _reject now "Exceeds daily limit" s
      else
        monthly <- add (EntityProfile.monthlyVolume senderProfile) amount ;;
        if EntityProfile.monthlyLimit senderProfile <? monthly
        then _reject now "Exceeds monthly limit" s
        else
          (* Update volume tracking *)
          let s := set_profile sender
                     (EntityProfile.set_volumes daily monthly senderProfile)
                     s in
          let senderProfile := profiles s sender in
          let recipientProfile := profiles s recipient in
          let requiresTravelRule := travelRuleThreshold s <=? amount in
          let requiresEnhancedDD :=
            (70 <? EntityProfile.riskScore senderProfile)
            || (70 <? EntityProfile.riskScore recipientProfile)
            || EntityProfile.isPEP senderProfile
            || EntityProfile.isPEP recipientProfile in
          Ok (s, TransactionCheck.mk true "Compliance check passed"
                   requiresTravelRule requiresEnhancedDD now).

(** *** View functions *)

Module ProfileView.
Record t := mk {
  tier : ComplianceTier;
  isVerified : bool;
  sanctioned : bool;
  jurisdiction : string;
  riskScore : Z;
  dailyRemaining : uint256;
  monthlyRemaining : uint256
}.
End ProfileView.

Definition getEntityProfile (now : uint256) (entity : address) (s : State)
  : ProfileView.t :=
  let p := profiles s entity in
  let dailyUsed :=
    if EntityProfile.lastDayReset p =? now / 86400
    then EntityProfile.dailyVolume p else 0 in
  let monthlyUsed :=
    if EntityProfile.lastMonthReset p =? now / 2592000
    then EntityProfile.monthlyVolume p else 0 in
  ProfileView.mk (EntityProfile.tier p) (EntityProfile.isVerified p)
    (EntityProfile.isSanctioned p) (EntityProfile.jurisdiction p)
    (EntityProfile.riskScore p)
    (if dailyUsed <? EntityProfile.dailyLimit p
     then EntityProfile.dailyLimit p - dailyUsed else 0)
    (if monthlyUsed <? EntityProfile.monthlyLimit p
     then EntityProfile.monthlyLimit p - monthlyUsed else 0).

(** *** Administration *)

Definition addRestrictedJurisdiction (sender : address) (jurisdiction : string)
  (s : State) : Result State :=
  onlyRole COMPLIANCE_OFFICER sender s ;;
  Ok (set_restricted jurisdiction true s).

Definition removeRestrictedJurisdiction (sender : address)
  (jurisdiction : string) (s : State) : Result State :=
  onlyRole COMPLIANCE_OFFICER sender s ;;
  Ok (set_restricted jurisdiction false s).

Definition setTravelRuleThreshold (sender : address) (threshold : uint256)
  (s : State) : Result State :=
  onlyRole COMPLIANCE_OFFICER sender s ;;
  Ok (set_travelRuleThreshold threshold s).

Definition setTierLimits (sender : address) (tier : ComplianceTier)
  (daily monthly singleTx : uint256) (s : State) : Result State :=
  onlyRole COMPLIANCE_OFFICER sender s ;;
  Ok (set_tierLimits tier daily monthly singleTx s).

End ComplianceEngine.

(* ---------------------------------------------------------------------- *)
(** ** ERC20 tokens                                                        *)
(* ---------------------------------------------------------------------- *)

(** The tokens the contracts move are ERC20 contracts of their own; the
    ledger below holds the balances and allowances of all of them, with
    the transfer rules of the OpenZeppelin ERC20 (version 5) that the
    mock stablecoins inherit.  SafeERC20 turns a failed transfer into a
    revert. *)
Module ERC20.

Record Ledger := mkLedger {
  balanceOf : address -> address -> uint256;
  allowance : address -> address -> address -> uint256
}.

Definition set_balance (token holder : address) (v : uint256) (l : Ledger)
  : Ledger :=
  mkLedger (upd (balanceOf l) token (upd (balanceOf l token) holder v))
    (allowance l).

Definition set_allowance (token owner spender : address) (v : uint256)
  (l : Ledger) : Ledger :=
  mkLedger (balanceOf l)
    (upd (allowance l) token
       (upd (allowance l token) owner
          (upd (allowance l token owner) spender v))).

(** [_transfer(from, to, value)]. *)
Definition _transfer (token from to : address) (value : uint256) (l : Ledger)
  : Result Ledger :=
  require (negb (from =? 0)) "ERC20InvalidSender" ;;
  require (negb (to =? 0)) "ERC20InvalidReceiver" ;;
  require (value <=? balanceOf l token from) "ERC20InsufficientBalance" ;;
  let l1 := set_balance token from (balanceOf l token from - value) l in
  Ok (set_balance token to (balanceOf l1 token to + value) l1).

(** [IERC20(token).safeTransfer(to, value)] called by [self]. *)
Definition safeTransfer (token self to : address) (value : uint256)
  (l : Ledger) : Result Ledger :=
  _transfer token self to value l.

(** [IERC20(token).safeTransferFrom(from, to, value)] called by [self]:
    the allowance of [from] to [self] is spent unless it is infinite. *)
Definition safeTransferFrom (token self from to : address) (value : uint256)
  (l : Ledger) : Result Ledger :=
  let current := allowance l token from self in
  l1 <- (if current <? MAX_UINT256 then
           require (value <=? current) "ERC20InsufficientAllowance" ;;
           Ok (set_allowance token from self (current - value) l)
         else Ok l) ;;
  _transfer token from to value l1.

End ERC20.

(* ---------------------------------------------------------------------- *)
(** ** SmartEscrow                                                         *)
(* ---------------------------------------------------------------------- *)

Module SmartEscrow.

Inductive Role := DEFAULT_ADMIN_ROLE | OPERATOR_ROLE | ARBITER_ROLE.

Definition Role_eqb (a b : Role) : bool :=
  match a, b with
  | DEFAULT_ADMIN_ROLE, DEFAULT_ADMIN_ROLE => true
  | OPERATOR_ROLE, OPERATOR_ROLE => true
  | ARBITER_ROLE, ARBITER_ROLE => true
  | _, _ => false
  end.

Inductive EscrowStatus := ACTIVE | RELEASED | REFUNDED | DISPUTED.

Definition EscrowStatus_eqb (a b : EscrowStatus) : bool :=
  match a, b with
  | ACTIVE, ACTIVE => true
  | RELEASED, RELEASED => true
  | REFUNDED, REFUNDED => true
  | DISPUTED, DISPUTED => true
  | _, _ => false
  end.

Inductive ReleaseCondition := TIME_BASED | APPROVAL | ORACLE | MULTI_SIG.

Module Escrow.
Record t := mk {
  escrowId : bytes32;
  paymentId : bytes32;
  depositor : address;
  beneficiary : address;
  arbiter : address;
  token : address;
  amount : uint256;
  fee : uint256;
  status : EscrowStatus;
  conditionType : ReleaseCondition;
  releaseTime : uint256;
  disputeDeadline : uint256;
  depositorApproved : bool;
  beneficiaryApproved : bool;
  requiredSignatures : uint256;
  signatureCount : uint256;
  hasSigned : address -> bool;
  oracleConditionId : bytes32;
  oracleConditionMet : bool;
  createdAt : uint256;
  description : string
}.
Definition zero : t :=
  mk 0 0 0 0 0 0 0 0 ACTIVE TIME_BASED 0 0 false false 0 0 (fun _ => false)
     0 false 0 "".
Definition set_status (st : EscrowStatus) (e : t) : t :=
  mk (escrowId e) (paymentId e) (depositor e) (beneficiary e) (arbiter e)
     (token e) (amount e) (fee e) st (conditionType e) (releaseTime e)
     (disputeDeadline e) (depositorApproved e) (beneficiaryApproved e)
     (requiredSignatures e) (signatureCount e) (hasSigned e)
     (oracleConditionId e) (oracleConditionMet e) (createdAt e)
     (description e).
Definition set_depositorApproved (b : bool) (e : t) : t :=
  mk (escrowId e) (paymentId e) (depositor e) (beneficiary e) (arbiter e)
     (token e) (amount e) (fee e) (status e) (conditionType e) (releaseTime e)
     (disputeDeadline e) b (beneficiaryApproved e)
     (requiredSignatures e) (signatureCount e) (hasSigned e)
     (oracleConditionId e) (oracleConditionMet e) (createdAt e)
     (description e).
Definition set_beneficiaryApproved (b : bool) (e : t) : t :=
  mk (escrowId e) (paymentId e) (depositor e) (beneficiary e) (arbiter e)
     (token e) (amount e) (fee e) (status e) (conditionType e) (releaseTime e)
     (disputeDeadline e) (depositorApproved e) b
     (requiredSignatures e) (signatureCount e) (hasSigned e)
     (oracleConditionId e) (oracleConditionMet e) (createdAt e)
     (description e).
Definition set_oracleConditionMet (b : bool) (e : t) : t :=
  mk (escrowId e) (paymentId e) (depositor e) (beneficiary e) (arbiter e)
     (token e) (amount e) (fee e) (status e) (conditionType e) (releaseTime e)
     (disputeDeadline e) (depositorApproved e) (beneficiaryApproved e)
     (requiredSignatures e) (signatureCount e) (hasSigned e)
     (oracleConditionId e) b (createdAt e) (description e).
End Escrow.

Module EscrowView.
Record t := mk {
  escrowId : bytes32;
  paymentId : bytes32;
  depositor : address;
  beneficiary : address;
  token : address;
  amount : uint256;
  status : EscrowStatus;
  conditionType : ReleaseCondition;
  releaseTime : uint256;
  depositorApproved : bool;
  beneficiaryApproved : bool;
  createdAt : uint256
}.
End EscrowView.

(** Contract storage, with the contract's own address [this]. *)
Record State := mkState {
  this : address;
  roles : Role -> address -> bool;
  escrows : bytes32 -> Escrow.t;
  escrowIds : list bytes32;
  userEscrowsAsDepositor : address -> list bytes32;
  userEscrowsAsBeneficiary : address -> list bytes32;
  escrowFeeBps : uint256;
  feeRecipient : address;
  payFlowCore : address;
  totalEscrowsCreated : uint256;
  totalValueLocked : uint256;
  totalReleased : uint256
}.

Definition set_roles (r : Role -> address -> bool) (s : State) : State :=
  mkState (this s) r (escrows s) (escrowIds s) (userEscrowsAsDepositor s)
    (userEscrowsAsBeneficiary s) (escrowFeeBps s) (feeRecipient s)
    (payFlowCore s) (totalEscrowsCreated s) (totalValueLocked s)
    (totalReleased s).

Definition set_escrow (id : bytes32) (e : Escrow.t) (s : State) : State :=
  mkState (this s) (roles s) (upd (escrows s) id e) (escrowIds s)
    (userEscrowsAsDepositor s) (userEscrowsAsBeneficiary s) (escrowFeeBps s)
    (feeRecipient s) (payFlowCore s) (totalEscrowsCreated s)
    (totalValueLocked s) (totalReleased s).

Definition track (id : bytes32) (depositor beneficiary : address)
  (created : uint256) (s : State) : State :=
  let asDepositor :=
    upd (userEscrowsAsDepositor s) depositor
      (userEscrowsAsDepositor s depositor ++ [id]) in
  let asBeneficiary :=
    upd (userEscrowsAsBeneficiary s) beneficiary
      (userEscrowsAsBeneficiary s beneficiary ++ [id]) in
  mkState (this s) (roles s) (escrows s) (escrowIds s ++ [id])
    asDepositor asBeneficiary (escrowFeeBps s) (feeRecipient s)
    (payFlowCore s) created (totalValueLocked s) (totalReleased s).

Definition set_totals (locked released : uint256) (s : State) : State :=
  mkState (this s) (roles s) (escrows s) (escrowIds s)
    (userEscrowsAsDepositor s) (userEscrowsAsBeneficiary s) (escrowFeeBps s)
    (feeRecipient s) (payFlowCore s) (totalEscrowsCreated s) locked released.

Definition set_admin (feeBps : uint256) (recipient core : address) (s : State)
  : State :=
  mkState (this s) (roles s) (escrows s) (escrowIds s)
    (userEscrowsAsDepositor s) (userEscrowsAsBeneficiary s) feeBps recipient
    core (totalEscrowsCreated s) (totalValueLocked s) (totalReleased s).

(** The contract together with the tokens it holds. *)
Record World := mkWorld {
  st : State;
  ledger : ERC20.Ledger
}.

(** A transfer of escrowed funds out of the contract, on behalf of an
    escrow.  The fee sent to [feeRecipient] at creation is taken before the
    escrowed amount is fixed and is not a payout. *)
Record Payout := mkPayout {
  forEscrow : bytes32;
  payee : address;
  paid : uint256
}.

Definition onlyRole (role : Role) (sender : address) (s : State) : Result unit :=
  require (roles s role sender) "AccessControlUnauthorizedAccount".

Definition constructor (self sender : address) : State :=
  mkState self (fun _ a => a =? sender) (fun _ => Escrow.zero) []
    (fun _ => []) (fun _ => []) 5 sender 0 0 0 0.

(** *** Release, dispute, refund *)

Definition _releaseEscrow (escrowId : bytes32) (w : World)
  : Result (World * list Payout) :=
  let s := st w in
  let escrow := Escrow.set_status RELEASED (escrows s escrowId) in
  locked <- sub (totalValueLocked s) (Escrow.amount escrow) ;;
  released <- add (totalReleased s) (Escrow.amount escrow) ;;
  let s' := set_totals locked released (set_escrow escrowId escrow s) in
  l <- ERC20.safeTransfer (Escrow.token escrow) (this s)
         (Escrow.beneficiary escrow) (Escrow.amount escrow) (ledger w) ;;
  Ok (mkWorld s' l,
      [mkPayout escrowId (Escrow.beneficiary escrow) (Escrow.amount escrow)]).

Definition _canRelease (now : uint256) (escrow : Escrow.t) : bool :=
  match Escrow.conditionType escrow with
  | TIME_BASED => Escrow.releaseTime escrow <=? now
  | APPROVAL => Escrow.depositorApproved escrow
  | ORACLE => Escrow.oracleConditionMet escrow
  | MULTI_SIG =>
      Escrow.requiredSignatures escrow <=? Escrow.signatureCount escrow
  end.

Definition approveRelease (sender : address) (escrowId : bytes32) (w : World)
  : Result (World * list Payout) :=
  let s := st w in
  let escrow := escrows s escrowId in
  require (Escrow.escrowId escrow =? escrowId) "Escrow not found" ;;
  require (EscrowStatus_eqb (Escrow.status escrow) ACTIVE) "Not active" ;;
  escrow' <-
    (if sender =? Escrow.depositor escrow then
       require (negb (Escrow.depositorApproved escrow)) "Already approved" ;;
       Ok (Escrow.set_depositorApproved true escrow)
     else if sender =? Escrow.beneficiary escrow then
       require (negb (Escrow.beneficiaryApproved escrow)) "Already approved" ;;
       Ok (Escrow.set_beneficiaryApproved true escrow)
     else Revert "Not a party to this escrow") ;;
  let w' := mkWorld (set_escrow escrowId escrow' s) (ledger w) in
  match Escrow.conditionType escrow' with
  | APPROVAL =>
      if Escrow.depositorApproved escrow' then _releaseEscrow escrowId w'
      else Ok (w', [])
  | _ => Ok (w', [])
  end.

Definition releaseEscrow (now : uint256) (escrowId : bytes32) (w : World)
  : Result (World * list Payout) :=
  let escrow := escrows (st w) escrowId in
  require (Escrow.escrowId escrow =? escrowId) "Escrow not found" ;;
  require (EscrowStatus_eqb (Escrow.status escrow) ACTIVE) "Not active" ;;
  require (_canRelease now escrow) "Conditions not met" ;;
  _releaseEscrow escrowId w.

Definition raiseDispute (sender : address) (now : uint256)
  (escrowId : bytes32) (reason : string) (w : World)
  : Result (World * list Payout) :=
  let escrow := escrows (st w) escrowId in
  require (Escrow.escrowId escrow =? escrowId) "Escrow not found" ;;
  require (EscrowStatus_eqb (Escrow.status escrow) ACTIVE) "Not active" ;;
  require ((sender =? Escrow.depositor escrow)
           || (sender =? Escrow.beneficiary escrow)) "Not a party" ;;
  require (now <=? Escrow.disputeDeadline escrow) "Dispute window closed" ;;
  Ok (mkWorld (set_escrow escrowId (Escrow.set_status DISPUTED escrow) (st w))
        (ledger w), []).

Definition resolveDispute (sender : address) (escrowId : bytes32)
  (recipient : address) (amount : uint256) (w : World)
  : Result (World * list Payout) :=
  let s := st w in
  onlyRole ARBITER_ROLE sender s ;;
  let escrow := escrows s escrowId in
  require (Escrow.escrowId escrow =? escrowId) "Escrow not found" ;;
  require (EscrowStatus_eqb (Escrow.status escrow) DISPUTED) "Not disputed" ;;
  require ((recipient =? Escrow.depositor escrow)
           || (recipient =? Escrow.beneficiary escrow)) "Invalid recipient" ;;
  require (amount <=? Escrow.amount escrow) "Amount too high" ;;
  (* Transfer decided amount to recipient *)
  first <- (if 0 <? amount then
              l <- ERC20.safeTransfer (Escrow.token escrow) (this s)
                     recipient amount (ledger w) ;;
              Ok (l, [mkPayout escrowId recipient amount])
            else Ok (ledger w, [])) ;;
  (* Refund remainder to other party *)
  remainder <- sub (Escrow.amount escrow) amount ;;
  second <- (if 0 <? remainder then
               let other := if recipient =? Escrow.beneficiary escrow
                            then Escrow.depositor escrow
                            else Escrow.beneficiary escrow in
               l <- ERC20.safeTransfer (Escrow.token escrow) (this s)
                      other remainder (fst first) ;;
               Ok (l, [mkPayout escrowId other remainder])
             else Ok (fst first, [])) ;;
  locked <- sub (totalValueLocked s) (Escrow.amount escrow) ;;
  Ok (mkWorld
        (set_totals locked (totalReleased s)
           (set_escrow escrowId (Escrow.set_status RELEASED escrow) s))
        (fst second),
      snd first ++ snd second).

Definition requestRefund (sender : address) (escrowId : bytes32) (w : World)
  : Result (World * list Payout) :=
  let s := st w in
  let escrow := escrows s escrowId in
  require (Escrow.escrowId escrow =? escrowId) "Escrow not found" ;;
  require (sender =? Escrow.depositor escrow) "Not depositor" ;;
  require (EscrowStatus_eqb (Escrow.status escrow) ACTIVE) "Not active" ;;
  (* For approval escrows, beneficiary must agree *)
  require (match Escrow.conditionType escrow with
           | APPROVAL => Escrow.beneficiaryApproved escrow
           | _ => true
           end) "Beneficiary must agree to refund" ;;
  locked <- sub (totalValueLocked s) (Escrow.amount escrow) ;;
  let s' := set_totals locked (totalReleased s)
              (set_escrow escrowId (Escrow.set_status REFUNDED escrow) s) in
  l <- ERC20.safeTransfer (Escrow.token escrow) (this s)
         (Escrow.depositor escrow) (Escrow.amount escrow) (ledger w) ;;
  Ok (mkWorld s' l,
      [mkPayout escrowId (Escrow.depositor escrow) (Escrow.amount escrow)]).

(** *** Views and administration *)

Definition getEscrow (escrowId : bytes32) (s : State) : EscrowView.t :=
  let escrow := escrows s escrowId in
  EscrowView.mk (Escrow.escrowId escrow) (Escrow.paymentId escrow)
    (Escrow.depositor escrow) (Escrow.beneficiary escrow)
    (Escrow.token escrow) (Escrow.amount escrow) (Escrow.status escrow)
    (Escrow.conditionType escrow) (Escrow.releaseTime escrow)
    (Escrow.depositorApproved escrow) (Escrow.beneficiaryApproved escrow)
    (Escrow.createdAt escrow).

Definition setPayFlowCore (sender _core : address) (s : State)
  : Result State :=
  onlyRole DEFAULT_ADMIN_ROLE sender s ;;
  Ok (set_admin (escrowFeeBps s) (feeRecipient s) _core s).

Definition setFeeRecipient (sender _recipient : address) (s : State)
  : Result State :=
  onlyRole DEFAULT_ADMIN_ROLE sender s ;;
  Ok (set_admin (escrowFeeBps s) _recipient (payFlowCore s) s).

Definition setEscrowFee (sender : address) (_feeBps : uint256) (s : State)
  : Result State :=
  onlyRole DEFAULT_ADMIN_ROLE sender s ;;
  require (_feeBps <=? 50) "Max 0.5%" ;;
  Ok (set_admin _feeBps (feeRecipient s) (payFlowCore s) s).

Definition setOracleConditionMet (sender : address) (escrowId : bytes32)
  (s : State) : Result State :=
  onlyRole OPERATOR_ROLE sender s ;;
  let escrow := escrows s escrowId in
  require (match Escrow.conditionType escrow with
           | ORACLE => true
           | _ => false
           end) "Not oracle escrow" ;;
  Ok (set_escrow escrowId (Escrow.set_oracleConditionMet true escrow) s).

Definition grantRole (sender : address) (role : Role) (account : address)
  (s : State) : Result State :=
  onlyRole DEFAULT_ADMIN_ROLE sender s ;;
  Ok (set_roles (fun r x => if Role_eqb r role && (x =? account) then true
                            else roles s r x) s).

Definition revokeRole (sender : address) (role : Role) (account : address)
  (s : State) : Result State :=
  onlyRole DEFAULT_ADMIN_ROLE sender s ;;
  Ok (set_roles (fun r x => if Role_eqb r role && (x =? account) then false
                            else roles s r x) s).

(** *** Creation and the call interface

    [keccak256] is kept abstract; it is applied to the list of the packed
    fields. *)

Section Hashing.

Variable keccak256 : list Z -> bytes32.

Definition escrowIdOf (depositor beneficiary token : address)
  (amount now created : uint256) : bytes32 :=
  keccak256 [depositor; beneficiary; token; amount; now; created].

Definition _createEscrow (sender : address) (now : uint256)
  (paymentId : bytes32) (depositor beneficiary token : address)
  (amount : uint256) (conditionType : ReleaseCondition)
  (releaseTime disputeWindow : uint256) (description : string) (w : World)
  : Result (World * bytes32) :=
  let s := st w in
  let escrowId := escrowIdOf depositor beneficiary token amount now
                    (totalEscrowsCreated s) in
  (* Calculate fee *)
  scaled <- mul amount (escrowFeeBps s) ;;
  fee <- div scaled 10000 ;;
  (* Transfer tokens *)
  l1 <- ERC20.safeTransferFrom token (this s) depositor (this s) amount
          (ledger w) ;;
  (* Store escrow *)
  net <- sub amount fee ;;
  deadline <- add now disputeWindow ;;
  let old := escrows s escrowId in
  let escrow :=
    Escrow.mk escrowId paymentId depositor beneficiary sender token net fee
      ACTIVE conditionType releaseTime deadline
      (Escrow.depositorApproved old) (Escrow.beneficiaryApproved old)
      (Escrow.requiredSignatures old) (Escrow.signatureCount old)
      (Escrow.hasSigned old) (Escrow.oracleConditionId old)
      (Escrow.oracleConditionMet old) now description in
  (* Track *)
  created <- add (totalEscrowsCreated s) 1 ;;
  locked <- add (totalValueLocked s) net ;;
  let s' := set_totals locked (totalReleased s)
              (track escrowId depositor beneficiary created
                 (set_escrow escrowId escrow s)) in
  (* Send fee *)
  l2 <- (if 0 <? fee
         then ERC20.safeTransfer token (this s) (feeRecipient s) fee l1
         else Ok l1) ;;
  Ok (mkWorld s' l2, escrowId).

Definition createTimeBasedEscrow (sender : address) (now : uint256)
  (paymentId : bytes32) (beneficiary token : address) (amount : uint256)
  (releaseTime disputeWindow : uint256) (description : string) (w : World)
  : Result (World * bytes32) :=
  require (negb (beneficiary =? 0)) "Invalid beneficiary" ;;
  require (0 <? amount) "Amount must be positive" ;;
  require (now <? releaseTime) "Release time must be future" ;;
  _createEscrow sender now paymentId sender beneficiary token amount
    TIME_BASED releaseTime disputeWindow description w.

Definition createApprovalEscrow (sender : address) (now : uint256)
  (paymentId : bytes32) (beneficiary token : address) (amount : uint256)
  (disputeDeadline : uint256) (description : string) (w : World)
  : Result (World * bytes32) :=
  require (negb (beneficiary =? 0)) "Invalid beneficiary" ;;
  require (0 <? amount) "Amount must be positive" ;;
  _createEscrow sender now paymentId sender beneficiary token amount
    APPROVAL 0 disputeDeadline description w.

Inductive Call :=
| CreateTimeBasedEscrow (paymentId : bytes32) (beneficiary token : address)
    (amount releaseTime disputeWindow : uint256) (description : string)
| CreateApprovalEscrow (paymentId : bytes32) (beneficiary token : address)
    (amount disputeDeadline : uint256) (description : string)
| ApproveRelease (escrowId : bytes32)
| ReleaseEscrow (escrowId : bytes32)
| RaiseDispute (escrowId : bytes32) (reason : string)
| ResolveDispute (escrowId : bytes32) (recipient : address) (amount : uint256)
| RequestRefund (escrowId : bytes32)
| GetEscrow (escrowId : bytes32)
| SetPayFlowCore (_core : address)
| SetFeeRecipient (_recipient : address)
| SetEscrowFee (_feeBps : uint256)
| SetOracleConditionMet (escrowId : bytes32)
| GrantRole (role : Role) (account : address)
| RevokeRole (role : Role) (account : address)
| TokenActivity (after : ERC20.Ledger).

Definition onState (r : Result State) (w : World)
  : Result (World * list Payout) :=
  s' <- r ;; Ok (mkWorld s' (ledger w), []).

Definition created (r : Result (World * bytes32))
  : Result (World * list Payout) :=
  x <- r ;; Ok (fst x, []).

(** One transaction.  [TokenActivity] stands for whatever other accounts
    do on the token contracts between two calls of this contract. *)
Definition step (sender : address) (now : uint256) (c : Call) (w : World)
  : Result (World * list Payout) :=
  match c with
  | CreateTimeBasedEscrow paymentId beneficiary token amount releaseTime
      disputeWindow description =>
      created (createTimeBasedEscrow sender now paymentId beneficiary token
                 amount releaseTime disputeWindow description w)
  | CreateApprovalEscrow paymentId beneficiary token amount disputeDeadline
      description =>
      created (createApprovalEscrow sender now paymentId beneficiary token
                 amount disputeDeadline description w)
  | ApproveRelease escrowId => approveRelease sender escrowId w
  | ReleaseEscrow escrowId => releaseEscrow now escrowId w
  | RaiseDispute escrowId reason => raiseDispute sender now escrowId reason w
  | ResolveDispute escrowId recipient amount =>
      resolveDispute sender escrowId recipient amount w
  | RequestRefund escrowId => requestRefund sender escrowId w
  | GetEscrow escrowId => Ok (w, [])
  | SetPayFlowCore _core => onState (setPayFlowCore sender _core (st w)) w
  | SetFeeRecipient _recipient =>
      onState (setFeeRecipient sender _recipient (st w)) w
  | SetEscrowFee _feeBps => onState (setEscrowFee sender _feeBps (st w)) w
  | SetOracleConditionMet escrowId =>
      onState (setOracleConditionMet sender escrowId (st w)) w
  | GrantRole role account => onState (grantRole sender role account (st w)) w
  | RevokeRole role account =>
      onState (revokeRole sender role account (st w)) w
  | TokenActivity after => Ok (mkWorld (st w) after, [])
  end.

Definition Tx : Type := address * uint256 * Call.

(** A sequence of transactions: the final world and every payout made. *)
Fixpoint run (txs : list Tx) (w : World) : World * list Payout :=
  match txs with
  | [] => (w, [])
  | (sender, now, c) :: rest =>
      match step sender now c w with
      | Ok (w', ps) => let (w'', ps') := run rest w' in (w'', ps ++ ps')
      | Revert _ => run rest w
      end
  end.

End Hashing.

End SmartEscrow.

(* ---------------------------------------------------------------------- *)
(** ** PayFlowCore                                                         *)
(* ---------------------------------------------------------------------- *)

Module PayFlowCore.

Inductive Role :=
  DEFAULT_ADMIN_ROLE | OPERATOR_ROLE | COMPLIANCE_ROLE | TREASURY_ROLE.

Definition Role_eqb (a b : Role) : bool :=
  match a, b with
  | DEFAULT_ADMIN_ROLE, DEFAULT_ADMIN_ROLE => true
  | OPERATOR_ROLE, OPERATOR_ROLE => true
  | COMPLIANCE_ROLE, COMPLIANCE_ROLE => true
  | TREASURY_ROLE, TREASURY_ROLE => true
  | _, _ => false
  end.

Inductive PaymentStatus :=
  CREATED | PENDING | APPROVED | EXECUTED | FAILED | CANCELLED | DISPUTED.

Definition PaymentStatus_eqb (a b : PaymentStatus) : bool :=
  match a, b with
  | CREATED, CREATED => true
  | PENDING, PENDING => true
  | APPROVED, APPROVED => true
  | EXECUTED, EXECUTED => true
  | FAILED, FAILED => true
  | CANCELLED, CANCELLED => true
  | DISPUTED, DISPUTED => true
  | _, _ => false
  end.

(** The tiers are those of the compliance engine. *)
Definition ComplianceTier := ComplianceEngine.ComplianceTier.

Module PaymentConditions.
Record t := mk {
  requiredSenderTier : ComplianceTier;
  requiredRecipientTier : ComplianceTier;
  requireSanctionsCheck : bool;
  validFrom : uint256;
  validUntil : uint256;
  businessHoursOnly : bool;
  maxSlippage : uint256;
  requiredApprovals : uint256;
  approvers : list address;
  useEscrow : bool;
  escrowReleaseTime : uint256;
  escrowConditionHash : bytes32
}.
Definition zero : t :=
  mk ComplianceEngine.NONE ComplianceEngine.NONE false 0 0 false 0 0 []
     false 0 0.
Definition set_approvers (a : list address) (c : t) : t :=
  mk (requiredSenderTier c) (requiredRecipientTier c)
     (requireSanctionsCheck c) (validFrom c) (validUntil c)
     (businessHoursOnly c) (maxSlippage c) (requiredApprovals c) a
     (useEscrow c) (escrowReleaseTime c) (escrowConditionHash c).
End PaymentConditions.

Module Payment.
Record t := mk {
  paymentId : bytes32;
  sender : address;
  recipient : address;
  token : address;
  amount : uint256;
  targetToken : address;
  targetAmount : uint256;
  status : PaymentStatus;
  createdAt : uint256;
  executedAt : uint256;
  conditions : PaymentConditions.t;
  approvalCount : uint256;
  hasApproved : address -> bool;
  referenceId : bytes32;
  memo : string
}.
Definition zero : t :=
  mk 0 0 0 0 0 0 0 CREATED 0 0 PaymentConditions.zero 0 (fun _ => false) 0 "".
Definition set_status (st : PaymentStatus) (p : t) : t :=
  mk (paymentId p) (sender p) (recipient p) (token p) (amount p)
     (targetToken p) (targetAmount p) st (createdAt p) (executedAt p)
     (conditions p) (approvalCount p) (hasApproved p) (referenceId p) (memo p).
Definition set_executed (at_ : uint256) (p : t) : t :=
  mk (paymentId p) (sender p) (recipient p) (token p) (amount p)
     (targetToken p) (targetAmount p) EXECUTED (createdAt p) at_
     (conditions p) (approvalCount p) (hasApproved p) (referenceId p) (memo p).
Definition set_approval (count : uint256) (approved : address -> bool) (p : t)
  : t :=
  mk (paymentId p) (sender p) (recipient p) (token p) (amount p)
     (targetToken p) (targetAmount p) (status p) (createdAt p) (executedAt p)
     (conditions p) count approved (referenceId p) (memo p).
End Payment.

Module PaymentView.
Record t := mk {
  paymentId : bytes32;
  sender : address;
  recipient : address;
  token : address;
  amount : uint256;
  targetToken : address;
  targetAmount : uint256;
  status : PaymentStatus;
  createdAt : uint256;
  executedAt : uint256;
  approvalCount : uint256;
  requiredApprovals : uint256;
  referenceId : bytes32
}.
End PaymentView.

(** Contract storage, with the contract's own address [this] and the
    [paused] flag of Pausable. *)
Record State := mkState {
  this : address;
  roles : Role -> address -> bool;
  paused : bool;
  payments : bytes32 -> Payment.t;
  paymentIds : list bytes32;
  userPaymentsSent : address -> list bytes32;
  userPaymentsReceived : address -> list bytes32;
  supportedTokens : address -> bool;
  tokenList : list address;
  complianceEngine : address;
  oracleAggregator : address;
  escrowVault : address;
  auditRegistry : address;
  protocolFeeBps : uint256;
  feeRecipient : address;
  maxPaymentAmount : uint256;
  totalPaymentsCreated : uint256;
  totalPaymentsExecuted : uint256;
  totalVolumeProcessed : uint256;
  averageSettlementTime : uint256
}.

Definition set_payment (id : bytes32) (p : Payment.t) (s : State) : State :=
  mkState (this s) (roles s) (paused s) (upd (payments s) id p)
    (paymentIds s) (userPaymentsSent s) (userPaymentsReceived s)
    (supportedTokens s) (tokenList s) (complianceEngine s)
    (oracleAggregator s) (escrowVault s) (auditRegistry s) (protocolFeeBps s)
    (feeRecipient s) (maxPaymentAmount s) (totalPaymentsCreated s)
    (totalPaymentsExecuted s) (totalVolumeProcessed s)
    (averageSettlementTime s).

Definition track (id : bytes32) (sender recipient : address)
  (created : uint256) (s : State) : State :=
  mkState (this s) (roles s) (paused s) (payments s) (paymentIds s ++ [id])
    (upd (userPaymentsSent s) sender (userPaymentsSent s sender ++ [id]))
    (upd (userPaymentsReceived s) recipient
       (userPaymentsReceived s recipient ++ [id]))
    (supportedTokens s) (tokenList s) (complianceEngine s)
    (oracleAggregator s) (escrowVault s) (auditRegistry s) (protocolFeeBps s)
    (feeRecipient s) (maxPaymentAmount s) created
    (totalPaymentsExecuted s) (totalVolumeProcessed s)
    (averageSettlementTime s).

Definition set_statistics (executed volume average : uint256) (s : State)
  : State :=
  mkState (this s) (roles s) (paused s) (payments s) (paymentIds s)
    (userPaymentsSent s) (userPaymentsReceived s) (supportedTokens s)
    (tokenList s) (complianceEngine s) (oracleAggregator s) (escrowVault s)
    (auditRegistry s) (protocolFeeBps s) (feeRecipient s)
    (maxPaymentAmount s) (totalPaymentsCreated s) executed volume average.

Definition set_roles (r : Role -> address -> bool) (s : State) : State :=
  mkState (this s) r (paused s) (payments s) (paymentIds s)
    (userPaymentsSent s) (userPaymentsReceived s) (supportedTokens s)
    (tokenList s) (complianceEngine s) (oracleAggregator s) (escrowVault s)
    (auditRegistry s) (protocolFeeBps s) (feeRecipient s)
    (maxPaymentAmount s) (totalPaymentsCreated s) (totalPaymentsExecuted s)
    (totalVolumeProcessed s) (averageSettlementTime s).

Definition set_paused (b : bool) (s : State) : State :=
  mkState (this s) (roles s) b (payments s) (paymentIds s)
    (userPaymentsSent s) (userPaymentsReceived s) (supportedTokens s)
    (tokenList s) (complianceEngine s) (oracleAggregator s) (escrowVault s)
    (auditRegistry s) (protocolFeeBps s) (feeRecipient s)
    (maxPaymentAmount s) (totalPaymentsCreated s) (totalPaymentsExecuted s)
    (totalVolumeProcessed s) (averageSettlementTime s).

Definition add_token (token : address) (s : State) : State :=
  mkState (this s) (roles s) (paused s) (payments s) (paymentIds s)
    (userPaymentsSent s) (userPaymentsReceived s)
    (upd (supportedTokens s) token true) (tokenList s ++ [token])
    (complianceEngine s) (oracleAggregator s) (escrowVault s)
    (auditRegistry s) (protocolFeeBps s) (feeRecipient s)
    (maxPaymentAmount s) (totalPaymentsCreated s) (totalPaymentsExecuted s)
    (totalVolumeProcessed s) (averageSettlementTime s).

Definition set_modules (compliance oracle escrow audit : address) (s : State)
  : State :=
  mkState (this s) (roles s) (paused s) (payments s) (paymentIds s)
    (userPaymentsSent s) (userPaymentsReceived s) (supportedTokens s)
    (tokenList s) compliance oracle escrow audit (protocolFeeBps s)
    (feeRecipient s) (maxPaymentAmount s) (totalPaymentsCreated s)
    (totalPaymentsExecuted s) (totalVolumeProcessed s)
    (averageSettlementTime s).

Definition set_fee (feeBps : uint256) (recipient : address) (s : State)
  : State :=
  mkState (this s) (roles s) (paused s) (payments s) (paymentIds s)
    (userPaymentsSent s) (userPaymentsReceived s) (supportedTokens s)
    (tokenList s) (complianceEngine s) (oracleAggregator s) (escrowVault s)
    (auditRegistry s) feeBps recipient (maxPaymentAmount s)
    (totalPaymentsCreated s) (totalPaymentsExecuted s)
    (totalVolumeProcessed s) (averageSettlementTime s).

(** The contract, the tokens, and the contract behind [auditRegistry]:
    [auditAccepts] tells whether its [logPaymentExecution] returns for the
    given arguments (it reverts otherwise).  The registry does not call
    back into this contract. *)
Record World := mkWorld {
  st : State;
  ledger : ERC20.Ledger;
  auditAccepts : bytes32 -> address -> address -> uint256 -> uint256 -> bool
}.

(** The transfer that settles a payment: to the recipient or to the escrow
    vault. *)
Record Settlement := mkSettlement {
  forPayment : bytes32;
  settledToken : address;
  payee : address;
  settled : uint256
}.

Definition onlyRole (role : Role) (sender : address) (s : State) : Result unit :=
  require (roles s role sender) "AccessControlUnauthorizedAccount".

Definition constructor (self sender : address) : State :=
  mkState self (fun _ a => a =? sender) false (fun _ => Payment.zero) []
    (fun _ => []) (fun _ => []) (fun _ => false) [] 0 0 0 0 10 sender
    (100000000 * 10 ^ 6) 0 0 0 0.

(** *** Condition checking *)

Definition _canAutoExecute (payment : Payment.t) : bool :=
  let c := Payment.conditions payment in
  ComplianceEngine.Tier_eqb (PaymentConditions.requiredSenderTier c)
    ComplianceEngine.NONE
  && ComplianceEngine.Tier_eqb (PaymentConditions.requiredRecipientTier c)
       ComplianceEngine.NONE
  && negb (PaymentConditions.requireSanctionsCheck c)
  && (PaymentConditions.validFrom c =? 0)
  && (PaymentConditions.validUntil c =? 0)
  && negb (PaymentConditions.businessHoursOnly c)
  && (PaymentConditions.requiredApprovals c =? 0)
  && negb (PaymentConditions.useEscrow c).

Definition _allConditionsMet (now : uint256) (payment : Payment.t) : bool :=
  let c := Payment.conditions payment in
  (* Time checks *)
  if (0 <? PaymentConditions.validFrom c)
     && (now <? PaymentConditions.validFrom c) then false
  else if (0 <? PaymentConditions.validUntil c)
          && (PaymentConditions.validUntil c <? now) then false
  (* Approval checks *)
  else if (0 <? PaymentConditions.requiredApprovals c)
          && (Payment.approvalCount payment
              <? PaymentConditions.requiredApprovals c) then false
  (* In production: Check compliance engine for KYC/AML status.
     For demo: Always passes *)
  else true.

Definition _isApprover (payment : Payment.t) (account : address) : bool :=
  existsb (fun a => a =? account)
    (PaymentConditions.approvers (Payment.conditions payment)).

(** *** Execution *)

(** Simulated 1:1 conversion: the source token, the minimum target
    amount and the maximum slippage are unnamed parameters in the source. *)
Definition _performFXConversion (self : address) (targetToken : address)
  (sourceAmount : uint256) (l : ERC20.Ledger) : Result uint256 :=
  let balance := ERC20.balanceOf l targetToken self in
  require (sourceAmount <=? balance) "Insufficient liquidity" ;;
  Ok sourceAmount.

Definition _executePayment (now : uint256) (paymentId : bytes32) (w : World)
  : Result (World * list Settlement) :=
  let s := st w in
  let payment := payments s paymentId in
  let amountToSend := Payment.amount payment in
  (* Deduct protocol fee *)
  afterFee <-
    (if 0 <? protocolFeeBps s then
       scaled <- mul amountToSend (protocolFeeBps s) ;;
       fee <- div scaled 10000 ;;
       rest <- sub amountToSend fee ;;
       l <- ERC20.safeTransfer (Payment.token payment) (this s)
              (feeRecipient s) fee (ledger w) ;;
       Ok (rest, l)
     else Ok (amountToSend, ledger w)) ;;
  let l1 := snd afterFee in
  (* Handle cross-border FX if needed *)
  amountToSend <-
    (if negb (Payment.targetToken payment =? Payment.token payment) then
       _performFXConversion (this s) (Payment.targetToken payment)
         (fst afterFee) l1
     else Ok (fst afterFee)) ;;
  (* Transfer to recipient *)
  let payee :=
    if PaymentConditions.useEscrow (Payment.conditions payment)
    then escrowVault s else Payment.recipient payment in
  l2 <- ERC20.safeTransfer (Payment.targetToken payment) (this s) payee
          amountToSend l1 ;;
  (* Update state *)
  let payment' := Payment.set_executed now payment in
  settlementTime <- sub now (Payment.createdAt payment') ;;
  executed <- add (totalPaymentsExecuted s) 1 ;;
  volume <- add (totalVolumeProcessed s) (Payment.amount payment') ;;
  (* Update average settlement time *)
  before <- sub executed 1 ;;
  weighted <- mul (averageSettlementTime s) before ;;
  total <- add weighted settlementTime ;;
  average <- div total executed ;;
  let s' := set_statistics executed volume average
              (set_payment paymentId payment' s) in
  (* Log to audit registry *)
  require ((auditRegistry s =? 0)
           || auditAccepts w paymentId (Payment.sender payment')
                (Payment.recipient payment') (Payment.amount payment')
                settlementTime)
    "audit registry call failed" ;;
  Ok (mkWorld s' l2 (auditAccepts w),
      [mkSettlement paymentId (Payment.targetToken payment) payee
         amountToSend]).

Definition executePayment (now : uint256) (paymentId : bytes32) (w : World)
  : Result (World * list Settlement) :=
  let payment := payments (st w) paymentId in
  require (Payment.paymentId payment =? paymentId) "Payment not found" ;;
  require (PaymentStatus_eqb (Payment.status payment) PENDING
           || PaymentStatus_eqb (Payment.status payment) APPROVED)
    "Cannot execute" ;;
  require (_allConditionsMet now payment) "Conditions not met" ;;
  _executePayment now paymentId w.

(** *** Approval and cancellation *)

Definition approvePayment (sender : address) (now : uint256)
  (paymentId : bytes32) (w : World) : Result (World * list Settlement) :=
  let s := st w in
  let payment := payments s paymentId in
  require (Payment.paymentId payment =? paymentId) "Payment not found" ;;
  require (PaymentStatus_eqb (Payment.status payment) PENDING)
    "Not pending approval" ;;
  require (negb (Payment.hasApproved payment sender)) "Already approved" ;;
  require (_isApprover payment sender) "Not an approver" ;;
  count <- add (Payment.approvalCount payment) 1 ;;
  let payment' :=
    Payment.set_approval count (upd (Payment.hasApproved payment) sender true)
      payment in
  let w' := mkWorld (set_payment paymentId payment' s) (ledger w)
              (auditAccepts w) in
  (* Check if ready to execute *)
  if _allConditionsMet now payment' then _executePayment now paymentId w'
  else Ok (w', []).

Definition cancelPayment (sender : address) (paymentId : bytes32) (w : World)
  : Result (World * list Settlement) :=
  let s := st w in
  let payment := payments s paymentId in
  require (Payment.paymentId payment =? paymentId) "Payment not found" ;;
  require (Payment.sender payment =? sender) "Not the sender" ;;
  require (PaymentStatus_eqb (Payment.status payment) CREATED
           || PaymentStatus_eqb (Payment.status payment) PENDING)
    "Cannot cancel" ;;
  (* Refund *)
  l <- ERC20.safeTransfer (Payment.token payment) (this s)
         (Payment.sender payment) (Payment.amount payment) (ledger w) ;;
  Ok (mkWorld (set_payment paymentId (Payment.set_status CANCELLED payment) s)
        l (auditAccepts w), []).

(** *** Views and administration *)

Definition getPayment (paymentId : bytes32) (s : State) : PaymentView.t :=
  let payment := payments s paymentId in
  PaymentView.mk (Payment.paymentId payment) (Payment.sender payment)
    (Payment.recipient payment) (Payment.token payment)
    (Payment.amount payment) (Payment.targetToken payment)
    (Payment.targetAmount payment) (Payment.status payment)
    (Payment.createdAt payment) (Payment.executedAt payment)
    (Payment.approvalCount payment)
    (PaymentConditions.requiredApprovals (Payment.conditions payment))
    (Payment.referenceId payment).

Definition addSupportedToken (sender token : address) (s : State)
  : Result State :=
  onlyRole OPERATOR_ROLE sender s ;;
  require (negb (supportedTokens s token)) "Already supported" ;;
  Ok (add_token token s).

Definition setModules (sender _compliance _oracle _escrow _audit : address)
  (s : State) : Result State :=
  onlyRole DEFAULT_ADMIN_ROLE sender s ;;
  Ok (set_modules _compliance _oracle _escrow _audit s).

Definition setProtocolFee (sender : address) (_feeBps : uint256) (s : State)
  : Result State :=
  onlyRole TREASURY_ROLE sender s ;;
  require (_feeBps <=? 100) "Fee too high" ;;
  Ok (set_fee _feeBps (feeRecipient s) s).

Definition setFeeRecipient (sender _recipient : address) (s : State)
  : Result State :=
  onlyRole TREASURY_ROLE sender s ;;
  require (negb (_recipient =? 0)) "Invalid recipient" ;;
  Ok (set_fee (protocolFeeBps s) _recipient s).

Definition pause (sender : address) (s : State) : Result State :=
  onlyRole OPERATOR_ROLE sender s ;;
  require (negb (paused s)) "EnforcedPause" ;;
  Ok (set_paused true s).

Definition unpause (sender : address) (s : State) : Result State :=
  onlyRole OPERATOR_ROLE sender s ;;
  require (paused s) "ExpectedPause" ;;
  Ok (set_paused false s).

Definition grantRole (sender : address) (role : Role) (account : address)
  (s : State) : Result State :=
  onlyRole DEFAULT_ADMIN_ROLE sender s ;;
  Ok (set_roles (fun r x => if Role_eqb r role && (x =? account) then true
                            else roles s r x) s).

Definition revokeRole (sender : address) (role : Role) (account : address)
  (s : State) : Result State :=
  onlyRole DEFAULT_ADMIN_ROLE sender s ;;
  Ok (set_roles (fun r x => if Role_eqb r role && (x =? account) then false
                            else roles s r x) s).

(** *** Creation and the call interface *)

Section Hashing.

Variable keccak256 : list Z -> bytes32.

Definition paymentIdOf (sender recipient token : address)
  (amount now created : uint256) : bytes32 :=
  keccak256 [sender; recipient; token; amount; now; created].

Definition crossBorderIdOf (sender recipient sourceToken targetToken : address)
  (sourceAmount now created : uint256) : bytes32 :=
  keccak256 [sender; recipient; sourceToken; targetToken; sourceAmount; now;
             created].

Definition createPayment (sender : address) (now : uint256)
  (recipient token : address) (amount : uint256)
  (conditions : PaymentConditions.t) (referenceId : bytes32) (memo : string)
  (w : World) : Result (World * list Settlement) :=
  let s := st w in
  require (negb (paused s)) "EnforcedPause" ;;
  require (negb (recipient =? 0)) "Invalid recipient" ;;
  require (negb (recipient =? sender)) "Cannot pay yourself" ;;
  require (0 <? amount) "Amount must be positive" ;;
  require (amount <=? maxPaymentAmount s) "Exceeds max payment" ;;
  require (supportedTokens s token) "Token not supported" ;;
  (* Generate unique payment ID *)
  let paymentId := paymentIdOf sender recipient token amount now
                     (totalPaymentsCreated s) in
  (* Store payment; the approvers are copied with the conditions and then
     pushed once more by the loop *)
  let old := payments s paymentId in
  let payment :=
    Payment.mk paymentId sender recipient token amount token
      (Payment.targetAmount old) CREATED now (Payment.executedAt old)
      (PaymentConditions.set_approvers
         (PaymentConditions.approvers conditions
          ++ PaymentConditions.approvers conditions) conditions)
      (Payment.approvalCount old) (Payment.hasApproved old) referenceId memo in
  (* Transfer tokens to protocol *)
  l <- ERC20.safeTransferFrom token (this s) sender (this s) amount
         (ledger w) ;;
  (* Track *)
  created <- add (totalPaymentsCreated s) 1 ;;
  let s1 := track paymentId sender recipient created
              (set_payment paymentId payment s) in
  let w1 := mkWorld s1 l (auditAccepts w) in
  (* Auto-process if no conditions *)
  if _canAutoExecute payment then _executePayment now paymentId w1
  else
    Ok (mkWorld (set_payment paymentId (Payment.set_status PENDING payment) s1)
          l (auditAccepts w), []).

Definition createCrossBorderPayment (sender : address) (now : uint256)
  (recipient sourceToken : address) (sourceAmount : uint256)
  (targetToken : address) (minTargetAmount : uint256)
  (conditions : PaymentConditions.t) (referenceId : bytes32) (memo : string)
  (w : World) : Result (World * list Settlement) :=
  let s := st w in
  require (negb (paused s)) "EnforcedPause" ;;
  require (negb (recipient =? 0)) "Invalid recipient" ;;
  require (0 <? sourceAmount) "Amount must be positive" ;;
  require (supportedTokens s sourceToken) "Source token not supported" ;;
  require (supportedTokens s targetToken) "Target token not supported" ;;
  let paymentId := crossBorderIdOf sender recipient sourceToken targetToken
                     sourceAmount now (totalPaymentsCreated s) in
  let old := payments s paymentId in
  let payment :=
    Payment.mk paymentId sender recipient sourceToken sourceAmount targetToken
      minTargetAmount PENDING now (Payment.executedAt old) conditions
      (Payment.approvalCount old) (Payment.hasApproved old) referenceId memo in
  l <- ERC20.safeTransferFrom sourceToken (this s) sender (this s)
         sourceAmount (ledger w) ;;
  created <- add (totalPaymentsCreated s) 1 ;;
  Ok (mkWorld (track paymentId sender recipient created
                 (set_payment paymentId payment s))
        l (auditAccepts w), []).

Inductive Call :=
| CreatePayment (recipient token : address) (amount : uint256)
    (conditions : PaymentConditions.t) (referenceId : bytes32) (memo : string)
| CreateCrossBorderPayment (recipient sourceToken : address)
    (sourceAmount : uint256) (targetToken : address)
    (minTargetAmount : uint256) (conditions : PaymentConditions.t)
    (referenceId : bytes32) (memo : string)
| ApprovePayment (paymentId : bytes32)
| ExecutePayment (paymentId : bytes32)
| CancelPayment (paymentId : bytes32)
| GetPayment (paymentId : bytes32)
| AddSupportedToken (token : address)
| SetModules (_compliance _oracle _escrow _audit : address)
| SetProtocolFee (_feeBps : uint256)
| SetFeeRecipient (_recipient : address)
| Pause
| Unpause
| GrantRole (role : Role) (account : address)
| RevokeRole (role : Role) (account : address)
| Surroundings (after : ERC20.Ledger)
    (audit : bytes32 -> address -> address -> uint256 -> uint256 -> bool).

Definition onState (r : Result State) (w : World)
  : Result (World * list Settlement) :=
  s' <- r ;; Ok (mkWorld s' (ledger w) (auditAccepts w), []).

(** One transaction.  [Surroundings] stands for whatever happens on the
    token contracts and in the audit registry between two calls of this
    contract. *)
Definition step (sender : address) (now : uint256) (c : Call) (w : World)
  : Result (World * list Settlement) :=
  match c with
  | CreatePayment recipient token amount conditions referenceId memo =>
      createPayment sender now recipient token amount conditions referenceId
        memo w
  | CreateCrossBorderPayment recipient sourceToken sourceAmount targetToken
      minTargetAmount conditions referenceId memo =>
      createCrossBorderPayment sender now recipient sourceToken sourceAmount
        targetToken minTargetAmount conditions referenceId memo w
  | ApprovePayment paymentId => approvePayment sender now paymentId w
  | ExecutePayment paymentId => executePayment now paymentId w
  | CancelPayment paymentId => cancelPayment sender paymentId w
  | GetPayment paymentId => Ok (w, [])
  | AddSupportedToken token => onState (addSupportedToken sender token (st w)) w
  | SetModules _compliance _oracle _escrow _audit =>
      onState (setModules sender _compliance _oracle _escrow _audit (st w)) w
  | SetProtocolFee _feeBps => onState (setProtocolFee sender _feeBps (st w)) w
  | SetFeeRecipient _recipient =>
      onState (setFeeRecipient sender _recipient (st w)) w
  | Pause => onState (pause sender (st w)) w
  | Unpause => onState (unpause sender (st w)) w
  | GrantRole role account => onState (grantRole sender role account (st w)) w
  | RevokeRole role account =>
      onState (revokeRole sender role account (st w)) w
  | Surroundings after audit => Ok (mkWorld (st w) after audit, [])
  end.

Definition Tx : Type := address * uint256 * Call.

(** A sequence of transactions: the final world and every settlement
    transfer made. *)
Fixpoint run (txs : list Tx) (w : World) : World * list Settlement :=
  match txs with
  | [] => (w, [])
  | (sender, now, c) :: rest =>
      match step sender now c w with
      | Ok (w', ss) => let (w'', ss') := run rest w' in (w'', ss ++ ss')
      | Revert _ => run rest w
      end
  end.

End Hashing.

End PayFlowCore.

(* ---------------------------------------------------------------------- *)
(** ** Specification-level vocabulary                                      *)
(* ---------------------------------------------------------------------- *)

Module OracleSpec.

Import OracleAggregator.

(** An oracle counts in [_calculateAggregatedRate] when none of the three
    [continue] statements of the loop skips it. *)
Definition counted (s : State) (now : uint256) (pairId : bytes32)
  (oracle : address) : bool :=
  OracleSource.isActive (oracleSources s oracle)
  && PriceData.isActive (oraclePrices s pairId oracle)
  && (now - PriceData.timestamp (oraclePrices s pairId oracle)
      <=? stalenessThreshold s).

Definition validSources (s : State) (now : uint256) (pairId : bytes32)
  : list address :=
  filter (counted s now pairId) (activeOracles s).

Definition sumZ (l : list Z) : Z := fold_right Z.add 0 l.

Definition weightedSumOf (s : State) (pairId : bytes32) (os : list address)
  : Z :=
  sumZ (map (fun o => PriceData.rate (oraclePrices s pairId o)
                      * OracleSource.weight (oracleSources s o)) os).

Definition totalWeightOf (s : State) (os : list address) : Z :=
  sumZ (map (fun o => OracleSource.weight (oracleSources s o)) os).

(** The arithmetic of the aggregation loop stays inside [uint256]: no
    counted or stale report is dated in the future, rates and weights are
    non-negative, and the sums fit. *)
Definition aggregable (s : State) (now : uint256) (pairId : bytes32) : Prop :=
  (forall o, In o (activeOracles s) ->
             0 <= now - PriceData.timestamp (oraclePrices s pairId o)
               <= MAX_UINT256)
  /\ (forall o, In o (activeOracles s) ->
                0 <= PriceData.rate (oraclePrices s pairId o)
                /\ 0 <= OracleSource.weight (oracleSources s o))
  /\ weightedSumOf s pairId (validSources s now pairId) <= MAX_UINT256
  /\ totalWeightOf s (validSources s now pairId) <= MAX_UINT256
  /\ Z.of_nat (List.length (validSources s now pairId)) <= MAX_UINT256.

(** The rate [_calculateAggregatedRate] computes, in closed form. *)
Definition aggregatedRateOf (s : State) (now : uint256) (pairId : bytes32)
  : Z :=
  let valid := validSources s now pairId in
  if (totalWeightOf s valid =? 0)
     || (Z.of_nat (List.length valid) <? minOracleCount s)
  then CurrencyPair.currentRate (pairs s pairId)
  else weightedSumOf s pairId valid / totalWeightOf s valid.



(** An entry of a batch takes effect when its pair is active and its rate
    positive. *)
Definition eligible (s : State) (e : bytes32 * uint256 * uint256) : bool :=
  CurrencyPair.isActive (pairs s (fst (fst e))) && (0 <? snd (fst e)).

(** The last entry of a batch that takes effect on [pairId]. *)
Fixpoint lastEligible (s : State) (pairId : bytes32)
  (entries : list (bytes32 * uint256 * uint256))
  : option (uint256 * uint256) :=
  match entries with
  | [] => None
  | e :: rest =>
      match lastEligible s pairId rest with
      | Some r => Some r
      | None =>
          if (fst (fst e) =? pairId) && eligible s e
          then Some (snd (fst e), snd e)
          else None
      end
  end.

(** No call of the sequence is a [resetCircuitBreaker] on [pairId] made
    by an account holding [ORACLE_ADMIN] at the time of the call. *)
Fixpoint noAdminReset (keccak256 : string -> bytes32) (pairId : bytes32)
  (txs : list Tx) (s : State) : Prop :=
  match txs with
  | [] => True
  | (sender, now, c) :: rest =>
      (c = ResetCircuitBreaker pairId -> roles s ORACLE_ADMIN sender = false)
      /\ noAdminReset keccak256 pairId rest
           (commit s (step keccak256 sender now c s))
  end.

(** A stand-in for [keccak256] in the examples: the little-endian base-256
    reading of the string under a leading one. *)
Fixpoint toyHash (x : string) : bytes32 :=
  match x with
  | EmptyString => 1
  | String c rest => Z.of_N (Ascii.N_of_ascii c) + 256 * toyHash rest
  end.

(** *** Concrete states used by the examples *)

(** The contract as deployed by account 1 at the hash [toyHash]. *)
Definition deployed : State :=
  commit emptyState (constructor toyHash 1).

Definition usdEur : bytes32 := pairIdOf toyHash "USD" "EUR".

Definition usdGbp : bytes32 := pairIdOf toyHash "USD" "GBP".

(** Two oracles, 11 with weight 1 and 12 with weight 3, registered and
    authorised; 11 reports 100 at confidence 100, 12 reports 200 at
    confidence 50. *)
Definition twoOracleTrace : list Tx :=
  [ (1, 1700000000, AddOracle 11 "A" 1);
    (1, 1700000001, AddOracle 12 "B" 3);
    (1, 1700000002, GrantRole PRICE_UPDATER 11);
    (1, 1700000003, GrantRole PRICE_UPDATER 12);
    (11, 1700000100, UpdatePrice usdEur 100 100);
    (12, 1700000100, UpdatePrice usdEur 200 50) ].

(** After [twoOracleTrace] the rate of USD/EUR is 175, with [maxDeviation]
    at its default of 500 bps. *)
Definition twoOracleState : State := run toyHash twoOracleTrace deployed.

(** [twoOracleState] after oracle 11 submits 200, which is 1428 bps off. *)
Definition trippedState : State :=
  commit twoOracleState
    (updatePrice 11 1700000200 usdEur 200 100 twoOracleState).

(** Updates within the band, a batch update, queries, a reset attempted by
    account 9 (no role), the administrator's reset of another pair and a
    change of the pair's [maxDeviation]. *)
Definition quietTrace : list Tx :=
  [ (11, 1700000221, UpdatePrice usdEur 176 90);
    (11, 1700000222, BatchUpdatePrices [usdEur] [100] [90]);
    (3, 1700000223, GetRate usdEur);
    (3, 1700000224, Convert usdEur 5 false);
    (9, 1700000225, ResetCircuitBreaker usdEur);
    (1, 1700000226, ResetCircuitBreaker usdGbp);
    (1, 1700000227, SetMaxDeviation usdEur 10000) ].

End OracleSpec.

Module ComplianceSpec.

Import ComplianceEngine.

Definition dailyRemaining (now : uint256) (entity : address) (s : State)
  : uint256 :=
  ProfileView.dailyRemaining (getEntityProfile now entity s).

Definition monthlyRemaining (now : uint256) (entity : address) (s : State)
  : uint256 :=
  ProfileView.monthlyRemaining (getEntityProfile now entity s).

(** The checks of [checkPaymentCompliance] that precede the daily limit:
    sanctions, tiers, verification expiry and the single-transaction cap. *)
Definition earlierChecksPass (now : uint256) (sender recipient : address)
  (amount : uint256) (requireSanctionsCheck : bool)
  (requiredSenderTier requiredRecipientTier : ComplianceTier) (s : State)
  : bool :=
  let sp := profiles s sender in
  let rp := profiles s recipient in
  negb (requireSanctionsCheck && EntityProfile.isSanctioned sp)
  && negb (requireSanctionsCheck && EntityProfile.isSanctioned rp)
  && negb (tierValue (EntityProfile.tier sp) <? tierValue requiredSenderTier)
  && negb (tierValue (EntityProfile.tier rp)
           <? tierValue requiredRecipientTier)
  && negb (EntityProfile.isVerified sp && (EntityProfile.expiresAt sp <? now))
  && negb (EntityProfile.singleTxLimit sp <? amount).

(** The resets recorded in a profile are not ahead of the clock: true of
    every profile the contract writes, as [_resetLimitsIfNeeded] stores the
    current day and month and time does not run backwards. *)
Definition resetsNotAhead (now : uint256) (p : EntityProfile.t) : Prop :=
  EntityProfile.lastDayReset p <= now / 86400
  /\ EntityProfile.lastMonthReset p <= now / 2592000.

(** The daily volume consumed so far in the current period. *)
Definition dailyUsedAt (now : uint256) (p : EntityProfile.t) : uint256 :=
  EntityProfile.dailyVolume (_resetLimitsIfNeeded now p).

(** An institutional entity, verified by the deployer (account 1) one
    second after deployment, that has already passed a check of amount 1
    today. *)
Definition institutionalState : State :=
  let s0 := constructor 1 in
  let s1 := commit s0
              (verifyEntity 1 1700000001 50 INSTITUTIONAL 77 "DE" false 10
                 31536000 s0) in
  match checkPaymentCompliance 1700000002 1 50 51 1 false NONE NONE s1 with
  | Ok (s2, _) => s2
  | Revert _ => s1
  end.

(** A standard-tier entity (daily limit 50000e18, single-transaction
    limit 25000e18) with 40000e18 consumed today. *)
Definition standardState : State :=
  let s0 := constructor 1 in
  let s1 := commit s0
              (verifyEntity 1 1700000001 60 STANDARD 78 "FR" false 10
                 31536000 s0) in
  let s2 := match checkPaymentCompliance 1700000002 1 60 61
                    (20000 * 10 ^ 18) false NONE NONE s1 with
            | Ok (s', _) => s'
            | Revert _ => s1
            end in
  match checkPaymentCompliance 1700000003 2 60 61
          (20000 * 10 ^ 18) false NONE NONE s2 with
  | Ok (s', _) => s'
  | Revert _ => s2
  end.

End ComplianceSpec.

Module LedgerSpec.

(** The balances after [amount] of [token] has gone from [from] to [to]:
    every other balance is as before, and a transfer to oneself changes
    nothing. *)
Definition moved (token from to : address) (amount : uint256)
  (balance : address -> address -> uint256) : address -> address -> uint256 :=
  fun t holder =>
    balance t holder
    - (if (t =? token) && (holder =? from) then amount else 0)
    + (if (t =? token) && (holder =? to) then amount else 0).

End LedgerSpec.

Module EscrowSpec.

Import SmartEscrow LedgerSpec.

(** [Released] and [Refunded] are the terminal statuses. *)
Definition terminal (status : EscrowStatus) : bool :=
  match status with
  | RELEASED | REFUNDED => true
  | ACTIVE | DISPUTED => false
  end.

Definition payoutsFor (escrowId : bytes32) (ps : list Payout) : list Payout :=
  filter (fun p => forEscrow p =? escrowId) ps.

Definition sumPaid (ps : list Payout) : Z :=
  fold_right (fun p acc => paid p + acc) 0 ps.

(** What a call must satisfy for the results on escrow [escrowId] below:
    its [uint256] argument is not negative, and if it creates an escrow
    the hash it draws is not [escrowId] (no collision of [keccak256]). *)
Definition admissibleCall (keccak256 : list Z -> bytes32) (escrowId : bytes32)
  (sender : address) (now : uint256) (c : Call) (w : World) : Prop :=
  match c with
  | CreateTimeBasedEscrow _ beneficiary token amount _ _ _
  | CreateApprovalEscrow _ beneficiary token amount _ _ =>
      escrowIdOf keccak256 sender beneficiary token amount now
        (totalEscrowsCreated (st w)) <> escrowId
  | ResolveDispute _ _ amount => 0 <= amount
  | _ => True
  end.

Definition after (keccak256 : list Z -> bytes32) (tx : Tx) (w : World)
  : World :=
  let '(sender, now, c) := tx in
  match step keccak256 sender now c w with
  | Ok (w', _) => w'
  | Revert _ => w
  end.

Fixpoint admissible (keccak256 : list Z -> bytes32) (escrowId : bytes32)
  (txs : list Tx) (w : World) : Prop :=
  match txs with
  | [] => True
  | tx :: rest =>
      admissibleCall keccak256 escrowId (fst (fst tx)) (snd (fst tx)) (snd tx) w
      /\ admissible keccak256 escrowId rest (after keccak256 tx w)
  end.

(** What one successful call does to escrow [eid]: it keeps its amount and
    identifier, and either keeps its status and pays nothing out of it, or
    moves it from [ACTIVE] to [DISPUTED] paying nothing, or moves it from
    [ACTIVE] or [DISPUTED] to a terminal status paying out its amount. *)
Definition effectOn (eid : bytes32) (w w' : World) (ps : list Payout) : Prop :=
  let e := escrows (st w) eid in
  let e' := escrows (st w') eid in
  Escrow.amount e' = Escrow.amount e
  /\ Escrow.escrowId e' = Escrow.escrowId e
  /\ ((Escrow.status e' = Escrow.status e /\ payoutsFor eid ps = [])
      \/ (Escrow.status e = ACTIVE /\ Escrow.status e' = DISPUTED
          /\ payoutsFor eid ps = [])
      \/ (terminal (Escrow.status e) = false
          /\ terminal (Escrow.status e') = true
          /\ sumPaid (payoutsFor eid ps) = Escrow.amount e)).

(** The balances after the payouts [ps] have been made, one after the
    other, each out of the contract's holding of the token of its escrow. *)
Definition paidOut (s : State) (ps : list Payout)
  (balance : address -> address -> uint256) : address -> address -> uint256 :=
  fold_left
    (fun b p =>
       moved (Escrow.token (escrows s (forEscrow p))) (this s) (payee p)
         (paid p) b)
    ps balance.

(** The calls that take no deposit: all but the two creations, which pull
    the deposit in and send the fee on, and the activity of other accounts
    on the tokens. *)
Definition takesNoDeposit (c : Call) : bool :=
  match c with
  | CreateTimeBasedEscrow _ _ _ _ _ _ _
  | CreateApprovalEscrow _ _ _ _ _ _
  | TokenActivity _ => false
  | _ => true
  end.

(** A stand-in for [keccak256] in the examples: the fields read as digits
    in base [2^256] under a leading one. *)
Fixpoint toyHash (fields : list Z) : bytes32 :=
  match fields with
  | [] => 1
  | x :: rest => x + 2 ^ 256 * toyHash rest
  end.

(** The escrow contract at address 900, deployed by account 1; token 800;
    depositor 10 holds 1000000 units and has approved the contract. *)
Definition fundedWorld : World :=
  mkWorld (constructor 900 1)
    (ERC20.set_allowance 800 10 900 MAX_UINT256
       (ERC20.set_balance 800 10 1000000
          (ERC20.mkLedger (fun _ _ => 0) (fun _ _ _ => 0)))).

(** Depositor 10 locks 100000 units for beneficiary 20, releasable from
    time 1700001000. *)
Definition escrowTrace : list Tx :=
  [ (10, 1700000000,
     CreateTimeBasedEscrow 5 20 800 100000 1700001000 3600 "goods") ].

Definition theEscrow : bytes32 :=
  escrowIdOf toyHash 10 20 800 100000 1700000000 0.

Definition activeWorld : World := fst (run toyHash escrowTrace fundedWorld).

(** The release, then every further attempt on the escrow, and a second
    escrow going through a dispute. *)
Definition lifeTrace : list Tx :=
  [ (20, 1700000500, ReleaseEscrow theEscrow);
    (20, 1700001000, ReleaseEscrow theEscrow);
    (20, 1700001001, ReleaseEscrow theEscrow);
    (10, 1700001002, RequestRefund theEscrow);
    (10, 1700001003, RaiseDispute theEscrow "late");
    (10, 1700001004, ApproveRelease theEscrow);
    (1, 1700001005, ResolveDispute theEscrow 10 50);
    (10, 1700001006,
     CreateTimeBasedEscrow 6 20 800 100000 1700009000 3600 "more");
    (20, 1700001007, ReleaseEscrow theEscrow) ].

Definition releasedWorld : World :=
  fst (run toyHash [(20, 1700001000, ReleaseEscrow theEscrow)] activeWorld).

End EscrowSpec.

Module PayFlowSpec.

Import PayFlowCore LedgerSpec.

(** [Executed], [Cancelled] and [Failed] are the terminal statuses. *)
Definition terminal (status : PaymentStatus) : bool :=
  match status with
  | EXECUTED | FAILED | CANCELLED => true
  | _ => false
  end.

(** The statuses from which a payment can still move. *)
Definition live (status : PaymentStatus) : bool :=
  match status with
  | CREATED | PENDING | APPROVED => true
  | _ => false
  end.

Definition settlementsFor (paymentId : bytes32) (ss : list Settlement)
  : list Settlement :=
  filter (fun x => forPayment x =? paymentId) ss.

(** If the call creates a payment, the hash it draws is not [paymentId]
    (no collision of [keccak256]). *)
Definition admissibleCall (keccak256 : list Z -> bytes32) (paymentId : bytes32)
  (sender : address) (now : uint256) (c : Call) (w : World) : Prop :=
  match c with
  | CreatePayment recipient token amount _ _ _ =>
      paymentIdOf keccak256 sender recipient token amount now
        (totalPaymentsCreated (st w)) <> paymentId
  | CreateCrossBorderPayment recipient sourceToken sourceAmount targetToken
      _ _ _ _ =>
      crossBorderIdOf keccak256 sender recipient sourceToken targetToken
        sourceAmount now (totalPaymentsCreated (st w)) <> paymentId
  | _ => True
  end.

Definition after (keccak256 : list Z -> bytes32) (tx : Tx) (w : World)
  : World :=
  let '(sender, now, c) := tx in
  match step keccak256 sender now c w with
  | Ok (w', _) => w'
  | Revert _ => w
  end.

Fixpoint admissible (keccak256 : list Z -> bytes32) (paymentId : bytes32)
  (txs : list Tx) (w : World) : Prop :=
  match txs with
  | [] => True
  | tx :: rest =>
      admissibleCall keccak256 paymentId (fst (fst tx)) (snd (fst tx))
        (snd tx) w
      /\ admissible keccak256 paymentId rest (after keccak256 tx w)
  end.

(** What one successful call does to payment [pid]: it keeps its status
    and settles nothing for it, or cancels it from [CREATED] or [PENDING]
    settling nothing, or executes it from [PENDING] or [APPROVED] with
    exactly one settlement transfer. *)
Definition effectOn (pid : bytes32) (w w' : World) (ss : list Settlement)
  : Prop :=
  let p := payments (st w) pid in
  let p' := payments (st w') pid in
  (Payment.status p' = Payment.status p /\ settlementsFor pid ss = [])
  \/ ((Payment.status p = CREATED \/ Payment.status p = PENDING)
      /\ Payment.status p' = CANCELLED /\ settlementsFor pid ss = [])
  \/ ((Payment.status p = PENDING \/ Payment.status p = APPROVED)
      /\ Payment.status p' = EXECUTED
      /\ exists x, settlementsFor pid ss = [x]).

(** The protocol fee [_executePayment] deducts. *)
Definition feeOf (s : State) (payment : Payment.t) : Z :=
  if 0 <? protocolFeeBps s
  then Payment.amount payment * protocolFeeBps s / 10000
  else 0.

Definition payeeOf (s : State) (payment : Payment.t) : address :=
  if PaymentConditions.useEscrow (Payment.conditions payment)
  then escrowVault s else Payment.recipient payment.

(** The balances after a payment is executed in state [s]: the fee has
    gone from the contract to the fee recipient in the payment's token, and
    the rest from the contract to the payee in the target token. *)
Definition settledBalances (s : State) (payment : Payment.t)
  (balance : address -> address -> uint256) : address -> address -> uint256 :=
  moved (Payment.targetToken payment) (this s) (payeeOf s payment)
    (Payment.amount payment - feeOf s payment)
    (moved (Payment.token payment) (this s) (feeRecipient s)
       (feeOf s payment) balance).

(** Calls of [executePayment] on [paymentId], one for each caller and
    time given. *)
Definition attempts (paymentId : bytes32) (who : list (address * uint256))
  : list Tx :=
  map (fun x => (fst x, snd x, ExecutePayment paymentId)) who.



(** *** Concrete worlds used by the examples *)

Definition toyHash : list Z -> bytes32 := EscrowSpec.toyHash.

(** Conditions asking for institutional tiers and a sanctions check, with
    no tolerance for slippage. *)
Definition strictConditions : PaymentConditions.t :=
  PaymentConditions.mk ComplianceEngine.INSTITUTIONAL
    ComplianceEngine.INSTITUTIONAL true 0 0 false 0 0 [] false 0 0.

(** PayFlowCore at address 700, deployed by account 1 with the oracle
    aggregator at 600 and the compliance engine at 500 as modules; tokens
    800 and 801 supported; payer 10 holds 1000000 of token 800 and has
    approved the contract, which holds 1000000 of token 801. *)
Definition setupTrace : list Tx :=
  [ (1, 1700000000, AddSupportedToken 800);
    (1, 1700000001, AddSupportedToken 801);
    (1, 1700000002, SetModules 500 600 0 0);
    (10, 1700000100,
     CreateCrossBorderPayment 20 800 1000 801 2000 strictConditions 0 "fx") ].

Definition freshWorld : World :=
  mkWorld (constructor 700 1)
    (ERC20.set_allowance 800 10 700 MAX_UINT256
       (ERC20.set_balance 801 700 1000000
          (ERC20.set_balance 800 10 1000000
             (ERC20.mkLedger (fun _ _ => 0) (fun _ _ _ => 0)))))
    (fun _ _ _ _ _ => true).

Definition pendingWorld : World := fst (run toyHash setupTrace freshWorld).

(** The cross-border payment of [setupTrace]: 1000 of token 800 for an
    expected 2000 of token 801. *)
Definition thePayment : bytes32 :=
  crossBorderIdOf toyHash 10 20 800 801 1000 1700000100 0.

Definition executedWorld : World :=
  fst (run toyHash [(30, 1700000200, ExecutePayment thePayment)] pendingWorld).


(** Later calls touching the executed payment, and a plain payment that
    executes on creation. *)
Definition laterTrace : list Tx :=
  [ (30, 1700000300, ExecutePayment thePayment);
    (10, 1700000301, CancelPayment thePayment);
    (10, 1700000302, ApprovePayment thePayment);
    (10, 1700000303,
     CreatePayment 20 800 500 PaymentConditions.zero 0 "plain");
    (1, 1700000304, SetProtocolFee 0);
    (30, 1700000305, ExecutePayment thePayment) ].

End PayFlowSpec.

(* ---------------------------------------------------------------------- *)
(** ** Further examples: OracleAggregator                                  *)
(* ---------------------------------------------------------------------- *)

Module OracleExamples.

Import OracleAggregator OracleSpec.

(** A pair with 101 recorded rates, one per second from 1700000001 on. *)
Definition longHistory : CurrencyPair.t :=
  CurrencyPair.set_history
    (map Z.of_nat (seq 1 101))
    (map (fun k => 1700000000 + Z.of_nat k) (seq 1 101))
    (pairs deployed usdEur).

(** The array after [j] rounds of the shifting loop of [_trimHistory],
    in terms of the array [l] it started from. *)
Definition shifted {A : Type} (i j : nat) (l : list A) : list A :=
  firstn j (skipn i l) ++ skipn j l.

(** A property of pairs, indexed by their ids, holds of every pair. *)
Definition holds (P : bytes32 -> CurrencyPair.t -> Prop) (s : State) : Prop :=
  forall q, P q (pairs s q).

(** Every pair records as many timestamps as rates. *)
Definition historyAligned (s : State) : Prop :=
  forall q,
    List.length (CurrencyPair.rateHistory (pairs s q))
    = List.length (CurrencyPair.timestamps (pairs s q)).

(** [twoOracleState] after the administrator sets the TWAP period of
    USD/EUR beyond the current time. *)
Definition farTwapState : State :=
  commit twoOracleState (setTwapPeriod 1 usdEur 2000000000 twoOracleState).

(** One oracle, 11, registered, authorised and reporting 100 for USD/EUR;
    then deactivated and registered again by the administrator. *)
Definition oneOracleTrace : list Tx :=
  [ (1, 1700000000, AddOracle 11 "A" 1);
    (1, 1700000002, GrantRole PRICE_UPDATER 11);
    (11, 1700000100, UpdatePrice usdEur 100 100) ].

Definition oneOracleState : State := run toyHash oneOracleTrace deployed.

Definition readdedState : State :=
  run toyHash
    [ (1, 1700000110, DeactivateOracle 11);
      (1, 1700000120, AddOracle 11 "A" 1) ]
    oneOracleState.

(** Oracle 13, registered with weight 3, is the only one to report, and
    reports the rate [2 ^ 255] through [batchUpdatePrices]. *)
Definition overflowState : State :=
  run toyHash
    [ (1, 1700000000, AddOracle 13 "C" 3);
      (1, 1700000001, GrantRole PRICE_UPDATER 13);
      (13, 1700000100, BatchUpdatePrices [usdEur] [2 ^ 255] [100]) ]
    deployed.


(** [twoOracleState] after the administrator deactivates oracle 12. *)
Definition deactivatedState : State :=
  commit twoOracleState (deactivateOracle 1 12 twoOracleState).

End OracleExamples.

(* ---------------------------------------------------------------------- *)
(** ** ComplianceEngine: the sanctions list and the statistics             *)
(* ---------------------------------------------------------------------- *)

Module ComplianceSanctions.

Import ComplianceEngine.

Definition set_sanctionsList (h : bytes32) (b : bool) (size : uint256)
  (s : State) : State :=
  mkState (roles s) (profiles s) (upd (sanctionsList s) h b)
    (restrictedJurisdictions s) (travelRuleThreshold s) (tierDailyLimits s)
    (tierMonthlyLimits s) (tierSingleTxLimits s) (totalVerifications s)
    (totalChecks s) (totalRejections s) size.

(** [if (!sanctionsList[h]) { sanctionsList[h] = true; sanctionsListSize++; }],
    the body of [addToSanctionsList] and of the loop of
    [bulkAddToSanctionsList]. *)
Definition listHash (h : bytes32) (s : State) : Result State :=
  if negb (sanctionsList s h) then
    size <- add (sanctionsListSize s) 1 ;;
    Ok (set_sanctionsList h true size s)
  else Ok s.

Definition addToSanctionsList (sender : address) (entityHash : bytes32)
  (s : State) : Result State :=
  onlyRole SANCTIONS_UPDATER sender s ;;
  listHash entityHash s.

Fixpoint bulkLoop (entityHashes : list bytes32) (s : State) : Result State :=
  match entityHashes with
  | [] => Ok s
  | h :: rest => s' <- listHash h s ;; bulkLoop rest s'
  end.

Definition bulkAddToSanctionsList (sender : address)
  (entityHashes : list bytes32) (s : State) : Result State :=
  onlyRole SANCTIONS_UPDATER sender s ;;
  bulkLoop entityHashes s.

Definition removeFromSanctionsList (sender : address) (entityHash : bytes32)
  (s : State) : Result State :=
  onlyRole SANCTIONS_UPDATER sender s ;;
  if sanctionsList s entityHash then
    size <- sub (sanctionsListSize s) 1 ;;
    Ok (set_sanctionsList entityHash false size s)
  else Ok s.

Definition isSanctioned (entityHash : bytes32) (s : State) : bool :=
  sanctionsList s entityHash.

Definition getComplianceStats (s : State)
  : uint256 * uint256 * uint256 * uint256 :=
  (totalVerifications s, totalChecks s, totalRejections s,
   sanctionsListSize s).

(** What a caller of [checkPaymentCompliance] receives: the returned
    [TransactionCheck], or the revert. *)
Definition verdict (r : Result (State * TransactionCheck.t))
  : Result TransactionCheck.t :=
  x <- r ;; Ok (snd x).

(** Two profiles that differ at most in [isSanctioned] and
    [underReview]. *)
Definition sameButSanction (p q : EntityProfile.t) : Prop :=
  EntityProfile.set_sanction false false p
  = EntityProfile.set_sanction false false q.

(** The hashes of a batch that were not on the list before, each once. *)
Definition newHashes (s : State) (entityHashes : list bytes32)
  : list bytes32 :=
  nodup Z.eq_dec (filter (fun h => negb (sanctionsList s h)) entityHashes).

End ComplianceSanctions.

(* ---------------------------------------------------------------------- *)
(** ** ComplianceEngine: the call interface                                *)
(* ---------------------------------------------------------------------- *)

Module ComplianceCalls.

Import ComplianceEngine ComplianceSanctions.

Definition set_roles (r : Role -> address -> bool) (s : State) : State :=
  mkState r (profiles s) (sanctionsList s)
    (restrictedJurisdictions s) (travelRuleThreshold s) (tierDailyLimits s)
    (tierMonthlyLimits s) (tierSingleTxLimits s) (totalVerifications s)
    (totalChecks s) (totalRejections s) (sanctionsListSize s).

(** Role administration inherited from AccessControl: every role is
    administered by [DEFAULT_ADMIN_ROLE]; an account may renounce its own
    role. *)
Definition grantRole (sender : address) (role : Role) (account : address)
  (s : State) : Result State :=
  onlyRole DEFAULT_ADMIN_ROLE sender s ;;
  Ok (set_roles (fun r x => if Role_eqb r role && (x =? account) then true
                            else roles s r x) s).

Definition revokeRole (sender : address) (role : Role) (account : address)
  (s : State) : Result State :=
  onlyRole DEFAULT_ADMIN_ROLE sender s ;;
  Ok (set_roles (fun r x => if Role_eqb r role && (x =? account) then false
                            else roles s r x) s).

Definition renounceRole (sender : address) (role : Role) (s : State)
  : Result State :=
  Ok (set_roles (fun r x => if Role_eqb r role && (x =? sender) then false
                            else roles s r x) s).

Inductive Call :=
| VerifyEntity (entity : address) (tier : ComplianceTier)
    (identityHash : bytes32) (jurisdiction : string) (isPEP : bool)
    (riskScore : Z) (validityPeriod : uint256)
| UpgradeEntity (entity : address) (newTier : ComplianceTier)
| SanctionEntity (entity : address)
| ClearEntity (entity : address)
| CheckPaymentCompliance (paymentId : bytes32) (sender recipient : address)
    (amount : uint256) (requireSanctionsCheck : bool)
    (requiredSenderTier requiredRecipientTier : ComplianceTier)
| AddToSanctionsList (entityHash : bytes32)
| BulkAddToSanctionsList (entityHashes : list bytes32)
| RemoveFromSanctionsList (entityHash : bytes32)
| AddRestrictedJurisdiction (jurisdiction : string)
| RemoveRestrictedJurisdiction (jurisdiction : string)
| SetTravelRuleThreshold (threshold : uint256)
| SetTierLimits (tier : ComplianceTier) (daily monthly singleTx : uint256)
| GrantRole (role : Role) (account : address)
| RevokeRole (role : Role) (account : address)
| RenounceRole (role : Role).

Definition step (caller : address) (now : uint256) (c : Call) (s : State)
  : Result State :=
  match c with
  | VerifyEntity entity tier identityHash jurisdiction isPEP riskScore
      validityPeriod =>
      verifyEntity caller now entity tier identityHash jurisdiction isPEP
        riskScore validityPeriod s
  | UpgradeEntity entity newTier => upgradeEntity caller entity newTier s
  | SanctionEntity entity => sanctionEntity caller entity s
  | ClearEntity entity => clearEntity caller entity s
  | CheckPaymentCompliance paymentId sender recipient amount rs t1 t2 =>
      r <- checkPaymentCompliance now paymentId sender recipient amount rs
             t1 t2 s ;;
      Ok (fst r)
  | AddToSanctionsList h => addToSanctionsList caller h s
  | BulkAddToSanctionsList hs => bulkAddToSanctionsList caller hs s
  | RemoveFromSanctionsList h => removeFromSanctionsList caller h s
  | AddRestrictedJurisdiction j => addRestrictedJurisdiction caller j s
  | RemoveRestrictedJurisdiction j => removeRestrictedJurisdiction caller j s
  | SetTravelRuleThreshold t => setTravelRuleThreshold caller t s
  | SetTierLimits tier daily monthly singleTx =>
      setTierLimits caller tier daily monthly singleTx s
  | GrantRole role account => grantRole caller role account s
  | RevokeRole role account => revokeRole caller role account s
  | RenounceRole role => renounceRole caller role s
  end.

Definition Tx : Type := address * uint256 * Call.

Fixpoint run (txs : list Tx) (s : State) : State :=
  match txs with
  | [] => s
  | (caller, now, c) :: rest => run rest (commit s (step caller now c s))
  end.

(** No call of the sequence is a [verifyEntity] of [entity] made by a
    holder of [KYC_VERIFIER]. *)
Fixpoint neverVerified (entity : address) (txs : list Tx) (s : State)
  : Prop :=
  match txs with
  | [] => True
  | (caller, now, c) :: rest =>
      (forall tier h j pep risk period,
          c = VerifyEntity entity tier h j pep risk period ->
          roles s KYC_VERIFIER caller = false)
      /\ neverVerified entity rest (commit s (step caller now c s))
  end.

(** No call of the sequence is a [clearEntity] of [entity] made by a
    holder of [COMPLIANCE_OFFICER]. *)
Fixpoint neverCleared (entity : address) (txs : list Tx) (s : State)
  : Prop :=
  match txs with
  | [] => True
  | (caller, now, c) :: rest =>
      (c = ClearEntity entity -> roles s COMPLIANCE_OFFICER caller = false)
      /\ neverCleared entity rest (commit s (step caller now c s))
  end.

(** *** Examples *)

(** [standardState] after the identity hash 78 of entity 60 is put on the
    sanctions list. *)
Definition listedState : State :=
  commit ComplianceSpec.standardState
    (addToSanctionsList 1 78 ComplianceSpec.standardState).

(** [standardState] after entity 60 is sanctioned by the officer. *)
Definition sanctionedState : State :=
  commit ComplianceSpec.standardState
    (sanctionEntity 1 60 ComplianceSpec.standardState).

(** Entity 60 is verified anew, the limits are raised and checks are
    made; a clearing is attempted by account 9, which holds no role. *)
Definition busyTrace : list Tx :=
  [ (1, 1700000020, VerifyEntity 60 ENHANCED 78 "FR" false 10 31536000);
    (1, 1700000021, UpgradeEntity 60 INSTITUTIONAL);
    (9, 1700000022, ClearEntity 60);
    (1, 1700000023, ClearEntity 61);
    (5, 1700000024, CheckPaymentCompliance 3 60 61 5 false NONE NONE);
    (1, 1700000025, SetTierLimits NONE 7 7 7);
    (1, 1700000026, GrantRole KYC_VERIFIER 9) ].

End ComplianceCalls.

(* ---------------------------------------------------------------------- *)
(** ** Further vocabulary and examples: SmartEscrow                        *)
(* ---------------------------------------------------------------------- *)

Module EscrowExamples.

Import SmartEscrow EscrowSpec.

(** The release conditions the contract can create an escrow with. *)
Definition creatable (c : ReleaseCondition) : bool :=
  match c with
  | TIME_BASED | APPROVAL => true
  | ORACLE | MULTI_SIG => false
  end.

(** The fee is at most 50 basis points and every stored escrow has a
    release condition the contract can create. *)
Definition wellFormed (s : State) : Prop :=
  escrowFeeBps s <= 50
  /\ forall id, creatable (Escrow.conditionType (escrows s id)) = true.

(** What the creation of escrow [id] out of [amount] units deposited by
    [sender] has recorded: the escrowed amount and the fee add up to the
    deposit, the fee is at most one two-hundredth of it, the escrow is
    active, and the value locked has grown by the escrowed amount; the
    contract's balance has grown by the escrowed amount as well, unless
    the contract is itself the depositor or the fee recipient. *)
Definition createdAs (w w' : World) (sender beneficiary token : address)
  (amount : uint256) (conditionType : ReleaseCondition) (id : bytes32)
  : Prop :=
  let e := escrows (st w') id in
  Escrow.escrowId e = id
  /\ Escrow.amount e + Escrow.fee e = amount
  /\ 0 <= Escrow.fee e
  /\ 200 * Escrow.fee e <= amount
  /\ Escrow.status e = ACTIVE
  /\ Escrow.depositor e = sender
  /\ Escrow.beneficiary e = beneficiary
  /\ Escrow.token e = token
  /\ Escrow.conditionType e = conditionType
  /\ totalValueLocked (st w') = totalValueLocked (st w) + Escrow.amount e
  /\ totalEscrowsCreated (st w') = totalEscrowsCreated (st w) + 1
  /\ escrowIds (st w') = escrowIds (st w) ++ [id]
  /\ (sender <> this (st w) ->
      feeRecipient (st w) <> this (st w) ->
      ERC20.balanceOf (ledger w') token (this (st w))
      = ERC20.balanceOf (ledger w) token (this (st w)) + Escrow.amount e).

(** Depositor 10 locks 100000 units for beneficiary 20 in an escrow
    released by approval. *)
Definition approvalTrace : list Tx :=
  [ (10, 1700000000, CreateApprovalEscrow 5 20 800 100000 3600 "goods") ].

Definition approvalWorld : World :=
  fst (run toyHash approvalTrace fundedWorld).

Definition approvalEscrow : bytes32 :=
  escrowIdOf toyHash 10 20 800 100000 1700000000 0.

End EscrowExamples.

(* ---------------------------------------------------------------------- *)
(** ** Further vocabulary and examples: PayFlowCore                        *)
(* ---------------------------------------------------------------------- *)

Module PayFlowExamples.

Import PayFlowCore PayFlowSpec.

(** The fee is at most 100 basis points and no stored amount is
    negative. *)
Definition feeBounded (s : State) : Prop :=
  protocolFeeBps s <= 100
  /\ forall q, 0 <= Payment.amount (payments s q).

(** What the caller of a payment function sees: the settlement transfers
    made, or the revert. *)
Definition outcome (r : Result (World * list Settlement))
  : Result (list Settlement) :=
  x <- r ;; Ok (snd x).

Definition withPaused (b : bool) (w : World) : World :=
  mkWorld (set_paused b (st w)) (ledger w) (auditAccepts w).

(** Conditions asking for two approvals out of the approvers 31, 32
    and 33. *)
Definition twoOfThree : PaymentConditions.t :=
  PaymentConditions.mk ComplianceEngine.NONE ComplianceEngine.NONE false
    0 0 false 0 2 [31; 32; 33] false 0 0.

(** [freshWorld] with token 800 supported. *)
Definition readyWorld : World :=
  fst (run toyHash [(1, 1700000000, AddSupportedToken 800)] freshWorld).

(** Payer 10 creates a payment of 5000 of token 800 to 20 that waits
    for two approvals. *)
Definition heldPayment : bytes32 :=
  paymentIdOf toyHash 10 20 800 5000 1700000100 0.

Definition heldWorld : World :=
  fst (run toyHash
         [(10, 1700000100, CreatePayment 20 800 5000 twoOfThree 0 "held")]
         readyWorld).

(** A plain payment of 5000 of token 800 from 10 to 20. *)
Definition plainPayment : bytes32 :=
  paymentIdOf toyHash 10 20 800 5000 1700000100 0.

Definition plainWorld : World :=
  fst (run toyHash
         [(10, 1700000100,
           CreatePayment 20 800 5000 PaymentConditions.zero 0 "plain")]
         readyWorld).

(** [heldWorld] after a cross-border payment of 5000 units of token 801
    into token 800, from payer 11 to account 21, has been created and
    executed: the contract has paid the 4995 units of token 800 that the
    recipient is due, and the fee, out of the 5000 units it held for
    [heldPayment]. *)
Definition drainingTrace : list Tx :=
  [ (1, 1700000110, AddSupportedToken 801);
    (11, 1700000120,
     CreateCrossBorderPayment 21 801 5000 800 5000 PaymentConditions.zero 0
       "fx");
    (30, 1700000130,
     ExecutePayment (crossBorderIdOf toyHash 11 21 801 800 5000 1700000120 1)) ].

Definition drainedWorld : World :=
  fst (run toyHash drainingTrace
         (mkWorld (st heldWorld)
            (ERC20.set_allowance 801 11 700 MAX_UINT256
               (ERC20.set_balance 801 11 5000 (ledger heldWorld)))
            (auditAccepts heldWorld))).

(** [pendingWorld] after the contract's holding of token 801 has gone. *)
Definition dryWorld : World :=
  mkWorld (st pendingWorld)
    (ERC20.set_balance 801 700 0 (ledger pendingWorld))
    (auditAccepts pendingWorld).

(** Fee changes attempted above the cap and within it, a pause, and a
    payment attempted while paused. *)
Definition treasuryTrace : list Tx :=
  [ (1, 1700000010, SetProtocolFee 101);
    (1, 1700000011, SetProtocolFee 100);
    (1, 1700000012, Pause);
    (10, 1700000013,
     CreatePayment 20 800 500 PaymentConditions.zero 0 "paused") ].

(** [pendingWorld] after the fee is raised to its cap and the contract
    is paused. *)
Definition pausedWorld : World :=
  fst (run toyHash treasuryTrace pendingWorld).

End PayFlowExamples.

(* ---------------------------------------------------------------------- *)
(** ** AuditRegistry                                                       *)
(* ---------------------------------------------------------------------- *)

(** [block.number] is the explicit argument [blockNumber].  [keccak256]
    is kept abstract and applied to the list of the packed fields. *)
Module AuditRegistry.

Inductive Role := DEFAULT_ADMIN_ROLE | AUDITOR_ROLE | LOGGER_ROLE.

Definition Role_eqb (a b : Role) : bool :=
  match a, b with
  | DEFAULT_ADMIN_ROLE, DEFAULT_ADMIN_ROLE => true
  | AUDITOR_ROLE, AUDITOR_ROLE => true
  | LOGGER_ROLE, LOGGER_ROLE => true
  | _, _ => false
  end.

Inductive EventType :=
| PAYMENT_CREATED | PAYMENT_APPROVED | PAYMENT_EXECUTED | PAYMENT_FAILED
| PAYMENT_CANCELLED | PAYMENT_DISPUTED | COMPLIANCE_CHECK | SANCTIONS_CHECK
| KYC_VERIFICATION | ESCROW_CREATED | ESCROW_RELEASED | ESCROW_DISPUTED
| FX_CONVERSION | MULTI_SIG_APPROVAL | ALERT_RAISED | SYSTEM_EVENT.

(** The enum's underlying value, as [abi.encodePacked] writes it. *)
Definition eventValue (e : EventType) : Z :=
  match e with
  | PAYMENT_CREATED => 0 | PAYMENT_APPROVED => 1 | PAYMENT_EXECUTED => 2
  | PAYMENT_FAILED => 3 | PAYMENT_CANCELLED => 4 | PAYMENT_DISPUTED => 5
  | COMPLIANCE_CHECK => 6 | SANCTIONS_CHECK => 7 | KYC_VERIFICATION => 8
  | ESCROW_CREATED => 9 | ESCROW_RELEASED => 10 | ESCROW_DISPUTED => 11
  | FX_CONVERSION => 12 | MULTI_SIG_APPROVAL => 13 | ALERT_RAISED => 14
  | SYSTEM_EVENT => 15
  end.

Definition EventType_eqb (a b : EventType) : bool :=
  eventValue a =? eventValue b.

Inductive Severity := INFO | WARNING | CRITICAL | ALERT.

Definition severityValue (v : Severity) : Z :=
  match v with
  | INFO => 0 | WARNING => 1 | CRITICAL => 2 | ALERT => 3
  end.

Definition Severity_eqb (a b : Severity) : bool :=
  severityValue a =? severityValue b.

Module AuditEntry.
Record t := mk {
  entryId : bytes32;
  paymentId : bytes32;
  eventType : EventType;
  severity : Severity;
  actor : address;
  subject : address;
  dataHash : bytes32;
  description : string;
  amount : uint256;
  token : address;
  travelRuleApplied : bool;
  travelRuleDataHash : bytes32;
  timestamp : uint256;
  blockNumber : uint256;
  jurisdiction : string
}.
Definition zero : t :=
  mk 0 0 PAYMENT_CREATED INFO 0 0 0 "" 0 0 false 0 0 0 "".
End AuditEntry.

Record State := mkState {
  roles : Role -> address -> bool;
  entries : bytes32 -> AuditEntry.t;
  allEntries : list bytes32;
  paymentAuditTrail : bytes32 -> list bytes32;
  actorAuditTrail : address -> list bytes32;
  typeAuditTrail : EventType -> list bytes32;
  jurisdictionTrail : string -> list bytes32;
  totalEntries : uint256;
  entriesByType : EventType -> uint256;
  entriesBySeverity : Severity -> uint256;
  authorizedLoggers : address -> bool
}.

Definition updType {V : Type} (m : EventType -> V) (k : EventType) (v : V)
  : EventType -> V :=
  fun k' => if EventType_eqb k' k then v else m k'.

Definition updSeverity {V : Type} (m : Severity -> V) (k : Severity) (v : V)
  : Severity -> V :=
  fun k' => if Severity_eqb k' k then v else m k'.

Definition updString {V : Type} (m : string -> V) (k : string) (v : V)
  : string -> V :=
  fun k' => if String.eqb k' k then v else m k'.

Definition onlyRole (role : Role) (sender : address) (s : State) : Result unit :=
  require (roles s role sender) "AccessControlUnauthorizedAccount".

Definition constructor (sender : address) : State :=
  mkState (fun _ a => a =? sender) (fun _ => AuditEntry.zero) []
    (fun _ => []) (fun _ => []) (fun _ => []) (fun _ => []) 0
    (fun _ => 0) (fun _ => 0) (fun a => a =? sender).

(** *** Logging *)

Section Hashing.

Variable keccak256 : list Z -> bytes32.

Definition entryIdOf (paymentId : bytes32) (eventType : EventType)
  (actor : address) (now total : uint256) : bytes32 :=
  keccak256 [paymentId; eventValue eventType; actor; now; total].

Definition travelRuleIdOf (paymentId travelRuleDataHash : bytes32)
  (now : uint256) : bytes32 :=
  keccak256 [paymentId; eventValue COMPLIANCE_CHECK; travelRuleDataHash; now].

Definition logEntry (sender : address) (now blockNumber : uint256)
  (paymentId : bytes32) (eventType : EventType) (severity : Severity)
  (actor subject : address) (dataHash : bytes32) (description : string)
  (amount : uint256) (token : address) (jurisdiction : string) (s : State)
  : Result (State * bytes32) :=
  onlyRole LOGGER_ROLE sender s ;;
  let entryId := entryIdOf paymentId eventType actor now (totalEntries s) in
  let old := entries s entryId in
  let entry :=
    AuditEntry.mk entryId paymentId eventType severity actor subject dataHash
      description amount token (AuditEntry.travelRuleApplied old)
      (AuditEntry.travelRuleDataHash old) now blockNumber jurisdiction in
  (* Index *)
  let byJurisdiction :=
    if (0 <? String.length jurisdiction)%nat
    then updString (jurisdictionTrail s) jurisdiction
           (jurisdictionTrail s jurisdiction ++ [entryId])
    else jurisdictionTrail s in
  (* Stats *)
  total <- add (totalEntries s) 1 ;;
  ofType <- add (entriesByType s eventType) 1 ;;
  ofSeverity <- add (entriesBySeverity s severity) 1 ;;
  Ok (mkState (roles s) (upd (entries s) entryId entry)
        (allEntries s ++ [entryId])
        (upd (paymentAuditTrail s) paymentId
           (paymentAuditTrail s paymentId ++ [entryId]))
        (upd (actorAuditTrail s) actor (actorAuditTrail s actor ++ [entryId]))
        (updType (typeAuditTrail s) eventType
           (typeAuditTrail s eventType ++ [entryId]))
        byJurisdiction total
        (updType (entriesByType s) eventType ofType)
        (updSeverity (entriesBySeverity s) severity ofSeverity)
        (authorizedLoggers s),
      entryId).

Definition _logSimple (now blockNumber : uint256) (paymentId : bytes32)
  (eventType : EventType) (severity : Severity) (actor subject : address)
  (amount : uint256) (token : address) (description jurisdiction : string)
  (s : State) : Result (State * bytes32) :=
  let entryId := entryIdOf paymentId eventType actor now (totalEntries s) in
  let old := entries s entryId in
  let entry :=
    AuditEntry.mk entryId paymentId eventType severity actor subject
      (AuditEntry.dataHash old) description amount token
      (AuditEntry.travelRuleApplied old) (AuditEntry.travelRuleDataHash old)
      now blockNumber jurisdiction in
  total <- add (totalEntries s) 1 ;;
  ofType <- add (entriesByType s eventType) 1 ;;
  ofSeverity <- add (entriesBySeverity s severity) 1 ;;
  Ok (mkState (roles s) (upd (entries s) entryId entry)
        (allEntries s ++ [entryId])
        (upd (paymentAuditTrail s) paymentId
           (paymentAuditTrail s paymentId ++ [entryId]))
        (upd (actorAuditTrail s) actor (actorAuditTrail s actor ++ [entryId]))
        (updType (typeAuditTrail s) eventType
           (typeAuditTrail s eventType ++ [entryId]))
        (jurisdictionTrail s) total
        (updType (entriesByType s) eventType ofType)
        (updSeverity (entriesBySeverity s) severity ofSeverity)
        (authorizedLoggers s),
      entryId).

Definition logPaymentCreated (sender : address) (now blockNumber : uint256)
  (paymentId : bytes32) (payer recipient : address) (amount : uint256)
  (token : address) (jurisdiction : string) (s : State)
  : Result (State * bytes32) :=
  onlyRole LOGGER_ROLE sender s ;;
  _logSimple now blockNumber paymentId PAYMENT_CREATED INFO payer recipient
    amount token "Payment created" jurisdiction s.

(** The first loop of [_uint2str]: [while (j != 0) { length++; j /= 10; }].
    The loops of [_uint2str] are run for at most [fuel] rounds; the bit
    length of the argument is more than they take. *)
Fixpoint countLoop (fuel : nat) (j length : uint256) : Result uint256 :=
  match fuel with
  | O => Ok length
  | S fuel' =>
      if j =? 0 then Ok length
      else
        length' <- add length 1 ;;
        countLoop fuel' (j / 10) length'
  end.

(** [uint8(x)] of a [uint256]. *)
Definition uint8 (x : uint256) : Z := x mod 256.

(** Checked addition in [uint8]. *)
Definition add8 (a b : Z) : Result Z :=
  if a + b <=? 255 then Ok (a + b) else Revert "Panic(0x11)".

Definition bytes1 (x : Z) : Ascii.ascii := Ascii.ascii_of_N (Z.to_N x).

(** The second loop: the digits are written from the last position
    backwards. *)
Fixpoint writeLoop (fuel : nat) (_i k : uint256) (bstr : list Ascii.ascii)
  : Result (list Ascii.ascii) :=
  match fuel with
  | O => Ok bstr
  | S fuel' =>
      if _i =? 0 then Ok bstr
      else
        k' <- sub k 1 ;;
        temp <- add8 48 (uint8 (_i - _i / 10 * 10)) ;;
        bstr' <- store bstr (Z.to_nat k') (bytes1 temp) ;;
        writeLoop fuel' (_i / 10) k' bstr'
  end.

Definition rounds (_i : uint256) : nat := S (Z.to_nat (Z.log2 _i)).

Definition _uint2str (_i : uint256) : Result string :=
  if _i =? 0 then Ok "0"%string
  else
    length <- countLoop (rounds _i) _i 0 ;;
    let bstr := repeat Ascii.zero (Z.to_nat length) in
    bstr' <- writeLoop (rounds _i) _i length bstr ;;
    Ok (string_of_list_ascii bstr').

Definition logPaymentExecuted (sender : address) (now blockNumber : uint256)
  (paymentId : bytes32) (payer recipient : address) (amount : uint256)
  (token : address) (settlementTime : uint256) (jurisdiction : string)
  (s : State) : Result (State * bytes32) :=
  onlyRole LOGGER_ROLE sender s ;;
  digits <- _uint2str settlementTime ;;
  let desc := ("Payment executed. Settlement time: " ++ digits
               ++ " seconds")%string in
  _logSimple now blockNumber paymentId PAYMENT_EXECUTED INFO payer recipient
    amount token desc jurisdiction s.

Definition logComplianceCheck (sender : address) (now blockNumber : uint256)
  (paymentId : bytes32) (entity : address) (passed : bool)
  (reason jurisdiction : string) (s : State) : Result (State * bytes32) :=
  onlyRole LOGGER_ROLE sender s ;;
  _logSimple now blockNumber paymentId COMPLIANCE_CHECK
    (if passed then INFO else WARNING) entity entity 0 0 reason jurisdiction
    s.

Definition logTravelRule (sender : address) (now blockNumber : uint256)
  (paymentId travelRuleDataHash : bytes32) (payer recipient : address)
  (amount : uint256) (jurisdiction : string) (s : State)
  : Result (State * bytes32) :=
  onlyRole LOGGER_ROLE sender s ;;
  let entryId := travelRuleIdOf paymentId travelRuleDataHash now in
  let old := entries s entryId in
  let entry :=
    AuditEntry.mk entryId paymentId COMPLIANCE_CHECK INFO payer recipient
      (AuditEntry.dataHash old) "Travel Rule data recorded" amount
      (AuditEntry.token old) true travelRuleDataHash now blockNumber
      jurisdiction in
  total <- add (totalEntries s) 1 ;;
  Ok (mkState (roles s) (upd (entries s) entryId entry)
        (allEntries s ++ [entryId])
        (upd (paymentAuditTrail s) paymentId
           (paymentAuditTrail s paymentId ++ [entryId]))
        (actorAuditTrail s) (typeAuditTrail s) (jurisdictionTrail s) total
        (entriesByType s) (entriesBySeverity s) (authorizedLoggers s),
      entryId).

End Hashing.

(** *** Queries *)

Fixpoint trailLoop (s : State) (entryIds : list bytes32) (count : nat)
  (i : uint256) : Result (list AuditEntry.t) :=
  match count with
  | O => Ok []
  | S count' =>
      id <- index entryIds (Z.to_nat i) ;;
      rest <- trailLoop s entryIds count' (i + 1) ;;
      Ok (entries s id :: rest)
  end.

Definition getPaymentAuditTrail (paymentId : bytes32) (s : State)
  : Result (list AuditEntry.t) :=
  let entryIds := paymentAuditTrail s paymentId in
  trailLoop s entryIds (List.length entryIds) 0.



Definition inWindow (s : State) (fromTimestamp toTimestamp : uint256)
  (id : bytes32) : bool :=
  (fromTimestamp <=? AuditEntry.timestamp (entries s id))
  && (AuditEntry.timestamp (entries s id) <=? toTimestamp).

(** The counting loop of [getJurisdictionEntries], from index [i] on. *)
Fixpoint matchLoop (s : State) (fromTimestamp toTimestamp limit : uint256)
  (entryIds : list bytes32) (matchCount : uint256) : uint256 :=
  match entryIds with
  | [] => matchCount
  | id :: rest =>
      if matchCount <? limit then
        if inWindow s fromTimestamp toTimestamp id
        then matchLoop s fromTimestamp toTimestamp limit rest (matchCount + 1)
        else matchLoop s fromTimestamp toTimestamp limit rest matchCount
      else matchCount
  end.

(** The filling loop of [getJurisdictionEntries], from index [i] on. *)
Fixpoint fillLoop (s : State) (fromTimestamp toTimestamp matchCount : uint256)
  (entryIds : list bytes32) (index_ : uint256) (result : list AuditEntry.t)
  : Result (list AuditEntry.t) :=
  match entryIds with
  | [] => Ok result
  | id :: rest =>
      if index_ <? matchCount then
        if inWindow s fromTimestamp toTimestamp id then
          result' <- store result (Z.to_nat index_) (entries s id) ;;
          fillLoop s fromTimestamp toTimestamp matchCount rest (index_ + 1)
            result'
        else fillLoop s fromTimestamp toTimestamp matchCount rest index_ result
      else Ok result
  end.

Definition getJurisdictionEntries (jurisdiction : string)
  (fromTimestamp toTimestamp limit : uint256) (s : State)
  : Result (list AuditEntry.t) :=
  let entryIds := jurisdictionTrail s jurisdiction in
  let matchCount :=
    matchLoop s fromTimestamp toTimestamp limit entryIds 0 in
  let result := repeat AuditEntry.zero (Z.to_nat matchCount) in
  fillLoop s fromTimestamp toTimestamp matchCount entryIds 0 result.

Definition getEntry (entryId : bytes32) (s : State) : AuditEntry.t :=
  entries s entryId.


Definition getStatistics (s : State)
  : uint256 * uint256 * uint256 * uint256 :=
  (totalEntries s, entriesByType s PAYMENT_EXECUTED,
   entriesByType s COMPLIANCE_CHECK, entriesBySeverity s ALERT).

Definition getPaymentTrailLength (paymentId : bytes32) (s : State) : uint256 :=
  Z.of_nat (List.length (paymentAuditTrail s paymentId)).

(** *** Administration *)

Definition set_access (r : Role -> address -> bool) (a : address -> bool)
  (s : State) : State :=
  mkState r (entries s) (allEntries s) (paymentAuditTrail s)
    (actorAuditTrail s) (typeAuditTrail s) (jurisdictionTrail s)
    (totalEntries s) (entriesByType s) (entriesBySeverity s) a.

Definition grant (role : Role) (a : address) (s : State)
  : Role -> address -> bool :=
  fun r x => if Role_eqb r role && (x =? a) then true else roles s r x.

Definition revoke (role : Role) (a : address) (s : State)
  : Role -> address -> bool :=
  fun r x => if Role_eqb r role && (x =? a) then false else roles s r x.

Definition authorizeLogger (sender logger : address) (s : State)
  : Result State :=
  onlyRole DEFAULT_ADMIN_ROLE sender s ;;
  Ok (set_access (grant LOGGER_ROLE logger s)
        (upd (authorizedLoggers s) logger true) s).

Definition revokeLogger (sender logger : address) (s : State)
  : Result State :=
  onlyRole DEFAULT_ADMIN_ROLE sender s ;;
  Ok (set_access (revoke LOGGER_ROLE logger s)
        (upd (authorizedLoggers s) logger false) s).

(** Role administration inherited from AccessControl. *)
Definition grantRole (sender : address) (role : Role) (account : address)
  (s : State) : Result State :=
  onlyRole DEFAULT_ADMIN_ROLE sender s ;;
  Ok (set_access (grant role account s) (authorizedLoggers s) s).

Definition revokeRole (sender : address) (role : Role) (account : address)
  (s : State) : Result State :=
  onlyRole DEFAULT_ADMIN_ROLE sender s ;;
  Ok (set_access (revoke role account s) (authorizedLoggers s) s).

Definition renounceRole (sender : address) (role : Role) (s : State)
  : Result State :=
  Ok (set_access (revoke role sender s) (authorizedLoggers s) s).

(** *** The call interface *)

Inductive Call :=
| LogEntry (paymentId : bytes32) (eventType : EventType) (severity : Severity)
    (actor subject : address) (dataHash : bytes32) (description : string)
    (amount : uint256) (token : address) (jurisdiction : string)
| LogPaymentCreated (paymentId : bytes32) (payer recipient : address)
    (amount : uint256) (token : address) (jurisdiction : string)
| LogPaymentExecuted (paymentId : bytes32) (payer recipient : address)
    (amount : uint256) (token : address) (settlementTime : uint256)
    (jurisdiction : string)
| LogComplianceCheck (paymentId : bytes32) (entity : address) (passed : bool)
    (reason jurisdiction : string)
| LogTravelRule (paymentId travelRuleDataHash : bytes32)
    (payer recipient : address) (amount : uint256) (jurisdiction : string)
| AuthorizeLogger (logger : address)
| RevokeLogger (logger : address)
| GrantRole (role : Role) (account : address)
| RevokeRole (role : Role) (account : address)
| RenounceRole (role : Role).

Definition logged (r : Result (State * bytes32)) : Result State :=
  x <- r ;; Ok (fst x).

Definition step (keccak256 : list Z -> bytes32) (sender : address)
  (now blockNumber : uint256) (c : Call) (s : State) : Result State :=
  match c with
  | LogEntry paymentId eventType severity actor subject dataHash description
      amount token jurisdiction =>
      logged (logEntry keccak256 sender now blockNumber paymentId eventType
                severity actor subject dataHash description amount token
                jurisdiction s)
  | LogPaymentCreated paymentId payer recipient amount token jurisdiction =>
      logged (logPaymentCreated keccak256 sender now blockNumber paymentId
                payer recipient amount token jurisdiction s)
  | LogPaymentExecuted paymentId payer recipient amount token settlementTime
      jurisdiction =>
      logged (logPaymentExecuted keccak256 sender now blockNumber paymentId
                payer recipient amount token settlementTime jurisdiction s)
  | LogComplianceCheck paymentId entity passed reason jurisdiction =>
      logged (logComplianceCheck keccak256 sender now blockNumber paymentId
                entity passed reason jurisdiction s)
  | LogTravelRule paymentId travelRuleDataHash payer recipient amount
      jurisdiction =>
      logged (logTravelRule keccak256 sender now blockNumber paymentId
                travelRuleDataHash payer recipient amount jurisdiction s)
  | AuthorizeLogger logger => authorizeLogger sender logger s
  | RevokeLogger logger => revokeLogger sender logger s
  | GrantRole role account => grantRole sender role account s
  | RevokeRole role account => revokeRole sender role account s
  | RenounceRole role => renounceRole sender role s
  end.

(** A transaction: who calls, at which time, in which block, and what. *)
Definition Tx : Type := address * uint256 * uint256 * Call.

Fixpoint run (keccak256 : list Z -> bytes32) (txs : list Tx) (s : State)
  : State :=
  match txs with
  | [] => s
  | (sender, now, blockNumber, c) :: rest =>
      run keccak256 rest
        (commit s (step keccak256 sender now blockNumber c s))
  end.

End AuditRegistry.

Module AuditSpec.

Import AuditRegistry.

(** The value of a string of decimal digits, most significant first. *)
Fixpoint decimalValue (acc : Z) (digits : list Ascii.ascii) : Z :=
  match digits with
  | [] => acc
  | c :: rest =>
      decimalValue (10 * acc + (Z.of_N (Ascii.N_of_ascii c) - 48)) rest
  end.

Definition isDigit (c : Ascii.ascii) : bool :=
  (48 <=? Z.of_N (Ascii.N_of_ascii c)) && (Z.of_N (Ascii.N_of_ascii c) <=? 57).

(** The decimal digits of [n], most significant first, computed in at
    most [fuel] divisions. *)
Fixpoint decimal (fuel : nat) (n : Z) : list Ascii.ascii :=
  match fuel with
  | O => []
  | S fuel' =>
      if n =? 0 then []
      else decimal fuel' (n / 10) ++ [bytes1 (48 + n mod 10)]
  end.

(** The registry as deployed by account 1, and a few entries logged by
    it: two through [logEntry], in "US" and without jurisdiction, one
    through [logPaymentCreated] and two travel-rule records of the same
    payment, data hash and time. *)
Definition toyHash : list Z -> bytes32 := EscrowSpec.toyHash.

Definition auditTrace : list Tx :=
  [ (1, 1700000000, 100,
     LogEntry 5 PAYMENT_CREATED INFO 10 20 0 "created" 1000 800 "US");
    (1, 1700000010, 101,
     LogEntry 5 PAYMENT_APPROVED INFO 10 20 0 "approved" 1000 800 "");
    (1, 1700000020, 102, LogPaymentCreated 6 10 20 500 800 "US");
    (1, 1700000030, 103, LogTravelRule 5 77 10 20 1000 "US");
    (1, 1700000030, 103, LogTravelRule 5 77 11 21 9 "DE");
    (1, 1700000040, 104,
     LogEntry 7 ALERT_RAISED ALERT 10 20 0 "alert" 0 0 "US") ].

Definition auditState : State := run toyHash auditTrace (constructor 1).

(** The state after the first two entries of the trace, and a later
    call of [logPaymentCreated] with a jurisdiction. *)
Definition twoLogged : State :=
  run toyHash (firstn 2 auditTrace) (constructor 1).

Definition createdLater : list Tx :=
  [ (1, 1700000020, 102, LogPaymentCreated 6 10 20 500 800 "US") ].

(** [after] is [before] with elements appended. *)
Definition extends {A : Type} (before after : list A) : Prop :=
  exists more, after = before ++ more.

Definition grows (s s' : State) : Prop :=
  extends (allEntries s) (allEntries s')
  /\ (forall paymentId,
         extends (paymentAuditTrail s paymentId)
           (paymentAuditTrail s' paymentId))
  /\ (forall actor,
         extends (actorAuditTrail s actor) (actorAuditTrail s' actor))
  /\ (forall eventType,
         extends (typeAuditTrail s eventType) (typeAuditTrail s' eventType))
  /\ (forall jurisdiction,
         extends (jurisdictionTrail s jurisdiction)
           (jurisdictionTrail s' jurisdiction)).

Definition isLogEntry (c : Call) : bool :=
  match c with
  | LogEntry _ _ _ _ _ _ _ _ _ _ => true
  | _ => false
  end.

Definition entriesCounted (s : State) : Prop :=
  totalEntries s = Z.of_nat (List.length (allEntries s)).

End AuditSpec.

(* ====================================================================== *)
(** * Part II: properties                                                  *)
(* ====================================================================== *)

(** ** The error monad *)

Lemma bind_Ok {A B : Type} (c : Result A) (k : A -> Result B) (b : B) :
  bind c k = Ok b -> exists a, c = Ok a /\ k a = Ok b.
Proof.
  destruct c as [a|r]; simpl; intros H; [exists a; auto | discriminate].
Qed.

Lemma require_Ok (cond : bool) (reason : string) (u : unit) :
  require cond reason = Ok u -> cond = true.
Proof. destruct cond; simpl; [reflexivity | discriminate]. Qed.

Lemma checked_Ok (z r : Z) :
  checked z = Ok r -> r = z /\ 0 <= z <= MAX_UINT256.
Proof.
  unfold checked. destruct (0 <=? z) eqn:H0; simpl; try discriminate.
  destruct (z <=? MAX_UINT256) eqn:H1; try discriminate.
  intros H; inversion H; subst. apply Z.leb_le in H0, H1. lia.
Qed.

Lemma checked_in_range (z : Z) :
  0 <= z <= MAX_UINT256 -> checked z = Ok z.
Proof.
  intros [H0 H1]. unfold checked.
  apply Z.leb_le in H0, H1. rewrite H0, H1. reflexivity.
Qed.

Lemma upd_same {V : Type} (m : Z -> V) (k : Z) (v : V) : upd m k v k = v.
Proof. unfold upd. rewrite Z.eqb_refl. reflexivity. Qed.

Lemma upd_other {V : Type} (m : Z -> V) (k k' : Z) (v : V) :
  k' <> k -> upd m k v k' = m k'.
Proof. intros H. unfold upd. apply Z.eqb_neq in H. rewrite H. reflexivity. Qed.

(** Break a successful monadic computation into its successful steps. *)
Ltac inv_ok :=
  repeat match goal with
  | H : bind _ _ = Ok _ |- _ =>
      let a := fresh "a" in
      let Ha := fresh "Ha" in
      apply bind_Ok in H; destruct H as [a [Ha H]]
  | H : require _ _ = Ok _ |- _ => apply require_Ok in H
  | H : Ok _ = Ok _ |- _ => inversion H; subst; clear H
  | H : Revert _ = Ok _ |- _ => discriminate H
  end.

(** ** OracleAggregator: the circuit breaker *)

Module OracleProps.

Import OracleAggregator OracleSpec OracleExamples.

(** The deviation [_calculateDeviation] computes, when its product fits. *)
Lemma calculateDeviation_value (oldRate newRate : uint256) :
  0 < oldRate ->
  Z.abs (newRate - oldRate) * 10000 <= MAX_UINT256 ->
  _calculateDeviation oldRate newRate
  = Ok (Z.abs (newRate - oldRate) * 10000 / oldRate).
Proof.
  intros Hold Hfit. unfold _calculateDeviation.
  assert (E : (oldRate =? 0) = false) by (apply Z.eqb_neq; lia).
  rewrite E.
  destruct (Z.ltb_spec newRate oldRate) as [Hlt|Hge]; unfold sub, mul, div.
  - rewrite Z.abs_neq in * by lia.
    replace (- (newRate - oldRate)) with (oldRate - newRate) in * by lia.
    rewrite !checked_in_range by lia. cbn [bind].
    rewrite checked_in_range by lia. cbn [bind]. rewrite E. reflexivity.
  - rewrite Z.abs_eq in * by lia.
    rewrite !checked_in_range by lia. cbn [bind].
    rewrite checked_in_range by lia. cbn [bind]. rewrite E. reflexivity.
Qed.

(** [_calculateDeviation] panics when [diff * 10000] leaves [uint256]. *)
Lemma calculateDeviation_overflow (oldRate newRate : uint256) :
  0 < oldRate ->
  MAX_UINT256 < Z.abs (newRate - oldRate) * 10000 ->
  _calculateDeviation oldRate newRate = Revert "Panic(0x11)".
Proof.
  intros Hold Hbig. unfold _calculateDeviation.
  assert (E : (oldRate =? 0) = false) by (apply Z.eqb_neq; lia).
  rewrite E.
  assert (Hchk : forall z, checked z = Ok z \/ checked z = Revert "Panic(0x11)").
  { intros z. unfold checked.
    destruct ((0 <=? z) && (z <=? MAX_UINT256)); auto. }
  assert (Hmul : forall d, d = Z.abs (newRate - oldRate) ->
                           mul d 10000 = Revert "Panic(0x11)").
  { intros d ->. unfold mul, checked.
    assert (E1 : (Z.abs (newRate - oldRate) * 10000 <=? MAX_UINT256) = false)
      by (apply Z.leb_gt; exact Hbig).
    rewrite E1, andb_false_r. reflexivity. }
  destruct (Z.ltb_spec newRate oldRate) as [Hlt|Hge]; unfold sub.
  - destruct (Hchk (oldRate - newRate)) as [-> | ->]; [|reflexivity].
    cbn [bind]. rewrite Hmul by lia. reflexivity.
  - destruct (Hchk (newRate - oldRate)) as [-> | ->]; [|reflexivity].
    cbn [bind]. rewrite Hmul by lia. reflexivity.
Qed.

(** C9 (as the code has it). [updatePrice(pairId, rate, confidence)]
    reverts unless the caller holds [PRICE_UPDATER], the pair is active,
    the rate is positive and the confidence at most 100.  When these entry
    checks pass on a pair whose [currentRate] is positive, the deviation
    is the integer quotient of [|rate - currentRate| * 10000] by
    [currentRate], computed in checked arithmetic: if the product does not
    fit in 256 bits the call reverts with an arithmetic panic and trips
    nothing, however large the deviation; if it fits and the quotient
    exceeds the pair's [maxDeviation] (the trigger counter not being at its
    maximum), the call returns normally, sets the pair's
    [circuitBreakerTripped] flag and increments [circuitBreakerTriggers],
    and changes nothing else: the report is not stored in [oraclePrices],
    the oracle's source record, the pair's [currentRate], [lastUpdate],
    [rateHistory] and [timestamps], every other pair and every other
    counter are as before. *)
Theorem updatePrice_deviation_trips_only :
  forall (sender : address) (now : uint256) (pairId : bytes32)
         (rate confidence : uint256) (s : State),
    let current := CurrencyPair.currentRate (pairs s pairId) in
    let scaled := Z.abs (rate - current) * 10000 in
    (roles s PRICE_UPDATER sender = false ->
     updatePrice sender now pairId rate confidence s
     = Revert "AccessControlUnauthorizedAccount")
    /\ (roles s PRICE_UPDATER sender = true ->
        (CurrencyPair.isActive (pairs s pairId) = false ->
         updatePrice sender now pairId rate confidence s
         = Revert "Pair not active")
        /\ (CurrencyPair.isActive (pairs s pairId) = true ->
            (rate <= 0 ->
             updatePrice sender now pairId rate confidence s
             = Revert "Invalid rate")
            /\ (0 < rate ->
                (100 < confidence ->
                 updatePrice sender now pairId rate confidence s
                 = Revert "Invalid confidence")
                /\ (confidence <= 100 ->
                    0 < current ->
                    (MAX_UINT256 < scaled ->
                     updatePrice sender now pairId rate confidence s
                     = Revert "Panic(0x11)")
                    /\ (scaled <= MAX_UINT256 ->
                        CurrencyPair.maxDeviation (pairs s pairId)
                          < scaled / current ->
                        0 <= circuitBreakerTriggers s < MAX_UINT256 ->
                        exists s',
                          updatePrice sender now pairId rate confidence s
                          = Ok s'
                          /\ CurrencyPair.circuitBreakerTripped
                               (pairs s' pairId) = true
                          /\ circuitBreakerTriggers s'
                             = circuitBreakerTriggers s + 1
                          /\ oraclePrices s' = oraclePrices s
                          /\ oracleSources s' = oracleSources s
                          /\ CurrencyPair.currentRate (pairs s' pairId)
                             = CurrencyPair.currentRate (pairs s pairId)
                          /\ CurrencyPair.lastUpdate (pairs s' pairId)
                             = CurrencyPair.lastUpdate (pairs s pairId)
                          /\ CurrencyPair.rateHistory (pairs s' pairId)
                             = CurrencyPair.rateHistory (pairs s pairId)
                          /\ CurrencyPair.timestamps (pairs s' pairId)
                             = CurrencyPair.timestamps (pairs s pairId)
                          /\ pairs s' pairId
                             = CurrencyPair.set_circuitBreakerTripped true
                                 (pairs s pairId)
                          /\ (forall other, other <> pairId ->
                                            pairs s' other = pairs s other)
                          /\ roles s' = roles s
                          /\ activePairs s' = activePairs s
                          /\ activeOracles s' = activeOracles s
                          /\ stalenessThreshold s' = stalenessThreshold s
                          /\ defaultTwapPeriod s' = defaultTwapPeriod s
                          /\ defaultMaxDeviation s' = defaultMaxDeviation s
                          /\ minOracleCount s' = minOracleCount s
                          /\ totalPriceUpdates s' = totalPriceUpdates s
                          /\ totalQueries s' = totalQueries s))))).
Proof.
  intros sender now pairId rate confidence s current scaled.
  subst current scaled.
  unfold updatePrice, onlyRole.
  split; [intros ->; reflexivity|].
  intros ->. cbn [require bind].
  split; [intros ->; reflexivity|].
  intros ->. cbn [require bind].
  split.
  { intros Hrate. apply Z.ltb_ge in Hrate. rewrite Hrate. reflexivity. }
  intros Hrate. apply Z.ltb_lt in Hrate. rewrite Hrate. cbn [require bind].
  split.
  { intros Hconf. apply Z.leb_gt in Hconf. rewrite Hconf. reflexivity. }
  intros Hconf Hcur. apply Z.leb_le in Hconf. rewrite Hconf.
  cbn [require bind].
  pose proof Hcur as Hcur'. apply Z.ltb_lt in Hcur'. rewrite Hcur'.
  split.
  - intros Hbig. rewrite calculateDeviation_overflow by assumption.
    reflexivity.
  - intros Hfit Hmax Htrig.
    rewrite calculateDeviation_value by assumption. cbn [bind].
    apply Z.ltb_lt in Hmax. rewrite Hmax.
    unfold add. rewrite checked_in_range by lia. cbn [bind].
    eexists. split; [reflexivity|].
    simpl. rewrite upd_same. simpl.
    repeat split; try reflexivity.
    intros other Hother. apply upd_other; assumption.
Qed.

(** Oracle 11 submits 200 against the rate 175 of [twoOracleState], which
    is 1428 basis points off: the breaker trips, the rate and its history
    stay.  The same oracle submitting [2 ^ 255] makes the product overflow:
    the call reverts. *)
Lemma updatePrice_deviation_trips_only_witness :
  (exists s',
      updatePrice 11 1700000200 usdEur 200 100 twoOracleState = Ok s'
      /\ CurrencyPair.circuitBreakerTripped (pairs s' usdEur) = true
      /\ circuitBreakerTriggers s' = 1
      /\ CurrencyPair.currentRate (pairs s' usdEur) = 175
      /\ CurrencyPair.rateHistory (pairs s' usdEur) = [0; 175]
      /\ oraclePrices s' usdEur 11 = PriceData.mk 100 1700000100 100 true)
  /\ updatePrice 11 1700000200 usdEur (2 ^ 255) 100 twoOracleState
     = Revert "Panic(0x11)"
  /\ updatePrice 9 1700000200 usdEur 200 100 twoOracleState
     = Revert "AccessControlUnauthorizedAccount".
Proof.
  split; [|split].
  - destruct (updatePrice_deviation_trips_only 11 1700000200 usdEur 200 100
                twoOracleState) as [_ Hrole].
    destruct (Hrole eq_refl) as [_ Hactive].
    destruct (Hactive eq_refl) as [_ Hrate].
    destruct (Hrate ltac:(lia)) as [_ Hconf].
    destruct (Hconf ltac:(lia)) as [_ Htrip]; [vm_compute; reflexivity|].
    destruct Htrip as [s' [H1 [H2 [H3 [H4 [_ [H6 [_ [H8 _]]]]]]]]].
    + vm_compute. discriminate.
    + vm_compute. reflexivity.
    + vm_compute. split; [discriminate | reflexivity].
    + exists s'. split; [exact H1|]. split; [exact H2|].
      split; [rewrite H3; reflexivity|].
      split; [rewrite H6; reflexivity|].
      split; [rewrite H8; reflexivity|].
      rewrite H4. reflexivity.
  - destruct (updatePrice_deviation_trips_only 11 1700000200 usdEur (2 ^ 255)
                100 twoOracleState) as [_ Hrole].
    destruct (Hrole eq_refl) as [_ Hactive].
    destruct (Hactive eq_refl) as [_ Hrate].
    destruct (Hrate ltac:(lia)) as [_ Hconf].
    destruct (Hconf ltac:(lia)) as [Hover _]; [vm_compute; reflexivity|].
    apply Hover. vm_compute. reflexivity.
  - destruct (updatePrice_deviation_trips_only 9 1700000200 usdEur 200 100
                twoOracleState) as [Hno _].
    apply Hno. reflexivity.
Defined.

(** C9, refuted as stated.  In [twoOracleState] the rate of USD/EUR is
    175 and [maxDeviation] 500 basis points.  Oracle 11, authorised,
    submits the rate [2 ^ 255] with confidence 100 to the active pair: the
    deviation is far beyond the band, yet the call reverts on the product
    [diff * 10000]; the breaker is not tripped and the trigger counter is
    not incremented. *)
Lemma deviation_overflow_counterexample :
  roles twoOracleState PRICE_UPDATER 11 = true
  /\ CurrencyPair.isActive (pairs twoOracleState usdEur) = true
  /\ CurrencyPair.currentRate (pairs twoOracleState usdEur) = 175
  /\ CurrencyPair.maxDeviation (pairs twoOracleState usdEur) = 500
  /\ 500 < (2 ^ 255 - 175) * 10000 / 175
  /\ 0 < 2 ^ 255 <= MAX_UINT256
  /\ updatePrice 11 1700000200 usdEur (2 ^ 255) 100 twoOracleState
     = Revert "Panic(0x11)"
  /\ CurrencyPair.circuitBreakerTripped
       (pairs (commit twoOracleState
                 (updatePrice 11 1700000200 usdEur (2 ^ 255) 100
                    twoOracleState)) usdEur) = false
  /\ circuitBreakerTriggers
       (commit twoOracleState
          (updatePrice 11 1700000200 usdEur (2 ^ 255) 100 twoOracleState))
     = 0.
Proof.
  vm_compute. repeat split; try reflexivity; discriminate.
Qed.

(** ** OracleAggregator: the batch path *)

Lemma batchEntry_frame (sender : address) (now : uint256)
  (e : bytes32 * uint256 * uint256) (s : State) :
  let s' := batchEntry sender now e s in
  (forall q,
      CurrencyPair.isActive (pairs s' q) = CurrencyPair.isActive (pairs s q)
      /\ CurrencyPair.circuitBreakerTripped (pairs s' q)
         = CurrencyPair.circuitBreakerTripped (pairs s q)
      /\ CurrencyPair.rateHistory (pairs s' q)
         = CurrencyPair.rateHistory (pairs s q)
      /\ CurrencyPair.timestamps (pairs s' q)
         = CurrencyPair.timestamps (pairs s q)
      /\ CurrencyPair.maxDeviation (pairs s' q)
         = CurrencyPair.maxDeviation (pairs s q))
  /\ circuitBreakerTriggers s' = circuitBreakerTriggers s
  /\ totalPriceUpdates s' = totalPriceUpdates s
  /\ oracleSources s' = oracleSources s
  /\ roles s' = roles s.
Proof.
  destruct e as [[pairId rate] confidence]. unfold batchEntry.
  destruct (CurrencyPair.isActive (pairs s pairId) && (0 <? rate)); simpl;
    [|repeat split].
  split; [intros q | repeat split].
  unfold upd. destruct (q =? pairId) eqn:E; simpl; [|repeat split].
  apply Z.eqb_eq in E; subst. repeat split.
Qed.

Lemma batchEntry_effect (sender : address) (now : uint256)
  (e : bytes32 * uint256 * uint256) (s : State) (q : bytes32) :
  let s' := batchEntry sender now e s in
  let hit := (fst (fst e) =? q) && eligible s e in
  CurrencyPair.currentRate (pairs s' q)
  = (if hit then snd (fst e) else CurrencyPair.currentRate (pairs s q))
  /\ oraclePrices s' q sender
     = (if hit then PriceData.mk (snd (fst e)) now (snd e) true
        else oraclePrices s q sender).
Proof.
  destruct e as [[pairId rate] confidence]. unfold batchEntry, eligible.
  simpl.
  destruct (CurrencyPair.isActive (pairs s pairId) && (0 <? rate)); simpl.
  - rewrite Z.eqb_sym, andb_true_r. unfold upd.
    destruct (q =? pairId); simpl; [rewrite Z.eqb_refl|]; auto.
  - rewrite andb_false_r. auto.
Qed.

Lemma lastEligible_ext (s1 s2 : State) (q : bytes32)
  (entries : list (bytes32 * uint256 * uint256)) :
  (forall p, CurrencyPair.isActive (pairs s1 p)
             = CurrencyPair.isActive (pairs s2 p)) ->
  lastEligible s1 q entries = lastEligible s2 q entries.
Proof.
  intros Hact. induction entries as [|e rest IH]; simpl; [reflexivity|].
  rewrite IH. unfold eligible. rewrite Hact. reflexivity.
Qed.

Lemma batchLoop_frame (sender : address) (now : uint256)
  (entries : list (bytes32 * uint256 * uint256)) :
  forall s,
    let s' := batchLoop sender now entries s in
    (forall q,
        CurrencyPair.isActive (pairs s' q) = CurrencyPair.isActive (pairs s q)
        /\ CurrencyPair.circuitBreakerTripped (pairs s' q)
           = CurrencyPair.circuitBreakerTripped (pairs s q)
        /\ CurrencyPair.rateHistory (pairs s' q)
           = CurrencyPair.rateHistory (pairs s q)
        /\ CurrencyPair.timestamps (pairs s' q)
           = CurrencyPair.timestamps (pairs s q)
        /\ CurrencyPair.maxDeviation (pairs s' q)
           = CurrencyPair.maxDeviation (pairs s q))
    /\ circuitBreakerTriggers s' = circuitBreakerTriggers s
    /\ totalPriceUpdates s' = totalPriceUpdates s
    /\ oracleSources s' = oracleSources s
    /\ roles s' = roles s.
Proof.
  induction entries as [|e rest IH]; intros s; simpl.
  - repeat split.
  - destruct (IH (batchEntry sender now e s)) as [Hp [Ht [Hu [Ho Hr]]]].
    destruct (batchEntry_frame sender now e s) as [Hp' [Ht' [Hu' [Ho' Hr']]]].
    repeat split; try congruence;
      destruct (Hp q) as [A1 [A2 [A3 [A4 A5]]]];
      destruct (Hp' q) as [B1 [B2 [B3 [B4 B5]]]]; congruence.
Qed.

Lemma batchLoop_effect (sender : address) (now : uint256)
  (entries : list (bytes32 * uint256 * uint256)) (q : bytes32) :
  forall s,
    let s' := batchLoop sender now entries s in
    CurrencyPair.currentRate (pairs s' q)
    = match lastEligible s q entries with
      | Some (rate, _) => rate
      | None => CurrencyPair.currentRate (pairs s q)
      end
    /\ oraclePrices s' q sender
       = match lastEligible s q entries with
         | Some (rate, confidence) => PriceData.mk rate now confidence true
         | None => oraclePrices s q sender
         end.
Proof.
  induction entries as [|e rest IH]; intros s; simpl; [split; reflexivity|].
  destruct (IH (batchEntry sender now e s)) as [Hc Hp].
  rewrite Hc, Hp.
  rewrite (lastEligible_ext (batchEntry sender now e s) s q rest)
    by (intros p; apply (batchEntry_frame sender now e s)).
  destruct (lastEligible s q rest) as [[r c]|]; [split; reflexivity|].
  destruct (batchEntry_effect sender now e s q) as [Hc' Hp'].
  rewrite Hc', Hp'.
  destruct ((fst (fst e) =? q) && eligible s e); split; reflexivity.
Qed.

(** C10. In [batchUpdatePrices] every entry whose pair is active and whose
    rate is positive writes the submitted rate straight into the pair's
    [currentRate] (and the submitted confidence, whatever its value, into
    the caller's report).  A call by a price updater with arrays of equal
    length returns normally; afterwards each pair carries the rate of the
    last such entry for it, and no pair's circuit-breaker flag, rate
    history or timestamps, nor the trigger counter, has changed: no
    confidence validation, no deviation check, no weighted aggregation and
    no history append take place. *)
Theorem batchUpdatePrices_overwrites_directly :
  (forall (sender : address) (now : uint256) (pairId : bytes32)
          (rate confidence : uint256) (s : State),
      CurrencyPair.isActive (pairs s pairId) = true ->
      0 < rate ->
      let s' := batchEntry sender now (pairId, rate, confidence) s in
      CurrencyPair.currentRate (pairs s' pairId) = rate
      /\ oraclePrices s' pairId sender = PriceData.mk rate now confidence true)
  /\
  (forall (sender : address) (now : uint256) (pairIds : list bytes32)
          (rates confidences : list uint256) (s : State),
      roles s PRICE_UPDATER sender = true ->
      List.length pairIds = List.length rates ->
      List.length pairIds = List.length confidences ->
      0 <= totalPriceUpdates s ->
      totalPriceUpdates s + Z.of_nat (List.length pairIds) <= MAX_UINT256 ->
      let entries := combine (combine pairIds rates) confidences in
      exists s',
        batchUpdatePrices sender now pairIds rates confidences s = Ok s'
        /\ (forall q,
               CurrencyPair.currentRate (pairs s' q)
               = match lastEligible s q entries with
                 | Some (rate, _) => rate
                 | None => CurrencyPair.currentRate (pairs s q)
                 end)
        /\ (forall q,
               oraclePrices s' q sender
               = match lastEligible s q entries with
                 | Some (rate, confidence) =>
                     PriceData.mk rate now confidence true
                 | None => oraclePrices s q sender
                 end)
        /\ (forall q,
               CurrencyPair.circuitBreakerTripped (pairs s' q)
               = CurrencyPair.circuitBreakerTripped (pairs s q)
               /\ CurrencyPair.rateHistory (pairs s' q)
                  = CurrencyPair.rateHistory (pairs s q)
               /\ CurrencyPair.timestamps (pairs s' q)
                  = CurrencyPair.timestamps (pairs s q))
        /\ circuitBreakerTriggers s' = circuitBreakerTriggers s
        /\ oracleSources s' = oracleSources s
        /\ totalPriceUpdates s'
           = totalPriceUpdates s + Z.of_nat (List.length pairIds)).
Proof.
  split.
  - intros sender now pairId rate confidence s Hact Hrate s'.
    destruct (batchEntry_effect sender now (pairId, rate, confidence) s pairId)
      as [Hc Hp].
    subst s'. rewrite Hc, Hp. unfold eligible. simpl.
    apply Z.ltb_lt in Hrate. rewrite Z.eqb_refl, Hact, Hrate. auto.
  - intros sender now pairIds rates confidences s Hrole Hl1 Hl2 H0 Hmax entries.
    unfold batchUpdatePrices, onlyRole. rewrite Hrole. simpl.
    rewrite <- Hl1, <- Hl2, Nat.eqb_refl. simpl.
    fold entries.
    destruct (batchLoop_frame sender now entries s) as [Hp [Ht [Hu [Ho Hr]]]].
    rewrite Hu. unfold add. rewrite checked_in_range by lia. simpl.
    eexists. split; [reflexivity|]. simpl.
    split; [intros q; apply batchLoop_effect|].
    split; [intros q; apply batchLoop_effect|].
    split; [intros q; destruct (Hp q) as [_ [A [B [C _]]]]; auto|].
    repeat split; assumption.
Qed.

(** A batch of two entries for USD/EUR on [twoOracleState] (rate 175,
    [maxDeviation] 5%): a tenfold rate with confidence 1000, then a rate
    of 3.  The last entry wins, the out-of-range confidence is stored, the
    breaker stays untripped and the history is not extended. *)
Lemma batchUpdatePrices_overwrites_directly_witness :
  exists s',
    batchUpdatePrices 11 1700000200 [usdEur; usdEur] [1750; 3] [1000; 0]
      twoOracleState = Ok s'
    /\ CurrencyPair.currentRate (pairs s' usdEur) = 3
    /\ CurrencyPair.circuitBreakerTripped (pairs s' usdEur) = false
    /\ CurrencyPair.rateHistory (pairs s' usdEur) = [0; 175]
    /\ CurrencyPair.currentRate
         (pairs (batchEntry 11 1700000200 (usdEur, 1750, 1000) twoOracleState)
            usdEur) = 1750
    /\ oraclePrices
         (batchEntry 11 1700000200 (usdEur, 1750, 1000) twoOracleState)
         usdEur 11
       = PriceData.mk 1750 1700000200 1000 true.
Proof.
  destruct batchUpdatePrices_overwrites_directly as [Hentry Hbatch].
  destruct (Hbatch 11 1700000200 [usdEur; usdEur] [1750; 3] [1000; 0]
              twoOracleState)
    as [s' [H1 [H2 [_ [H4 _]]]]];
    try reflexivity; try (vm_compute; congruence).
  destruct (Hentry 11 1700000200 usdEur 1750 1000 twoOracleState) as [H5 H6];
    try reflexivity.
  exists s'. split; [exact H1|].
  split; [rewrite H2; reflexivity|].
  destruct (H4 usdEur) as [Ha [Hb _]].
  split; [rewrite Ha; reflexivity|].
  split; [rewrite Hb; reflexivity|].
  split; [exact H5 | exact H6].
Defined.

(** ** OracleAggregator: the breaker is cleared by the administrator only *)

Lemma trimHistory_tripped (now : uint256) (p p' : CurrencyPair.t) :
  _trimHistory now p = Ok p' ->
  CurrencyPair.circuitBreakerTripped p' = CurrencyPair.circuitBreakerTripped p.
Proof.
  unfold _trimHistory. intros H. inv_ok.
  destruct ((0 <? firstWithin a (CurrencyPair.timestamps p))%nat
            && (100 <? List.length (CurrencyPair.rateHistory p))%nat);
    inv_ok; reflexivity.
Qed.

Lemma updatePrice_keeps_tripped (sender : address) (now : uint256)
  (pairId : bytes32) (rate confidence : uint256) (s s' : State) (q : bytes32) :
  updatePrice sender now pairId rate confidence s = Ok s' ->
  CurrencyPair.circuitBreakerTripped (pairs s q) = true ->
  CurrencyPair.circuitBreakerTripped (pairs s' q) = true.
Proof.
  unfold updatePrice. intros H Hq. inv_ok.
  match goal with
  | H : (if ?tripping then _ else _) = Ok _ |- _ => destruct tripping
  end; inv_ok.
  - simpl. unfold upd. destruct (q =? pairId); [reflexivity | exact Hq].
  - match goal with
    | H : _trimHistory _ _ = Ok _ |- _ => apply trimHistory_tripped in H;
                                          simpl in H
    end.
    simpl. unfold upd at 1. destruct (q =? pairId) eqn:E; [|exact Hq].
    apply Z.eqb_eq in E. subst q. congruence.
Qed.

Lemma addPair_keeps_tripped (keccak256 : string -> bytes32)
  (base quote : string) (s s' : State) (q : bytes32) :
  _addPair keccak256 base quote s = Ok s' ->
  CurrencyPair.circuitBreakerTripped (pairs s' q)
  = CurrencyPair.circuitBreakerTripped (pairs s q).
Proof.
  unfold _addPair. intros H. inv_ok. simpl. unfold upd.
  destruct (q =? pairIdOf keccak256 base quote) eqn:E; [|reflexivity].
  apply Z.eqb_eq in E. subst q. reflexivity.
Qed.

Lemma set_pair_tripped (f : CurrencyPair.t -> CurrencyPair.t)
  (pairId q : bytes32) (s : State) :
  (forall p, CurrencyPair.circuitBreakerTripped (f p)
             = CurrencyPair.circuitBreakerTripped p) ->
  CurrencyPair.circuitBreakerTripped
    (pairs (set_pair pairId (f (pairs s pairId)) s) q)
  = CurrencyPair.circuitBreakerTripped (pairs s q).
Proof.
  intros Hf. simpl. unfold upd. destruct (q =? pairId) eqn:E; [|reflexivity].
  apply Z.eqb_eq in E. subst q. apply Hf.
Qed.

Lemma step_clears_only_by_admin_reset (keccak256 : string -> bytes32)
  (sender : address) (now : uint256) (c : Call) (s s' : State) (q : bytes32) :
  step keccak256 sender now c s = Ok s' ->
  CurrencyPair.circuitBreakerTripped (pairs s q) = true ->
  CurrencyPair.circuitBreakerTripped (pairs s' q) = false ->
  c = ResetCircuitBreaker q /\ roles s ORACLE_ADMIN sender = true.
Proof.
  intros Hstep Hq Hq'.
  destruct c; simpl in Hstep;
    unfold addPair, addOracle, updateOracleWeight, deactivateOracle, view,
      resetCircuitBreaker, setMaxDeviation, setStalenessThreshold,
      setMinOracleCount, setTwapPeriod, grantRole, revokeRole, renounceRole,
      onlyRole in Hstep;
    try (inv_ok; simpl in Hq'; congruence).
  - (* addPair *)
    inv_ok. apply (addPair_keeps_tripped _ _ _ _ _ q) in Hstep. congruence.
  - (* updatePrice *)
    apply (updatePrice_keeps_tripped _ _ _ _ _ _ _ q) in Hstep; congruence.
  - (* batchUpdatePrices *)
    unfold batchUpdatePrices, onlyRole in Hstep. inv_ok. simpl in Hq'.
    match type of Hq' with
    | context [batchLoop ?a ?b ?l s] =>
        destruct (batchLoop_frame a b l s) as [Hp _];
        destruct (Hp q) as [_ [Hp' _]]
    end.
    congruence.
  - (* resetCircuitBreaker *)
    inv_ok. simpl in Hq'. unfold upd in Hq'.
    destruct (q =? pairId) eqn:E; [|congruence].
    apply Z.eqb_eq in E. subst q. auto.
  - (* setMaxDeviation *)
    inv_ok.
    rewrite (set_pair_tripped (CurrencyPair.set_maxDeviation maxDeviation))
      in Hq' by reflexivity.
    congruence.
  - (* setTwapPeriod *)
    inv_ok.
    rewrite (set_pair_tripped (CurrencyPair.set_twapPeriod period))
      in Hq' by reflexivity.
    congruence.
Qed.

Lemma run_keeps_tripped (keccak256 : string -> bytes32) (q : bytes32)
  (txs : list Tx) :
  forall s,
    CurrencyPair.circuitBreakerTripped (pairs s q) = true ->
    noAdminReset keccak256 q txs s ->
    CurrencyPair.circuitBreakerTripped (pairs (run keccak256 txs s) q) = true.
Proof.
  induction txs as [|[[sender now] c] rest IH]; intros s Hq Hno; simpl.
  - exact Hq.
  - destruct Hno as [Hhere Hrest].
    apply IH; [|exact Hrest].
    destruct (step keccak256 sender now c s) as [s'|r] eqn:Hstep; simpl;
      [|exact Hq].
    destruct (CurrencyPair.circuitBreakerTripped (pairs s' q)) eqn:Hq';
      [reflexivity|].
    destruct (step_clears_only_by_admin_reset _ _ _ _ _ _ _ Hstep Hq Hq')
      as [Hc Hrole].
    rewrite (Hhere Hc) in Hrole. discriminate.
Qed.

(** C8. Once a pair's circuit breaker is tripped, no call of the contract
    clears it except [resetCircuitBreaker] on that pair made by a holder of
    [ORACLE_ADMIN]: a single call that finds the flag set and leaves it
    cleared is that call by such a caller; across any sequence of calls
    (price updates, batch updates, rate queries, settings, role changes,
    resets of other pairs, resets attempted without the role) in which no
    holder of the role resets the pair, the flag stays set; a
    [resetCircuitBreaker] by a caller without the role reverts; and the
    administrator's reset does clear the flag. *)
Theorem circuitBreaker_reset_is_administrative :
  forall (keccak256 : string -> bytes32) (q : bytes32) (s : State),
    CurrencyPair.circuitBreakerTripped (pairs s q) = true ->
    (forall sender now c s',
        step keccak256 sender now c s = Ok s' ->
        CurrencyPair.circuitBreakerTripped (pairs s' q) = false ->
        c = ResetCircuitBreaker q /\ roles s ORACLE_ADMIN sender = true)
    /\ (forall txs,
           noAdminReset keccak256 q txs s ->
           CurrencyPair.circuitBreakerTripped
             (pairs (run keccak256 txs s) q) = true)
    /\ (forall sender,
           roles s ORACLE_ADMIN sender = false ->
           resetCircuitBreaker sender q s
           = Revert "AccessControlUnauthorizedAccount")
    /\ (forall sender,
           roles s ORACLE_ADMIN sender = true ->
           exists s',
             resetCircuitBreaker sender q s = Ok s'
             /\ CurrencyPair.circuitBreakerTripped (pairs s' q) = false).
Proof.
  intros keccak256 q s Hq. repeat split.
  - eapply step_clears_only_by_admin_reset; eassumption.
  - eapply step_clears_only_by_admin_reset; eassumption.
  - intros txs Hno. apply run_keeps_tripped; assumption.
  - intros sender Hrole. unfold resetCircuitBreaker, onlyRole.
    rewrite Hrole. reflexivity.
  - intros sender Hrole. unfold resetCircuitBreaker, onlyRole.
    rewrite Hrole. simpl. eexists. split; [reflexivity|].
    simpl. rewrite upd_same. reflexivity.
Qed.

(** The tripped pair of [trippedState] through [quietTrace], and the reset
    refused to account 9. *)
Lemma circuitBreaker_reset_is_administrative_witness :
  CurrencyPair.circuitBreakerTripped (pairs trippedState usdEur) = true
  /\ CurrencyPair.circuitBreakerTripped
       (pairs (run toyHash quietTrace trippedState) usdEur) = true
  /\ resetCircuitBreaker 9 usdEur trippedState
     = Revert "AccessControlUnauthorizedAccount".
Proof.
  assert (Htripped :
            CurrencyPair.circuitBreakerTripped (pairs trippedState usdEur)
            = true)
    by reflexivity.
  destruct (circuitBreaker_reset_is_administrative toyHash usdEur trippedState
              Htripped) as [_ [Hrun [Hdenied _]]].
  split; [exact Htripped|].
  split.
  - apply Hrun. vm_compute. repeat split; intros; congruence.
  - apply Hdenied. reflexivity.
Defined.

(** ** OracleAggregator: what the aggregation computes *)

Lemma sub_Ok (a b r : Z) : sub a b = Ok r -> r = a - b.
Proof. unfold sub. intros H. apply checked_Ok in H. tauto. Qed.

Lemma nonneg_sums (s : State) (pairId : bytes32) (l : list address) :
  (forall o, In o l ->
             0 <= PriceData.rate (oraclePrices s pairId o)
             /\ 0 <= OracleSource.weight (oracleSources s o)) ->
  0 <= weightedSumOf s pairId l /\ 0 <= totalWeightOf s l.
Proof.
  unfold weightedSumOf, totalWeightOf.
  induction l as [|x l IHl]; simpl; intros Hl; [lia|].
  destruct (Hl x (or_introl eq_refl)) as [Hr Hw].
  destruct IHl as [I1 I2]; [intros; apply Hl; right; assumption|].
  split; nia.
Qed.

(** One iteration of the loop, by whether the oracle is counted. *)
Lemma aggregateLoop_cons (s : State) (now : uint256) (pairId : bytes32)
  (o : address) (rest : list address) (ws tw vo : uint256) :
  aggregateLoop s now pairId (o :: rest) (ws, tw, vo)
  = if negb (OracleSource.isActive (oracleSources s o))
       || negb (PriceData.isActive (oraclePrices s pairId o))
    then aggregateLoop s now pairId rest (ws, tw, vo)
    else
      age <- sub now (PriceData.timestamp (oraclePrices s pairId o)) ;;
      if stalenessThreshold s <? age
      then aggregateLoop s now pairId rest (ws, tw, vo)
      else
        term <- mul (PriceData.rate (oraclePrices s pairId o))
                  (OracleSource.weight (oracleSources s o)) ;;
        ws' <- add ws term ;;
        tw' <- add tw (OracleSource.weight (oracleSources s o)) ;;
        vo' <- add vo 1 ;;
        aggregateLoop s now pairId rest (ws', tw', vo').
Proof.
  simpl.
  destruct (OracleSource.isActive (oracleSources s o)); simpl;
    [|reflexivity].
  destruct (PriceData.isActive (oraclePrices s pairId o)); reflexivity.
Qed.

Lemma counted_cases (s : State) (now : uint256) (pairId : bytes32)
  (o : address) :
  counted s now pairId o
  = negb (negb (OracleSource.isActive (oracleSources s o))
          || negb (PriceData.isActive (oraclePrices s pairId o)))
    && negb (stalenessThreshold s
             <? now - PriceData.timestamp (oraclePrices s pairId o)).
Proof.
  unfold counted. rewrite Z.leb_antisym.
  destruct (OracleSource.isActive (oracleSources s o));
    destruct (PriceData.isActive (oraclePrices s pairId o)); reflexivity.
Qed.

Lemma aggregateLoop_sound (s : State) (now : uint256) (pairId : bytes32)
  (os : list address) :
  forall ws tw vo ws' tw' vo',
    aggregateLoop s now pairId os (ws, tw, vo) = Ok (ws', tw', vo') ->
    ws' = ws + weightedSumOf s pairId (filter (counted s now pairId) os)
    /\ tw' = tw + totalWeightOf s (filter (counted s now pairId) os)
    /\ vo' = vo + Z.of_nat (List.length (filter (counted s now pairId) os)).
Proof.
  unfold weightedSumOf, totalWeightOf.
  induction os as [|o rest IH]; intros ws tw vo ws' tw' vo' H.
  - simpl in *. inversion H; subst. lia.
  - rewrite aggregateLoop_cons in H. simpl filter.
    rewrite counted_cases.
    destruct (negb (OracleSource.isActive (oracleSources s o))
              || negb (PriceData.isActive (oraclePrices s pairId o)));
      simpl; [apply IH; exact H|].
    apply bind_Ok in H. destruct H as [age [Hage H]].
    apply sub_Ok in Hage. subst age.
    destruct (stalenessThreshold s
              <? now - PriceData.timestamp (oraclePrices s pairId o));
      simpl; [apply IH; exact H|].
    inv_ok.
    repeat match goal with
    | H : add _ _ = Ok _ |- _ => apply checked_Ok in H; destruct H as [? _]
    | H : mul _ _ = Ok _ |- _ => apply checked_Ok in H; destruct H as [? _]
    end.
    subst. apply IH in H. lia.
Qed.

Lemma aggregateLoop_total (s : State) (now : uint256) (pairId : bytes32)
  (os : list address) :
  forall ws tw vo,
    (forall o, In o os ->
               0 <= now - PriceData.timestamp (oraclePrices s pairId o)
                 <= MAX_UINT256) ->
    (forall o, In o os ->
               0 <= PriceData.rate (oraclePrices s pairId o)
               /\ 0 <= OracleSource.weight (oracleSources s o)) ->
    0 <= ws -> 0 <= tw -> 0 <= vo ->
    ws + weightedSumOf s pairId (filter (counted s now pairId) os)
      <= MAX_UINT256 ->
    tw + totalWeightOf s (filter (counted s now pairId) os) <= MAX_UINT256 ->
    vo + Z.of_nat (List.length (filter (counted s now pairId) os))
      <= MAX_UINT256 ->
    exists acc, aggregateLoop s now pairId os (ws, tw, vo) = Ok acc.
Proof.
  induction os as [|o rest IH]; intros ws tw vo Hage Hpos Hws Htw Hvo Bws Btw Bvo.
  - simpl. eexists; reflexivity.
  - assert (Hage' : forall o', In o' rest ->
              0 <= now - PriceData.timestamp (oraclePrices s pairId o')
                <= MAX_UINT256) by (intros; apply Hage; right; assumption).
    assert (Hpos' : forall o', In o' rest ->
              0 <= PriceData.rate (oraclePrices s pairId o')
              /\ 0 <= OracleSource.weight (oracleSources s o'))
      by (intros; apply Hpos; right; assumption).
    destruct (nonneg_sums s pairId (filter (counted s now pairId) rest))
      as [N1 N2].
    { intros o' Hin. apply Hpos'. apply filter_In in Hin. tauto. }
    rewrite aggregateLoop_cons.
    simpl filter in Bws, Btw, Bvo. rewrite counted_cases in Bws, Btw, Bvo.
    destruct (negb (OracleSource.isActive (oracleSources s o))
              || negb (PriceData.isActive (oraclePrices s pairId o)));
      simpl in Bws, Btw, Bvo; [apply IH; assumption|].
    unfold sub. rewrite checked_in_range by (apply Hage; left; reflexivity).
    simpl.
    destruct (stalenessThreshold s
              <? now - PriceData.timestamp (oraclePrices s pairId o));
      simpl in Bws, Btw, Bvo; [apply IH; assumption|].
    destruct (Hpos o (or_introl eq_refl)) as [Hr Hw].
    unfold weightedSumOf, totalWeightOf in *. simpl in Bws, Btw, Bvo.
    assert (0 <= PriceData.rate (oraclePrices s pairId o)
                 * OracleSource.weight (oracleSources s o)) by nia.
    unfold mul, add.
    rewrite checked_in_range by lia. simpl.
    rewrite checked_in_range by lia. simpl.
    rewrite checked_in_range by lia. simpl.
    rewrite checked_in_range by lia. simpl.
    apply IH; try assumption; lia.
Qed.

Lemma calculateAggregatedRate_sound (s : State) (now : uint256)
  (pairId : bytes32) (r : uint256) :
  _calculateAggregatedRate pairId now s = Ok r ->
  r = aggregatedRateOf s now pairId.
Proof.
  unfold _calculateAggregatedRate, aggregatedRateOf, validSources.
  intros H. apply bind_Ok in H. destruct H as [[[ws tw] vo] [Hloop H]].
  apply aggregateLoop_sound in Hloop. destruct Hloop as [Hws [Htw Hvo]].
  simpl in Hws, Htw, Hvo. subst ws tw vo.
  destruct ((totalWeightOf s (filter (counted s now pairId) (activeOracles s))
             =? 0)
            || (Z.of_nat (List.length
                            (filter (counted s now pairId) (activeOracles s)))
                <? minOracleCount s)) eqn:E.
  - inversion H. reflexivity.
  - apply orb_false_iff in E. destruct E as [E _].
    unfold div in H. rewrite E in H. inversion H. reflexivity.
Qed.

Lemma calculateAggregatedRate_total (s : State) (now : uint256)
  (pairId : bytes32) :
  aggregable s now pairId ->
  _calculateAggregatedRate pairId now s = Ok (aggregatedRateOf s now pairId).
Proof.
  intros [Hage [Hpos [Bws [Btw Bvo]]]].
  destruct (aggregateLoop_total s now pairId (activeOracles s) 0 0 0)
    as [acc Hacc]; try assumption; try lia.
  destruct (_calculateAggregatedRate pairId now s) as [r|e] eqn:E.
  - apply calculateAggregatedRate_sound in E. subst r. reflexivity.
  - exfalso. unfold _calculateAggregatedRate in E. rewrite Hacc in E.
    simpl in E. destruct acc as [[ws tw] vo].
    destruct ((tw =? 0) || (vo <? minOracleCount s)) eqn:C; [discriminate|].
    apply orb_false_iff in C. destruct C as [C _].
    unfold div in E. rewrite C in E. discriminate.
Qed.

Lemma updatePrice_breaker_only_on_deviation (sender : address) (now : uint256)
  (pairId : bytes32) (rate confidence : uint256) (s s' : State) :
  updatePrice sender now pairId rate confidence s = Ok s' ->
  CurrencyPair.circuitBreakerTripped (pairs s' pairId)
    <> CurrencyPair.circuitBreakerTripped (pairs s pairId)
  \/ circuitBreakerTriggers s' <> circuitBreakerTriggers s ->
  exists deviation,
    0 < CurrencyPair.currentRate (pairs s pairId)
    /\ _calculateDeviation (CurrencyPair.currentRate (pairs s pairId)) rate
       = Ok deviation
    /\ CurrencyPair.maxDeviation (pairs s pairId) < deviation.
Proof.
  unfold updatePrice. intros H Hchanged. inv_ok.
  match goal with
  | H : (if ?tripping then _ else _) = Ok _ |- _ => destruct tripping
  end; inv_ok.
  - destruct (0 <? CurrencyPair.currentRate (pairs s pairId)) eqn:Hcur;
      inv_ok.
    match goal with
    | H : (_ <? ?d) = true |- _ => exists d; apply Z.ltb_lt in H
    end.
    apply Z.ltb_lt in Hcur. auto.
  - exfalso.
    match goal with
    | H : _trimHistory _ _ = Ok _ |- _ => apply trimHistory_tripped in H;
                                          simpl in H
    end.
    simpl in Hchanged. rewrite upd_same in Hchanged.
    destruct Hchanged as [Hc|Hc]; apply Hc; [congruence | reflexivity].
Qed.

(** An oracle enters the aggregation as often as [activeOracles] lists
    it, or not at all. *)
Lemma validSources_multiplicity (s : State) (now : uint256)
  (pairId : bytes32) (o : address) :
  count_occ Z.eq_dec (validSources s now pairId) o
  = if counted s now pairId o
    then count_occ Z.eq_dec (activeOracles s) o
    else 0%nat.
Proof.
  unfold validSources.
  induction (activeOracles s) as [|x l IH]; cbn [filter count_occ].
  - destruct (counted s now pairId o); reflexivity.
  - destruct (Z.eq_dec x o) as [->|Hne].
    + destruct (counted s now pairId o) eqn:E.
      * cbn [count_occ]. destruct (Z.eq_dec o o); [|congruence].
        rewrite IH. reflexivity.
      * exact IH.
    + destruct (counted s now pairId x); [|exact IH].
      cbn [count_occ]. destruct (Z.eq_dec x o); [congruence|]. exact IH.
Qed.

(** Every revert of the aggregation loop is an arithmetic panic. *)
Lemma aggregateLoop_reverts (s : State) (now : uint256) (pairId : bytes32)
  (os : list address) :
  forall acc reason,
    aggregateLoop s now pairId os acc = Revert reason ->
    reason = "Panic(0x11)"%string.
Proof.
  assert (Hchk : forall z reason, checked z = Revert reason ->
                                  reason = "Panic(0x11)"%string).
  { intros z reason. unfold checked.
    destruct ((0 <=? z) && (z <=? MAX_UINT256)); [discriminate|].
    intros H. inversion H. reflexivity. }
  induction os as [|o rest IH]; intros [[ws tw] vo] reason H.
  - discriminate H.
  - rewrite aggregateLoop_cons in H.
    destruct (negb (OracleSource.isActive (oracleSources s o))
              || negb (PriceData.isActive (oraclePrices s pairId o)));
      [eapply IH; exact H|].
    unfold sub, mul, add in H.
    repeat match type of H with
    | bind (checked ?z) _ = Revert _ =>
        let E := fresh "E" in
        destruct (checked z) eqn:E; cbn [bind] in H;
        [|inversion H; subst; eapply Hchk; exact E]
    | (if ?c then _ else _) = Revert _ =>
        destruct c; [eapply IH; exact H|]
    end.
    eapply IH. exact H.
Qed.

(** The product [rate * weight] of a counted entry is computed, checked,
    before the fallback test is reached. *)
Lemma aggregateLoop_overflow (s : State) (now : uint256) (pairId : bytes32)
  (o : address) (os : list address) :
  In o (filter (counted s now pairId) os) ->
  MAX_UINT256 < PriceData.rate (oraclePrices s pairId o)
                * OracleSource.weight (oracleSources s o) ->
  forall acc, aggregateLoop s now pairId os acc = Revert "Panic(0x11)".
Proof.
  intros Hin Hbig.
  induction os as [|o' rest IH]; intros [[ws tw] vo]; [destruct Hin|].
  destruct (aggregateLoop s now pairId (o' :: rest) (ws, tw, vo))
    as [acc'|reason] eqn:E.
  - exfalso. rewrite aggregateLoop_cons in E.
    simpl filter in Hin. rewrite counted_cases in Hin.
    destruct (negb (OracleSource.isActive (oracleSources s o'))
              || negb (PriceData.isActive (oraclePrices s pairId o')));
      cbn [negb andb] in Hin;
      [rewrite (IH Hin) in E; discriminate E|].
    apply bind_Ok in E. destruct E as [age [Hage E]].
    apply sub_Ok in Hage. subst age.
    destruct (stalenessThreshold s
              <? now - PriceData.timestamp (oraclePrices s pairId o'));
      cbn [negb] in Hin;
      [rewrite (IH Hin) in E; discriminate E|].
    apply bind_Ok in E. destruct E as [term [Hterm E]].
    apply bind_Ok in E. destruct E as [ws' [_ E]].
    apply bind_Ok in E. destruct E as [tw' [_ E]].
    apply bind_Ok in E. destruct E as [vo' [_ E]].
    destruct Hin as [<-|Hin].
    + unfold mul in Hterm. apply checked_Ok in Hterm. lia.
    + rewrite (IH Hin) in E. discriminate E.
  - f_equal. eapply aggregateLoop_reverts. exact E.
Qed.

(** C4 (as the code has it). The aggregation counts the entries of
    [activeOracles] whose oracle is active and whose report for the pair is
    active and not older than [stalenessThreshold]; an oracle listed twice
    is counted twice.  Whenever the call returns, if these entries are
    fewer than [minOracleCount] (2 at deployment, set by the
    administrator), or their total weight is zero, which covers the case of
    no fresh report at all, the aggregated rate is the pair's last-known
    [currentRate] unchanged; and the call returns whenever the loop's
    arithmetic stays inside 256 bits.  The sums are accumulated, checked,
    before the fallback test: a counted entry whose [rate * weight] does
    not fit reverts the call with an arithmetic panic, however few the
    entries.  The aggregation raises no circuit-breaker trigger: an
    [updatePrice] that changes the pair's breaker flag or the trigger
    counter is one whose submitted rate deviates from [currentRate] by more
    than [maxDeviation], whatever the number of fresh reports. *)
Theorem aggregation_falls_back_below_minimum :
  (forall (s : State) (now : uint256) (pairId : bytes32) (r : uint256),
      _calculateAggregatedRate pairId now s = Ok r ->
      Z.of_nat (List.length (validSources s now pairId)) < minOracleCount s
      \/ totalWeightOf s (validSources s now pairId) = 0 ->
      r = CurrencyPair.currentRate (pairs s pairId))
  /\
  (forall (s : State) (now : uint256) (pairId : bytes32),
      aggregable s now pairId ->
      Z.of_nat (List.length (validSources s now pairId)) < minOracleCount s
      \/ totalWeightOf s (validSources s now pairId) = 0 ->
      _calculateAggregatedRate pairId now s
      = Ok (CurrencyPair.currentRate (pairs s pairId)))
  /\
  (forall (s : State) (now : uint256) (pairId : bytes32) (o : address),
      In o (validSources s now pairId) ->
      MAX_UINT256 < PriceData.rate (oraclePrices s pairId o)
                    * OracleSource.weight (oracleSources s o) ->
      _calculateAggregatedRate pairId now s = Revert "Panic(0x11)")
  /\
  (forall (s : State) (now : uint256) (pairId : bytes32) (o : address),
      count_occ Z.eq_dec (validSources s now pairId) o
      = if counted s now pairId o
        then count_occ Z.eq_dec (activeOracles s) o
        else 0%nat)
  /\
  (forall (sender : address) (now : uint256) (pairId : bytes32)
          (rate confidence : uint256) (s s' : State),
      updatePrice sender now pairId rate confidence s = Ok s' ->
      CurrencyPair.circuitBreakerTripped (pairs s' pairId)
        <> CurrencyPair.circuitBreakerTripped (pairs s pairId)
      \/ circuitBreakerTriggers s' <> circuitBreakerTriggers s ->
      exists deviation,
        0 < CurrencyPair.currentRate (pairs s pairId)
        /\ _calculateDeviation (CurrencyPair.currentRate (pairs s pairId)) rate
           = Ok deviation
        /\ CurrencyPair.maxDeviation (pairs s pairId) < deviation).
Proof.
  assert (Hfall : forall s now pairId,
             Z.of_nat (List.length (validSources s now pairId))
               < minOracleCount s
             \/ totalWeightOf s (validSources s now pairId) = 0 ->
             aggregatedRateOf s now pairId
             = CurrencyPair.currentRate (pairs s pairId)).
  { intros s now pairId Hfew. unfold aggregatedRateOf.
    destruct Hfew as [Hfew|Hfew].
    - apply Z.ltb_lt in Hfew. rewrite Hfew, orb_true_r. reflexivity.
    - rewrite Hfew. reflexivity. }
  split; [|split; [|split; [|split]]].
  - intros s now pairId r Hr Hfew.
    apply calculateAggregatedRate_sound in Hr. rewrite Hr.
    apply Hfall. exact Hfew.
  - intros s now pairId Hagg Hfew.
    rewrite calculateAggregatedRate_total by assumption.
    rewrite Hfall by exact Hfew. reflexivity.
  - intros s now pairId o Hin Hbig. unfold _calculateAggregatedRate.
    rewrite (aggregateLoop_overflow s now pairId o (activeOracles s) Hin Hbig).
    reflexivity.
  - apply validSources_multiplicity.
  - apply updatePrice_breaker_only_on_deviation.
Qed.

Lemma aggregable_deployed :
  aggregable (set_oraclePrice usdEur 1
                (PriceData.mk (10 ^ 18) 1700000000 95 true) deployed)
    1700000000 usdEur.
Proof.
  unfold aggregable.
  split; [intros o H; vm_compute in H; destruct H|].
  split; [intros o H; vm_compute in H; destruct H|].
  repeat split; vm_compute; discriminate.
Qed.

(** On the freshly deployed contract no oracle is registered: the report of
    the deployer leaves no counted source, and the aggregate is the pair's
    last-known rate.  In [overflowState] the one counted report has the
    rate [2 ^ 255] at weight 3: fewer than [minOracleCount] entries, and
    the call reverts instead of falling back.  In [readdedState] the one
    reporting oracle is listed twice: its single report makes two counted
    entries, which meets [minOracleCount], and the rate 100 is returned
    instead of the last-known rate 0. *)
Lemma aggregation_falls_back_below_minimum_witness :
  _calculateAggregatedRate usdEur 1700000000
    (set_oraclePrice usdEur 1
       (PriceData.mk (10 ^ 18) 1700000000 95 true) deployed)
  = Ok 0
  /\ List.length (validSources overflowState 1700000100 usdEur) = 1%nat
  /\ minOracleCount overflowState = 2
  /\ _calculateAggregatedRate usdEur 1700000100 overflowState
     = Revert "Panic(0x11)"
  /\ validSources readdedState 1700000130 usdEur = [11; 11]
  /\ CurrencyPair.currentRate (pairs readdedState usdEur) = 0
  /\ _calculateAggregatedRate usdEur 1700000130 readdedState = Ok 100.
Proof.
  destruct aggregation_falls_back_below_minimum
    as [_ [Hfallback [Hoverflow _]]].
  split.
  { apply (Hfallback _ 1700000000 usdEur aggregable_deployed).
    right. reflexivity. }
  split; [vm_compute; reflexivity|].
  split; [vm_compute; reflexivity|].
  split.
  { apply (Hoverflow overflowState 1700000100 usdEur 13).
    - vm_compute. left. reflexivity.
    - vm_compute. reflexivity. }
  repeat split; vm_compute; reflexivity.
Defined.

(** C4, refuted as stated.  On the freshly deployed contract the
    deployer's [updatePrice] meets zero fresh sources, yet no trigger is
    signalled: the call returns, the breaker flag stays clear and the
    trigger counter stays 0.  And with only two fresh sources (fewer than
    three) the weighted average 175 is adopted as [currentRate] and served
    by [getRate] with no flag raised. *)
Lemma minimum_consensus_counterexample :
  succeeds (updatePrice 1 1700000000 usdEur (10 ^ 18) 95 deployed) = true
  /\ (let s' := commit deployed
                  (updatePrice 1 1700000000 usdEur (10 ^ 18) 95 deployed) in
      validSources s' 1700000000 usdEur = []
      /\ CurrencyPair.currentRate (pairs s' usdEur)
         = CurrencyPair.currentRate (pairs deployed usdEur)
      /\ CurrencyPair.circuitBreakerTripped (pairs s' usdEur) = false
      /\ circuitBreakerTriggers s' = 0)
  /\ List.length (validSources twoOracleState 1700000100 usdEur) = 2%nat
  /\ minOracleCount twoOracleState = 2
  /\ getRate usdEur 1700000100 twoOracleState
     = Ok (RateResponse.mk 175 175 75 1700000100 false false).
Proof. vm_compute. repeat split; reflexivity. Qed.






End OracleProps.

(** ** ComplianceEngine: the daily limit *)

Module ComplianceProps.

Import ComplianceEngine ComplianceSpec.

Lemma reset_facts (now : uint256) (p : EntityProfile.t) :
  resetsNotAhead now p ->
  let p' := _resetLimitsIfNeeded now p in
  EntityProfile.lastDayReset p' = now / 86400
  /\ EntityProfile.lastMonthReset p' = now / 2592000
  /\ EntityProfile.dailyVolume p'
     = (if EntityProfile.lastDayReset p =? now / 86400
        then EntityProfile.dailyVolume p else 0)
  /\ EntityProfile.monthlyVolume p'
     = (if EntityProfile.lastMonthReset p =? now / 2592000
        then EntityProfile.monthlyVolume p else 0)
  /\ EntityProfile.dailyLimit p' = EntityProfile.dailyLimit p
  /\ EntityProfile.monthlyLimit p' = EntityProfile.monthlyLimit p
  /\ EntityProfile.singleTxLimit p' = EntityProfile.singleTxLimit p.
Proof.
  intros [Hd Hm]. unfold _resetLimitsIfNeeded.
  destruct (EntityProfile.lastDayReset p <? now / 86400) eqn:Ed;
    [apply Z.ltb_lt in Ed | apply Z.ltb_ge in Ed]; simpl;
    (destruct (EntityProfile.lastMonthReset p <? now / 2592000) eqn:Em;
     [apply Z.ltb_lt in Em | apply Z.ltb_ge in Em]); simpl;
    repeat split; try lia;
    try (symmetry; destruct (Z.eqb_spec (EntityProfile.lastDayReset p)
                               (now / 86400)); [lia | reflexivity]);
    try (symmetry; destruct (Z.eqb_spec (EntityProfile.lastMonthReset p)
                               (now / 2592000)); [lia | reflexivity]);
    try (destruct (Z.eqb_spec (EntityProfile.lastDayReset p)
                    (now / 86400)); [reflexivity | lia]);
    try (destruct (Z.eqb_spec (EntityProfile.lastMonthReset p)
                    (now / 2592000)); [reflexivity | lia]).
Qed.

Lemma reset_singleTxLimit (now : uint256) (p : EntityProfile.t) :
  EntityProfile.singleTxLimit (_resetLimitsIfNeeded now p)
  = EntityProfile.singleTxLimit p.
Proof.
  unfold _resetLimitsIfNeeded.
  destruct (EntityProfile.lastDayReset p <? now / 86400); simpl;
    destruct (EntityProfile.lastMonthReset p <? now / 2592000); reflexivity.
Qed.

(** Once the earlier checks pass, the call is the limit phase on the
    profile after the period reset. *)
Lemma check_limit_phase (now : uint256) (paymentId : bytes32)
  (sender recipient : address) (amount : uint256) (rs : bool)
  (t1 t2 : ComplianceTier) (s : State) :
  earlierChecksPass now sender recipient amount rs t1 t2 s = true ->
  checkPaymentCompliance now paymentId sender recipient amount rs t1 t2 s
  = (checks <- add (totalChecks s) 1 ;;
     let p' := _resetLimitsIfNeeded now (profiles s sender) in
     let s1 := set_profile sender p' (set_totalChecks checks s) in
     daily <- add (EntityProfile.dailyVolume p') amount ;;
     if EntityProfile.dailyLimit p' <? daily
     then _reject now "Exceeds daily limit" s1
     else
       monthly <- add (EntityProfile.monthlyVolume p') amount ;;
       if EntityProfile.monthlyLimit p' <? monthly
       then _reject now "Exceeds monthly limit" s1
       else
         let s2 := set_profile sender
                     (EntityProfile.set_volumes daily monthly p') s1 in
         Ok (s2, TransactionCheck.mk true "Compliance check passed"
                   (travelRuleThreshold s2 <=? amount)
                   ((70 <? EntityProfile.riskScore (profiles s2 sender))
                    || (70 <? EntityProfile.riskScore (profiles s2 recipient))
                    || EntityProfile.isPEP (profiles s2 sender)
                    || EntityProfile.isPEP (profiles s2 recipient))
                   now)).
Proof.
  unfold earlierChecksPass, checkPaymentCompliance. intros H.
  repeat (apply andb_true_iff in H; destruct H as [H ?]).
  repeat match goal with
  | H : negb _ = true |- _ => apply negb_true_iff in H
  end.
  destruct (add (totalChecks s) 1) as [checks|r]; simpl; [|reflexivity].
  repeat match goal with
  | H : ?c = false |- context [if ?c then _ else _] => rewrite H
  end.
  rewrite upd_same, reset_singleTxLimit.
  repeat match goal with
  | H : ?c = false |- context [if ?c then _ else _] => rewrite H
  end.
  reflexivity.
Qed.

Lemma reject_not_passed (now : uint256) (reason : string) (s s' : State)
  (chk : TransactionCheck.t) :
  _reject now reason s = Ok (s', chk) ->
  TransactionCheck.passed chk = false
  /\ TransactionCheck.reason chk = reason
  /\ profiles s' = profiles s.
Proof. unfold _reject. intros H. inv_ok. simpl. auto. Qed.

Lemma passed_earlier_checks (now : uint256) (paymentId : bytes32)
  (sender recipient : address) (amount : uint256) (rs : bool)
  (t1 t2 : ComplianceTier) (s s' : State) (chk : TransactionCheck.t) :
  checkPaymentCompliance now paymentId sender recipient amount rs t1 t2 s
  = Ok (s', chk) ->
  TransactionCheck.passed chk = true ->
  earlierChecksPass now sender recipient amount rs t1 t2 s = true.
Proof.
  unfold checkPaymentCompliance, earlierChecksPass. intros H Hp.
  apply bind_Ok in H. destruct H as [checks [_ H]]. simpl in H.
  rewrite upd_same, reset_singleTxLimit in H.
  repeat match type of H with
  | (if ?c then _ else _) = _ =>
      match type of c with
      | bool =>
          destruct c eqn:?;
          [apply reject_not_passed in H; destruct H as [H _]; congruence|]
      end
  end.
  reflexivity.
Qed.

(** [resetsNotAhead] is kept by every check, for every entity, as time
    moves on: the check is the only function that writes the two reset
    fields, and the constructor leaves them 0. *)
Lemma resetsNotAhead_kept (now now' : uint256) (paymentId : bytes32)
  (sender recipient : address) (amount : uint256) (rs : bool)
  (t1 t2 : ComplianceTier) (s s' : State) (chk : TransactionCheck.t)
  (a : address) :
  checkPaymentCompliance now paymentId sender recipient amount rs t1 t2 s
  = Ok (s', chk) ->
  now <= now' ->
  resetsNotAhead now (profiles s a) ->
  resetsNotAhead now' (profiles s' a).
Proof.
  intros H Hlater Hinv.
  assert (Hday : now / 86400 <= now' / 86400)
    by (apply Z.div_le_mono; lia).
  assert (Hmonth : now / 2592000 <= now' / 2592000)
    by (apply Z.div_le_mono; lia).
  assert (Hkeep : forall p, resetsNotAhead now p -> resetsNotAhead now' p)
    by (unfold resetsNotAhead; intros p [? ?]; lia).
  assert (Hreset : a = sender ->
                   resetsNotAhead now
                     (_resetLimitsIfNeeded now (profiles s sender))).
  { intros ->. destruct (reset_facts now _ Hinv) as [F1 [F2 _]].
    unfold resetsNotAhead. lia. }
  unfold checkPaymentCompliance in H.
  apply bind_Ok in H. destruct H as [checks [_ H]]. simpl in H.
  rewrite upd_same in H.
  repeat match type of H with
  | (if ?c then _ else _) = _ =>
      match type of c with
      | bool =>
          destruct c;
          [apply reject_not_passed in H; destruct H as [_ [_ H]];
           rewrite H; simpl; unfold upd;
           try (destruct (Z.eqb_spec a sender) as [E|E];
                [apply Hkeep, Hreset, E | apply Hkeep, Hinv]);
           apply Hkeep, Hinv|]
      end
  | bind _ _ = _ =>
      let x := fresh "x" in
      let Hx := fresh "Hx" in
      apply bind_Ok in H; destruct H as [x [Hx H]]
  end.
  inversion H; subst s' chk. simpl. unfold upd.
  destruct (Z.eqb_spec a sender) as [E|E]; [|apply Hkeep, Hinv].
  apply Hkeep. destruct (Hreset E) as [R1 R2].
  unfold resetsNotAhead. simpl. auto.
Qed.

(** C6 (as the code has it). For a sender whose recorded resets are not
    ahead of the clock, with daily remaining volume [R] as
    [getEntityProfile] reports it at the time of the check:
    - a check of amount [A] that passes leaves the daily remaining,
      queried at any later moment of the same day, at [R - A];
    - a check of amount [A > R] for which all earlier checks pass never
      passes.  If it returns, it returns the rejection "Exceeds daily
      limit", and the sender's consumed daily and monthly volumes (as
      they stand after the period reset) and the remaining volumes
      reported are unchanged.  It returns whenever the consumed daily
      volume plus [A] fits in 256 bits (and the two statistics counters
      are not saturated); when that sum overflows the call reverts, which
      leaves all storage as it was. *)
Theorem daily_limit_consumption :
  forall (now : uint256) (paymentId : bytes32) (sender recipient : address)
         (A : uint256) (rs : bool) (t1 t2 : ComplianceTier) (s : State),
    0 <= A <= MAX_UINT256 ->
    resetsNotAhead now (profiles s sender) ->
    let R := dailyRemaining now sender s in
    let call :=
      checkPaymentCompliance now paymentId sender recipient A rs t1 t2 s in
    (forall s' chk,
        call = Ok (s', chk) ->
        TransactionCheck.passed chk = true ->
        forall now', now' / 86400 = now / 86400 ->
                     dailyRemaining now' sender s' = R - A)
    /\
    (earlierChecksPass now sender recipient A rs t1 t2 s = true ->
     R < A ->
     (forall s' chk,
         call = Ok (s', chk) ->
         TransactionCheck.passed chk = false
         /\ TransactionCheck.reason chk = "Exceeds daily limit"%string
         /\ EntityProfile.dailyVolume (profiles s' sender)
            = dailyUsedAt now (profiles s sender)
         /\ EntityProfile.monthlyVolume (profiles s' sender)
            = EntityProfile.monthlyVolume
                (_resetLimitsIfNeeded now (profiles s sender))
         /\ dailyRemaining now sender s' = R
         /\ monthlyRemaining now sender s' = monthlyRemaining now sender s)
     /\ (0 <= totalChecks s < MAX_UINT256 ->
         0 <= totalRejections s < MAX_UINT256 ->
         0 <= dailyUsedAt now (profiles s sender) ->
         dailyUsedAt now (profiles s sender) + A <= MAX_UINT256 ->
         exists s' chk, call = Ok (s', chk))
     /\ (MAX_UINT256 < dailyUsedAt now (profiles s sender) + A ->
         exists r, call = Revert r)).
Proof.
  intros now paymentId sender recipient A rs t1 t2 s HA Hres R call.
  destruct (reset_facts now (profiles s sender) Hres)
    as [Fd [Fm [Fdv [Fmv [Fdl [Fml _]]]]]].
  assert (HR : R = if EntityProfile.dailyVolume
                        (_resetLimitsIfNeeded now (profiles s sender))
                      <? EntityProfile.dailyLimit (profiles s sender)
                   then EntityProfile.dailyLimit (profiles s sender)
                        - EntityProfile.dailyVolume
                            (_resetLimitsIfNeeded now (profiles s sender))
                   else 0).
  { subst R. unfold dailyRemaining, getEntityProfile. simpl.
    rewrite Fdv. reflexivity. }
  split.
  - (* a passing check *)
    intros s' chk Hcall Hpassed now' Hday. subst call.
    pose proof (passed_earlier_checks _ _ _ _ _ _ _ _ _ _ _ Hcall Hpassed)
      as Hearlier.
    rewrite check_limit_phase in Hcall by assumption.
    apply bind_Ok in Hcall. destruct Hcall as [checks [_ Hcall]].
    cbv zeta in Hcall.
    apply bind_Ok in Hcall. destruct Hcall as [daily [Hdaily Hcall]].
    apply checked_Ok in Hdaily. destruct Hdaily as [Hdaily _].
    destruct (EntityProfile.dailyLimit
                (_resetLimitsIfNeeded now (profiles s sender)) <? daily)
      eqn:Elim;
      [apply reject_not_passed in Hcall; destruct Hcall; congruence|].
    apply bind_Ok in Hcall. destruct Hcall as [monthly [_ Hcall]].
    destruct (EntityProfile.monthlyLimit
                (_resetLimitsIfNeeded now (profiles s sender)) <? monthly);
      [apply reject_not_passed in Hcall; destruct Hcall; congruence|].
    inversion Hcall; subst s' chk; clear Hcall.
    unfold dailyRemaining, getEntityProfile. simpl. rewrite upd_same. simpl.
    rewrite Fd, Hday, Z.eqb_refl, Fdl.
    apply Z.ltb_ge in Elim. rewrite Fdl in Elim.
    rewrite HR. subst daily.
    destruct (Z.ltb_spec
                (EntityProfile.dailyVolume
                   (_resetLimitsIfNeeded now (profiles s sender)) + A)
                (EntityProfile.dailyLimit (profiles s sender)));
      destruct (Z.ltb_spec
                  (EntityProfile.dailyVolume
                     (_resetLimitsIfNeeded now (profiles s sender)))
                  (EntityProfile.dailyLimit (profiles s sender))); lia.
  - (* a check over the remaining volume *)
    intros Hearlier Hover.
    assert (Hexceeds :
              EntityProfile.dailyLimit (profiles s sender)
              < EntityProfile.dailyVolume
                  (_resetLimitsIfNeeded now (profiles s sender)) + A).
    { rewrite HR in Hover.
      destruct (Z.ltb_spec
                  (EntityProfile.dailyVolume
                     (_resetLimitsIfNeeded now (profiles s sender)))
                  (EntityProfile.dailyLimit (profiles s sender))); lia. }
    subst call. rewrite check_limit_phase by assumption. cbv zeta.
    split; [|split].
    + intros s' chk Hcall.
      apply bind_Ok in Hcall. destruct Hcall as [checks [_ Hcall]].
      apply bind_Ok in Hcall. destruct Hcall as [daily [Hdaily Hcall]].
      apply checked_Ok in Hdaily. destruct Hdaily as [Hdaily _].
      subst daily. rewrite Fdl in Hcall.
      apply Z.ltb_lt in Hexceeds. rewrite Hexceeds in Hcall.
      apply reject_not_passed in Hcall.
      destruct Hcall as [Hp [Hr Hprof]].
      split; [exact Hp|]. split; [exact Hr|].
      unfold dailyRemaining, monthlyRemaining, getEntityProfile, dailyUsedAt.
      rewrite Hprof. simpl. rewrite upd_same.
      rewrite Fd, Fm, !Z.eqb_refl, Fdl, Fml, Fmv.
      split; [reflexivity|]. split; [reflexivity|].
      split; [symmetry; exact HR|].
      reflexivity.
    + intros Hchecks Hrej Hused Hfits. unfold dailyUsedAt in Hused, Hfits.
      unfold add at 1. rewrite checked_in_range by lia. simpl.
      unfold add at 1. rewrite checked_in_range by lia. simpl.
      rewrite Fdl. apply Z.ltb_lt in Hexceeds. rewrite Hexceeds.
      unfold _reject, add. simpl. rewrite checked_in_range by lia. simpl.
      eexists. eexists. reflexivity.
    + intros Hoverflow. unfold dailyUsedAt in Hoverflow.
      destruct (add (totalChecks s) 1) as [checks|r]; simpl;
        [|eexists; reflexivity].
      unfold add, checked.
      replace (EntityProfile.dailyVolume
                 (_resetLimitsIfNeeded now (profiles s sender)) + A
               <=? MAX_UINT256) with false
        by (symmetry; apply Z.leb_gt; assumption).
      rewrite andb_false_r. simpl. eexists; reflexivity.
Qed.

(** The standard-tier sender of [standardState] has 10000e18 left today: a
    check of exactly that amount passes and leaves 0; a check of 10001e18
    is rejected for the daily limit. *)
Lemma daily_limit_consumption_witness :
  (exists s' chk,
      checkPaymentCompliance 1700000010 2 60 61 (10000 * 10 ^ 18)
        false NONE NONE standardState = Ok (s', chk)
      /\ dailyRemaining 1700003600 60 s'
         = dailyRemaining 1700000010 60 standardState - 10000 * 10 ^ 18)
  /\ (exists s' chk,
         checkPaymentCompliance 1700000010 2 60 61 (10001 * 10 ^ 18)
           false NONE NONE standardState = Ok (s', chk)
         /\ TransactionCheck.reason chk = "Exceeds daily limit"%string
         /\ dailyRemaining 1700000010 60 s'
            = dailyRemaining 1700000010 60 standardState).
Proof.
  split.
  - destruct (daily_limit_consumption 1700000010 2 60 61 (10000 * 10 ^ 18)
                false NONE NONE standardState) as [Hpass _];
      [vm_compute; split; discriminate | vm_compute; split; discriminate |].
    destruct (checkPaymentCompliance 1700000010 2 60 61 (10000 * 10 ^ 18)
                false NONE NONE standardState) as [[s' chk]|r] eqn:E;
      [|vm_compute in E; discriminate].
    exists s', chk. split; [reflexivity|].
    apply (Hpass s' chk eq_refl); [|reflexivity].
    vm_compute in E. inversion E. reflexivity.
  - destruct (daily_limit_consumption 1700000010 2 60 61 (10001 * 10 ^ 18)
                false NONE NONE standardState) as [_ Hover];
      [vm_compute; split; discriminate | vm_compute; split; discriminate |].
    destruct Hover as [Hrejected [Hreturns _]];
      [reflexivity | vm_compute; reflexivity |].
    assert (Hcounter : 0 <= totalChecks standardState < MAX_UINT256)
      by (vm_compute; split; [discriminate | reflexivity]).
    assert (Hrejections : 0 <= totalRejections standardState < MAX_UINT256)
      by (vm_compute; split; [discriminate | reflexivity]).
    assert (Hused : 0 <= dailyUsedAt 1700000010 (profiles standardState 60))
      by (vm_compute; discriminate).
    assert (Hfits : dailyUsedAt 1700000010 (profiles standardState 60)
                    + 10001 * 10 ^ 18 <= MAX_UINT256)
      by (vm_compute; discriminate).
    destruct (Hreturns Hcounter Hrejections Hused Hfits) as [s' [chk E]].
    exists s', chk. split; [exact E|].
    destruct (Hrejected s' chk E) as [_ [Hr [_ [_ [Hd _]]]]].
    split; assumption.
Defined.

(** C6, refuted as stated.  The institutional sender (limits
    [type(uint256).max]) has consumed 1 today, so [R = 2^256 - 2]; a check
    of amount [2^256 - 1 > R] passes every earlier check and then reverts
    on the overflow of [dailyVolume + amount] instead of returning the
    daily-limit rejection. *)
Lemma daily_limit_rejection_counterexample :
  dailyRemaining 1700000010 50 institutionalState = MAX_UINT256 - 1
  /\ dailyRemaining 1700000010 50 institutionalState < MAX_UINT256
  /\ resetsNotAhead 1700000010 (profiles institutionalState 50)
  /\ earlierChecksPass 1700000010 50 51 MAX_UINT256 false NONE NONE
       institutionalState = true
  /\ checkPaymentCompliance 1700000010 2 50 51 MAX_UINT256 false NONE NONE
       institutionalState = Revert "Panic(0x11)".
Proof.
  vm_compute. repeat split; try reflexivity; discriminate.
Qed.

End ComplianceProps.

(** ** ERC20: balances under transfers *)

Module LedgerProps.

Import LedgerSpec.

Lemma transfer_balance (token from to : address) (v : uint256)
  (l l' : ERC20.Ledger) :
  ERC20._transfer token from to v l = Ok l' ->
  forall x,
    ERC20.balanceOf l' token x
    = ERC20.balanceOf l token x - (if x =? from then v else 0)
      + (if x =? to then v else 0).
Proof.
  unfold ERC20._transfer. intros H x. inv_ok. simpl.
  rewrite !upd_same. unfold upd.
  destruct (x =? to) eqn:Et, (x =? from) eqn:Ef;
    repeat match goal with
    | H : (_ =? _) = true |- _ => apply Z.eqb_eq in H; subst
    end;
    rewrite ?Z.eqb_refl, ?Et, ?Ef; lia.
Qed.

Lemma transferFrom_balance (token self from to : address) (v : uint256)
  (l l' : ERC20.Ledger) :
  ERC20.safeTransferFrom token self from to v l = Ok l' ->
  forall x,
    ERC20.balanceOf l' token x
    = ERC20.balanceOf l token x - (if x =? from then v else 0)
      + (if x =? to then v else 0).
Proof.
  unfold ERC20.safeTransferFrom. intros H x.
  apply bind_Ok in H. destruct H as [l1 [H1 H]].
  rewrite (transfer_balance _ _ _ _ _ _ H x).
  destruct (ERC20.allowance l token from self <? MAX_UINT256);
    inv_ok; reflexivity.
Qed.

Lemma transfer_requires (token from to : address) (v : uint256)
  (l l' : ERC20.Ledger) :
  ERC20._transfer token from to v l = Ok l' ->
  from <> 0 /\ to <> 0 /\ v <= ERC20.balanceOf l token from.
Proof.
  unfold ERC20._transfer. intros H. inv_ok.
  repeat match goal with
  | H : negb (_ =? _) = true |- _ =>
      apply negb_true_iff in H; apply Z.eqb_neq in H
  | H : (_ <=? _) = true |- _ => apply Z.leb_le in H
  end.
  auto.
Qed.

Lemma transferFrom_requires (token self from to : address) (v : uint256)
  (l l' : ERC20.Ledger) :
  ERC20.safeTransferFrom token self from to v l = Ok l' ->
  from <> 0 /\ to <> 0 /\ v <= ERC20.balanceOf l token from.
Proof.
  unfold ERC20.safeTransferFrom. intros H.
  apply bind_Ok in H. destruct H as [l1 [H1 H]].
  apply transfer_requires in H.
  destruct (ERC20.allowance l token from self <? MAX_UINT256);
    inv_ok; exact H.
Qed.

Lemma transfer_succeeds (token from to : address) (v : uint256)
  (l : ERC20.Ledger) :
  from <> 0 -> to <> 0 -> v <= ERC20.balanceOf l token from ->
  exists l', ERC20._transfer token from to v l = Ok l'.
Proof.
  intros Hf Ht Hv. unfold ERC20._transfer.
  apply Z.eqb_neq in Hf, Ht. apply Z.leb_le in Hv.
  rewrite Hf, Ht, Hv. simpl. eexists. reflexivity.
Qed.

Lemma transfer_other (token other from to holder : address)
  (value : uint256) (l l' : ERC20.Ledger) :
  ERC20._transfer token from to value l = Ok l' ->
  other <> token ->
  ERC20.balanceOf l' other holder = ERC20.balanceOf l other holder.
Proof.
  unfold ERC20._transfer. intros H Hne. inv_ok. simpl.
  rewrite !upd_other by assumption. reflexivity.
Qed.

Lemma transferFrom_other (token self other from to holder : address)
  (value : uint256) (l l' : ERC20.Ledger) :
  ERC20.safeTransferFrom token self from to value l = Ok l' ->
  other <> token ->
  ERC20.balanceOf l' other holder = ERC20.balanceOf l other holder.
Proof.
  unfold ERC20.safeTransferFrom. intros H Hne.
  apply bind_Ok in H. destruct H as [l1 [H1 H]].
  rewrite (transfer_other _ _ _ _ _ _ _ _ H Hne).
  destruct (ERC20.allowance l token from self <? MAX_UINT256);
    inv_ok; reflexivity.
Qed.

(** A transfer moves [v] from [from] to [to] and touches nothing else. *)
Lemma transfer_moves (token from to : address) (v : uint256)
  (l l' : ERC20.Ledger) :
  ERC20._transfer token from to v l = Ok l' ->
  (forall t holder,
      ERC20.balanceOf l' t holder
      = moved token from to v (ERC20.balanceOf l) t holder)
  /\ ERC20.allowance l' = ERC20.allowance l.
Proof.
  intros H. split.
  - intros t holder. unfold moved.
    destruct (Z.eqb_spec t token) as [->|Hne]; cbn [andb].
    + apply (transfer_balance _ _ _ _ _ _ H).
    + rewrite (transfer_other _ _ _ _ _ _ _ _ H Hne). lia.
  - unfold ERC20._transfer in H. inv_ok. reflexivity.
Qed.

Lemma transferFrom_moves (token self from to : address) (v : uint256)
  (l l' : ERC20.Ledger) :
  ERC20.safeTransferFrom token self from to v l = Ok l' ->
  forall t holder,
    ERC20.balanceOf l' t holder
    = moved token from to v (ERC20.balanceOf l) t holder.
Proof.
  intros H t holder. unfold moved.
  destruct (Z.eqb_spec t token) as [->|Hne]; cbn [andb].
  - apply (transferFrom_balance _ _ _ _ _ _ _ H).
  - rewrite (transferFrom_other _ _ _ _ _ _ _ _ _ H Hne). lia.
Qed.

Lemma moved_nothing (token from to : address)
  (balance : address -> address -> uint256) (t holder : address) :
  moved token from to 0 balance t holder = balance t holder.
Proof.
  unfold moved.
  destruct ((t =? token) && (holder =? from)),
    ((t =? token) && (holder =? to)); lia.
Qed.

Lemma moved_ext (token from to : address) (v : uint256)
  (b1 b2 : address -> address -> uint256) :
  (forall t holder, b1 t holder = b2 t holder) ->
  forall t holder,
    moved token from to v b1 t holder = moved token from to v b2 t holder.
Proof. intros H t holder. unfold moved. rewrite H. reflexivity. Qed.

(** Why a transfer reverts, when it does. *)
Lemma transfer_insufficient (token from to : address) (v : uint256)
  (l : ERC20.Ledger) :
  from <> 0 -> to <> 0 -> ERC20.balanceOf l token from < v ->
  ERC20._transfer token from to v l = Revert "ERC20InsufficientBalance".
Proof.
  intros Hf Ht Hv. unfold ERC20._transfer.
  apply Z.eqb_neq in Hf, Ht. apply Z.leb_gt in Hv.
  rewrite Hf, Ht, Hv. reflexivity.
Qed.

End LedgerProps.

(** ** SmartEscrow: terminal statuses *)

Module EscrowProps.

Import SmartEscrow LedgerSpec EscrowSpec LedgerProps.

Lemma escrow_effect_untouched (eid : bytes32) (w w' : World) :
  escrows (st w') eid = escrows (st w) eid -> effectOn eid w w' [].
Proof.
  intros H. unfold effectOn. rewrite H. auto.
Qed.

Lemma EscrowStatus_eqb_eq (a b : EscrowStatus) :
  EscrowStatus_eqb a b = true -> a = b.
Proof. destruct a, b; simpl; congruence. Qed.

(** After the monadic steps are broken up: compare the escrow the call
    names with [eid], and read the result off. *)
Ltac escrow_cases eid e0 :=
  unfold effectOn, payoutsFor; simpl; unfold upd;
  destruct (Z.eqb_spec eid e0) as [<-|Hne];
  [ rewrite ?Z.eqb_refl; simpl
  | let H := fresh "H" in
    assert (H : (e0 =? eid) = false) by (apply Z.eqb_neq; congruence);
    rewrite ?H; simpl; auto ].

Lemma effect_releaseEscrow (eid : bytes32) (now : uint256) (e0 : bytes32)
  (w w' : World) (ps : list Payout) :
  releaseEscrow now e0 w = Ok (w', ps) -> effectOn eid w w' ps.
Proof.
  unfold releaseEscrow, _releaseEscrow. intros H. inv_ok.
  match goal with
  | H : EscrowStatus_eqb _ _ = true |- _ => apply EscrowStatus_eqb_eq in H
  end.
  escrow_cases eid e0.
  split; [reflexivity|]. split; [reflexivity|]. right. right.
  match goal with H : Escrow.status _ = ACTIVE |- _ => rewrite H end.
  simpl. repeat split. lia.
Qed.

Lemma effect_approveRelease (eid : bytes32) (sender : address) (e0 : bytes32)
  (w w' : World) (ps : list Payout) :
  approveRelease sender e0 w = Ok (w', ps) -> effectOn eid w w' ps.
Proof.
  unfold approveRelease. intros H. inv_ok.
  match goal with
  | H : EscrowStatus_eqb _ _ = true |- _ => apply EscrowStatus_eqb_eq in H
  end.
  match goal with
  | H : (if ?c then _ else _) = Ok ?x |- _ =>
      assert (Hx : Escrow.amount x = Escrow.amount (escrows (st w) e0)
                   /\ Escrow.escrowId x = Escrow.escrowId (escrows (st w) e0)
                   /\ Escrow.status x = Escrow.status (escrows (st w) e0)
                   /\ Escrow.beneficiary x
                      = Escrow.beneficiary (escrows (st w) e0));
      [ destruct c; [inv_ok; simpl; auto|];
        match type of H with
        | (if ?c' then _ else _) = _ => destruct c'; inv_ok; simpl; auto
        end
      | clear H ]
  end.
  destruct Hx as [Hamount [Hid [Hstatus Hben]]].
  destruct (Escrow.conditionType a1);
    try (inv_ok; escrow_cases eid e0; split; [|split]; auto).
  destruct (Escrow.depositorApproved a1);
    [|inv_ok; escrow_cases eid e0; split; [|split]; auto].
  unfold _releaseEscrow in H. simpl in H. rewrite upd_same in H. simpl in H.
  inv_ok. escrow_cases eid e0.
  split; [assumption|]. split; [assumption|]. right. right.
  match goal with H : Escrow.status _ = ACTIVE |- _ => rewrite H end.
  simpl. repeat split. lia.
Qed.

Lemma effect_raiseDispute (eid : bytes32) (sender : address) (now : uint256)
  (e0 : bytes32) (reason : string) (w w' : World) (ps : list Payout) :
  raiseDispute sender now e0 reason w = Ok (w', ps) -> effectOn eid w w' ps.
Proof.
  unfold raiseDispute. intros H. inv_ok.
  match goal with
  | H : EscrowStatus_eqb _ _ = true |- _ => apply EscrowStatus_eqb_eq in H
  end.
  escrow_cases eid e0.
  split; [reflexivity|]. split; [reflexivity|]. right. left. auto.
Qed.

Lemma effect_requestRefund (eid : bytes32) (sender : address) (e0 : bytes32)
  (w w' : World) (ps : list Payout) :
  requestRefund sender e0 w = Ok (w', ps) -> effectOn eid w w' ps.
Proof.
  unfold requestRefund. intros H. inv_ok.
  match goal with
  | H : EscrowStatus_eqb _ _ = true |- _ => apply EscrowStatus_eqb_eq in H
  end.
  escrow_cases eid e0.
  split; [reflexivity|]. split; [reflexivity|]. right. right.
  match goal with H : Escrow.status _ = ACTIVE |- _ => rewrite H end.
  simpl. repeat split. lia.
Qed.

Lemma effect_resolveDispute (eid : bytes32) (sender : address) (e0 : bytes32)
  (recipient : address) (amount : uint256) (w w' : World) (ps : list Payout) :
  0 <= amount ->
  resolveDispute sender e0 recipient amount w = Ok (w', ps) ->
  effectOn eid w w' ps.
Proof.
  unfold resolveDispute. intros Hamount H. inv_ok.
  match goal with
  | H : EscrowStatus_eqb _ _ = true |- _ => apply EscrowStatus_eqb_eq in H
  end.
  match goal with
  | H : sub (Escrow.amount _) amount = Ok ?r |- _ =>
      apply checked_Ok in H; destruct H as [-> Hrange]
  end.
  repeat match goal with
  | H : (if ?c then _ else _) = Ok _ |- _ =>
      let E := fresh "E" in destruct c eqn:E; inv_ok
  end;
    escrow_cases eid e0;
    (split; [reflexivity|]; split; [reflexivity|]; right; right;
     match goal with H : Escrow.status _ = DISPUTED |- _ => rewrite H end;
     simpl; repeat split;
     repeat match goal with
     | H : (0 <? _) = false |- _ => apply Z.ltb_ge in H
     end; lia).
Qed.

Lemma escrow_effect_onState (eid : bytes32) (r : Result State) (w w' : World)
  (ps : list Payout) :
  onState r w = Ok (w', ps) ->
  (forall s', r = Ok s' -> escrows s' eid = escrows (st w) eid
              \/ (Escrow.amount (escrows s' eid)
                  = Escrow.amount (escrows (st w) eid)
                  /\ Escrow.escrowId (escrows s' eid)
                     = Escrow.escrowId (escrows (st w) eid)
                  /\ Escrow.status (escrows s' eid)
                     = Escrow.status (escrows (st w) eid))) ->
  effectOn eid w w' ps.
Proof.
  unfold onState. intros H Hr. inv_ok.
  unfold effectOn, payoutsFor. simpl.
  destruct (Hr _ eq_refl) as [E|[E1 [E2 E3]]].
  - rewrite E. auto.
  - auto.
Qed.

Lemma effect_create (keccak256 : list Z -> bytes32) (eid : bytes32)
  (sender : address) (now : uint256) (paymentId : bytes32)
  (depositor beneficiary token : address) (amount : uint256)
  (conditionType : ReleaseCondition) (releaseTime disputeWindow : uint256)
  (description : string) (w w' : World) (id : bytes32) :
  _createEscrow keccak256 sender now paymentId depositor beneficiary token
    amount conditionType releaseTime disputeWindow description w
  = Ok (w', id) ->
  escrowIdOf keccak256 depositor beneficiary token amount now
    (totalEscrowsCreated (st w)) <> eid ->
  effectOn eid w w' [].
Proof.
  unfold _createEscrow. intros H Hfresh. inv_ok.
  apply escrow_effect_untouched. simpl. apply upd_other. congruence.
Qed.

(** Every successful admissible call has one of the three effects. *)
Lemma escrow_step_effect (keccak256 : list Z -> bytes32) (eid : bytes32)
  (sender : address) (now : uint256) (c : Call) (w w' : World)
  (ps : list Payout) :
  step keccak256 sender now c w = Ok (w', ps) ->
  admissibleCall keccak256 eid sender now c w ->
  effectOn eid w w' ps.
Proof.
  intros H Hadm. destruct c; simpl in H, Hadm.
  - unfold created, createTimeBasedEscrow in H. inv_ok.
    destruct a as [w1 id]. simpl. eapply effect_create; eassumption.
  - unfold created, createApprovalEscrow in H. inv_ok.
    destruct a as [w1 id]. simpl. eapply effect_create; eassumption.
  - eapply effect_approveRelease; eassumption.
  - eapply effect_releaseEscrow; eassumption.
  - eapply effect_raiseDispute; eassumption.
  - eapply effect_resolveDispute; eassumption.
  - eapply effect_requestRefund; eassumption.
  - inv_ok. apply escrow_effect_untouched. reflexivity.
  - eapply escrow_effect_onState; [eassumption|].
    unfold setPayFlowCore. intros s' Hs. inv_ok. left. reflexivity.
  - eapply escrow_effect_onState; [eassumption|].
    unfold setFeeRecipient. intros s' Hs. inv_ok. left. reflexivity.
  - eapply escrow_effect_onState; [eassumption|].
    unfold setEscrowFee. intros s' Hs. inv_ok. left. reflexivity.
  - eapply escrow_effect_onState; [eassumption|].
    unfold setOracleConditionMet. intros s' Hs. inv_ok. right.
    simpl. unfold upd. destruct (eid =? escrowId) eqn:E; [|auto].
    apply Z.eqb_eq in E. subst. auto.
  - eapply escrow_effect_onState; [eassumption|].
    unfold grantRole. intros s' Hs. inv_ok. left. reflexivity.
  - eapply escrow_effect_onState; [eassumption|].
    unfold revokeRole. intros s' Hs. inv_ok. left. reflexivity.
  - inv_ok. apply escrow_effect_untouched. reflexivity.
Qed.

Lemma payoutsFor_app (eid : bytes32) (a b : list Payout) :
  payoutsFor eid (a ++ b) = payoutsFor eid a ++ payoutsFor eid b.
Proof. unfold payoutsFor. apply filter_app. Qed.

Lemma sumPaid_app (a b : list Payout) :
  sumPaid (a ++ b) = sumPaid a + sumPaid b.
Proof.
  induction a as [|p a IH]; simpl; [reflexivity|]. rewrite IH. lia.
Qed.

Lemma escrow_run_cons (keccak256 : list Z -> bytes32) (sender : address)
  (now : uint256) (c : Call) (rest : list Tx) (w : World) :
  run keccak256 ((sender, now, c) :: rest) w
  = match step keccak256 sender now c w with
    | Ok (w', ps) =>
        (fst (run keccak256 rest w'), ps ++ snd (run keccak256 rest w'))
    | Revert _ => run keccak256 rest w
    end.
Proof.
  simpl. destruct (step keccak256 sender now c w) as [[w' ps]|r];
    [|reflexivity].
  destruct (run keccak256 rest w'). reflexivity.
Qed.

(** A terminal escrow stays as it is, and nothing more is paid out of it. *)
Lemma run_terminal (keccak256 : list Z -> bytes32) (eid : bytes32)
  (txs : list Tx) :
  forall w,
    terminal (Escrow.status (escrows (st w) eid)) = true ->
    admissible keccak256 eid txs w ->
    Escrow.status (escrows (st (fst (run keccak256 txs w))) eid)
    = Escrow.status (escrows (st w) eid)
    /\ payoutsFor eid (snd (run keccak256 txs w)) = [].
Proof.
  induction txs as [|[[sender now] c] rest IH]; intros w Hterm Hadm.
  - simpl. auto.
  - destruct Hadm as [Hcall Hrest]. simpl in Hcall, Hrest.
    rewrite escrow_run_cons.
    destruct (step keccak256 sender now c w) as [[w1 ps1]|r] eqn:Hstep;
      [|apply IH; assumption].
    pose proof (escrow_step_effect _ _ _ _ _ _ _ _ Hstep Hcall) as Heff.
    destruct Heff as [_ [_ [[Hst Hps]|[[Hst _]|[Hst _]]]]];
      try (rewrite Hst in Hterm; discriminate);
      try congruence.
    destruct (IH w1) as [IH1 IH2]; [congruence | assumption |].
    simpl. rewrite payoutsFor_app, Hps, IH2. split; [congruence | reflexivity].
Qed.

(** From creation on: the escrowed amount leaves the contract in full when
    the escrow reaches a terminal status, and not before. *)
Lemma escrow_run_lifetime (keccak256 : list Z -> bytes32) (eid : bytes32)
  (txs : list Tx) :
  forall w,
    terminal (Escrow.status (escrows (st w) eid)) = false ->
    admissible keccak256 eid txs w ->
    let w' := fst (run keccak256 txs w) in
    let ps := snd (run keccak256 txs w) in
    (terminal (Escrow.status (escrows (st w') eid)) = true ->
     sumPaid (payoutsFor eid ps) = Escrow.amount (escrows (st w) eid))
    /\ (terminal (Escrow.status (escrows (st w') eid)) = false ->
        payoutsFor eid ps = []).
Proof.
  induction txs as [|[[sender now] c] rest IH]; intros w Hlive Hadm.
  - simpl. split; [congruence | reflexivity].
  - destruct Hadm as [Hcall Hrest]. simpl in Hcall, Hrest.
    cbv zeta. rewrite escrow_run_cons.
    destruct (step keccak256 sender now c w) as [[w1 ps1]|r] eqn:Hstep;
      [|apply IH; assumption].
    pose proof (escrow_step_effect _ _ _ _ _ _ _ _ Hstep Hcall) as Heff.
    destruct Heff as [Hamount [_ Hcases]]. simpl.
    rewrite payoutsFor_app, sumPaid_app.
    destruct Hcases as [[Hst Hps]|[[Hst [Hst' Hps]]|[_ [Hst' Hsum]]]].
    + destruct (IH w1) as [IH1 IH2]; [congruence | assumption |].
      rewrite Hps. simpl. rewrite <- Hamount. auto.
    + destruct (IH w1) as [IH1 IH2];
        [rewrite Hst'; reflexivity | assumption |].
      rewrite Hps. simpl. rewrite <- Hamount. auto.
    + destruct (run_terminal keccak256 eid rest w1 Hst' Hrest) as [T1 T2].
      rewrite T2, T1, app_nil_r. simpl.
      split; [intros _; lia | congruence].
Qed.

(** [_releaseEscrow] moves the escrowed amount to the beneficiary. *)
Lemma releaseEscrow_moves (e0 : bytes32) (w w' : World) (ps : list Payout) :
  _releaseEscrow e0 w = Ok (w', ps) ->
  let e := escrows (st w) e0 in
  ps = [mkPayout e0 (Escrow.beneficiary e) (Escrow.amount e)]
  /\ forall t holder,
       ERC20.balanceOf (ledger w') t holder
       = moved (Escrow.token e) (this (st w)) (Escrow.beneficiary e)
           (Escrow.amount e) (ERC20.balanceOf (ledger w)) t holder.
Proof.
  unfold _releaseEscrow. intros H. inv_ok. cbn [ledger].
  split; [reflexivity|].
  match goal with
  | H : ERC20.safeTransfer _ _ _ _ _ = Ok _ |- _ =>
      apply transfer_moves in H; destruct H as [H _]; exact H
  end.
Qed.

(** Every payout recorded is a transfer made: a call that takes no deposit
    leaves the balances as the payouts it records have changed them. *)
Lemma step_pays_out (keccak256 : list Z -> bytes32) (sender : address)
  (now : uint256) (c : Call) (w w' : World) (ps : list Payout) :
  takesNoDeposit c = true ->
  step keccak256 sender now c w = Ok (w', ps) ->
  forall t holder,
    ERC20.balanceOf (ledger w') t holder
    = paidOut (st w) ps (ERC20.balanceOf (ledger w)) t holder.
Proof.
  intros Hc H.
  destruct c; cbn [takesNoDeposit] in Hc; try discriminate Hc;
    cbn [step] in H;
    try (unfold onState, setPayFlowCore, setFeeRecipient, setEscrowFee,
           setOracleConditionMet, grantRole, revokeRole in H;
         inv_ok; intros t holder; reflexivity).
  - (* approveRelease *)
    unfold approveRelease in H. inv_ok.
    match goal with
    | H : (if ?c then _ else _) = Ok ?x |- _ =>
        assert (Hx : Escrow.token x = Escrow.token (escrows (st w) escrowId)
                     /\ Escrow.beneficiary x
                        = Escrow.beneficiary (escrows (st w) escrowId)
                     /\ Escrow.amount x
                        = Escrow.amount (escrows (st w) escrowId));
        [ destruct c; [inv_ok; simpl; auto|];
          match type of H with
          | (if ?c' then _ else _) = _ => destruct c'; inv_ok; simpl; auto
          end
        | clear H ]
    end.
    destruct Hx as [Htok [Hben Hamt]].
    destruct (Escrow.conditionType a1);
      try (inv_ok; intros t holder; reflexivity).
    destruct (Escrow.depositorApproved a1);
      [|inv_ok; intros t holder; reflexivity].
    apply releaseEscrow_moves in H. cbv zeta in H.
    cbn [st ledger set_escrow escrows this] in H. rewrite upd_same in H.
    destruct H as [-> Hb]. intros t holder.
    rewrite Hb. cbn [paidOut fold_left forEscrow payee paid].
    rewrite Htok, Hben, Hamt. reflexivity.
  - (* releaseEscrow *)
    unfold releaseEscrow in H. inv_ok.
    apply releaseEscrow_moves in H. cbv zeta in H.
    destruct H as [-> Hb]. intros t holder.
    rewrite Hb. reflexivity.
  - (* raiseDispute *)
    unfold raiseDispute in H. inv_ok. intros t holder. reflexivity.
  - (* resolveDispute *)
    unfold resolveDispute in H. inv_ok.
    match goal with
    | H1 : _ = Ok ?x1, H2 : context [fst ?x1] |- _ =>
        match type of H2 with
        | _ = Ok ?x2 =>
            rename H1 into Hfirst; rename H2 into Hsecond;
            destruct x1 as [l1 ps1]; destruct x2 as [l2 ps2]
        end
    end.
    cbn [fst snd ledger] in *.
    assert (H1 : forall t holder,
               ERC20.balanceOf l1 t holder
               = paidOut (st w) ps1 (ERC20.balanceOf (ledger w)) t holder).
    { destruct (0 <? amount); inv_ok; [|intros t holder; reflexivity].
      match goal with
      | H : ERC20.safeTransfer _ _ _ _ _ = Ok _ |- _ =>
          apply transfer_moves in H; destruct H as [H _]; exact H
      end. }
    assert (H2 : forall t holder,
               ERC20.balanceOf l2 t holder
               = paidOut (st w) ps2 (ERC20.balanceOf l1) t holder).
    { clear Hfirst H1.
      match type of Hsecond with
      | (if ?c then _ else _) = _ => destruct c
      end; inv_ok; [|intros t holder; reflexivity].
      match goal with
      | H : ERC20.safeTransfer _ _ _ _ _ = Ok _ |- _ =>
          apply transfer_moves in H; destruct H as [H _]; exact H
      end. }
    intros t holder. rewrite H2. unfold paidOut. rewrite fold_left_app.
    clear - H1. revert t holder.
    change (forall t holder,
               paidOut (st w) ps2 (ERC20.balanceOf l1) t holder
               = paidOut (st w) ps2
                   (paidOut (st w) ps1 (ERC20.balanceOf (ledger w)))
                   t holder).
    generalize dependent (paidOut (st w) ps1 (ERC20.balanceOf (ledger w))).
    generalize (ERC20.balanceOf l1).
    induction ps2 as [|p ps2 IH]; intros b1 b2 Hb t holder.
    + apply Hb.
    + cbn [paidOut fold_left]. apply IH. apply moved_ext. exact Hb.
  - (* requestRefund *)
    unfold requestRefund in H. inv_ok. cbn [ledger].
    match goal with
    | H : ERC20.safeTransfer _ _ _ _ _ = Ok _ |- _ =>
        apply transfer_moves in H; destruct H as [H _]; exact H
    end.
Qed.

(** C7. For an escrow whose status is [RELEASED] or [REFUNDED]:
    [releaseEscrow], [raiseDispute] and [requestRefund] on it revert, each
    at its lookup or status check (for [requestRefund], possibly at the
    depositor check that precedes it); and over any sequence of calls of
    the contract, interleaved with any activity on the tokens, the status
    stays what it is and nothing is paid out of the escrow.  For an escrow
    that is not yet terminal, over any such sequence the payouts made on
    its behalf add up to exactly its amount if it has become terminal, and
    to nothing if it has not: the escrowed funds leave once.  The payouts
    are the transfers made on the token ledger: every call that returns,
    other than a creation, leaves every balance of every token as the
    payouts of the call have changed it, each payout moving its amount
    from the contract to its payee in the token of its escrow.  (A call is
    admissible when its amount argument is a [uint256] and the identifier
    a creation hashes is not the escrow's own.) *)
Theorem escrow_terminality :
  forall (keccak256 : list Z -> bytes32) (eid : bytes32) (w : World),
    (terminal (Escrow.status (escrows (st w) eid)) = true ->
     (forall sender now reason,
         (releaseEscrow now eid w = Revert "Escrow not found"
          \/ releaseEscrow now eid w = Revert "Not active")
         /\ (raiseDispute sender now eid reason w = Revert "Escrow not found"
             \/ raiseDispute sender now eid reason w = Revert "Not active")
         /\ (requestRefund sender eid w = Revert "Escrow not found"
             \/ requestRefund sender eid w = Revert "Not depositor"
             \/ requestRefund sender eid w = Revert "Not active"))
     /\ (forall txs,
            admissible keccak256 eid txs w ->
            Escrow.status (escrows (st (fst (run keccak256 txs w))) eid)
            = Escrow.status (escrows (st w) eid)
            /\ payoutsFor eid (snd (run keccak256 txs w)) = []))
    /\
    (terminal (Escrow.status (escrows (st w) eid)) = false ->
     forall txs,
       admissible keccak256 eid txs w ->
       let w' := fst (run keccak256 txs w) in
       let ps := snd (run keccak256 txs w) in
       (terminal (Escrow.status (escrows (st w') eid)) = true ->
        sumPaid (payoutsFor eid ps) = Escrow.amount (escrows (st w) eid))
       /\ (terminal (Escrow.status (escrows (st w') eid)) = false ->
           payoutsFor eid ps = []))
    /\
    (forall sender now c w' ps,
        takesNoDeposit c = true ->
        step keccak256 sender now c w = Ok (w', ps) ->
        forall t holder,
          ERC20.balanceOf (ledger w') t holder
          = paidOut (st w) ps (ERC20.balanceOf (ledger w)) t holder).
Proof.
  intros keccak256 eid w. split; [|split].
  - intros Hterm. split.
    + intros sender now reason.
      assert (Hnot : EscrowStatus_eqb (Escrow.status (escrows (st w) eid))
                       ACTIVE = false)
        by (destruct (Escrow.status (escrows (st w) eid));
            simpl in *; congruence).
      unfold releaseEscrow, raiseDispute, requestRefund.
      destruct (Escrow.escrowId (escrows (st w) eid) =? eid); simpl;
        [|auto].
      rewrite Hnot. simpl.
      destruct (sender =? Escrow.depositor (escrows (st w) eid)); simpl; auto.
    + intros txs Hadm. apply run_terminal; assumption.
  - intros Hlive txs Hadm. apply escrow_run_lifetime; assumption.
  - intros sender now c w' ps. apply step_pays_out.
Qed.

(** The escrow of [activeWorld]: released at its release time, it
    withstands every later call of [lifeTrace]; over its whole life 99950
    units, its amount, are paid out, and the release moves them from the
    contract, address 900, to the beneficiary, account 20. *)
Lemma escrow_terminality_witness :
  Escrow.status (escrows (st (fst (run toyHash lifeTrace releasedWorld)))
                   theEscrow) = RELEASED
  /\ payoutsFor theEscrow (snd (run toyHash lifeTrace releasedWorld)) = []
  /\ releaseEscrow 1700002000 theEscrow releasedWorld = Revert "Not active"
  /\ sumPaid (payoutsFor theEscrow (snd (run toyHash lifeTrace activeWorld)))
     = 99950
  /\ ERC20.balanceOf (ledger activeWorld) 800 900 = 99950
  /\ ERC20.balanceOf (ledger releasedWorld) 800 900 = 0
  /\ ERC20.balanceOf (ledger releasedWorld) 800 20 = 99950.
Proof.
  destruct (escrow_terminality toyHash theEscrow releasedWorld)
    as [Hterminal _].
  destruct Hterminal as [Hcalls Hrun]; [reflexivity|].
  destruct (Hrun lifeTrace) as [Hstatus Hpaid].
  { vm_compute. repeat split; try discriminate. }
  destruct (Hcalls 20 1700002000 ""%string) as [[Hrel|Hrel] _];
    [vm_compute in Hrel; discriminate|].
  destruct (escrow_terminality toyHash theEscrow activeWorld)
    as [_ [Hlife Hledger]].
  destruct (Hlife eq_refl lifeTrace) as [Hsum _].
  { vm_compute. repeat split; try discriminate. }
  assert (Hstep : step toyHash 20 1700001000 (ReleaseEscrow theEscrow)
                    activeWorld
                  = Ok (releasedWorld, [mkPayout theEscrow 20 99950]))
    by (vm_compute; reflexivity).
  pose proof (Hledger 20 1700001000 (ReleaseEscrow theEscrow) releasedWorld
                [mkPayout theEscrow 20 99950] eq_refl Hstep) as Hb.
  split; [rewrite Hstatus; reflexivity|].
  split; [exact Hpaid|].
  split; [exact Hrel|].
  split; [rewrite Hsum; reflexivity|].
  split; [vm_compute; reflexivity|].
  split; [rewrite Hb; vm_compute; reflexivity|].
  rewrite Hb. vm_compute. reflexivity.
Defined.

End EscrowProps.

(** ** PayFlowCore: execution *)

Module PayFlowProps.

Import PayFlowCore LedgerSpec PayFlowSpec PayFlowExamples LedgerProps.

Lemma PaymentStatus_eqb_eq (a b : PaymentStatus) :
  PaymentStatus_eqb a b = true -> a = b.
Proof. destruct a, b; simpl; congruence. Qed.

Lemma transfer_other_token (token other from to holder : address)
  (value : uint256) (l l' : ERC20.Ledger) :
  ERC20._transfer token from to value l = Ok l' ->
  other <> token ->
  ERC20.balanceOf l' other holder = ERC20.balanceOf l other holder.
Proof.
  unfold ERC20._transfer. intros H Hne. inv_ok. simpl.
  rewrite !upd_other by assumption. reflexivity.
Qed.

(** What a successful [_executePayment] does. *)
Lemma executePayment_internal (now : uint256) (pid : bytes32) (w w' : World)
  (ss : list Settlement) :
  _executePayment now pid w = Ok (w', ss) ->
  let p := payments (st w) pid in
  (forall q, payments (st w') q
             = if q =? pid then Payment.set_executed now p
               else payments (st w) q)
  /\ ss = [mkSettlement pid (Payment.targetToken p) (payeeOf (st w) p)
             (Payment.amount p - feeOf (st w) p)]
  /\ (Payment.targetToken p <> Payment.token p ->
      Payment.amount p - feeOf (st w) p
      <= ERC20.balanceOf (ledger w) (Payment.targetToken p) (this (st w)))
  /\ totalPaymentsCreated (st w') = totalPaymentsCreated (st w).
Proof.
  intros H. cbv zeta. unfold _executePayment in H.
  apply bind_Ok in H. destruct H as [[rest l1] [Hfee H]].
  apply bind_Ok in H. destruct H as [amountToSend [Hfx H]].
  simpl in Hfx, H.
  assert (Hrest : rest = Payment.amount (payments (st w) pid)
                         - feeOf (st w) (payments (st w) pid)
                  /\ forall other holder,
                       other <> Payment.token (payments (st w) pid) ->
                       ERC20.balanceOf l1 other holder
                       = ERC20.balanceOf (ledger w) other holder).
  { unfold feeOf. destruct (0 <? protocolFeeBps (st w)).
    - inv_ok.
      repeat match goal with
      | H : mul _ _ = Ok _ |- _ => apply checked_Ok in H; destruct H as [? _]
      | H : sub _ _ = Ok _ |- _ => apply checked_Ok in H; destruct H as [? _]
      | H : div _ _ = Ok _ |- _ =>
          unfold div in H; destruct (_ =? 0) in H; inv_ok
      end.
      subst. split; [reflexivity|].
      intros other holder Hne. unfold ERC20.safeTransfer in *.
      eapply transfer_other_token; eassumption.
    - inv_ok. split; [lia | reflexivity]. }
  destruct Hrest as [Hrest Hl1].
  assert (Hsend : amountToSend = rest
                  /\ (Payment.targetToken (payments (st w) pid)
                      <> Payment.token (payments (st w) pid) ->
                      rest <= ERC20.balanceOf l1
                                (Payment.targetToken (payments (st w) pid))
                                (this (st w)))).
  { destruct (Z.eqb_spec (Payment.targetToken (payments (st w) pid))
                (Payment.token (payments (st w) pid))) as [E|E];
      simpl in Hfx.
    - inv_ok. split; [reflexivity | congruence].
    - unfold _performFXConversion in Hfx. inv_ok.
      match goal with H : (_ <=? _) = true |- _ => apply Z.leb_le in H end.
      auto. }
  destruct Hsend as [-> Hliq].
  inv_ok. simpl. unfold payeeOf.
  split; [intros q; unfold upd; reflexivity|].
  split; [subst; reflexivity|].
  split; [|reflexivity].
  intros Hne. rewrite <- (Hl1 _ _ Hne). apply Hliq. exact Hne.
Qed.

(** The two transfers of a successful [_executePayment], and what it
    leaves of the settings. *)
Lemma executePayment_ledger (now : uint256) (pid : bytes32) (w w' : World)
  (ss : list Settlement) :
  _executePayment now pid w = Ok (w', ss) ->
  let p := payments (st w) pid in
  (exists l1,
      (if 0 <? protocolFeeBps (st w)
       then ERC20._transfer (Payment.token p) (this (st w))
              (feeRecipient (st w)) (feeOf (st w) p) (ledger w) = Ok l1
       else l1 = ledger w)
      /\ ERC20._transfer (Payment.targetToken p) (this (st w))
           (payeeOf (st w) p) (Payment.amount p - feeOf (st w) p) l1
         = Ok (ledger w'))
  /\ protocolFeeBps (st w') = protocolFeeBps (st w)
  /\ paused (st w') = paused (st w)
  /\ this (st w') = this (st w)
  /\ (0 < protocolFeeBps (st w) ->
      0 <= Payment.amount p * protocolFeeBps (st w)).
Proof.
  intros H. cbv zeta. unfold _executePayment in H.
  apply bind_Ok in H. destruct H as [[rest l1] [Hfee H]].
  apply bind_Ok in H. destruct H as [amountToSend [Hfx H]].
  simpl in Hfx, H.
  apply bind_Ok in H. destruct H as [l2 [Hl2 H]].
  assert (Hrest : rest = Payment.amount (payments (st w) pid)
                         - feeOf (st w) (payments (st w) pid)
                  /\ (if 0 <? protocolFeeBps (st w)
                      then ERC20._transfer
                             (Payment.token (payments (st w) pid))
                             (this (st w)) (feeRecipient (st w))
                             (feeOf (st w) (payments (st w) pid)) (ledger w)
                           = Ok l1
                      else l1 = ledger w)
                  /\ (0 < protocolFeeBps (st w) ->
                      0 <= Payment.amount (payments (st w) pid)
                           * protocolFeeBps (st w))).
  { unfold feeOf. destruct (0 <? protocolFeeBps (st w)) eqn:Ebps.
    - inv_ok.
      repeat match goal with
      | H : mul _ _ = Ok _ |- _ => apply checked_Ok in H; destruct H as [? ?]
      | H : sub _ _ = Ok _ |- _ => apply checked_Ok in H; destruct H as [? _]
      | H : div _ _ = Ok _ |- _ =>
          unfold div in H; destruct (_ =? 0) in H; inv_ok
      end.
      subst. unfold ERC20.safeTransfer in *.
      split; [reflexivity|]. split; [assumption|]. intros _. lia.
    - inv_ok. split; [lia|]. split; [reflexivity|].
      apply Z.ltb_ge in Ebps. lia. }
  destruct Hrest as [Hrest [Hl1 Hpos]].
  assert (Hsend : amountToSend = rest).
  { destruct (Z.eqb_spec (Payment.targetToken (payments (st w) pid))
                (Payment.token (payments (st w) pid))) as [E|E];
      simpl in Hfx.
    - inv_ok. reflexivity.
    - unfold _performFXConversion in Hfx. inv_ok. reflexivity. }
  subst amountToSend rest.
  inv_ok. simpl. unfold payeeOf.
  split; [|auto].
  exists l1. split; [exact Hl1|]. exact Hl2.
Qed.

(** On the ledger: the fee has gone to the fee recipient and the rest to
    the payee. *)
Lemma executePayment_moves (now : uint256) (pid : bytes32) (w w' : World)
  (ss : list Settlement) :
  _executePayment now pid w = Ok (w', ss) ->
  forall t holder,
    ERC20.balanceOf (ledger w') t holder
    = settledBalances (st w) (payments (st w) pid)
        (ERC20.balanceOf (ledger w)) t holder.
Proof.
  intros H t holder.
  destruct (executePayment_ledger _ _ _ _ _ H) as [[l1 [Hfee Hout]] _].
  apply transfer_moves in Hout. destruct Hout as [Hout _].
  rewrite Hout. unfold settledBalances. apply moved_ext.
  intros t0 h0. unfold feeOf in *.
  destruct (0 <? protocolFeeBps (st w)).
  - apply transfer_moves in Hfee. apply Hfee.
  - subst l1. symmetry. apply moved_nothing.
Qed.

Lemma payment_effect_untouched (pid : bytes32) (w w' : World) :
  payments (st w') pid = payments (st w) pid -> effectOn pid w w' [].
Proof. intros H. unfold effectOn. rewrite H. auto. Qed.

(** [_executePayment] of [e0] in a world where [e0] is pending or
    approved. *)
Lemma effect_internal (pid e0 : bytes32) (now : uint256) (w0 w w' : World)
  (ss : list Settlement) :
  _executePayment now e0 w = Ok (w', ss) ->
  (forall q, q <> e0 -> payments (st w) q = payments (st w0) q) ->
  Payment.status (payments (st w0) e0) = PENDING
  \/ Payment.status (payments (st w0) e0) = APPROVED
  \/ e0 <> pid ->
  effectOn pid w0 w' ss.
Proof.
  intros H Hframe Hstatus.
  apply executePayment_internal in H. cbv zeta in H.
  destruct H as [Hpay [Hss _]].
  unfold effectOn, settlementsFor. rewrite Hpay, Hss. simpl.
  destruct (Z.eqb_spec pid e0) as [<-|Hne].
  - rewrite Z.eqb_refl. simpl. right. right.
    split; [|split; [reflexivity | eexists; reflexivity]].
    destruct Hstatus as [Hs|[Hs|Hs]]; [auto | auto | congruence].
  - assert (E : (e0 =? pid) = false) by (apply Z.eqb_neq; congruence).
    rewrite E. left. rewrite Hframe by assumption. auto.
Qed.

Lemma effect_executePayment (pid : bytes32) (now : uint256) (e0 : bytes32)
  (w w' : World) (ss : list Settlement) :
  executePayment now e0 w = Ok (w', ss) -> effectOn pid w w' ss.
Proof.
  unfold executePayment. intros H. inv_ok.
  eapply effect_internal; [eassumption | reflexivity |].
  match goal with
  | H : _ || _ = true |- _ =>
      apply orb_true_iff in H; destruct H as [H|H];
      apply PaymentStatus_eqb_eq in H; auto
  end.
Qed.

Lemma effect_approvePayment (pid : bytes32) (sender : address) (now : uint256)
  (e0 : bytes32) (w w' : World) (ss : list Settlement) :
  approvePayment sender now e0 w = Ok (w', ss) -> effectOn pid w w' ss.
Proof.
  unfold approvePayment. intros H. inv_ok.
  match goal with
  | H : PaymentStatus_eqb _ _ = true |- _ => apply PaymentStatus_eqb_eq in H
  end.
  match goal with
  | H : (if ?c then _ else _) = Ok _ |- _ => destruct c
  end.
  - apply executePayment_internal in H. cbv zeta in H.
    destruct H as [Hpay [Hss _]].
    unfold effectOn, settlementsFor. rewrite Hpay, Hss. simpl.
    unfold upd. destruct (Z.eqb_spec pid e0) as [<-|Hne].
    + rewrite Z.eqb_refl. simpl. right. right.
      split; [auto|]. split; [reflexivity | eexists; reflexivity].
    + assert (E : (e0 =? pid) = false) by (apply Z.eqb_neq; congruence).
      rewrite E. left. auto.
  - inv_ok. unfold effectOn, settlementsFor. simpl. unfold upd.
    destruct (Z.eqb_spec pid e0) as [<-|Hne]; simpl; auto.
Qed.

Lemma effect_cancelPayment (pid : bytes32) (sender : address) (e0 : bytes32)
  (w w' : World) (ss : list Settlement) :
  cancelPayment sender e0 w = Ok (w', ss) -> effectOn pid w w' ss.
Proof.
  unfold cancelPayment. intros H. inv_ok.
  unfold effectOn, settlementsFor. simpl. unfold upd.
  destruct (Z.eqb_spec pid e0) as [<-|Hne]; simpl; [|auto].
  right. left.
  match goal with
  | H : _ || _ = true |- _ =>
      apply orb_true_iff in H; destruct H as [H|H];
      apply PaymentStatus_eqb_eq in H; auto
  end.
Qed.

Lemma payment_effect_onState (pid : bytes32) (r : Result State) (w w' : World)
  (ss : list Settlement) :
  onState r w = Ok (w', ss) ->
  (forall s', r = Ok s' -> payments s' = payments (st w)) ->
  effectOn pid w w' ss.
Proof.
  unfold onState. intros H Hr. inv_ok.
  apply payment_effect_untouched. simpl. rewrite (Hr _ eq_refl). reflexivity.
Qed.

Lemma effect_createPayment (keccak256 : list Z -> bytes32) (pid : bytes32)
  (sender : address) (now : uint256) (recipient token : address)
  (amount : uint256) (conditions : PaymentConditions.t) (referenceId : bytes32)
  (memo : string) (w w' : World) (ss : list Settlement) :
  createPayment keccak256 sender now recipient token amount conditions
    referenceId memo w = Ok (w', ss) ->
  paymentIdOf keccak256 sender recipient token amount now
    (totalPaymentsCreated (st w)) <> pid ->
  effectOn pid w w' ss.
Proof.
  unfold createPayment. intros H Hfresh. inv_ok.
  match goal with
  | H : (if ?c then _ else _) = Ok _ |- _ => destruct c
  end.
  - eapply effect_internal; [eassumption | | right; right; assumption].
    intros q Hq. simpl. apply upd_other. exact Hq.
  - inv_ok. apply payment_effect_untouched. simpl.
    rewrite !upd_other by congruence. reflexivity.
Qed.

Lemma effect_createCrossBorderPayment (keccak256 : list Z -> bytes32)
  (pid : bytes32) (sender : address) (now : uint256)
  (recipient sourceToken : address) (sourceAmount : uint256)
  (targetToken : address) (minTargetAmount : uint256)
  (conditions : PaymentConditions.t) (referenceId : bytes32) (memo : string)
  (w w' : World) (ss : list Settlement) :
  createCrossBorderPayment keccak256 sender now recipient sourceToken
    sourceAmount targetToken minTargetAmount conditions referenceId memo w
  = Ok (w', ss) ->
  crossBorderIdOf keccak256 sender recipient sourceToken targetToken
    sourceAmount now (totalPaymentsCreated (st w)) <> pid ->
  effectOn pid w w' ss.
Proof.
  unfold createCrossBorderPayment. intros H Hfresh. inv_ok.
  apply payment_effect_untouched. simpl. apply upd_other. congruence.
Qed.

(** Every successful admissible call has one of the three effects. *)
Lemma payment_step_effect (keccak256 : list Z -> bytes32) (pid : bytes32)
  (sender : address) (now : uint256) (c : Call) (w w' : World)
  (ss : list Settlement) :
  step keccak256 sender now c w = Ok (w', ss) ->
  admissibleCall keccak256 pid sender now c w ->
  effectOn pid w w' ss.
Proof.
  intros H Hadm. destruct c; simpl in H, Hadm.
  - eapply effect_createPayment; eassumption.
  - eapply effect_createCrossBorderPayment; eassumption.
  - eapply effect_approvePayment; eassumption.
  - eapply effect_executePayment; eassumption.
  - eapply effect_cancelPayment; eassumption.
  - inv_ok. apply payment_effect_untouched. reflexivity.
  - eapply payment_effect_onState; [eassumption|].
    unfold addSupportedToken. intros s' Hs. inv_ok. reflexivity.
  - eapply payment_effect_onState; [eassumption|].
    unfold setModules. intros s' Hs. inv_ok. reflexivity.
  - eapply payment_effect_onState; [eassumption|].
    unfold setProtocolFee. intros s' Hs. inv_ok. reflexivity.
  - eapply payment_effect_onState; [eassumption|].
    unfold setFeeRecipient. intros s' Hs. inv_ok. reflexivity.
  - eapply payment_effect_onState; [eassumption|].
    unfold pause. intros s' Hs. inv_ok. reflexivity.
  - eapply payment_effect_onState; [eassumption|].
    unfold unpause. intros s' Hs. inv_ok. reflexivity.
  - eapply payment_effect_onState; [eassumption|].
    unfold grantRole. intros s' Hs. inv_ok. reflexivity.
  - eapply payment_effect_onState; [eassumption|].
    unfold revokeRole. intros s' Hs. inv_ok. reflexivity.
  - inv_ok. apply payment_effect_untouched. reflexivity.
Qed.

Lemma settlementsFor_app (pid : bytes32) (a b : list Settlement) :
  settlementsFor pid (a ++ b) = settlementsFor pid a ++ settlementsFor pid b.
Proof. unfold settlementsFor. apply filter_app. Qed.

Lemma payment_run_cons (keccak256 : list Z -> bytes32) (sender : address)
  (now : uint256) (c : Call) (rest : list Tx) (w : World) :
  run keccak256 ((sender, now, c) :: rest) w
  = match step keccak256 sender now c w with
    | Ok (w', ss) =>
        (fst (run keccak256 rest w'), ss ++ snd (run keccak256 rest w'))
    | Revert _ => run keccak256 rest w
    end.
Proof.
  simpl. destruct (step keccak256 sender now c w) as [[w' ss]|r];
    [|reflexivity].
  destruct (run keccak256 rest w'). reflexivity.
Qed.

(** A payment that is no longer live stays as it is, and nothing is settled
    for it again. *)
Lemma run_settled (keccak256 : list Z -> bytes32) (pid : bytes32)
  (txs : list Tx) :
  forall w,
    live (Payment.status (payments (st w) pid)) = false ->
    admissible keccak256 pid txs w ->
    Payment.status (payments (st (fst (run keccak256 txs w))) pid)
    = Payment.status (payments (st w) pid)
    /\ settlementsFor pid (snd (run keccak256 txs w)) = [].
Proof.
  induction txs as [|[[sender now] c] rest IH]; intros w Hdead Hadm.
  - simpl. auto.
  - destruct Hadm as [Hcall Hrest]. simpl in Hcall, Hrest.
    rewrite payment_run_cons.
    destruct (step keccak256 sender now c w) as [[w1 ss1]|r] eqn:Hstep;
      [|apply IH; assumption].
    pose proof (payment_step_effect _ _ _ _ _ _ _ _ Hstep Hcall) as Heff.
    destruct Heff as [[Hst Hss]|[[[Hst|Hst] _]|[[Hst|Hst] _]]];
      try (rewrite Hst in Hdead; discriminate).
    destruct (IH w1) as [IH1 IH2]; [congruence | assumption |].
    simpl. rewrite settlementsFor_app, Hss, IH2.
    split; [congruence | reflexivity].
Qed.

(** From creation on: one settlement transfer if the payment ends up
    executed, none otherwise. *)
Lemma payment_run_lifetime (keccak256 : list Z -> bytes32) (pid : bytes32)
  (txs : list Tx) :
  forall w,
    live (Payment.status (payments (st w) pid)) = true ->
    admissible keccak256 pid txs w ->
    let w' := fst (run keccak256 txs w) in
    let ss := snd (run keccak256 txs w) in
    (Payment.status (payments (st w') pid) = EXECUTED ->
     List.length (settlementsFor pid ss) = 1%nat)
    /\ (Payment.status (payments (st w') pid) <> EXECUTED ->
        settlementsFor pid ss = []).
Proof.
  induction txs as [|[[sender now] c] rest IH]; intros w Hlive Hadm.
  - simpl. split; [|reflexivity].
    intros E. rewrite E in Hlive. discriminate.
  - destruct Hadm as [Hcall Hrest]. simpl in Hcall, Hrest.
    cbv zeta. rewrite payment_run_cons.
    destruct (step keccak256 sender now c w) as [[w1 ss1]|r] eqn:Hstep;
      [|apply IH; assumption].
    pose proof (payment_step_effect _ _ _ _ _ _ _ _ Hstep Hcall) as Heff.
    simpl. rewrite settlementsFor_app.
    destruct Heff as [[Hst Hss]|[[_ [Hst Hss]]|[_ [Hst [x Hss]]]]].
    + destruct (IH w1) as [IH1 IH2]; [congruence | assumption |].
      rewrite Hss. simpl. auto.
    + destruct (run_settled keccak256 pid rest w1) as [T1 T2];
        [rewrite Hst; reflexivity | assumption |].
      rewrite Hss, T2, T1, Hst. simpl.
      split; [discriminate | reflexivity].
    + destruct (run_settled keccak256 pid rest w1) as [T1 T2];
        [rewrite Hst; reflexivity | assumption |].
      rewrite Hss, T2, T1, Hst. simpl.
      split; [reflexivity | congruence].
Qed.

(** Once a payment is neither pending nor approved, every attempt to
    execute it reverts. *)
Lemma attempts_after (keccak256 : list Z -> bytes32) (pid : bytes32)
  (who : list (address * uint256)) :
  forall w,
    Payment.status (payments (st w) pid) <> PENDING ->
    Payment.status (payments (st w) pid) <> APPROVED ->
    run keccak256 (attempts pid who) w = (w, []).
Proof.
  induction who as [|[sender now] rest IH]; intros w Hp Ha;
    [reflexivity|].
  cbn [attempts map fst snd]. rewrite payment_run_cons.
  fold (attempts pid rest).
  assert (Hrev : exists reason,
             step keccak256 sender now (ExecutePayment pid) w
             = Revert reason).
  { cbn [step]. unfold executePayment.
    destruct (Payment.paymentId (payments (st w) pid) =? pid);
      cbn [require bind]; [|eexists; reflexivity].
    destruct (Payment.status (payments (st w) pid));
      cbn [PaymentStatus_eqb orb require bind];
      try congruence; eexists; reflexivity. }
  destruct Hrev as [reason ->]. apply IH; assumption.
Qed.

(** Any number of attempts to execute a payment settle it at most once, on
    the ledger too. *)
Lemma attempts_settle_once (keccak256 : list Z -> bytes32) (pid : bytes32)
  (who : list (address * uint256)) :
  forall w,
    run keccak256 (attempts pid who) w = (w, [])
    \/ ((Payment.status (payments (st w) pid) = PENDING
         \/ Payment.status (payments (st w) pid) = APPROVED)
        /\ Payment.status
             (payments (st (fst (run keccak256 (attempts pid who) w))) pid)
           = EXECUTED
        /\ snd (run keccak256 (attempts pid who) w)
           = [mkSettlement pid
                (Payment.targetToken (payments (st w) pid))
                (payeeOf (st w) (payments (st w) pid))
                (Payment.amount (payments (st w) pid)
                 - feeOf (st w) (payments (st w) pid))]
        /\ forall t holder,
             ERC20.balanceOf
               (ledger (fst (run keccak256 (attempts pid who) w))) t holder
             = settledBalances (st w) (payments (st w) pid)
                 (ERC20.balanceOf (ledger w)) t holder).
Proof.
  induction who as [|[sender now] rest IH]; intros w; [left; reflexivity|].
  cbn [attempts map fst snd]. rewrite payment_run_cons.
  fold (attempts pid rest). cbn [step].
  destruct (executePayment now pid w) as [[w1 ss1]|reason] eqn:E;
    [|apply IH].
  right. unfold executePayment in E. inv_ok.
  match goal with
  | H : _ || _ = true |- _ =>
      apply orb_true_iff in H;
      assert (Hst : Payment.status (payments (st w) pid) = PENDING
                    \/ Payment.status (payments (st w) pid) = APPROVED)
        by (destruct H as [H|H]; apply PaymentStatus_eqb_eq in H; auto);
      clear H
  end.
  pose proof (executePayment_moves _ _ _ _ _ E) as Hmoved.
  apply executePayment_internal in E. cbv zeta in E.
  destruct E as [Hpay [Hss _]].
  assert (Hex : Payment.status (payments (st w1) pid) = EXECUTED)
    by (rewrite Hpay, Z.eqb_refl; reflexivity).
  rewrite (attempts_after keccak256 pid rest w1) by congruence.
  cbn [fst snd]. rewrite app_nil_r.
  split; [exact Hst|]. split; [exact Hex|]. split; [exact Hss|].
  exact Hmoved.
Qed.

(** An approval settles the payment, when it completes the conditions, as
    an execution does, and moves no token otherwise. *)
Lemma approvePayment_settles (sender : address) (now : uint256)
  (pid : bytes32) (w w' : World) (ss : list Settlement) :
  approvePayment sender now pid w = Ok (w', ss) ->
  (ss = [] /\ ledger w' = ledger w
   /\ Payment.status (payments (st w') pid) = PENDING)
  \/ (Payment.status (payments (st w') pid) = EXECUTED
      /\ ss = [mkSettlement pid
                 (Payment.targetToken (payments (st w) pid))
                 (payeeOf (st w) (payments (st w) pid))
                 (Payment.amount (payments (st w) pid)
                  - feeOf (st w) (payments (st w) pid))]
      /\ forall t holder,
           ERC20.balanceOf (ledger w') t holder
           = settledBalances (st w) (payments (st w) pid)
               (ERC20.balanceOf (ledger w)) t holder).
Proof.
  unfold approvePayment. intros H. inv_ok.
  match goal with
  | H : PaymentStatus_eqb _ _ = true |- _ =>
      apply PaymentStatus_eqb_eq in H; rename H into Hst
  end.
  match goal with
  | H : (if ?c then _ else _) = Ok _ |- _ => destruct c
  end.
  - right.
    pose proof (executePayment_moves _ _ _ _ _ H) as Hmoved.
    apply executePayment_internal in H. cbv zeta in H.
    destruct H as [Hpay [Hss _]].
    cbn [st ledger set_payment payments] in Hpay, Hss, Hmoved.
    rewrite upd_same in Hss, Hmoved.
    split; [rewrite Hpay, Z.eqb_refl; reflexivity|].
    split; [exact Hss | exact Hmoved].
  - left. inv_ok. cbn [st ledger set_payment payments]. rewrite upd_same.
    split; [reflexivity|]. split; [reflexivity | exact Hst].
Qed.

(** C1. [executePayment] succeeds at most once per payment.  A successful
    call leaves the status [EXECUTED] and makes exactly one settlement
    transfer, to the recipient or to the escrow vault: on the token ledger
    the protocol fee has gone from the contract to the fee recipient in the
    payment's token, the amount less the fee has gone from the contract to
    the payee in the target token, and no other balance has changed.  On a
    payment whose status is [EXECUTED], [FAILED] or [CANCELLED] the call
    reverts at its lookup or status check, hence changes nothing, and so
    does any repeat of a successful call: any number of attempts to execute
    a payment, by whomever and whenever, either all revert and leave
    everything as it was, or leave the payment [EXECUTED] and every balance
    as one execution leaves it.  The other call that can settle a stored
    payment, [approvePayment], moves no token unless it completes the
    conditions, in which case it leaves the payment [EXECUTED] and the
    balances as an execution does.  Over any sequence of calls of the contract
    (hashes not colliding with the payment's identifier), a payment in a
    terminal status keeps it and is never settled again, and a payment
    followed from a live status has been settled exactly once if it ends
    up [EXECUTED] and not at all otherwise. *)
Theorem executePayment_at_most_once :
  forall (keccak256 : list Z -> bytes32) (pid : bytes32) (w : World),
    (forall now w' ss,
        executePayment now pid w = Ok (w', ss) ->
        Payment.status (payments (st w') pid) = EXECUTED
        /\ ss = [mkSettlement pid
                   (Payment.targetToken (payments (st w) pid))
                   (payeeOf (st w) (payments (st w) pid))
                   (Payment.amount (payments (st w) pid)
                    - feeOf (st w) (payments (st w) pid))]
        /\ (forall t holder,
               ERC20.balanceOf (ledger w') t holder
               = settledBalances (st w) (payments (st w) pid)
                   (ERC20.balanceOf (ledger w)) t holder)
        /\ (forall now', executePayment now' pid w' = Revert "Cannot execute"))
    /\ (terminal (Payment.status (payments (st w) pid)) = true ->
        (forall now,
            executePayment now pid w = Revert "Payment not found"
            \/ executePayment now pid w = Revert "Cannot execute")
        /\ (forall txs,
               admissible keccak256 pid txs w ->
               Payment.status (payments (st (fst (run keccak256 txs w))) pid)
               = Payment.status (payments (st w) pid)
               /\ settlementsFor pid (snd (run keccak256 txs w)) = []))
    /\ (live (Payment.status (payments (st w) pid)) = true ->
        forall txs,
          admissible keccak256 pid txs w ->
          let w' := fst (run keccak256 txs w) in
          let ss := snd (run keccak256 txs w) in
          (Payment.status (payments (st w') pid) = EXECUTED ->
           List.length (settlementsFor pid ss) = 1%nat)
          /\ (Payment.status (payments (st w') pid) <> EXECUTED ->
              settlementsFor pid ss = []))
    /\ (forall who : list (address * uint256),
          run keccak256 (attempts pid who) w = (w, [])
          \/ ((Payment.status (payments (st w) pid) = PENDING
               \/ Payment.status (payments (st w) pid) = APPROVED)
              /\ Payment.status
                   (payments
                      (st (fst (run keccak256 (attempts pid who) w))) pid)
                 = EXECUTED
              /\ snd (run keccak256 (attempts pid who) w)
                 = [mkSettlement pid
                      (Payment.targetToken (payments (st w) pid))
                      (payeeOf (st w) (payments (st w) pid))
                      (Payment.amount (payments (st w) pid)
                       - feeOf (st w) (payments (st w) pid))]
              /\ forall t holder,
                   ERC20.balanceOf
                     (ledger (fst (run keccak256 (attempts pid who) w)))
                     t holder
                   = settledBalances (st w) (payments (st w) pid)
                       (ERC20.balanceOf (ledger w)) t holder))
    /\ (forall sender now w' ss,
          approvePayment sender now pid w = Ok (w', ss) ->
          (ss = [] /\ ledger w' = ledger w
           /\ Payment.status (payments (st w') pid) = PENDING)
          \/ (Payment.status (payments (st w') pid) = EXECUTED
              /\ ss = [mkSettlement pid
                         (Payment.targetToken (payments (st w) pid))
                         (payeeOf (st w) (payments (st w) pid))
                         (Payment.amount (payments (st w) pid)
                          - feeOf (st w) (payments (st w) pid))]
              /\ forall t holder,
                   ERC20.balanceOf (ledger w') t holder
                   = settledBalances (st w) (payments (st w) pid)
                       (ERC20.balanceOf (ledger w)) t holder)).
Proof.
  intros keccak256 pid w. split; [|split; [|split; [|split]]].
  - intros now w' ss H. unfold executePayment in H. inv_ok.
    match goal with
    | H : (Payment.paymentId _ =? pid) = true |- _ =>
        apply Z.eqb_eq in H; rename H into Hid
    end.
    pose proof (executePayment_moves _ _ _ _ _ H) as Hmoved.
    apply executePayment_internal in H. cbv zeta in H.
    destruct H as [Hpay [Hss _]].
    split; [rewrite Hpay, Z.eqb_refl; reflexivity|].
    split; [exact Hss|].
    split; [exact Hmoved|].
    intros now'. unfold executePayment. rewrite Hpay, Z.eqb_refl. simpl.
    rewrite Hid, Z.eqb_refl. reflexivity.
  - intros Hterm. split.
    + intros now. unfold executePayment.
      destruct (Payment.paymentId (payments (st w) pid) =? pid); simpl;
        [|auto].
      destruct (Payment.status (payments (st w) pid));
        simpl in *; try discriminate; auto.
    + intros txs Hadm. apply run_settled; [|assumption].
      destruct (Payment.status (payments (st w) pid));
        simpl in *; congruence.
  - intros Hlive txs Hadm. apply payment_run_lifetime; assumption.
  - intros who. apply attempts_settle_once.
  - intros sender now w' ss. apply approvePayment_settles.
Qed.

(** The cross-border payment of [pendingWorld]: executed once, it refuses
    every later attempt of [laterTrace]; followed from pending, it is
    settled exactly once.  Three attempts to execute it move one unit of
    token 800, the fee, from the contract to the fee recipient, account 1,
    and 999 units of token 801 from the contract to the recipient, account
    20, once. *)
Lemma executePayment_at_most_once_witness :
  Payment.status (payments (st (fst (run toyHash laterTrace executedWorld)))
                    thePayment) = EXECUTED
  /\ settlementsFor thePayment (snd (run toyHash laterTrace executedWorld)) = []
  /\ executePayment 1700000300 thePayment executedWorld
     = Revert "Cannot execute"
  /\ List.length
       (settlementsFor thePayment
          (snd (run toyHash
                  ((30, 1700000200, ExecutePayment thePayment) :: laterTrace)
                  pendingWorld))) = 1%nat
  /\ ERC20.balanceOf (ledger pendingWorld) 801 20 = 0
  /\ ERC20.balanceOf (ledger pendingWorld) 801 700 = 1000000
  /\ ERC20.balanceOf
       (ledger (fst (run toyHash
                       (attempts thePayment
                          [(30, 1700000200); (31, 1700000201);
                           (30, 1700000202)])
                       pendingWorld))) 801 20 = 999
  /\ ERC20.balanceOf
       (ledger (fst (run toyHash
                       (attempts thePayment
                          [(30, 1700000200); (31, 1700000201);
                           (30, 1700000202)])
                       pendingWorld))) 801 700 = 999001
  /\ ERC20.balanceOf
       (ledger (fst (run toyHash
                       (attempts thePayment
                          [(30, 1700000200); (31, 1700000201);
                           (30, 1700000202)])
                       pendingWorld))) 800 1 = 1.
Proof.
  destruct (executePayment_at_most_once toyHash thePayment executedWorld)
    as [_ [Hterminal _]].
  destruct Hterminal as [Hcall Hrun]; [reflexivity|].
  destruct (Hrun laterTrace) as [Hstatus Hnone].
  { vm_compute. repeat split; try discriminate. }
  destruct (Hcall 1700000300) as [Hrev|Hrev];
    [vm_compute in Hrev; discriminate|].
  destruct (executePayment_at_most_once toyHash thePayment pendingWorld)
    as [_ [_ [Hlife [Hattempts _]]]].
  destruct (Hlife eq_refl
              ((30, 1700000200, ExecutePayment thePayment) :: laterTrace))
    as [Hone _].
  { vm_compute. repeat split; try discriminate. }
  destruct (Hattempts [(30, 1700000200); (31, 1700000201); (30, 1700000202)])
    as [Hnothing | [_ [_ [_ Hb]]]].
  { exfalso.
    assert (Hs : Payment.status
                   (payments
                      (st (fst (run toyHash
                                  (attempts thePayment
                                     [(30, 1700000200); (31, 1700000201);
                                      (30, 1700000202)])
                                  pendingWorld))) thePayment)
                 = EXECUTED) by (vm_compute; reflexivity).
    rewrite Hnothing in Hs. vm_compute in Hs. discriminate Hs. }
  split; [rewrite Hstatus; reflexivity|].
  split; [exact Hnone|].
  split; [exact Hrev|].
  split; [apply Hone; reflexivity|].
  split; [vm_compute; reflexivity|].
  split; [vm_compute; reflexivity|].
  rewrite !Hb. vm_compute. repeat split; reflexivity.
Defined.





(** No call moves a payment to a status other than [PENDING], [EXECUTED]
    or [CANCELLED]. *)
Lemma step_status (keccak256 : list Z -> bytes32) (sender : address)
  (now : uint256) (c : Call) (w w' : World) (ss : list Settlement)
  (q : bytes32) :
  step keccak256 sender now c w = Ok (w', ss) ->
  Payment.status (payments (st w') q) = Payment.status (payments (st w) q)
  \/ Payment.status (payments (st w') q) = PENDING
  \/ Payment.status (payments (st w') q) = EXECUTED
  \/ Payment.status (payments (st w') q) = CANCELLED.
Proof.
  intros H. destruct c; simpl in H;
    try (unfold onState, addSupportedToken, setModules, setProtocolFee,
           setFeeRecipient, pause, unpause, grantRole, revokeRole in H;
         inv_ok; left; reflexivity).
  - unfold createPayment in H. inv_ok.
    match goal with
    | H : (if ?c then _ else _) = Ok _ |- _ => destruct c
    end.
    + apply executePayment_internal in H. cbv zeta in H.
      destruct H as [Hpay _]. rewrite Hpay.
      destruct (q =? _) eqn:E; [right; right; left; reflexivity|].
      left. simpl. unfold upd. rewrite E. reflexivity.
    + inv_ok. simpl. unfold upd.
      destruct (q =? _); [right; left; reflexivity | left; reflexivity].
  - unfold createCrossBorderPayment in H. inv_ok. simpl. unfold upd.
    destruct (q =? _); [right; left; reflexivity | left; reflexivity].
  - unfold approvePayment in H. inv_ok.
    match goal with
    | H : (if ?c then _ else _) = Ok _ |- _ => destruct c
    end.
    + apply executePayment_internal in H. cbv zeta in H.
      destruct H as [Hpay _]. rewrite Hpay.
      destruct (q =? paymentId) eqn:E; [right; right; left; reflexivity|].
      left. simpl. unfold upd. rewrite E. reflexivity.
    + inv_ok. simpl. unfold upd.
      destruct (q =? paymentId) eqn:E; [|left; reflexivity].
      apply Z.eqb_eq in E. subst. left. reflexivity.
  - unfold executePayment in H. inv_ok.
    apply executePayment_internal in H. cbv zeta in H.
    destruct H as [Hpay _]. rewrite Hpay.
    destruct (q =? paymentId); [right; right; left; reflexivity|].
    left. reflexivity.
  - unfold cancelPayment in H. inv_ok. simpl. unfold upd.
    destruct (q =? paymentId); [right; right; right; reflexivity|].
    left. reflexivity.
Qed.

(** The conversion is refused when the contract's holding of the target
    token does not cover the amount net of the fee. *)
Lemma executePayment_illiquid (now : uint256) (pid : bytes32) (w : World) :
  let p := payments (st w) pid in
  Payment.targetToken p <> Payment.token p ->
  Payment.paymentId p = pid ->
  Payment.status p = PENDING \/ Payment.status p = APPROVED ->
  _allConditionsMet now p = true ->
  0 <= Payment.amount p ->
  0 <= protocolFeeBps (st w) <= 10000 ->
  Payment.amount p * protocolFeeBps (st w) <= MAX_UINT256 ->
  this (st w) <> 0 ->
  feeRecipient (st w) <> 0 ->
  feeOf (st w) p
    <= ERC20.balanceOf (ledger w) (Payment.token p) (this (st w)) ->
  ERC20.balanceOf (ledger w) (Payment.targetToken p) (this (st w))
    < Payment.amount p - feeOf (st w) p ->
  executePayment now pid w = Revert "Insufficient liquidity".
Proof.
  intros p Hfx Hid Hst Hmet Hamt Hbps Hfit Hthis Hrec Hfee Hdry. subst p.
  set (p := payments (st w) pid) in *.
  unfold executePayment. fold p. rewrite Hid, Z.eqb_refl. cbn [require bind].
  assert (Hs : PaymentStatus_eqb (Payment.status p) PENDING
               || PaymentStatus_eqb (Payment.status p) APPROVED = true)
    by (destruct Hst as [-> | ->]; reflexivity).
  rewrite Hs, Hmet. cbn [require bind].
  unfold _executePayment. fold p.
  assert (Htok : negb (Payment.targetToken p =? Payment.token p) = true)
    by (apply negb_true_iff, Z.eqb_neq; exact Hfx).
  unfold feeOf in Hfee, Hdry.
  destruct (0 <? protocolFeeBps (st w)) eqn:Eb.
  - apply Z.ltb_lt in Eb.
    set (fee := Payment.amount p * protocolFeeBps (st w) / 10000) in *.
    assert (Hf0 : 0 <= fee) by (apply Z.div_pos; nia).
    assert (Hf1 : fee <= Payment.amount p).
    { unfold fee. apply Z.div_le_upper_bound; nia. }
    unfold mul, div, sub. rewrite checked_in_range by nia. cbn [bind].
    change (10000 =? 0) with false. cbn [bind]. fold fee.
    rewrite checked_in_range by nia. cbn [bind].
    unfold ERC20.safeTransfer.
    destruct (transfer_succeeds (Payment.token p) (this (st w))
                (feeRecipient (st w)) fee (ledger w) Hthis Hrec Hfee)
      as [l1 Hl1].
    rewrite Hl1. cbn [bind fst snd]. rewrite Htok.
    unfold _performFXConversion.
    rewrite (transfer_other _ _ _ _ _ _ _ _ Hl1 Hfx).
    apply Z.leb_gt in Hdry. rewrite Hdry. reflexivity.
  - cbn [bind fst snd]. rewrite Htok. unfold _performFXConversion.
    rewrite Z.sub_0_r in Hdry.
    apply Z.leb_gt in Hdry. rewrite Hdry. reflexivity.
Qed.

(** C3 (as the code has it). For a payment whose [targetToken] differs
    from its [token], a successful execution is a simulated one-to-one
    conversion: the contract's own balance of the target token covers the
    amount net of the protocol fee, exactly that net amount of the target
    token goes from the contract to the recipient (or the escrow vault) on
    the token ledger, the fee goes to the fee recipient in the payment's
    token, no other balance changes, and the payment becomes [EXECUTED];
    the oracle aggregator, its circuit breaker, the payment's
    [targetAmount] and [maxSlippage] are not consulted.  When the
    contract's balance of the target token does not cover the net amount,
    an execution that has passed its checks and taken the fee reverts with
    "Insufficient liquidity".  No call of the contract ever moves a payment
    to [FAILED]: an execution that cannot proceed reverts and leaves the
    payment as it was. *)
Theorem crossBorder_execution_is_one_to_one :
  (forall (now : uint256) (pid : bytes32) (w w' : World) (ss : list Settlement),
      let p := payments (st w) pid in
      Payment.targetToken p <> Payment.token p ->
      executePayment now pid w = Ok (w', ss) ->
      Payment.status (payments (st w') pid) = EXECUTED
      /\ ss = [mkSettlement pid (Payment.targetToken p) (payeeOf (st w) p)
                 (Payment.amount p - feeOf (st w) p)]
      /\ Payment.amount p - feeOf (st w) p
         <= ERC20.balanceOf (ledger w) (Payment.targetToken p) (this (st w))
      /\ (forall t holder,
             ERC20.balanceOf (ledger w') t holder
             = settledBalances (st w) p (ERC20.balanceOf (ledger w))
                 t holder))
  /\ (forall (now : uint256) (pid : bytes32) (w : World),
         let p := payments (st w) pid in
         Payment.targetToken p <> Payment.token p ->
         Payment.paymentId p = pid ->
         Payment.status p = PENDING \/ Payment.status p = APPROVED ->
         _allConditionsMet now p = true ->
         0 <= Payment.amount p ->
         0 <= protocolFeeBps (st w) <= 10000 ->
         Payment.amount p * protocolFeeBps (st w) <= MAX_UINT256 ->
         this (st w) <> 0 ->
         feeRecipient (st w) <> 0 ->
         feeOf (st w) p
           <= ERC20.balanceOf (ledger w) (Payment.token p) (this (st w)) ->
         ERC20.balanceOf (ledger w) (Payment.targetToken p) (this (st w))
           < Payment.amount p - feeOf (st w) p ->
         executePayment now pid w = Revert "Insufficient liquidity")
  /\ (forall (keccak256 : list Z -> bytes32) (sender : address)
             (now : uint256) (c : Call) (w w' : World) (ss : list Settlement)
             (q : bytes32),
         step keccak256 sender now c w = Ok (w', ss) ->
         Payment.status (payments (st w') q) = FAILED ->
         Payment.status (payments (st w) q) = FAILED).
Proof.
  split; [|split].
  - intros now pid w w' ss p Hfx H. subst p.
    unfold executePayment in H. inv_ok.
    pose proof (executePayment_moves _ _ _ _ _ H) as Hmoved.
    apply executePayment_internal in H. cbv zeta in H.
    destruct H as [Hpay [Hss [Hliq _]]].
    split; [rewrite Hpay, Z.eqb_refl; reflexivity|].
    split; [exact Hss|]. split; [exact (Hliq Hfx) | exact Hmoved].
  - apply executePayment_illiquid.
  - intros keccak256 sender now c w w' ss q Hstep Hfailed.
    destruct (step_status _ _ _ _ _ _ _ q Hstep) as [E|[E|[E|E]]];
      congruence.
Qed.

(** The payment of [pendingWorld]: 1000 of token 800 for token 801, fee 1.
    Its execution sends 999 of token 801 from the contract, address 700, to
    the recipient, account 20; with the contract's holding of token 801
    gone, in [dryWorld], it reverts. *)
Lemma crossBorder_execution_is_one_to_one_witness :
  (exists w',
      executePayment 1700000200 thePayment pendingWorld
      = Ok (w', [mkSettlement thePayment 801 20 999])
      /\ Payment.status (payments (st w') thePayment) = EXECUTED
      /\ ERC20.balanceOf (ledger w') 801 20
         = ERC20.balanceOf (ledger pendingWorld) 801 20 + 999
      /\ ERC20.balanceOf (ledger w') 801 700
         = ERC20.balanceOf (ledger pendingWorld) 801 700 - 999
      /\ ERC20.balanceOf (ledger w') 800 700
         = ERC20.balanceOf (ledger pendingWorld) 800 700 - 1)
  /\ executePayment 1700000200 thePayment dryWorld
     = Revert "Insufficient liquidity".
Proof.
  destruct crossBorder_execution_is_one_to_one as [Hfx [Hdry _]].
  split.
  - destruct (executePayment 1700000200 thePayment pendingWorld)
      as [[w' ss]|r] eqn:E; [|vm_compute in E; discriminate].
    destruct (Hfx 1700000200 thePayment pendingWorld w' ss)
      as [Hs [Hss [_ Hb]]];
      [vm_compute; discriminate | exact E |].
    exists w'. split; [rewrite Hss; reflexivity|].
    split; [exact Hs|].
    rewrite !Hb. vm_compute. repeat split; reflexivity.
  - apply Hdry.
    + vm_compute. discriminate.
    + vm_compute. reflexivity.
    + left. vm_compute. reflexivity.
    + vm_compute. reflexivity.
    + vm_compute. discriminate.
    + vm_compute. split; discriminate.
    + vm_compute. discriminate.
    + vm_compute. discriminate.
    + vm_compute. discriminate.
    + vm_compute. discriminate.
    + vm_compute. reflexivity.
Defined.

(** C3, refuted as stated.  The payment of [pendingWorld] converts token
    800 into token 801, expects 2000 and tolerates no slippage; the oracle
    aggregator named as module may be [trippedState], whose pair USD/EUR
    is halted and refuses to convert.  The execution goes through, pays 999
    of token 801 and leaves the payment [EXECUTED], not [FAILED]. *)
Lemma fx_halt_and_slippage_counterexample :
  Payment.targetToken (payments (st pendingWorld) thePayment)
    <> Payment.token (payments (st pendingWorld) thePayment)
  /\ Payment.targetAmount (payments (st pendingWorld) thePayment) = 2000
  /\ PaymentConditions.maxSlippage
       (Payment.conditions (payments (st pendingWorld) thePayment)) = 0
  /\ oracleAggregator (st pendingWorld) = 600
  /\ OracleAggregator.CurrencyPair.circuitBreakerTripped
       (OracleAggregator.pairs OracleSpec.trippedState OracleSpec.usdEur)
     = true
  /\ OracleAggregator.convert OracleSpec.usdEur 999 false
       OracleSpec.trippedState
     = Revert "Circuit breaker active"
  /\ succeeds (executePayment 1700000200 thePayment pendingWorld) = true
  /\ snd (run toyHash [(30, 1700000200, ExecutePayment thePayment)]
            pendingWorld)
     = [mkSettlement thePayment 801 20 999]
  /\ Payment.status (payments (st executedWorld) thePayment) = EXECUTED.
Proof. vm_compute. repeat split; try reflexivity; discriminate. Qed.

End PayFlowProps.

(** ** Arrays *)

Module ListProps.

Lemma index_nth_error {A : Type} (a : list A) (i : nat) (x : A) :
  nth_error a i = Some x -> index a i = Ok x.
Proof. unfold index. intros ->. reflexivity. Qed.

Lemma replace_app {A : Type} (pre post : list A) (x y : A) :
  replace (pre ++ x :: post) (List.length pre) y = Some (pre ++ y :: post).
Proof.
  induction pre as [|h pre IH]; simpl; [reflexivity|].
  rewrite IH. reflexivity.
Qed.

Lemma skipn_cons_nth {A : Type} (l : list A) :
  forall (n : nat) (y : A),
    nth_error l n = Some y -> skipn n l = y :: skipn (S n) l.
Proof.
  induction l as [|h l IH]; intros [|n] y H; simpl in *; try discriminate.
  - inversion H. reflexivity.
  - apply IH. exact H.
Qed.

Lemma firstn_S_nth {A : Type} (l : list A) :
  forall (n : nat) (y : A),
    nth_error l n = Some y -> firstn (S n) l = firstn n l ++ [y].
Proof.
  induction l as [|h l IH]; intros [|n] y H; simpl in *; try discriminate.
  - inversion H. reflexivity.
  - f_equal. apply IH. exact H.
Qed.

End ListProps.

(** ** OracleAggregator: the rate history *)

Module OracleHistoryProps.

Import OracleAggregator OracleSpec OracleExamples ListProps.

Lemma shifted_step {A : Type} (i j : nat) (l : list A) :
  (j + i < List.length l)%nat ->
  exists x,
    index (shifted i j l) (j + i) = Ok x
    /\ store (shifted i j l) j x = Ok (shifted i (S j) l).
Proof.
  intros Hlt.
  destruct (nth_error l (j + i)) as [x|] eqn:Hx;
    [|apply nth_error_None in Hx; lia].
  destruct (nth_error l j) as [y|] eqn:Hy;
    [|apply nth_error_None in Hy; lia].
  assert (Hlen : List.length (firstn j (skipn i l)) = j).
  { rewrite length_firstn, length_skipn. lia. }
  exists x. split.
  - apply index_nth_error. unfold shifted.
    rewrite nth_error_app2 by lia.
    rewrite Hlen, nth_error_skipn.
    replace (j + (j + i - j))%nat with (j + i)%nat by lia. exact Hx.
  - unfold store, shifted.
    rewrite (skipn_cons_nth l j y Hy).
    pose proof (replace_app (firstn j (skipn i l)) (skipn (S j) l) y x)
      as Hrep.
    rewrite Hlen in Hrep. rewrite Hrep.
    rewrite (firstn_S_nth (skipn i l) j x).
    + rewrite <- app_assoc. reflexivity.
    + rewrite nth_error_skipn.
      replace (i + j)%nat with (j + i)%nat by lia. exact Hx.
Qed.

Lemma shiftLoop_shifts (i : nat) (rh ts : list uint256) :
  List.length rh = List.length ts ->
  forall count j,
    (j + count + i = List.length rh)%nat ->
    shiftLoop count j i (shifted i j rh) (shifted i j ts)
    = Ok (shifted i (j + count) rh, shifted i (j + count) ts).
Proof.
  intros Hlen count.
  induction count as [|count IH]; intros j Hj; simpl.
  - rewrite Nat.add_0_r. reflexivity.
  - destruct (shifted_step i j rh) as [r [Hr1 Hr2]]; [lia|].
    destruct (shifted_step i j ts) as [t [Ht1 Ht2]]; [lia|].
    rewrite Hr1. simpl. rewrite Hr2. simpl.
    rewrite Ht1. simpl. rewrite Ht2. simpl.
    rewrite IH by lia.
    replace (S j + count)%nat with (j + S count)%nat by lia.
    reflexivity.
Qed.

Lemma popLoop_pops (a b : list uint256) :
  forall count tr tt,
    List.length tr = count -> List.length tt = count ->
    popLoop count (a ++ tr) (b ++ tt) = Ok (a, b).
Proof.
  induction count as [|count IH]; intros tr tt Hr Ht.
  - destruct tr; [|discriminate]. destruct tt; [|discriminate].
    simpl. rewrite !app_nil_r. reflexivity.
  - assert (Hr' : tr <> []) by (intros ->; discriminate).
    assert (Ht' : tt <> []) by (intros ->; discriminate).
    simpl.
    assert (Hpop : forall (p q : list uint256),
               q <> [] -> pop (p ++ q) = Ok (p ++ removelast q)).
    { intros p q Hq. unfold pop.
      destruct (p ++ q) eqn:E.
      - apply app_eq_nil in E. tauto.
      - rewrite <- E. rewrite removelast_app by exact Hq. reflexivity. }
    rewrite (Hpop a tr Hr'). simpl.
    rewrite (Hpop b tt Ht'). simpl.
    apply IH.
    + destruct (exists_last Hr') as [l [x ->]].
      rewrite removelast_last. rewrite length_app in Hr. simpl in Hr. lia.
    + destruct (exists_last Ht') as [l [x ->]].
      rewrite removelast_last. rewrite length_app in Ht. simpl in Ht. lia.
Qed.

Lemma firstWithin_le (cutoff : uint256) (ts : list uint256) :
  (firstWithin cutoff ts <= List.length ts)%nat.
Proof.
  induction ts as [|t ts IH]; simpl; [lia|].
  destruct (t <? cutoff); simpl; lia.
Qed.

(** What [_trimHistory] returns once [now - twapPeriod] is computed. *)
Lemma trimHistory_from_cutoff (now cutoff : uint256) (pair : CurrencyPair.t) :
  List.length (CurrencyPair.rateHistory pair)
  = List.length (CurrencyPair.timestamps pair) ->
  sub now (CurrencyPair.twapPeriod pair) = Ok cutoff ->
  let i := firstWithin cutoff (CurrencyPair.timestamps pair) in
  _trimHistory now pair
  = Ok (if (0 <? i)%nat
           && (100 <? List.length (CurrencyPair.rateHistory pair))%nat
        then CurrencyPair.set_history
               (skipn i (CurrencyPair.rateHistory pair))
               (skipn i (CurrencyPair.timestamps pair)) pair
        else pair).
Proof.
  intros Hlen Hcut i. unfold _trimHistory. rewrite Hcut. simpl.
  fold i.
  destruct ((0 <? i)%nat
            && (100 <? List.length (CurrencyPair.rateHistory pair))%nat);
    [|reflexivity].
  assert (Hi : (i <= List.length (CurrencyPair.rateHistory pair))%nat).
  { rewrite Hlen. apply firstWithin_le. }
  apply Nat.leb_le in Hi as Hi'. rewrite Hi'. simpl.
  pose proof (shiftLoop_shifts i _ _ Hlen
                (List.length (CurrencyPair.rateHistory pair) - i) 0) as Hs.
  unfold shifted at 1 2 in Hs. simpl in Hs.
  rewrite Hs by lia. simpl.
  unfold shifted.
  rewrite !firstn_all2 by (rewrite length_skipn; lia).
  rewrite popLoop_pops; [reflexivity| |];
    rewrite length_skipn; lia.
Qed.

(** X1. [_trimHistory] drops from both history arrays exactly the leading
    entries whose timestamp is older than [now - twapPeriod], and only when
    there is at least one such entry and more than 100 entries are recorded;
    otherwise it leaves the pair as it is.  It does not revert as long as
    [now - twapPeriod] is representable and the two arrays have the same
    length. *)
Theorem trimHistory_drops_expired_prefix :
  forall (now : uint256) (pair : CurrencyPair.t),
    List.length (CurrencyPair.rateHistory pair)
    = List.length (CurrencyPair.timestamps pair) ->
    0 <= now - CurrencyPair.twapPeriod pair <= MAX_UINT256 ->
    let i := firstWithin (now - CurrencyPair.twapPeriod pair)
               (CurrencyPair.timestamps pair) in
    _trimHistory now pair
    = Ok (if (0 <? i)%nat
             && (100 <? List.length (CurrencyPair.rateHistory pair))%nat
          then CurrencyPair.set_history
                 (skipn i (CurrencyPair.rateHistory pair))
                 (skipn i (CurrencyPair.timestamps pair)) pair
          else pair).
Proof.
  intros now pair Hlen Hrange.
  apply trimHistory_from_cutoff; [exact Hlen|].
  unfold sub. apply checked_in_range. exact Hrange.
Qed.

Lemma trimHistory_drops_expired_prefix_witness :
  _trimHistory 1700001000 longHistory
  = Ok (CurrencyPair.set_history [100; 101] [1700000100; 1700000101]
          longHistory).
Proof.
  rewrite (trimHistory_drops_expired_prefix 1700001000 longHistory).
  - reflexivity.
  - reflexivity.
  - vm_compute. split; discriminate.
Defined.

Lemma trimHistory_aligned (now : uint256) (p p' : CurrencyPair.t) :
  _trimHistory now p = Ok p' ->
  List.length (CurrencyPair.rateHistory p)
  = List.length (CurrencyPair.timestamps p) ->
  List.length (CurrencyPair.rateHistory p')
  = List.length (CurrencyPair.timestamps p').
Proof.
  intros H Hlen.
  assert (Hcut : exists cutoff,
             sub now (CurrencyPair.twapPeriod p) = Ok cutoff).
  { unfold _trimHistory in H. apply bind_Ok in H.
    destruct H as [c [Hc _]]. exists c. exact Hc. }
  destruct Hcut as [cutoff Hcut].
  rewrite (trimHistory_from_cutoff now cutoff p Hlen Hcut) in H.
  inversion H; subst p'; clear H.
  destruct ((0 <? firstWithin cutoff (CurrencyPair.timestamps p))%nat
            && (100 <? List.length (CurrencyPair.rateHistory p))%nat);
    [|exact Hlen].
  simpl. rewrite !length_skipn. lia.
Qed.

Lemma trimHistory_isActive (now : uint256) (p p' : CurrencyPair.t) :
  _trimHistory now p = Ok p' ->
  CurrencyPair.isActive p' = CurrencyPair.isActive p.
Proof.
  unfold _trimHistory. intros H. inv_ok.
  destruct ((0 <? firstWithin a (CurrencyPair.timestamps p))%nat
            && (100 <? List.length (CurrencyPair.rateHistory p))%nat);
    inv_ok; reflexivity.
Qed.

(** A property of the pairs, indexed by their ids, that every successful
    call preserves, given that the ways a call rewrites a pair preserve
    it. *)
Section PairInvariant.

Variable keccak256 : string -> bytes32.
Variable P : bytes32 -> CurrencyPair.t -> Prop.

Hypothesis P_tripped :
  forall q b p, P q p -> P q (CurrencyPair.set_circuitBreakerTripped b p).
Hypothesis P_maxDeviation :
  forall q v p, P q p -> P q (CurrencyPair.set_maxDeviation v p).
Hypothesis P_twapPeriod :
  forall q v p, P q p -> P q (CurrencyPair.set_twapPeriod v p).
Hypothesis P_rate :
  forall q r u p,
    P q p ->
    P q (CurrencyPair.set_lastUpdate u (CurrencyPair.set_currentRate r p)).
Hypothesis P_record :
  forall q now r p p',
    P q p ->
    _trimHistory now
      (CurrencyPair.set_history (CurrencyPair.rateHistory p ++ [r])
         (CurrencyPair.timestamps p ++ [now]) p) = Ok p' ->
    P q p'.
Hypothesis P_added :
  forall q base quote id twap dev p,
    P q p ->
    P q (CurrencyPair.mk base quote id true (CurrencyPair.currentRate p)
           (CurrencyPair.lastUpdate p) (CurrencyPair.rateHistory p)
           (CurrencyPair.timestamps p) twap dev
           (CurrencyPair.circuitBreakerTripped p)).

Lemma batchLoop_pair_invariant (sender : address) (now : uint256)
  (entries : list (bytes32 * uint256 * uint256)) :
  forall s, holds P s -> holds P (batchLoop sender now entries s).
Proof.
  induction entries as [|[[pid rate] conf] rest IH]; intros s Hs; simpl.
  - apply Hs.
  - apply IH. intros q'.
    destruct (CurrencyPair.isActive (pairs s pid) && (0 <? rate));
      [|apply Hs].
    simpl. unfold upd. destruct (q' =? pid) eqn:E; [|apply Hs].
    apply Z.eqb_eq in E. subst q'. apply P_rate. apply Hs.
Qed.

Lemma addPair_pair_invariant (base quote : string) (s s' : State) :
  _addPair keccak256 base quote s = Ok s' -> holds P s -> holds P s'.
Proof.
  unfold _addPair. intros H Hs q. inv_ok. simpl. unfold upd.
  destruct (q =? pairIdOf keccak256 base quote) eqn:E; [|apply Hs].
  apply Z.eqb_eq in E. subst q. apply P_added. apply Hs.
Qed.

Lemma constructor_pair_invariant (sender : address) (s0 : State) :
  (forall q, P q CurrencyPair.zero) ->
  constructor keccak256 sender = Ok s0 -> holds P s0.
Proof.
  intros Hzero H. unfold constructor in H. inv_ok.
  repeat match goal with
  | H : _addPair _ _ _ _ = Ok ?s |- holds _ ?s =>
      apply (addPair_pair_invariant _ _ _ _ H)
  end.
  intros q. apply Hzero.
Qed.

Lemma step_pair_invariant (sender : address) (now : uint256) (c : Call)
  (s s' : State) :
  step keccak256 sender now c s = Ok s' -> holds P s -> holds P s'.
Proof.
  intros Hstep Hs q.
  destruct c; simpl in Hstep;
    unfold addPair, addOracle, updateOracleWeight, deactivateOracle, view,
      resetCircuitBreaker, setMaxDeviation, setStalenessThreshold,
      setMinOracleCount, setTwapPeriod, grantRole, revokeRole, renounceRole,
      onlyRole in Hstep;
    try (inv_ok; simpl; solve [apply Hs]);
    try (inv_ok; simpl; unfold upd; destruct (q =? pairId) eqn:E;
         [apply Z.eqb_eq in E; subst q; solve [auto] | apply Hs]).
  - (* addPair *)
    inv_ok. apply (addPair_pair_invariant _ _ _ _ Hstep Hs).
  - (* updatePrice *)
    unfold updatePrice, onlyRole in Hstep. inv_ok.
    match goal with
    | H : (if ?tripping then _ else _) = Ok _ |- _ => destruct tripping
    end; inv_ok.
    + simpl. unfold upd. destruct (q =? pairId) eqn:E; [|apply Hs].
      apply Z.eqb_eq in E. subst q. apply P_tripped. apply Hs.
    + simpl. unfold upd at 1. destruct (q =? pairId) eqn:E; [|apply Hs].
      apply Z.eqb_eq in E. subst q.
      match goal with
      | H : _trimHistory _ _ = Ok _ |- _ => simpl in H;
                                            eapply P_record; [|exact H]
      end.
      apply P_rate. apply Hs.
  - (* batchUpdatePrices *)
    unfold batchUpdatePrices, onlyRole in Hstep. inv_ok. simpl.
    apply batchLoop_pair_invariant. exact Hs.
Qed.

Lemma run_pair_invariant (txs : list Tx) :
  forall s, holds P s -> holds P (run keccak256 txs s).
Proof.
  induction txs as [|[[sender now] c] rest IH]; intros s Hs; simpl.
  - exact Hs.
  - apply IH.
    destruct (step keccak256 sender now c s) as [s'|r] eqn:Hstep; simpl;
      [|exact Hs].
    apply (step_pair_invariant _ _ _ _ _ Hstep Hs).
Qed.

End PairInvariant.

(** X2. In every state reached from the constructor by any sequence of
    calls, every pair's [rateHistory] and [timestamps] arrays have the same
    length. *)
Theorem history_arrays_stay_aligned :
  forall (keccak256 : string -> bytes32) (sender : address) (s0 : State)
         (txs : list Tx),
    constructor keccak256 sender = Ok s0 ->
    historyAligned (run keccak256 txs s0).
Proof.
  intros keccak256 sender s0 txs Hc.
  pose (P := fun (_ : bytes32) (p : CurrencyPair.t) =>
               List.length (CurrencyPair.rateHistory p)
               = List.length (CurrencyPair.timestamps p)).
  change (holds P (run keccak256 txs s0)).
  apply run_pair_invariant; unfold P; try (intros; simpl; assumption).
  - intros q now r p p' Hp Ht.
    apply (trimHistory_aligned _ _ _ Ht). simpl.
    rewrite !length_app. simpl. lia.
  - apply constructor_pair_invariant
      with (keccak256 := keccak256) (sender := sender); unfold P;
      try (intros; simpl; assumption); reflexivity.
Qed.

Lemma history_arrays_stay_aligned_witness :
  historyAligned (run toyHash (twoOracleTrace ++ quietTrace) deployed).
Proof.
  apply (history_arrays_stay_aligned toyHash 1 deployed).
  vm_compute. reflexivity.
Defined.

(** X3. [updatePrice] computes [now - twapPeriod] whenever it accepts a
    report, so while a pair's [twapPeriod] exceeds the block time no report
    for the pair is accepted: a call that returns has tripped the circuit
    breaker and has left the stored reports and the current rate as they
    were. *)
Theorem updatePrice_needs_elapsed_twapPeriod :
  forall (sender : address) (now : uint256) (pairId : bytes32)
         (rate confidence : uint256) (s s' : State),
    now < CurrencyPair.twapPeriod (pairs s pairId) ->
    updatePrice sender now pairId rate confidence s = Ok s' ->
    CurrencyPair.circuitBreakerTripped (pairs s' pairId) = true
    /\ oraclePrices s' = oraclePrices s
    /\ CurrencyPair.currentRate (pairs s' pairId)
       = CurrencyPair.currentRate (pairs s pairId).
Proof.
  intros sender now pairId rate confidence s s' Hfar H.
  unfold updatePrice, onlyRole in H. inv_ok.
  match goal with
  | H : (if ?tripping then _ else _) = Ok _ |- _ => destruct tripping
  end; inv_ok.
  - simpl. rewrite upd_same. auto.
  - exfalso.
    match goal with
    | H : _trimHistory _ _ = Ok _ |- _ =>
        unfold _trimHistory in H; apply bind_Ok in H;
        destruct H as [cutoff [Hcut _]]
    end.
    simpl in Hcut. unfold sub in Hcut. apply checked_Ok in Hcut. lia.
Qed.

Lemma updatePrice_needs_elapsed_twapPeriod_witness :
  exists s',
    updatePrice 11 1700000200 usdEur 200 100 farTwapState = Ok s'
    /\ CurrencyPair.circuitBreakerTripped (pairs s' usdEur) = true
    /\ oraclePrices s' = oraclePrices farTwapState
    /\ CurrencyPair.currentRate (pairs s' usdEur) = 175
    /\ updatePrice 11 1700000200 usdEur 176 100 farTwapState
       = Revert "Panic(0x11)".
Proof.
  destruct (updatePrice 11 1700000200 usdEur 200 100 farTwapState)
    as [s'|r] eqn:E; [|vm_compute in E; discriminate E].
  exists s'.
  destruct (updatePrice_needs_elapsed_twapPeriod
              11 1700000200 usdEur 200 100 farTwapState s')
    as [H1 [H2 H3]].
  - vm_compute. reflexivity.
  - exact E.
  - split; [reflexivity|]. split; [exact H1|]. split; [exact H2|].
    split; [rewrite H3; vm_compute; reflexivity|].
    vm_compute. reflexivity.
Defined.

(** X4. A pair whose circuit breaker is tripped cannot be converted at:
    [convert] on an active, tripped pair reverts with "Circuit breaker
    active", and keeps doing so after any sequence of calls in which no
    holder of [ORACLE_ADMIN] resets that pair. *)
Theorem tripped_pair_cannot_convert :
  forall (keccak256 : string -> bytes32) (q : bytes32) (txs : list Tx)
         (s : State) (amount : uint256) (inverse : bool),
    CurrencyPair.isActive (pairs s q) = true ->
    CurrencyPair.circuitBreakerTripped (pairs s q) = true ->
    noAdminReset keccak256 q txs s ->
    convert q amount inverse (run keccak256 txs s)
    = Revert "Circuit breaker active".
Proof.
  intros keccak256 q txs s amount inverse Hact Htrip Hno.
  pose (P := fun (q' : bytes32) (p : CurrencyPair.t) =>
               q' = q -> CurrencyPair.isActive p = true).
  assert (Hact' : holds P (run keccak256 txs s)).
  { apply run_pair_invariant; unfold P;
      try (intros; simpl; auto; fail).
    - intros q' now r p p' Hp Ht Hq.
      rewrite (trimHistory_isActive _ _ _ Ht). simpl. auto.
    - intros q' Hq. subst q'. exact Hact. }
  pose proof (OracleProps.run_keeps_tripped keccak256 q txs s Htrip Hno) as Htrip'.
  unfold convert. rewrite (Hact' q eq_refl), Htrip'. reflexivity.
Qed.

Lemma tripped_pair_cannot_convert_witness :
  convert usdEur 5 false (run toyHash quietTrace trippedState)
  = Revert "Circuit breaker active".
Proof.
  apply (tripped_pair_cannot_convert toyHash usdEur quietTrace trippedState).
  - vm_compute. reflexivity.
  - vm_compute. reflexivity.
  - vm_compute. repeat split; intros; discriminate.
Defined.

(** X5. Converting an amount with [convert] and converting the result
    back in the opposite direction never returns more than the amount
    started with, in either direction. *)
Theorem convert_round_trip_never_gains :
  forall (pairId : bytes32) (amount there back rate rate' : uint256)
         (inverse : bool) (s : State),
    0 <= amount ->
    0 <= CurrencyPair.currentRate (pairs s pairId) ->
    convert pairId amount inverse s = Ok (there, rate) ->
    convert pairId there (negb inverse) s = Ok (back, rate') ->
    back <= amount.
Proof.
  intros pairId amount there back rate rate' inverse s Hamt Hrate H1 H2.
  unfold convert in H1, H2.
  set (r := CurrencyPair.currentRate (pairs s pairId)) in *.
  destruct inverse; simpl negb in H2; cbv iota in H1, H2; inv_ok;
    unfold mul, div in *;
    repeat match goal with
    | H : checked _ = Ok _ |- _ => apply checked_Ok in H; destruct H as [? ?]
    end;
    subst;
    destruct (r =? 0) eqn:Er; try discriminate;
    destruct (10 ^ 18 =? 0) eqn:E18; try discriminate;
    inv_ok; apply Z.eqb_neq in Er;
    change (Z.pow_pos 10 18) with (10 ^ 18).
  - apply Z.div_le_upper_bound; [lia|].
    pose proof (Z.mul_div_le (amount * 10 ^ 18) r ltac:(lia)). lia.
  - apply Z.div_le_upper_bound; [lia|].
    pose proof (Z.mul_div_le (amount * r) (10 ^ 18) ltac:(lia)). lia.
Qed.

Lemma convert_round_trip_never_gains_witness :
  convert usdEur (10 ^ 16 + 1) false twoOracleState = Ok (1, 175)
  /\ convert usdEur 1 true twoOracleState = Ok (5714285714285714, 175)
  /\ 5714285714285714 <= 10 ^ 16 + 1.
Proof.
  assert (H1 : convert usdEur (10 ^ 16 + 1) false twoOracleState
               = Ok (1, 175)) by (vm_compute; reflexivity).
  assert (H2 : convert usdEur 1 true twoOracleState
               = Ok (5714285714285714, 175)) by (vm_compute; reflexivity).
  split; [exact H1|]. split; [exact H2|].
  apply (convert_round_trip_never_gains usdEur (10 ^ 16 + 1) 1
           5714285714285714 175 175 false twoOracleState).
  - vm_compute. discriminate.
  - vm_compute. discriminate.
  - exact H1.
  - exact H2.
Defined.

End OracleHistoryProps.

(** ** OracleAggregator: aggregation, TWAP and confidence *)

Module OracleRateProps.

Import OracleAggregator OracleSpec OracleExamples.

Lemma weighted_sum_bounds (s : State) (pairId : bytes32) (lo hi : Z)
  (l : list address) :
  (forall o, In o l ->
             0 <= OracleSource.weight (oracleSources s o)
             /\ lo <= PriceData.rate (oraclePrices s pairId o) <= hi) ->
  0 <= totalWeightOf s l
  /\ lo * totalWeightOf s l <= weightedSumOf s pairId l
     <= hi * totalWeightOf s l.
Proof.
  unfold totalWeightOf, weightedSumOf.
  induction l as [|o l IH]; intros H; simpl; [lia|].
  destruct (H o (or_introl eq_refl)) as [Hw Hr].
  destruct IH as [IH1 IH2]; [intros o' Ho'; apply H; right; exact Ho'|].
  nia.
Qed.

(** X6. The rate [_calculateAggregatedRate] returns is either the pair's
    current rate (the fallback) or lies between the smallest and the
    largest of the rates reported by the counted oracles. *)
Theorem aggregated_rate_within_reports :
  forall (s : State) (now : uint256) (pairId : bytes32) (r lo hi : Z),
    (forall o, In o (activeOracles s) ->
               0 <= OracleSource.weight (oracleSources s o)) ->
    (forall o, In o (validSources s now pairId) ->
               lo <= PriceData.rate (oraclePrices s pairId o) <= hi) ->
    _calculateAggregatedRate pairId now s = Ok r ->
    r = CurrencyPair.currentRate (pairs s pairId) \/ lo <= r <= hi.
Proof.
  intros s now pairId r lo hi Hw Hr H.
  apply OracleProps.calculateAggregatedRate_sound in H. subst r.
  unfold aggregatedRateOf.
  destruct ((totalWeightOf s (validSources s now pairId) =? 0)
            || (Z.of_nat (List.length (validSources s now pairId))
                <? minOracleCount s)) eqn:E; [left; reflexivity|].
  right. apply orb_false_iff in E. destruct E as [E _].
  apply Z.eqb_neq in E.
  destruct (weighted_sum_bounds s pairId lo hi (validSources s now pairId))
    as [H0 [H1 H2]].
  { intros o Ho. split; [|apply Hr; exact Ho].
    apply Hw. unfold validSources in Ho. apply filter_In in Ho. tauto. }
  split.
  - apply Z.div_le_lower_bound; lia.
  - apply Z.div_le_upper_bound; lia.
Qed.

Lemma aggregated_rate_within_reports_witness :
  _calculateAggregatedRate usdEur 1700000100 twoOracleState = Ok 175
  /\ (175 = CurrencyPair.currentRate (pairs twoOracleState usdEur)
      \/ 100 <= 175 <= 200).
Proof.
  assert (H : _calculateAggregatedRate usdEur 1700000100 twoOracleState
              = Ok 175) by (vm_compute; reflexivity).
  split; [exact H|].
  apply (aggregated_rate_within_reports twoOracleState 1700000100 usdEur
           175 100 200).
  - intros o Ho. vm_compute in Ho.
    destruct Ho as [<- | [<- | []]]; vm_compute; discriminate.
  - intros o Ho. vm_compute in Ho.
    destruct Ho as [<- | [<- | []]]; vm_compute; split; discriminate.
  - exact H.
Defined.

Lemma count_occ_filter (f : address -> bool) (x : address)
  (l : list address) :
  count_occ Z.eq_dec (filter f l) x
  = if f x then count_occ Z.eq_dec l x else O.
Proof.
  induction l as [|h l IH]; simpl; [destruct (f x); reflexivity|].
  destruct (f h) eqn:Eh; simpl.
  - destruct (Z.eq_dec h x) as [->|Hne].
    + rewrite Eh in *. rewrite IH. reflexivity.
    + exact IH.
  - destruct (Z.eq_dec h x) as [->|Hne].
    + rewrite Eh in *. exact IH.
    + exact IH.
Qed.

(** X7. [deactivateOracle] leaves the oracle in [activeOracles], and
    [addOracle] appends it again: an oracle that is deactivated and then
    added back is listed once more than before, and each counted report
    of it enters the aggregation once per listing, so at least twice. *)
Theorem readded_oracle_counts_twice :
  forall (admin oracle : address) (name : string) (weight : uint256)
         (s s1 s2 : State),
    In oracle (activeOracles s) ->
    deactivateOracle admin oracle s = Ok s1 ->
    addOracle admin oracle name weight s1 = Ok s2 ->
    activeOracles s2 = activeOracles s ++ [oracle]
    /\ forall now pairId,
         counted s2 now pairId oracle = true ->
         (2 <= count_occ Z.eq_dec (validSources s2 now pairId) oracle)%nat.
Proof.
  intros admin oracle name weight s s1 s2 Hin Hd Ha.
  unfold deactivateOracle, onlyRole in Hd. inv_ok.
  unfold addOracle, onlyRole in Ha. inv_ok.
  split; [reflexivity|].
  intros now pairId Hc.
  unfold validSources. rewrite count_occ_filter, Hc.
  simpl activeOracles. rewrite count_occ_app. simpl.
  destruct (Z.eq_dec oracle oracle) as [_|Hne]; [|contradiction].
  apply (count_occ_In Z.eq_dec) in Hin.
  rewrite Nat.add_1_r. apply le_n_S. exact Hin.
Qed.

Lemma readded_oracle_counts_twice_witness :
  activeOracles readdedState = [11; 11]
  /\ validSources readdedState 1700000130 usdEur = [11; 11]
  /\ (2 <= count_occ Z.eq_dec
             (validSources readdedState 1700000130%Z usdEur) 11%Z)%nat
  /\ _calculateAggregatedRate usdEur 1700000130 oneOracleState = Ok 0
  /\ _calculateAggregatedRate usdEur 1700000130 readdedState = Ok 100.
Proof.
  destruct (readded_oracle_counts_twice 1 11 "A" 1 oneOracleState
              (commit oneOracleState (deactivateOracle 1 11 oneOracleState))
              readdedState) as [H1 H2].
  - vm_compute. left. reflexivity.
  - vm_compute. reflexivity.
  - vm_compute. reflexivity.
  - split; [rewrite H1; vm_compute; reflexivity|].
    split; [vm_compute; reflexivity|].
    split; [apply H2; vm_compute; reflexivity|].
    split; vm_compute; reflexivity.
Defined.

Lemma index_In {A : Type} (a : list A) (i : nat) (x : A) :
  index a i = Ok x -> In x a.
Proof.
  unfold index. destruct (nth_error a i) eqn:E; [|discriminate].
  intros H. inversion H; subst. eapply nth_error_In. exact E.
Qed.

Lemma twapLoop_bounds (now cutoff : uint256) (rh ts : list uint256)
  (lo hi : Z) :
  (forall r, In r rh -> lo <= r <= hi) ->
  forall count i ws tt ws' tt',
    0 <= tt ->
    lo * tt <= ws <= hi * tt ->
    twapLoop count i now cutoff rh ts (ws, tt) = Ok (ws', tt') ->
    0 <= tt' /\ lo * tt' <= ws' <= hi * tt'.
Proof.
  intros Hrh count.
  induction count as [|count IH]; intros i ws tt ws' tt' Htt Hws H;
    simpl in H.
  - inversion H; subst. auto.
  - apply bind_Ok in H. destruct H as [t [Ht H]].
    destruct (t <? cutoff); [apply (IH _ _ _ _ _ Htt Hws H)|].
    apply bind_Ok in H. destruct H as [timeDelta [Htd H]].
    apply bind_Ok in H. destruct H as [r [Hr H]].
    apply bind_Ok in H. destruct H as [term [Hterm H]].
    apply bind_Ok in H. destruct H as [ws1 [Hws1 H]].
    apply bind_Ok in H. destruct H as [tt1 [Htt1 H]].
    simpl in Hws1, Htt1.
    assert (Hd : 0 <= timeDelta).
    { destruct (i =? List.length rh - 1)%nat.
      - unfold sub in Htd. apply checked_Ok in Htd. lia.
      - apply bind_Ok in Htd. destruct Htd as [t' [_ Htd]].
        unfold sub in Htd. apply checked_Ok in Htd. lia. }
    apply index_In in Hr. apply Hrh in Hr.
    unfold mul in Hterm. apply checked_Ok in Hterm.
    unfold add in Hws1, Htt1.
    apply checked_Ok in Hws1. apply checked_Ok in Htt1.
    destruct Hterm as [-> _], Hws1 as [-> _], Htt1 as [-> _].
    assert (H1 : lo * timeDelta <= r * timeDelta)
      by (apply Z.mul_le_mono_nonneg_r; lia).
    assert (H2 : r * timeDelta <= hi * timeDelta)
      by (apply Z.mul_le_mono_nonneg_r; lia).
    apply (IH (S i) (ws + r * timeDelta) (tt + timeDelta) ws' tt');
      [lia | lia | exact H].
Qed.

(** X8. The time-weighted average [_calculateTWAP] returns lies between
    the smallest and the largest of the pair's recorded rates and its
    current rate. *)
Theorem twap_within_recorded_rates :
  forall (now : uint256) (pair : CurrencyPair.t) (v lo hi : Z),
    (forall r, In r (CurrencyPair.rateHistory pair) -> lo <= r <= hi) ->
    lo <= CurrencyPair.currentRate pair <= hi ->
    _calculateTWAP now pair = Ok v ->
    lo <= v <= hi.
Proof.
  intros now pair v lo hi Hrh Hcur H.
  unfold _calculateTWAP in H.
  destruct (CurrencyPair.rateHistory pair) as [|r0 [|r1 rest]] eqn:Erh.
  - inversion H; subst. exact Hcur.
  - inversion H; subst. apply Hrh. left. reflexivity.
  - apply bind_Ok in H. destruct H as [cutoff [_ H]].
    apply bind_Ok in H. destruct H as [[ws tt] [Hloop H]].
    apply (twapLoop_bounds now cutoff _ _ lo hi Hrh) in Hloop;
      [|lia|lia].
    simpl in H. destruct Hloop as [Htt Hws].
    destruct (tt =? 0) eqn:E.
    + inversion H; subst. exact Hcur.
    + apply Z.eqb_neq in E. unfold div in H.
      destruct (tt =? 0) eqn:E'; [discriminate|].
      inversion H; subst. split.
      * apply Z.div_le_lower_bound; lia.
      * apply Z.div_le_upper_bound; lia.
Qed.

Lemma twap_within_recorded_rates_witness :
  _calculateTWAP 1700000200 (pairs twoOracleState usdEur) = Ok 175
  /\ 0 <= 175 <= 175.
Proof.
  assert (H : _calculateTWAP 1700000200 (pairs twoOracleState usdEur)
              = Ok 175) by (vm_compute; reflexivity).
  split; [exact H|].
  apply (twap_within_recorded_rates 1700000200 (pairs twoOracleState usdEur)
           175 0 175).
  - intros r Hr. vm_compute in Hr.
    destruct Hr as [<- | [<- | []]]; split; discriminate.
  - vm_compute. split; discriminate.
  - exact H.
Defined.

Lemma confidenceLoop_ext (s1 s2 : State) (now : uint256) (pairId : bytes32)
  (os : list address) :
  oraclePrices s1 = oraclePrices s2 ->
  stalenessThreshold s1 = stalenessThreshold s2 ->
  forall acc,
    confidenceLoop s1 now pairId os acc = confidenceLoop s2 now pairId os acc.
Proof.
  intros Hp Ht. induction os as [|o os IH]; intros acc; simpl; [reflexivity|].
  rewrite Hp, Ht.
  destruct (PriceData.isActive (oraclePrices s2 pairId o)); [|apply IH].
  destruct (sub now (PriceData.timestamp (oraclePrices s2 pairId o)));
    simpl; [|reflexivity].
  destruct (a <=? stalenessThreshold s2); [|apply IH].
  destruct (add (fst acc) 1); simpl; [|reflexivity].
  destruct (add (snd acc) (PriceData.confidence (oraclePrices s2 pairId o)));
    simpl; [|reflexivity].
  apply IH.
Qed.

(** X9. Deactivating an oracle removes its reports from the rate
    aggregation but not from the confidence figure: after
    [deactivateOracle] the oracle is no longer counted by
    [_calculateAggregatedRate], while [_calculateConfidence] returns what
    it returned before. *)
Theorem deactivated_oracle_still_counts_in_confidence :
  forall (sender oracle : address) (s s' : State),
    deactivateOracle sender oracle s = Ok s' ->
    (forall now pairId, counted s' now pairId oracle = false)
    /\ (forall now pairId,
           _calculateConfidence pairId now s'
           = _calculateConfidence pairId now s).
Proof.
  intros sender oracle s s' H.
  unfold deactivateOracle, onlyRole in H. inv_ok. split.
  - intros now pairId. unfold counted. simpl. rewrite upd_same. reflexivity.
  - intros now pairId. unfold _calculateConfidence. simpl activeOracles.
    rewrite (confidenceLoop_ext _ s now pairId (activeOracles s));
      reflexivity.
Qed.

Lemma deactivated_oracle_still_counts_in_confidence_witness :
  counted deactivatedState 1700000100 usdEur 12 = false
  /\ _calculateConfidence usdEur 1700000100 deactivatedState = Ok 75
  /\ validSources deactivatedState 1700000100 usdEur = [11].
Proof.
  destruct (deactivated_oracle_still_counts_in_confidence 1 12 twoOracleState
              deactivatedState) as [H1 H2].
  - vm_compute. reflexivity.
  - split; [apply H1|].
    split; [rewrite H2|]; vm_compute; reflexivity.
Defined.

End OracleRateProps.

(** ** ComplianceEngine: the sanctions list, counters and limits *)

Module ComplianceMoreProps.

Import ComplianceEngine ComplianceSpec ComplianceSanctions ComplianceCalls.

Lemma length_nodup_remove (h : Z) (l : list Z) :
  List.length (nodup Z.eq_dec l)
  = (List.length (nodup Z.eq_dec (remove Z.eq_dec h l))
     + (if in_dec Z.eq_dec h l then 1 else 0))%nat.
Proof.
  induction l as [|x l IH]; [reflexivity|].
  simpl nodup at 1. simpl remove.
  destruct (Z.eq_dec h x) as [->|Hne].
  - destruct (in_dec Z.eq_dec x (x :: l)) as [_|Hn];
      [|exfalso; apply Hn; left; reflexivity].
    destruct (in_dec Z.eq_dec x l) as [Hin|Hnin].
    + rewrite IH. destruct (in_dec Z.eq_dec x l); [reflexivity|contradiction].
    + simpl. rewrite IH.
      destruct (in_dec Z.eq_dec x l); [contradiction|lia].
  - simpl nodup.
    assert (Hiff : In x (remove Z.eq_dec h l) <-> In x l).
    { split.
      - intros Hx. apply in_remove in Hx. tauto.
      - intros Hx. apply in_in_remove; [congruence | exact Hx]. }
    destruct (in_dec Z.eq_dec x l) as [Hin|Hnin];
      destruct (in_dec Z.eq_dec x (remove Z.eq_dec h l)) as [Hin'|Hnin'];
      try tauto;
      destruct (in_dec Z.eq_dec h (x :: l)) as [Hh|Hh];
      destruct (in_dec Z.eq_dec h l) as [Hh'|Hh'];
      try (exfalso; simpl in Hh; destruct Hh; [congruence | tauto]);
      try (exfalso; apply Hh; right; assumption);
      simpl; rewrite IH; lia.
Qed.

Lemma filter_upd_listed (sl : Z -> bool) (h : Z) (l : list Z) :
  filter (fun x => negb (upd sl h true x)) l
  = remove Z.eq_dec h (filter (fun x => negb (sl x)) l).
Proof.
  induction l as [|x l IH]; [reflexivity|].
  simpl. unfold upd at 1.
  destruct (x =? h) eqn:E.
  - apply Z.eqb_eq in E. subst x. simpl.
    destruct (negb (sl h)); simpl.
    + destruct (Z.eq_dec h h); [exact IH | contradiction].
    + exact IH.
  - apply Z.eqb_neq in E.
    destruct (negb (sl x)); simpl.
    + destruct (Z.eq_dec h x); [congruence|]. rewrite IH. reflexivity.
    + exact IH.
Qed.

Lemma bulkLoop_counts (hs : list bytes32) :
  forall s,
    0 <= sanctionsListSize s ->
    sanctionsListSize s + Z.of_nat (List.length hs) <= MAX_UINT256 ->
    exists s',
      bulkLoop hs s = Ok s'
      /\ sanctionsListSize s'
         = sanctionsListSize s + Z.of_nat (List.length (newHashes s hs))
      /\ (forall h, sanctionsList s' h
                    = sanctionsList s h || existsb (Z.eqb h) hs)
      /\ profiles s' = profiles s
      /\ totalChecks s' = totalChecks s
      /\ totalRejections s' = totalRejections s
      /\ travelRuleThreshold s' = travelRuleThreshold s
      /\ roles s' = roles s.
Proof.
  induction hs as [|h rest IH]; intros s H0 Hmax.
  - exists s. simpl. unfold newHashes. simpl.
    repeat split; try reflexivity; try lia.
    intros h. rewrite orb_false_r. reflexivity.
  - simpl List.length in Hmax. rewrite Nat2Z.inj_succ in Hmax.
    simpl bulkLoop. unfold listHash.
    destruct (sanctionsList s h) eqn:Eh; simpl negb; cbv iota.
    + simpl. destruct (IH s H0 ltac:(lia))
        as [s' [Hr [Hsize [Hlist Hrest]]]].
      exists s'. split; [exact Hr|]. split.
      * rewrite Hsize. unfold newHashes. simpl. rewrite Eh. reflexivity.
      * split; [|exact Hrest].
        intros h'. rewrite Hlist. simpl.
        destruct (h' =? h) eqn:E; [|reflexivity].
        apply Z.eqb_eq in E. subst h'. rewrite Eh. reflexivity.
    + unfold add. rewrite checked_in_range by lia. simpl.
      destruct (IH (set_sanctionsList h true (sanctionsListSize s + 1) s))
        as [s' [Hr [Hsize [Hlist Hrest]]]]; [simpl; lia | simpl; lia |].
      exists s'. split; [exact Hr|]. split.
      * rewrite Hsize. simpl sanctionsListSize.
        unfold newHashes. simpl sanctionsList. simpl filter. rewrite Eh.
        simpl negb. cbv iota.
        rewrite filter_upd_listed.
        unfold bytes32 in *.
        set (l := filter (fun x : Z => negb (sanctionsList s x)) rest).
        simpl nodup.
        pose proof (length_nodup_remove h l) as Hl.
        destruct (in_dec Z.eq_dec h l) as [Hin|Hnin].
        -- rewrite Hl. lia.
        -- rewrite notin_remove by exact Hnin. simpl List.length. lia.
      * split; [|exact Hrest].
        intros h'. rewrite Hlist. simpl. unfold upd.
        destruct (h' =? h); [rewrite orb_true_r; reflexivity | reflexivity].
Qed.

(** X10. [bulkAddToSanctionsList] counts every hash once: called by a
    [SANCTIONS_UPDATER] it lists every hash of the batch, leaves the other
    hashes as they were, and raises [sanctionsListSize] by the number of
    distinct hashes of the batch that were not listed before, whatever
    repetitions the batch contains. *)
Theorem bulkAdd_counts_each_new_hash_once :
  forall (sender : address) (entityHashes : list bytes32) (s : State),
    roles s SANCTIONS_UPDATER sender = true ->
    0 <= sanctionsListSize s ->
    sanctionsListSize s + Z.of_nat (List.length entityHashes)
      <= MAX_UINT256 ->
    exists s',
      bulkAddToSanctionsList sender entityHashes s = Ok s'
      /\ sanctionsListSize s'
         = sanctionsListSize s
           + Z.of_nat (List.length (newHashes s entityHashes))
      /\ (forall h, isSanctioned h s'
                    = isSanctioned h s || existsb (Z.eqb h) entityHashes).
Proof.
  intros sender hs s Hrole H0 Hmax.
  destruct (bulkLoop_counts hs s H0 Hmax) as [s' [Hr [Hsize [Hlist _]]]].
  exists s'. unfold bulkAddToSanctionsList, onlyRole. rewrite Hrole. simpl.
  auto.
Qed.

Lemma bulkAdd_counts_each_new_hash_once_witness :
  exists s',
    bulkAddToSanctionsList 1 [7; 8; 7; 9; 8] (constructor 1) = Ok s'
    /\ sanctionsListSize s' = 3
    /\ isSanctioned 8 s' = true
    /\ isSanctioned 10 s' = false.
Proof.
  destruct (bulkAdd_counts_each_new_hash_once 1 [7; 8; 7; 9; 8]
              (constructor 1)) as [s' [Hr [Hsize Hlist]]].
  - reflexivity.
  - vm_compute. discriminate.
  - vm_compute. discriminate.
  - exists s'. split; [exact Hr|]. split; [rewrite Hsize; reflexivity|].
    split; rewrite Hlist; reflexivity.
Defined.

Ltac split_ifs :=
  repeat (simpl;
          match goal with
          | |- context [?x =? ?x] => rewrite (Z.eqb_refl x)
          | |- context [bind (checked ?z) _] => destruct (checked z) eqn:?
          | |- context [if ?c then _ else _] =>
              match type of c with bool => destruct c eqn:? end
          end).

Ltac split_periods now :=
  repeat match goal with
  | |- context [?x <? now / 86400] => destruct (x <? now / 86400) eqn:?
  end; simpl;
  repeat match goal with
  | |- context [?x <? now / 2592000] => destruct (x <? now / 2592000) eqn:?
  end; simpl.

(** The verdict of a check depends on the two profiles, the two counters
    and the travel-rule threshold only; the sanction flags matter only
    under [requireSanctionsCheck]. *)
Lemma check_verdict_ext (now : uint256) (paymentId : bytes32)
  (sender recipient : address) (amount : uint256) (rs : bool)
  (t1 t2 : ComplianceTier) (s1 s2 : State) :
  totalChecks s1 = totalChecks s2 ->
  totalRejections s1 = totalRejections s2 ->
  travelRuleThreshold s1 = travelRuleThreshold s2 ->
  sameButSanction (profiles s1 sender) (profiles s2 sender) ->
  sameButSanction (profiles s1 recipient) (profiles s2 recipient) ->
  (rs = true ->
   EntityProfile.isSanctioned (profiles s1 sender)
   = EntityProfile.isSanctioned (profiles s2 sender)
   /\ EntityProfile.isSanctioned (profiles s1 recipient)
      = EntityProfile.isSanctioned (profiles s2 recipient)) ->
  verdict (checkPaymentCompliance now paymentId sender recipient amount rs
             t1 t2 s1)
  = verdict (checkPaymentCompliance now paymentId sender recipient amount rs
               t1 t2 s2).
Proof.
  intros Hc Hr Ht Hs Hrc Hsan.
  unfold checkPaymentCompliance, verdict. rewrite Hc.
  destruct (add (totalChecks s2) 1) as [checks|]; [|reflexivity].
  cbn [bind]. cbv zeta.
  change (profiles (set_totalChecks checks s1)) with (profiles s1).
  change (profiles (set_totalChecks checks s2)) with (profiles s2).
  assert (Hsan' : rs && EntityProfile.isSanctioned (profiles s1 sender)
                  = rs && EntityProfile.isSanctioned (profiles s2 sender)
                  /\ rs && EntityProfile.isSanctioned (profiles s1 recipient)
                     = rs && EntityProfile.isSanctioned (profiles s2 recipient)).
  { destruct rs; [|split; reflexivity].
    destruct (Hsan eq_refl) as [-> ->]. split; reflexivity. }
  destruct Hsan' as [-> ->]. clear Hsan.
  unfold sameButSanction in Hs, Hrc.
  destruct (recipient =? sender) eqn:Esame.
  - apply Z.eqb_eq in Esame. subst recipient.
    destruct (profiles s1 sender) eqn:E1, (profiles s2 sender) eqn:E2.
    simpl in Hs. inversion Hs; subst; clear Hs Hrc.
    unfold _reject, _resetLimitsIfNeeded, add. simpl.
    rewrite !upd_same. simpl. rewrite Hr, Ht.
    split_periods now;
    split_ifs; simpl; try reflexivity; try congruence;
      rewrite ?upd_same; simpl; reflexivity.
  - destruct (profiles s1 sender) eqn:E1, (profiles s2 sender) eqn:E2,
             (profiles s1 recipient) eqn:E3, (profiles s2 recipient) eqn:E4.
    simpl in Hs, Hrc. inversion Hs; inversion Hrc; subst; clear Hs Hrc.
    unfold _reject, _resetLimitsIfNeeded, add. simpl.
    rewrite !upd_same. unfold upd. rewrite Esame. simpl.
    rewrite Hr, Ht, ?E3, ?E4. simpl.
    split_periods now;
    split_ifs; simpl; try reflexivity; try congruence;
      unfold upd; rewrite ?Z.eqb_refl, ?Esame, ?E3, ?E4; simpl; reflexivity.
Qed.

(** X11. The hash-based sanctions list is never consulted by payment
    checks: after [addToSanctionsList] lists a hash, [isSanctioned]
    reports it, and every call of [checkPaymentCompliance] returns the
    verdict it would have returned without the listing. *)
Theorem sanctions_list_is_not_consulted :
  forall (updater : address) (entityHash : bytes32) (s s' : State),
    addToSanctionsList updater entityHash s = Ok s' ->
    isSanctioned entityHash s' = true
    /\ forall now paymentId sender recipient amount rs t1 t2,
         verdict (checkPaymentCompliance now paymentId sender recipient
                    amount rs t1 t2 s')
         = verdict (checkPaymentCompliance now paymentId sender recipient
                      amount rs t1 t2 s).
Proof.
  intros updater h s s' H.
  unfold addToSanctionsList, onlyRole, listHash in H. inv_ok.
  unfold isSanctioned.
  destruct (sanctionsList s h) eqn:Eh; simpl in H; inv_ok.
  - split; [exact Eh|]. reflexivity.
  - split; [simpl; apply upd_same|].
    intros. apply check_verdict_ext; try reflexivity.
    intros _. split; reflexivity.
Qed.

Lemma sanctions_list_is_not_consulted_witness :
  EntityProfile.identityHash (profiles listedState 60) = 78
  /\ isSanctioned 78 listedState = true
  /\ verdict (checkPaymentCompliance 1700000010 2 60 61 (1000 * 10 ^ 18)
                true NONE NONE listedState)
     = Ok (TransactionCheck.mk true "Compliance check passed" false false
             1700000010).
Proof.
  destruct (sanctions_list_is_not_consulted 1 78 standardState listedState)
    as [H1 H2].
  - vm_compute. reflexivity.
  - split; [vm_compute; reflexivity|]. split; [exact H1|].
    rewrite H2. vm_compute. reflexivity.
Defined.

(** What a returning [checkPaymentCompliance] changes and what it
    leaves. *)
Lemma check_frame (now : uint256) (paymentId : bytes32)
  (sender recipient : address) (amount : uint256) (rs : bool)
  (t1 t2 : ComplianceTier) (s s' : State) (chk : TransactionCheck.t) :
  checkPaymentCompliance now paymentId sender recipient amount rs t1 t2 s
  = Ok (s', chk) ->
  totalChecks s' = totalChecks s + 1
  /\ totalRejections s'
     = totalRejections s + (if TransactionCheck.passed chk then 0 else 1)
  /\ (forall a, a <> sender -> profiles s' a = profiles s a)
  /\ EntityProfile.tier (profiles s' sender)
     = EntityProfile.tier (profiles s sender)
  /\ EntityProfile.isSanctioned (profiles s' sender)
     = EntityProfile.isSanctioned (profiles s sender)
  /\ EntityProfile.dailyLimit (profiles s' sender)
     = EntityProfile.dailyLimit (profiles s sender)
  /\ EntityProfile.monthlyLimit (profiles s' sender)
     = EntityProfile.monthlyLimit (profiles s sender)
  /\ EntityProfile.singleTxLimit (profiles s' sender)
     = EntityProfile.singleTxLimit (profiles s sender)
  /\ EntityProfile.isVerified (profiles s' sender)
     = EntityProfile.isVerified (profiles s sender)
  /\ roles s' = roles s.
Proof.
  intros H.
  unfold checkPaymentCompliance in H.
  apply bind_Ok in H. destruct H as [checks [Hc H]].
  unfold add in Hc. apply checked_Ok in Hc. destruct Hc as [-> _].
  cbv zeta in H. unfold _reject, add in H.
  assert (Hreset : forall p,
             EntityProfile.tier (_resetLimitsIfNeeded now p)
             = EntityProfile.tier p
             /\ EntityProfile.isSanctioned (_resetLimitsIfNeeded now p)
                = EntityProfile.isSanctioned p
             /\ EntityProfile.dailyLimit (_resetLimitsIfNeeded now p)
                = EntityProfile.dailyLimit p
             /\ EntityProfile.monthlyLimit (_resetLimitsIfNeeded now p)
                = EntityProfile.monthlyLimit p
             /\ EntityProfile.singleTxLimit (_resetLimitsIfNeeded now p)
                = EntityProfile.singleTxLimit p
             /\ EntityProfile.isVerified (_resetLimitsIfNeeded now p)
                = EntityProfile.isVerified p).
  { intros p. unfold _resetLimitsIfNeeded.
    destruct (EntityProfile.lastDayReset p <? now / 86400); simpl;
      destruct (EntityProfile.lastMonthReset p <? now / 2592000); simpl;
      repeat split; reflexivity. }
  assert (Hother : forall (a : address) (p : EntityProfile.t)
                          (m : address -> EntityProfile.t),
             a <> sender -> upd m sender p a = m a).
  { intros a p m Ha. apply upd_other. exact Ha. }
  repeat match type of H with
  | (if ?c then _ else _) = _ =>
      match type of c with bool => destruct c eqn:? end
  | bind (checked ?z) _ = _ =>
      let E := fresh "E" in
      destruct (checked z) eqn:E; simpl in H;
      [apply checked_Ok in E; destruct E as [? _]; subst | discriminate H]
  end;
    inversion H; subst; clear H; simpl;
    rewrite ?upd_same;
    destruct (Hreset (profiles s sender)) as [R1 [R2 [R3 [R4 [R5 R6]]]]];
    (split; [reflexivity|]); (split; [lia|]);
    (split; [intros a Ha; rewrite ?Hother by exact Ha; reflexivity|]);
    simpl; auto 12.
Qed.

(** What a passed check has established. *)
Lemma check_passed_sound (now : uint256) (paymentId : bytes32)
  (sender recipient : address) (amount : uint256) (rs : bool)
  (t1 t2 : ComplianceTier) (s s' : State) (chk : TransactionCheck.t) :
  checkPaymentCompliance now paymentId sender recipient amount rs t1 t2 s
  = Ok (s', chk) ->
  TransactionCheck.passed chk = true ->
  let p := _resetLimitsIfNeeded now (profiles s sender) in
  (rs = true ->
   EntityProfile.isSanctioned (profiles s sender) = false
   /\ EntityProfile.isSanctioned (profiles s recipient) = false)
  /\ tierValue t1 <= tierValue (EntityProfile.tier (profiles s sender))
  /\ tierValue t2 <= tierValue (EntityProfile.tier (profiles s recipient))
  /\ (EntityProfile.isVerified (profiles s sender) = true ->
      now <= EntityProfile.expiresAt (profiles s sender))
  /\ amount <= EntityProfile.singleTxLimit (profiles s sender)
  /\ EntityProfile.dailyVolume (profiles s' sender)
     = EntityProfile.dailyVolume p + amount
  /\ EntityProfile.dailyVolume (profiles s' sender)
     <= EntityProfile.dailyLimit (profiles s sender)
  /\ EntityProfile.monthlyVolume (profiles s' sender)
     = EntityProfile.monthlyVolume p + amount
  /\ EntityProfile.monthlyVolume (profiles s' sender)
     <= EntityProfile.monthlyLimit (profiles s sender).
Proof.
  intros H Hp p.
  pose proof (ComplianceProps.passed_earlier_checks _ _ _ _ _ _ _ _ _ _ _
                H Hp) as He.
  rewrite (ComplianceProps.check_limit_phase _ _ _ _ _ _ _ _ _ He) in H.
  unfold earlierChecksPass in He.
  repeat (apply andb_true_iff in He; destruct He as [He ?]).
  repeat match goal with
  | H : negb _ = true |- _ => apply negb_true_iff in H
  end.
  assert (Hlim : EntityProfile.dailyLimit p
                 = EntityProfile.dailyLimit (profiles s sender)
                 /\ EntityProfile.monthlyLimit p
                    = EntityProfile.monthlyLimit (profiles s sender)).
  { unfold p, _resetLimitsIfNeeded.
    destruct (EntityProfile.lastDayReset (profiles s sender) <? now / 86400);
      simpl;
      destruct (EntityProfile.lastMonthReset (profiles s sender)
                <? now / 2592000); simpl; split; reflexivity. }
  destruct Hlim as [Hd Hm].
  apply bind_Ok in H. destruct H as [checks [_ H]]. cbv zeta in H.
  fold p in H.
  apply bind_Ok in H. destruct H as [daily [Hdaily H]].
  unfold add in Hdaily. apply checked_Ok in Hdaily.
  destruct Hdaily as [-> _].
  destruct (EntityProfile.dailyLimit p <? EntityProfile.dailyVolume p + amount)
    eqn:Edl.
  { apply ComplianceProps.reject_not_passed in H. destruct H as [H _].
    congruence. }
  apply bind_Ok in H. destruct H as [monthly [Hmonthly H]].
  unfold add in Hmonthly. apply checked_Ok in Hmonthly.
  destruct Hmonthly as [-> _].
  destruct (EntityProfile.monthlyLimit p
            <? EntityProfile.monthlyVolume p + amount) eqn:Eml.
  { apply ComplianceProps.reject_not_passed in H. destruct H as [H _].
    congruence. }
  inversion H; subst s' chk; clear H. simpl. rewrite upd_same. simpl.
  apply Z.ltb_ge in Edl, Eml.
  split.
  { intros ->. simpl in *. split; assumption. }
  repeat match goal with
  | H : (_ <? _) = false |- _ => apply Z.ltb_ge in H
  end.
  split; [assumption|]. split; [assumption|].
  split.
  { intros Hv.
    match goal with
    | H : EntityProfile.isVerified _ && _ = false |- _ =>
        rewrite Hv in H; simpl in H; apply Z.ltb_ge in H; exact H
    end. }
  split; [assumption|].
  rewrite <- Hd, <- Hm. auto.
Qed.

(** X12. Every call of [checkPaymentCompliance] that returns has raised
    [totalChecks] by one and [totalRejections] by one exactly when the
    check did not pass; it writes to no profile but the sender's, and it
    leaves the sender's tier, sanction flag and limits as they were. *)
Theorem check_counts_and_touches_sender_only :
  forall (now : uint256) (paymentId : bytes32) (sender recipient : address)
         (amount : uint256) (rs : bool) (t1 t2 : ComplianceTier)
         (s s' : State) (chk : TransactionCheck.t),
    checkPaymentCompliance now paymentId sender recipient amount rs t1 t2 s
    = Ok (s', chk) ->
    totalChecks s' = totalChecks s + 1
    /\ totalRejections s'
       = totalRejections s + (if TransactionCheck.passed chk then 0 else 1)
    /\ (forall a, a <> sender -> profiles s' a = profiles s a)
    /\ EntityProfile.tier (profiles s' sender)
       = EntityProfile.tier (profiles s sender)
    /\ EntityProfile.isSanctioned (profiles s' sender)
       = EntityProfile.isSanctioned (profiles s sender)
    /\ EntityProfile.dailyLimit (profiles s' sender)
       = EntityProfile.dailyLimit (profiles s sender)
    /\ EntityProfile.monthlyLimit (profiles s' sender)
       = EntityProfile.monthlyLimit (profiles s sender)
    /\ EntityProfile.singleTxLimit (profiles s' sender)
       = EntityProfile.singleTxLimit (profiles s sender).
Proof.
  intros now paymentId sender recipient amount rs t1 t2 s s' chk H.
  destruct (check_frame _ _ _ _ _ _ _ _ _ _ _ H)
    as [H1 [H2 [H3 [H4 [H5 [H6 [H7 [H8 _]]]]]]]].
  auto 10.
Qed.

Lemma check_counts_and_touches_sender_only_witness :
  exists s' chk,
    checkPaymentCompliance 1700000010 2 60 61 (10001 * 10 ^ 18)
      false NONE NONE standardState = Ok (s', chk)
    /\ TransactionCheck.passed chk = false
    /\ totalChecks s' = 3
    /\ totalRejections s' = 1.
Proof.
  destruct (checkPaymentCompliance 1700000010 2 60 61 (10001 * 10 ^ 18)
              false NONE NONE standardState) as [[s' chk]|r] eqn:E;
    [|vm_compute in E; discriminate E].
  exists s', chk. split; [reflexivity|].
  assert (Hp : TransactionCheck.passed chk = false).
  { assert (Hv : verdict (checkPaymentCompliance 1700000010 2 60 61
                            (10001 * 10 ^ 18) false NONE NONE standardState)
                 = Ok chk) by (rewrite E; reflexivity).
    vm_compute in Hv. inversion Hv. reflexivity. }
  destruct (check_counts_and_touches_sender_only _ _ _ _ _ _ _ _ _ _ _ E)
    as [H1 [H2 _]].
  split; [exact Hp|]. split.
  - rewrite H1. vm_compute. reflexivity.
  - rewrite H2, Hp. vm_compute. reflexivity.
Defined.

(** X13. A check that passes has established every condition of the
    source: with [requireSanctionsCheck] neither party is sanctioned, both
    tiers reach the required ones, a verified sender's verification has
    not expired, the amount is within the single-transaction limit, and
    the sender's daily and monthly volumes, raised by the amount from
    their values after the period reset, are within the limits. *)
Theorem passed_check_respects_limits :
  forall (now : uint256) (paymentId : bytes32) (sender recipient : address)
         (amount : uint256) (rs : bool) (t1 t2 : ComplianceTier)
         (s s' : State) (chk : TransactionCheck.t),
    checkPaymentCompliance now paymentId sender recipient amount rs t1 t2 s
    = Ok (s', chk) ->
    TransactionCheck.passed chk = true ->
    let p := _resetLimitsIfNeeded now (profiles s sender) in
    (rs = true ->
     EntityProfile.isSanctioned (profiles s sender) = false
     /\ EntityProfile.isSanctioned (profiles s recipient) = false)
    /\ tierValue t1 <= tierValue (EntityProfile.tier (profiles s sender))
    /\ tierValue t2 <= tierValue (EntityProfile.tier (profiles s recipient))
    /\ (EntityProfile.isVerified (profiles s sender) = true ->
        now <= EntityProfile.expiresAt (profiles s sender))
    /\ amount <= EntityProfile.singleTxLimit (profiles s sender)
    /\ EntityProfile.dailyVolume (profiles s' sender)
       = EntityProfile.dailyVolume p + amount
    /\ EntityProfile.dailyVolume (profiles s' sender)
       <= EntityProfile.dailyLimit (profiles s sender)
    /\ EntityProfile.monthlyVolume (profiles s' sender)
       = EntityProfile.monthlyVolume p + amount
    /\ EntityProfile.monthlyVolume (profiles s' sender)
       <= EntityProfile.monthlyLimit (profiles s sender).
Proof.
  intros now paymentId sender recipient amount rs t1 t2 s s' chk H Hp.
  exact (check_passed_sound _ _ _ _ _ _ _ _ _ _ _ H Hp).
Qed.

Lemma passed_check_respects_limits_witness :
  exists s' chk,
    checkPaymentCompliance 1700000010 2 60 61 (10000 * 10 ^ 18)
      true NONE NONE standardState = Ok (s', chk)
    /\ EntityProfile.dailyVolume (profiles s' 60) = 50000 * 10 ^ 18
    /\ EntityProfile.dailyVolume (profiles s' 60)
       <= EntityProfile.dailyLimit (profiles standardState 60).
Proof.
  destruct (checkPaymentCompliance 1700000010 2 60 61 (10000 * 10 ^ 18)
              true NONE NONE standardState) as [[s' chk]|r] eqn:E;
    [|vm_compute in E; discriminate E].
  exists s', chk. split; [reflexivity|].
  assert (Hp : TransactionCheck.passed chk = true).
  { assert (Hv : verdict (checkPaymentCompliance 1700000010 2 60 61
                            (10000 * 10 ^ 18) true NONE NONE standardState)
                 = Ok chk) by (rewrite E; reflexivity).
    vm_compute in Hv. inversion Hv. reflexivity. }
  destruct (passed_check_respects_limits _ _ _ _ _ _ _ _ _ _ _ E Hp)
    as [_ [_ [_ [_ [_ [H1 [H2 _]]]]]]].
  split; [|exact H2].
  rewrite H1. vm_compute. reflexivity.
Defined.

Lemma bulkLoop_profiles (hs : list bytes32) :
  forall s s', bulkLoop hs s = Ok s' ->
               profiles s' = profiles s /\ roles s' = roles s.
Proof.
  induction hs as [|h rest IH]; intros s s' H; simpl in H.
  - inversion H. auto.
  - apply bind_Ok in H. destruct H as [s1 [H1 H]].
    apply IH in H. destruct H as [Hp Hr]. rewrite Hp, Hr.
    unfold listHash in H1.
    destruct (negb (sanctionsList s h)); inv_ok; auto.
Qed.

(** A property of the profile of one entity that every successful call
    preserves, given that [verifyEntity], [upgradeEntity], [sanctionEntity]
    and [clearEntity] of that entity do. *)
Lemma step_profile_invariant (P : EntityProfile.t -> Prop) (e : address)
  (caller : address) (now : uint256) (c : Call) (s s' : State) :
  (forall p dv mv,
      P p ->
      P (EntityProfile.set_volumes dv mv (_resetLimitsIfNeeded now p))
      /\ P (_resetLimitsIfNeeded now p)) ->
  (forall tier h j pep risk period s1,
      c = VerifyEntity e tier h j pep risk period ->
      verifyEntity caller now e tier h j pep risk period s = Ok s1 ->
      P (profiles s e) -> P (profiles s1 e)) ->
  (forall tier s1,
      upgradeEntity caller e tier s = Ok s1 ->
      P (profiles s e) -> P (profiles s1 e)) ->
  (forall s1,
      sanctionEntity caller e s = Ok s1 ->
      P (profiles s e) -> P (profiles s1 e)) ->
  (forall s1,
      c = ClearEntity e ->
      clearEntity caller e s = Ok s1 ->
      P (profiles s e) -> P (profiles s1 e)) ->
  step caller now c s = Ok s' ->
  P (profiles s e) -> P (profiles s' e).
Proof.
  intros Hcheck Hverify Hupgrade Hsanction Hclear Hstep HP.
  destruct c; simpl in Hstep.
  - (* verifyEntity *)
    destruct (Z.eq_dec entity e) as [->|Hne]; [eauto|].
    unfold verifyEntity, onlyRole in Hstep. inv_ok. simpl.
    rewrite upd_other by congruence. exact HP.
  - (* upgradeEntity *)
    destruct (Z.eq_dec entity e) as [->|Hne]; [eauto|].
    unfold upgradeEntity, onlyRole in Hstep. inv_ok. simpl.
    rewrite upd_other by congruence. exact HP.
  - (* sanctionEntity *)
    destruct (Z.eq_dec entity e) as [->|Hne]; [eauto|].
    unfold sanctionEntity, onlyRole in Hstep. inv_ok. simpl.
    rewrite upd_other by congruence. exact HP.
  - (* clearEntity *)
    destruct (Z.eq_dec entity e) as [->|Hne]; [eauto|].
    unfold clearEntity, onlyRole in Hstep. inv_ok. simpl.
    rewrite upd_other by congruence. exact HP.
  - (* checkPaymentCompliance *)
    apply bind_Ok in Hstep. destruct Hstep as [[s1 chk] [Hc Hs]].
    inversion Hs; subst s'; clear Hs. simpl.
    destruct (Z.eq_dec e sender) as [->|Hne].
    + unfold checkPaymentCompliance in Hc.
      apply bind_Ok in Hc. destruct Hc as [checks [_ Hc]].
      cbv zeta in Hc. unfold _reject in Hc.
      destruct (Hcheck (profiles s sender) 0 0 HP) as [_ Hreset].
      repeat match type of Hc with
      | (if ?c then _ else _) = _ =>
          match type of c with bool => destruct c eqn:? end
      | bind ?x _ = _ =>
          let E := fresh "E" in
          destruct x eqn:E; simpl in Hc; [|discriminate Hc]
      end;
        inversion Hc; subst; clear Hc; simpl; rewrite ?upd_same;
        try exact HP; try exact Hreset.
      apply Hcheck; exact HP.
    + destruct (check_frame _ _ _ _ _ _ _ _ _ _ _ Hc) as [_ [_ [Ho _]]].
      rewrite Ho by exact Hne. exact HP.
  - unfold addToSanctionsList, onlyRole, listHash in Hstep. inv_ok.
    destruct (negb (sanctionsList s entityHash)); inv_ok; exact HP.
  - unfold bulkAddToSanctionsList, onlyRole in Hstep. inv_ok.
    apply bulkLoop_profiles in Hstep. destruct Hstep as [-> _]. exact HP.
  - unfold removeFromSanctionsList, onlyRole in Hstep. inv_ok.
    destruct (sanctionsList s entityHash); inv_ok; exact HP.
  - unfold addRestrictedJurisdiction, onlyRole in Hstep. inv_ok. exact HP.
  - unfold removeRestrictedJurisdiction, onlyRole in Hstep. inv_ok. exact HP.
  - unfold setTravelRuleThreshold, onlyRole in Hstep. inv_ok. exact HP.
  - unfold setTierLimits, onlyRole in Hstep. inv_ok. exact HP.
  - unfold grantRole, onlyRole in Hstep. inv_ok. exact HP.
  - unfold revokeRole, onlyRole in Hstep. inv_ok. exact HP.
  - unfold renounceRole in Hstep. inv_ok. exact HP.
Qed.

Lemma reset_keeps_fields (now : uint256) (p : EntityProfile.t) :
  EntityProfile.isSanctioned (_resetLimitsIfNeeded now p)
  = EntityProfile.isSanctioned p
  /\ EntityProfile.singleTxLimit (_resetLimitsIfNeeded now p)
     = EntityProfile.singleTxLimit p
  /\ EntityProfile.isVerified (_resetLimitsIfNeeded now p)
     = EntityProfile.isVerified p.
Proof.
  unfold _resetLimitsIfNeeded.
  destruct (EntityProfile.lastDayReset p <? now / 86400); simpl;
    destruct (EntityProfile.lastMonthReset p <? now / 2592000); simpl;
    repeat split; reflexivity.
Qed.

(** X14. The limits of tier [NONE] are given only by [verifyEntity]: an
    entity that no [KYC_VERIFIER] has verified since deployment has a
    single-transaction limit of zero, whatever else has been called, so no
    check of a positive amount sent by it passes. *)
Theorem unverified_sender_cannot_pay :
  forall (deployer entity : address) (txs : list Tx),
    neverVerified entity txs (constructor deployer) ->
    forall now paymentId recipient amount rs t1 t2 s' chk,
      0 < amount ->
      checkPaymentCompliance now paymentId entity recipient amount rs t1 t2
        (run txs (constructor deployer)) = Ok (s', chk) ->
      TransactionCheck.passed chk = false.
Proof.
  intros deployer entity txs Hnv.
  pose (P := fun p : EntityProfile.t =>
               EntityProfile.singleTxLimit p = 0
               /\ EntityProfile.isVerified p = false).
  assert (Hinv : forall txs s,
             P (profiles s entity) -> neverVerified entity txs s ->
             P (profiles (run txs s) entity)).
  { clear. intros txs.
    induction txs as [|[[caller now] c] rest IH]; intros s HP Hnv; simpl.
    - exact HP.
    - destruct Hnv as [Hhere Hrest]. apply IH; [|exact Hrest].
      destruct (step caller now c s) as [s1|r] eqn:Hstep; simpl; [|exact HP].
      apply (step_profile_invariant P entity _ _ _ _ _) in Hstep;
        try assumption; unfold P.
      + intros p dv mv [H1 H2].
        destruct (reset_keeps_fields now p) as [_ [R1 R2]].
        simpl. rewrite R1, R2. auto.
      + intros tier h j pep risk period s2 Hcall Hv _.
        pose proof (Hhere _ _ _ _ _ _ Hcall) as Hno.
        unfold verifyEntity, onlyRole in Hv. inv_ok. congruence.
      + intros tier s2 Hu [_ Hv].
        unfold upgradeEntity, onlyRole in Hu. inv_ok. congruence.
      + intros s2 Hs HP'. unfold sanctionEntity, onlyRole in Hs. inv_ok.
        simpl. rewrite upd_same. exact HP'.
      + intros s2 _ Hs HP'. unfold clearEntity, onlyRole in Hs. inv_ok.
        simpl. rewrite upd_same. exact HP'. }
  intros now paymentId recipient amount rs t1 t2 s' chk Hamt Hc.
  destruct (TransactionCheck.passed chk) eqn:Hp; [|reflexivity].
  exfalso.
  destruct (check_passed_sound _ _ _ _ _ _ _ _ _ _ _ Hc Hp)
    as [_ [_ [_ [_ [Hlim _]]]]].
  destruct (Hinv txs (constructor deployer)) as [H0 _];
    [split; reflexivity | exact Hnv |].
  rewrite H0 in Hlim. lia.
Qed.

Lemma unverified_sender_cannot_pay_witness :
  neverVerified 61 busyTrace (constructor 1)
  /\ exists s' chk,
       checkPaymentCompliance 1700000030 4 61 60 1 false NONE NONE
         (run busyTrace (constructor 1)) = Ok (s', chk)
       /\ TransactionCheck.passed chk = false.
Proof.
  assert (Hnv : neverVerified 61 busyTrace (constructor 1))
    by (vm_compute; repeat split; intros; discriminate).
  split; [exact Hnv|].
  destruct (checkPaymentCompliance 1700000030 4 61 60 1 false NONE NONE
              (run busyTrace (constructor 1))) as [[s' chk]|r] eqn:E;
    [|vm_compute in E; discriminate E].
  exists s', chk. split; [reflexivity|].
  apply (unverified_sender_cannot_pay 1 61 busyTrace Hnv
           1700000030 4 60 1 false NONE NONE s' chk);
    [reflexivity | exact E].
Defined.

(** X15. The sanction flag of a profile is read only under
    [requireSanctionsCheck]: a check made without it returns the same
    verdict whether or not [sanctionEntity] has been called on the sender,
    the recipient or anyone else. *)
Theorem sanction_ignored_without_sanctions_check :
  forall (officer entity : address) (s s1 : State),
    sanctionEntity officer entity s = Ok s1 ->
    forall now paymentId sender recipient amount t1 t2,
      verdict (checkPaymentCompliance now paymentId sender recipient amount
                 false t1 t2 s1)
      = verdict (checkPaymentCompliance now paymentId sender recipient amount
                   false t1 t2 s).
Proof.
  intros officer entity s s1 H now paymentId sender recipient amount t1 t2.
  unfold sanctionEntity, onlyRole in H. inv_ok.
  assert (Hsame : forall a,
             sameButSanction
               (profiles
                  (set_profile entity
                     (EntityProfile.set_sanction true true (profiles s entity))
                     s) a)
               (profiles s a)).
  { intros x. simpl. unfold upd, sameButSanction.
    destruct (x =? entity) eqn:E; [|reflexivity].
    apply Z.eqb_eq in E. subst x. reflexivity. }
  apply check_verdict_ext; try reflexivity; try apply Hsame.
  intros Hf. discriminate Hf.
Qed.

Lemma sanction_ignored_without_sanctions_check_witness :
  EntityProfile.isSanctioned (profiles sanctionedState 60) = true
  /\ verdict (checkPaymentCompliance 1700000010 2 60 61 (1000 * 10 ^ 18)
                false NONE NONE sanctionedState)
     = Ok (TransactionCheck.mk true "Compliance check passed" false false
             1700000010)
  /\ verdict (checkPaymentCompliance 1700000010 2 60 61 (1000 * 10 ^ 18)
                true NONE NONE sanctionedState)
     = Ok (TransactionCheck.mk false "Sender is sanctioned" false false
             1700000010).
Proof.
  split; [vm_compute; reflexivity|]. split.
  - rewrite (sanction_ignored_without_sanctions_check 1 60 standardState
               sanctionedState).
    + vm_compute. reflexivity.
    + vm_compute. reflexivity.
  - vm_compute. reflexivity.
Defined.

(** X16. A sanction stays until a [COMPLIANCE_OFFICER] clears it: once
    [isSanctioned] is set on an entity, then after any sequence of calls
    in which no officer calls [clearEntity] on it (verifications, upgrades,
    checks, list and limit changes, role changes, clearings attempted
    without the role), every check made with [requireSanctionsCheck] that
    has the entity as sender or recipient is rejected. *)
Theorem sanction_persists_until_cleared :
  forall (entity : address) (txs : list Tx) (s : State),
    EntityProfile.isSanctioned (profiles s entity) = true ->
    neverCleared entity txs s ->
    EntityProfile.isSanctioned (profiles (run txs s) entity) = true
    /\ forall now paymentId sender recipient amount t1 t2 s' chk,
         sender = entity \/ recipient = entity ->
         checkPaymentCompliance now paymentId sender recipient amount true
           t1 t2 (run txs s) = Ok (s', chk) ->
         TransactionCheck.passed chk = false.
Proof.
  intros entity txs s Hs Hnc.
  pose (P := fun p : EntityProfile.t => EntityProfile.isSanctioned p = true).
  assert (Hinv : forall txs s,
             P (profiles s entity) -> neverCleared entity txs s ->
             P (profiles (run txs s) entity)).
  { clear. intros txs.
    induction txs as [|[[caller now] c] rest IH]; intros s HP Hnc; simpl.
    - exact HP.
    - destruct Hnc as [Hhere Hrest]. apply IH; [|exact Hrest].
      destruct (step caller now c s) as [s1|r] eqn:Hstep; simpl; [|exact HP].
      apply (step_profile_invariant P entity _ _ _ _ _) in Hstep;
        try assumption; unfold P.
      + intros p dv mv H1.
        destruct (reset_keeps_fields now p) as [R1 _].
        simpl. rewrite R1. auto.
      + intros tier h j pep risk period s2 _ Hv HP'.
        unfold verifyEntity, onlyRole in Hv. inv_ok.
        simpl. rewrite upd_same. exact HP'.
      + intros tier s2 Hu HP'.
        unfold upgradeEntity, onlyRole in Hu. inv_ok.
        simpl. rewrite upd_same. exact HP'.
      + intros s2 Hs _. unfold sanctionEntity, onlyRole in Hs. inv_ok.
        simpl. rewrite upd_same. reflexivity.
      + intros s2 Hcall Hs _. pose proof (Hhere Hcall) as Hno.
        unfold clearEntity, onlyRole in Hs. inv_ok. congruence. }
  pose proof (Hinv txs s Hs Hnc) as Hfinal. unfold P in Hfinal.
  split; [exact Hfinal|].
  intros now paymentId sender recipient amount t1 t2 s' chk Hwho Hc.
  destruct (TransactionCheck.passed chk) eqn:Hp; [|reflexivity].
  destruct (check_passed_sound _ _ _ _ _ _ _ _ _ _ _ Hc Hp)
    as [Hsan _].
  destruct (Hsan eq_refl) as [H1 H2].
  destruct Hwho as [-> | ->]; congruence.
Qed.

Lemma sanction_persists_until_cleared_witness :
  EntityProfile.isSanctioned (profiles (run busyTrace sanctionedState) 60)
  = true
  /\ EntityProfile.tier (profiles (run busyTrace sanctionedState) 60)
     = INSTITUTIONAL
  /\ verdict (checkPaymentCompliance 1700000030 4 61 60 0 true NONE NONE
                (run busyTrace sanctionedState))
     = Ok (TransactionCheck.mk false "Recipient is sanctioned" false false
             1700000030).
Proof.
  destruct (sanction_persists_until_cleared 60 busyTrace sanctionedState)
    as [H1 H2].
  - vm_compute. reflexivity.
  - vm_compute. repeat split; intros; discriminate.
  - split; [exact H1|]. split; vm_compute; reflexivity.
Defined.

End ComplianceMoreProps.

(** ** SmartEscrow: creation, time lock and approvals *)

Module EscrowMoreProps.

Import SmartEscrow LedgerSpec EscrowSpec EscrowExamples LedgerProps.

Lemma releaseEscrow_wellFormed (e0 : bytes32) (w w' : World)
  (ps : list Payout) :
  _releaseEscrow e0 w = Ok (w', ps) ->
  wellFormed (st w) -> wellFormed (st w').
Proof.
  unfold _releaseEscrow. intros H [Hfee Hc]. inv_ok.
  split; [exact Hfee|].
  intros id. simpl. unfold upd. destruct (id =? e0); [|apply Hc].
  simpl. apply Hc.
Qed.

Lemma create_wellFormed (keccak256 : list Z -> bytes32)
  (sender : address) (now : uint256) (paymentId : bytes32)
  (depositor beneficiary token : address) (amount : uint256)
  (conditionType : ReleaseCondition) (releaseTime disputeWindow : uint256)
  (description : string) (w w' : World) (id : bytes32) :
  _createEscrow keccak256 sender now paymentId depositor beneficiary token
    amount conditionType releaseTime disputeWindow description w
  = Ok (w', id) ->
  creatable conditionType = true ->
  wellFormed (st w) -> wellFormed (st w').
Proof.
  unfold _createEscrow. intros H Hct [Hfee Hc]. inv_ok.
  split; [exact Hfee|].
  intros id. simpl. unfold upd.
  destruct (id =? _); [exact Hct | apply Hc].
Qed.

Lemma escrow_step_wellFormed (keccak256 : list Z -> bytes32)
  (sender : address) (now : uint256) (c : Call) (w w' : World)
  (ps : list Payout) :
  step keccak256 sender now c w = Ok (w', ps) ->
  wellFormed (st w) -> wellFormed (st w').
Proof.
  intros H Hwf. pose proof Hwf as [Hfee Hc].
  destruct c; simpl in H.
  - unfold created, createTimeBasedEscrow in H. inv_ok.
    destruct a as [w1 id]. simpl.
    eapply create_wellFormed; [eassumption | reflexivity | exact Hwf].
  - unfold created, createApprovalEscrow in H. inv_ok.
    destruct a as [w1 id]. simpl.
    eapply create_wellFormed; [eassumption | reflexivity | exact Hwf].
  - (* approveRelease *)
    unfold approveRelease in H. inv_ok.
    match goal with
    | H : (if ?c then _ else _) = Ok ?x |- _ =>
        assert (Hx : Escrow.conditionType x
                     = Escrow.conditionType (escrows (st w) escrowId));
        [ destruct c; [inv_ok; reflexivity|];
          match type of H with
          | (if ?c' then _ else _) = _ => destruct c'; inv_ok; reflexivity
          end
        | clear H ]
    end.
    assert (Hmid : wellFormed
                     (st (mkWorld (set_escrow escrowId a1 (st w))
                            (ledger w)))).
    { split; [exact Hfee|]. intros id. simpl. unfold upd.
      destruct (id =? escrowId); [rewrite Hx|]; apply Hc. }
    destruct (Escrow.conditionType a1); try (inv_ok; exact Hmid).
    destruct (Escrow.depositorApproved a1); [|inv_ok; exact Hmid].
    eapply releaseEscrow_wellFormed; eassumption.
  - unfold releaseEscrow in H. inv_ok.
    eapply releaseEscrow_wellFormed; eassumption.
  - unfold raiseDispute in H. inv_ok.
    split; [exact Hfee|]. intros id. simpl. unfold upd.
    destruct (id =? escrowId); apply Hc.
  - unfold resolveDispute in H. inv_ok.
    split; [exact Hfee|]. intros id. simpl. unfold upd.
    destruct (id =? escrowId); apply Hc.
  - unfold requestRefund in H. inv_ok.
    split; [exact Hfee|]. intros id. simpl. unfold upd.
    destruct (id =? escrowId); apply Hc.
  - inv_ok. exact Hwf.
  - unfold onState, setPayFlowCore in H. inv_ok. exact Hwf.
  - unfold onState, setFeeRecipient in H. inv_ok. exact Hwf.
  - unfold onState, setEscrowFee in H. inv_ok.
    split; [simpl; lia | exact Hc].
  - unfold onState, setOracleConditionMet in H. inv_ok.
    split; [exact Hfee|]. intros id. simpl. unfold upd.
    destruct (id =? escrowId); apply Hc.
  - unfold onState, grantRole in H. inv_ok. exact Hwf.
  - unfold onState, revokeRole in H. inv_ok. exact Hwf.
  - inv_ok. exact Hwf.
Qed.

Lemma escrow_run_wellFormed (keccak256 : list Z -> bytes32)
  (txs : list Tx) :
  forall w, wellFormed (st w) ->
            wellFormed (st (fst (run keccak256 txs w))).
Proof.
  induction txs as [|[[sender now] c] rest IH]; intros w Hwf.
  - exact Hwf.
  - rewrite EscrowProps.escrow_run_cons.
    destruct (step keccak256 sender now c w) as [[w' ps]|r] eqn:Hstep.
    + simpl. apply IH. eapply escrow_step_wellFormed; eassumption.
    + apply IH. exact Hwf.
Qed.

Lemma constructor_wellFormed (self deployer : address) :
  wellFormed (constructor self deployer).
Proof. split; [simpl; lia | intros id; reflexivity]. Qed.

(** X17. The contract creates escrows released by time or by approval
    only: in every state reached from the constructor, whatever is called,
    every stored escrow has condition [TIME_BASED] or [APPROVAL], so
    [setOracleConditionMet] reverts for every caller and every escrow. *)
Theorem oracle_condition_is_unreachable :
  forall (keccak256 : list Z -> bytes32) (self deployer : address)
         (l : ERC20.Ledger) (txs : list Tx) (sender : address)
         (escrowId : bytes32),
    let w := fst (run keccak256 txs
                    (mkWorld (constructor self deployer) l)) in
    creatable (Escrow.conditionType (escrows (st w) escrowId)) = true
    /\ succeeds (setOracleConditionMet sender escrowId (st w)) = false.
Proof.
  intros keccak256 self deployer l txs sender escrowId w.
  assert (Hwf : wellFormed (st w)).
  { apply escrow_run_wellFormed. apply constructor_wellFormed. }
  destruct Hwf as [_ Hc]. split; [apply Hc|].
  unfold setOracleConditionMet, onlyRole.
  destruct (roles (st w) OPERATOR_ROLE sender); [|reflexivity].
  simpl. specialize (Hc escrowId).
  destruct (Escrow.conditionType (escrows (st w) escrowId));
    try discriminate; reflexivity.
Qed.

Lemma createEscrow_accounting (keccak256 : list Z -> bytes32)
  (sender : address) (now : uint256) (paymentId : bytes32)
  (depositor beneficiary token : address) (amount : uint256)
  (conditionType : ReleaseCondition) (releaseTime disputeWindow : uint256)
  (description : string) (w w' : World) (id : bytes32) :
  escrowFeeBps (st w) <= 50 ->
  0 < amount ->
  _createEscrow keccak256 sender now paymentId depositor beneficiary token
    amount conditionType releaseTime disputeWindow description w
  = Ok (w', id) ->
  createdAs w w' depositor beneficiary token amount conditionType id.
Proof.
  intros Hfee Hamt H. unfold _createEscrow in H.
  apply bind_Ok in H. destruct H as [scaled [Hscaled H]].
  apply bind_Ok in H. destruct H as [fee [Hfeeq H]].
  apply bind_Ok in H. destruct H as [l1 [Hl1 H]].
  apply bind_Ok in H. destruct H as [net [Hnet H]].
  apply bind_Ok in H. destruct H as [deadline [_ H]].
  apply bind_Ok in H. destruct H as [created [Hcreated H]].
  apply bind_Ok in H. destruct H as [locked [Hlocked H]].
  apply bind_Ok in H. destruct H as [l2 [Hl2 H]].
  inversion H; subst w' id; clear H.
  unfold mul in Hscaled. apply checked_Ok in Hscaled.
  destruct Hscaled as [-> Hsrange].
  unfold div in Hfeeq. simpl in Hfeeq. inversion Hfeeq; subst fee; clear Hfeeq.
  unfold sub in Hnet. apply checked_Ok in Hnet. destruct Hnet as [-> _].
  unfold add in Hcreated, Hlocked.
  apply checked_Ok in Hcreated. destruct Hcreated as [-> _].
  apply checked_Ok in Hlocked. destruct Hlocked as [-> _].
  set (fee := amount * escrowFeeBps (st w) / 10000) in *.
  assert (Hf0 : 0 <= fee) by (apply Z.div_pos; lia).
  assert (Hf1 : 200 * fee <= amount).
  { pose proof (Z.mul_div_le (amount * escrowFeeBps (st w)) 10000
                  ltac:(lia)).
    fold fee in H. nia. }
  unfold createdAs. cbn -[Z.mul]. rewrite upd_same. cbn -[Z.mul].
  repeat (split; [first [reflexivity | lia]|]).
  intros Hsender Hrec.
  pose proof (transferFrom_balance _ _ _ _ _ _ _ Hl1 (this (st w))) as Hb1.
  rewrite Z.eqb_refl in Hb1.
  assert (E1 : (this (st w) =? depositor) = false)
    by (apply Z.eqb_neq; congruence).
  rewrite E1 in Hb1.
  destruct (0 <? fee) eqn:Efee.
  - unfold ERC20.safeTransfer in Hl2.
    rewrite (transfer_balance _ _ _ _ _ _ Hl2 (this (st w))).
    rewrite Z.eqb_refl.
    assert (E2 : (this (st w) =? feeRecipient (st w)) = false)
      by (apply Z.eqb_neq; congruence).
    rewrite E2, Hb1. lia.
  - inversion Hl2; subst l2. rewrite Hb1.
    apply Z.ltb_ge in Efee. lia.
Qed.

(** X18. Creating an escrow splits the deposit into the escrowed amount
    and the fee and nothing else: in every state reached from the
    constructor, a successful [createTimeBasedEscrow] or
    [createApprovalEscrow] of [amount] stores an active escrow whose
    amount and fee add up to [amount], with a fee of at most [amount]/200,
    raises [totalValueLocked] by the escrowed amount and, unless the
    contract is itself the depositor or the fee recipient, raises the
    contract's token balance by exactly the escrowed amount. *)
Theorem escrow_creation_accounting :
  forall (keccak256 : list Z -> bytes32) (self deployer : address)
         (l : ERC20.Ledger) (txs : list Tx),
    let w := fst (run keccak256 txs
                    (mkWorld (constructor self deployer) l)) in
    (forall sender now paymentId beneficiary token amount releaseTime
            disputeWindow description w' id,
        createTimeBasedEscrow keccak256 sender now paymentId beneficiary
          token amount releaseTime disputeWindow description w
        = Ok (w', id) ->
        createdAs w w' sender beneficiary token amount TIME_BASED id
        /\ Escrow.releaseTime (escrows (st w') id) = releaseTime
        /\ now < releaseTime)
    /\ (forall sender now paymentId beneficiary token amount
               disputeDeadline description w' id,
           createApprovalEscrow keccak256 sender now paymentId beneficiary
             token amount disputeDeadline description w
           = Ok (w', id) ->
           createdAs w w' sender beneficiary token amount APPROVAL id).
Proof.
  intros keccak256 self deployer l txs w.
  assert (Hwf : wellFormed (st w)).
  { apply escrow_run_wellFormed. apply constructor_wellFormed. }
  destruct Hwf as [Hfee _].
  split.
  - intros sender now paymentId beneficiary token amount releaseTime
           disputeWindow description w' id H.
    unfold createTimeBasedEscrow in H.
    apply bind_Ok in H. destruct H as [u0 [_ H]].
    apply bind_Ok in H. destruct H as [u1 [Hamt H]].
    apply bind_Ok in H. destruct H as [u2 [Htime H]].
    apply require_Ok in Hamt, Htime.
    apply Z.ltb_lt in Hamt, Htime.
    split; [eapply createEscrow_accounting; eassumption|].
    split; [|exact Htime].
    unfold _createEscrow in H. inv_ok. simpl. rewrite upd_same. reflexivity.
  - intros sender now paymentId beneficiary token amount
           disputeDeadline description w' id H.
    unfold createApprovalEscrow in H.
    apply bind_Ok in H. destruct H as [u0 [_ H]].
    apply bind_Ok in H. destruct H as [u1 [Hamt H]].
    apply require_Ok in Hamt. apply Z.ltb_lt in Hamt.
    eapply createEscrow_accounting; eassumption.
Qed.

Lemma escrow_creation_accounting_witness :
  createTimeBasedEscrow toyHash 10 1700000000 5 20 800 100000 1700001000
    3600 "goods" fundedWorld = Ok (activeWorld, theEscrow)
  /\ createdAs fundedWorld activeWorld 10 20 800 100000 TIME_BASED theEscrow
  /\ Escrow.amount (escrows (st activeWorld) theEscrow) = 99950
  /\ Escrow.fee (escrows (st activeWorld) theEscrow) = 50.
Proof.
  assert (E : createTimeBasedEscrow toyHash 10 1700000000 5 20 800 100000
                1700001000 3600 "goods" fundedWorld
              = Ok (activeWorld, theEscrow)) by (vm_compute; reflexivity).
  split; [exact E|].
  destruct (escrow_creation_accounting toyHash 900 1
              (ledger fundedWorld) []) as [H _].
  destruct (H _ _ _ _ _ _ _ _ _ _ _ E) as [Hc _].
  split; [exact Hc|].
  split; vm_compute; reflexivity.
Defined.

(** [_releaseEscrow] on a funded escrow. *)
Lemma releaseEscrow_pays (escrowId : bytes32) (w : World) :
  let e := escrows (st w) escrowId in
  0 <= Escrow.amount e <= totalValueLocked (st w) ->
  totalValueLocked (st w) <= MAX_UINT256 ->
  0 <= totalReleased (st w) ->
  totalReleased (st w) + Escrow.amount e <= MAX_UINT256 ->
  this (st w) <> 0 ->
  Escrow.beneficiary e <> 0 ->
  Escrow.amount e
    <= ERC20.balanceOf (ledger w) (Escrow.token e) (this (st w)) ->
  exists w',
    _releaseEscrow escrowId w
    = Ok (w', [mkPayout escrowId (Escrow.beneficiary e) (Escrow.amount e)])
    /\ Escrow.status (escrows (st w') escrowId) = RELEASED
    /\ forall t holder,
         ERC20.balanceOf (ledger w') t holder
         = moved (Escrow.token e) (this (st w)) (Escrow.beneficiary e)
             (Escrow.amount e) (ERC20.balanceOf (ledger w)) t holder.
Proof.
  intros e Hamt Hmax Hrel0 Hrel Hthis Hben Hbal.
  assert (Hex : exists w',
             _releaseEscrow escrowId w
             = Ok (w', [mkPayout escrowId (Escrow.beneficiary e)
                          (Escrow.amount e)])
             /\ Escrow.status (escrows (st w') escrowId) = RELEASED).
  { unfold _releaseEscrow. fold e. simpl.
    unfold sub, add. rewrite !checked_in_range by lia. simpl.
    unfold ERC20.safeTransfer, ERC20._transfer.
    apply Z.eqb_neq in Hthis, Hben. rewrite Hthis, Hben. simpl.
    apply Z.leb_le in Hbal. rewrite Hbal. simpl.
    eexists. split; [reflexivity|]. simpl. rewrite upd_same. reflexivity. }
  destruct Hex as [w' [Hcall Hst]]. exists w'.
  split; [exact Hcall|]. split; [exact Hst|].
  apply (EscrowProps.releaseEscrow_moves _ _ _ _ Hcall).
Qed.

(** X19. A time-based escrow is locked until its release time and open
    to everyone from then on: while active, [releaseEscrow] reverts with
    "Conditions not met" before [releaseTime]; from [releaseTime] on, a
    call by any account returns, marks the escrow released and moves the
    escrowed amount from the contract to the beneficiary on the token
    ledger, every other balance staying as it was, provided that the
    contract's balance of the token covers the amount, that the amount is
    within [totalValueLocked], that [totalReleased] can take it without
    overflow and that neither the contract nor the beneficiary is the zero
    address; and [approveRelease] never releases it, whoever approves. *)
Theorem time_based_escrow_lock :
  forall (escrowId : bytes32) (w : World),
    let e := escrows (st w) escrowId in
    Escrow.escrowId e = escrowId ->
    Escrow.status e = ACTIVE ->
    Escrow.conditionType e = TIME_BASED ->
    (forall now,
        now < Escrow.releaseTime e ->
        releaseEscrow now escrowId w = Revert "Conditions not met")
    /\ (forall now,
           Escrow.releaseTime e <= now ->
           0 <= Escrow.amount e <= totalValueLocked (st w) ->
           totalValueLocked (st w) <= MAX_UINT256 ->
           0 <= totalReleased (st w) ->
           totalReleased (st w) + Escrow.amount e <= MAX_UINT256 ->
           this (st w) <> 0 ->
           Escrow.beneficiary e <> 0 ->
           Escrow.amount e
             <= ERC20.balanceOf (ledger w) (Escrow.token e) (this (st w)) ->
           exists w',
             releaseEscrow now escrowId w
             = Ok (w', [mkPayout escrowId (Escrow.beneficiary e)
                          (Escrow.amount e)])
             /\ Escrow.status (escrows (st w') escrowId) = RELEASED
             /\ forall t holder,
                  ERC20.balanceOf (ledger w') t holder
                  = moved (Escrow.token e) (this (st w))
                      (Escrow.beneficiary e) (Escrow.amount e)
                      (ERC20.balanceOf (ledger w)) t holder)
    /\ (forall sender w' ps,
           approveRelease sender escrowId w = Ok (w', ps) ->
           ps = []
           /\ Escrow.status (escrows (st w') escrowId) = ACTIVE
           /\ ledger w' = ledger w).
Proof.
  intros escrowId w e Hid Hst Hct. subst e. split; [|split].
  - intros now Hnow. unfold releaseEscrow, _canRelease.
    rewrite Hid, Z.eqb_refl, Hst, Hct. simpl.
    apply Z.leb_gt in Hnow. rewrite Hnow. reflexivity.
  - intros now Hnow Hamt Hmax Hrel0 Hrel Hthis Hben Hbal.
    unfold releaseEscrow, _canRelease.
    rewrite Hid, Z.eqb_refl, Hst, Hct. simpl.
    apply Z.leb_le in Hnow. rewrite Hnow. simpl.
    apply releaseEscrow_pays; assumption.
  - intros sender w' ps H. unfold approveRelease in H.
    rewrite Hid, Z.eqb_refl, Hst in H. simpl in H.
    destruct (sender =? Escrow.depositor (escrows (st w) escrowId)).
    + destruct (negb (Escrow.depositorApproved (escrows (st w) escrowId)));
        simpl in H;
        [|discriminate H].
      rewrite Hct in H. inversion H; subst. simpl. rewrite upd_same.
      simpl. auto.
    + destruct (sender =? Escrow.beneficiary (escrows (st w) escrowId));
        [|discriminate H].
      destruct (negb (Escrow.beneficiaryApproved (escrows (st w) escrowId)));
      simpl in H;
        [|discriminate H].
      rewrite Hct in H. inversion H; subst. simpl. rewrite upd_same.
      simpl. auto.
Qed.

Lemma time_based_escrow_lock_witness :
  releaseEscrow 1700000999 theEscrow activeWorld
  = Revert "Conditions not met"
  /\ (exists w',
         releaseEscrow 1700001000 theEscrow activeWorld
         = Ok (w', [mkPayout theEscrow 20 99950])
         /\ Escrow.status (escrows (st w') theEscrow) = RELEASED
         /\ ERC20.balanceOf (ledger w') 800 20
            = ERC20.balanceOf (ledger activeWorld) 800 20 + 99950
         /\ ERC20.balanceOf (ledger w') 800 900
            = ERC20.balanceOf (ledger activeWorld) 800 900 - 99950)
  /\ (exists w',
         approveRelease 10 theEscrow activeWorld = Ok (w', [])
         /\ Escrow.status (escrows (st w') theEscrow) = ACTIVE).
Proof.
  destruct (time_based_escrow_lock theEscrow activeWorld)
    as [H1 [H2 H3]]; try (vm_compute; reflexivity).
  split; [apply H1; vm_compute; reflexivity|]. split.
  - destruct (H2 1700001000) as [w' [Hr [Hs Hb]]];
      [ vm_compute; discriminate
      | vm_compute; split; discriminate
      | vm_compute; discriminate
      | vm_compute; discriminate
      | vm_compute; discriminate
      | vm_compute; discriminate
      | vm_compute; discriminate
      | vm_compute; discriminate
      | ].
    exists w'. split; [rewrite Hr; vm_compute; reflexivity|].
    split; [exact Hs|].
    rewrite !Hb. vm_compute. split; reflexivity.
  - destruct (approveRelease 10 theEscrow activeWorld) as [[w' ps]|r] eqn:E;
      [|vm_compute in E; discriminate E].
    destruct (H3 10 w' ps E) as [-> [Hs _]].
    exists w'. split; [reflexivity | exact Hs].
Defined.

(** X20. An approval escrow is released by the depositor's approval
    alone: while active, an approval by the beneficiary (who is not the
    depositor) records the approval and moves no token; an approval by the
    depositor that returns has marked the escrow released and moved the
    escrowed amount from the contract to the beneficiary on the token
    ledger, every other balance staying as it was, and it does return
    provided that the contract's balance of the token covers the amount,
    that the amount is within [totalValueLocked], that [totalReleased] can
    take it without overflow and that neither the contract nor the
    beneficiary is the zero address; the depositor's [requestRefund]
    reverts until the beneficiary has approved; and [releaseEscrow] reverts
    with "Conditions not met" as long as the depositor has not approved. *)
Theorem approval_escrow_is_released_by_depositor :
  forall (escrowId : bytes32) (w : World),
    let e := escrows (st w) escrowId in
    Escrow.escrowId e = escrowId ->
    Escrow.status e = ACTIVE ->
    Escrow.conditionType e = APPROVAL ->
    Escrow.depositorApproved e = false ->
    (forall w' ps,
        Escrow.beneficiary e <> Escrow.depositor e ->
        approveRelease (Escrow.beneficiary e) escrowId w = Ok (w', ps) ->
        ps = []
        /\ Escrow.status (escrows (st w') escrowId) = ACTIVE
        /\ Escrow.beneficiaryApproved (escrows (st w') escrowId) = true
        /\ ledger w' = ledger w)
    /\ (forall w' ps,
           approveRelease (Escrow.depositor e) escrowId w = Ok (w', ps) ->
           ps = [mkPayout escrowId (Escrow.beneficiary e) (Escrow.amount e)]
           /\ Escrow.status (escrows (st w') escrowId) = RELEASED
           /\ forall t holder,
                ERC20.balanceOf (ledger w') t holder
                = moved (Escrow.token e) (this (st w))
                    (Escrow.beneficiary e) (Escrow.amount e)
                    (ERC20.balanceOf (ledger w)) t holder)
    /\ (0 <= Escrow.amount e <= totalValueLocked (st w) ->
        totalValueLocked (st w) <= MAX_UINT256 ->
        0 <= totalReleased (st w) ->
        totalReleased (st w) + Escrow.amount e <= MAX_UINT256 ->
        this (st w) <> 0 ->
        Escrow.beneficiary e <> 0 ->
        Escrow.amount e
          <= ERC20.balanceOf (ledger w) (Escrow.token e) (this (st w)) ->
        exists w',
          approveRelease (Escrow.depositor e) escrowId w
          = Ok (w', [mkPayout escrowId (Escrow.beneficiary e)
                       (Escrow.amount e)]))
    /\ (Escrow.beneficiaryApproved e = false ->
        requestRefund (Escrow.depositor e) escrowId w
        = Revert "Beneficiary must agree to refund")
    /\ (forall now, releaseEscrow now escrowId w = Revert "Conditions not met").
Proof.
  intros escrowId w e Hid Hst Hct Hda. subst e.
  assert (Hcall : forall r,
             approveRelease
               (Escrow.depositor (escrows (st w) escrowId)) escrowId w = r ->
             _releaseEscrow escrowId
               (mkWorld
                  (set_escrow escrowId
                     (Escrow.set_depositorApproved true
                        (escrows (st w) escrowId)) (st w))
                  (ledger w)) = r).
  { intros r <-. unfold approveRelease.
    rewrite Hid, Z.eqb_refl, Hst. simpl.
    rewrite Z.eqb_refl, Hda. simpl. rewrite Hct. reflexivity. }
  split; [|split; [|split; [|split]]].
  - intros w' ps Hne H. unfold approveRelease in H.
    rewrite Hid, Z.eqb_refl, Hst in H. simpl in H.
    apply Z.eqb_neq in Hne. rewrite Hne, Z.eqb_refl in H.
    destruct (negb (Escrow.beneficiaryApproved (escrows (st w) escrowId)));
      simpl in H;
      [|discriminate H].
    rewrite Hct, Hda in H. inversion H; subst. simpl. rewrite upd_same.
    simpl. auto.
  - intros w' ps H. apply Hcall in H.
    pose proof (EscrowProps.releaseEscrow_moves _ _ _ _ H) as Hm.
    cbv zeta in Hm. cbn [st ledger set_escrow escrows this] in Hm.
    rewrite upd_same in Hm. cbn in Hm. destruct Hm as [Hps Hb].
    split; [exact Hps|]. split; [|exact Hb].
    unfold _releaseEscrow in H. simpl in H. rewrite upd_same in H.
    simpl in H. inv_ok. simpl. rewrite upd_same. reflexivity.
  - intros Hamt Hmax Hrel0 Hrel Hthis Hben Hbal.
    destruct (releaseEscrow_pays escrowId
                (mkWorld
                   (set_escrow escrowId
                      (Escrow.set_depositorApproved true
                         (escrows (st w) escrowId)) (st w))
                   (ledger w))) as [w' [Hr _]];
      try (cbn [st ledger set_escrow escrows this totalValueLocked
                totalReleased]; rewrite ?upd_same; cbn; assumption).
    exists w'. cbn [st ledger set_escrow escrows] in Hr.
    rewrite upd_same in Hr. cbn in Hr. rewrite <- Hr.
    symmetry. apply Hcall. reflexivity.
  - intros Hba. unfold requestRefund.
    rewrite Hid, !Z.eqb_refl, Hst, Hct, Hba. reflexivity.
  - intros now. unfold releaseEscrow, _canRelease.
    rewrite Hid, Z.eqb_refl, Hst, Hct, Hda. reflexivity.
Qed.

Lemma approval_escrow_is_released_by_depositor_witness :
  (exists w',
      approveRelease 20 approvalEscrow approvalWorld = Ok (w', [])
      /\ Escrow.status (escrows (st w') approvalEscrow) = ACTIVE)
  /\ (exists w',
         approveRelease 10 approvalEscrow approvalWorld
         = Ok (w', [mkPayout approvalEscrow 20 99950])
         /\ Escrow.status (escrows (st w') approvalEscrow) = RELEASED
         /\ ERC20.balanceOf (ledger w') 800 20
            = ERC20.balanceOf (ledger approvalWorld) 800 20 + 99950
         /\ ERC20.balanceOf (ledger w') 800 900
            = ERC20.balanceOf (ledger approvalWorld) 800 900 - 99950)
  /\ requestRefund 10 approvalEscrow approvalWorld
     = Revert "Beneficiary must agree to refund".
Proof.
  destruct (approval_escrow_is_released_by_depositor approvalEscrow
              approvalWorld) as [H1 [H2 [H2' [H3 _]]]];
    try (vm_compute; reflexivity).
  split; [|split].
  - destruct (approveRelease 20 approvalEscrow approvalWorld)
      as [[w' ps]|r] eqn:E; [|vm_compute in E; discriminate E].
    destruct (H1 w' ps) as [-> [Hs _]];
      [vm_compute; discriminate | exact E |].
    exists w'. split; [reflexivity | exact Hs].
  - destruct H2' as [w' E];
      [ vm_compute; split; discriminate
      | vm_compute; discriminate
      | vm_compute; discriminate
      | vm_compute; discriminate
      | vm_compute; discriminate
      | vm_compute; discriminate
      | vm_compute; discriminate
      | ].
    destruct (H2 w' _ E) as [_ [Hs Hb]].
    assert (Hd : Escrow.depositor (escrows (st approvalWorld) approvalEscrow)
                 = 10) by (vm_compute; reflexivity).
    assert (Hbe : Escrow.beneficiary
                    (escrows (st approvalWorld) approvalEscrow) = 20)
      by (vm_compute; reflexivity).
    assert (Ham : Escrow.amount (escrows (st approvalWorld) approvalEscrow)
                  = 99950) by (vm_compute; reflexivity).
    rewrite Hd, Hbe, Ham in E.
    exists w'. split; [exact E|].
    split; [exact Hs|].
    rewrite !Hb. vm_compute. split; reflexivity.
  - apply H3. vm_compute. reflexivity.
Defined.

End EscrowMoreProps.

(** ** PayFlowCore: creation, cancellation, fees and pausing *)

Module PayFlowMoreProps.

Import PayFlowCore LedgerSpec PayFlowSpec PayFlowExamples LedgerProps.

Ltac case_keys q :=
  repeat match goal with
  | |- context [q =? ?x] => destruct (q =? x)
  end; simpl.

Lemma payment_step_feeBounded (keccak256 : list Z -> bytes32)
  (sender : address) (now : uint256) (c : Call) (w w' : World)
  (ss : list Settlement) :
  step keccak256 sender now c w = Ok (w', ss) ->
  feeBounded (st w) -> feeBounded (st w').
Proof.
  intros H Hfb. pose proof Hfb as [Hfee Hamt].
  assert (Hexec : forall now pid w0 w1 ss0,
             _executePayment now pid w0 = Ok (w1, ss0) ->
             feeBounded (st w0) -> feeBounded (st w1)).
  { intros now0 pid w0 w1 ss0 He [Hf Ha].
    pose proof (PayFlowProps.executePayment_internal _ _ _ _ _ He)
      as [Hp _].
    pose proof (PayFlowProps.executePayment_ledger _ _ _ _ _ He) as [_ [Hbps _]].
    split; [rewrite Hbps; exact Hf|].
    intros q. rewrite Hp. destruct (q =? pid); [simpl|]; apply Ha. }
  destruct c; simpl in H.
  - (* createPayment *)
    unfold createPayment in H. inv_ok.
    match goal with
    | H : (0 <? amount) = true |- _ => apply Z.ltb_lt in H
    end.
    match goal with
    | H : (if ?c then _ else _) = Ok _ |- _ => destruct c
    end.
    + eapply Hexec; [eassumption|]. split; [exact Hfee|].
      intros q. simpl. unfold upd. case_keys q; first [lia | apply Hamt].
    + inv_ok. split; [exact Hfee|].
      intros q. simpl. unfold upd. case_keys q; first [lia | apply Hamt].
  - (* createCrossBorderPayment *)
    unfold createCrossBorderPayment in H. inv_ok.
    match goal with
    | H : (0 <? sourceAmount) = true |- _ => apply Z.ltb_lt in H
    end.
    split; [exact Hfee|].
    intros q. simpl. unfold upd. case_keys q; first [lia | apply Hamt].
  - (* approvePayment *)
    unfold approvePayment in H. inv_ok.
    match goal with
    | H : (if ?c then _ else _) = Ok _ |- _ => destruct c
    end.
    + eapply Hexec; [eassumption|]. split; [exact Hfee|].
      intros q. simpl. unfold upd. case_keys q; apply Hamt.
    + inv_ok. split; [exact Hfee|].
      intros q. simpl. unfold upd. case_keys q; apply Hamt.
  - unfold executePayment in H. inv_ok. eapply Hexec; eassumption.
  - unfold cancelPayment in H. inv_ok. split; [exact Hfee|].
    intros q. simpl. unfold upd. case_keys q; apply Hamt.
  - inv_ok. exact Hfb.
  - unfold onState, addSupportedToken, onlyRole in H. inv_ok. exact Hfb.
  - unfold onState, setModules, onlyRole in H. inv_ok. exact Hfb.
  - unfold onState, setProtocolFee, onlyRole in H. inv_ok.
    split; [simpl; lia | exact Hamt].
  - unfold onState, setFeeRecipient, onlyRole in H. inv_ok. exact Hfb.
  - unfold onState, pause, onlyRole in H. inv_ok. exact Hfb.
  - unfold onState, unpause, onlyRole in H. inv_ok. exact Hfb.
  - unfold onState, grantRole, onlyRole in H. inv_ok. exact Hfb.
  - unfold onState, revokeRole, onlyRole in H. inv_ok. exact Hfb.
  - inv_ok. exact Hfb.
Qed.

Lemma payment_run_feeBounded (keccak256 : list Z -> bytes32)
  (txs : list Tx) :
  forall w, feeBounded (st w) ->
            feeBounded (st (fst (run keccak256 txs w))).
Proof.
  induction txs as [|[[sender now] c] rest IH]; intros w Hfb.
  - exact Hfb.
  - rewrite PayFlowProps.payment_run_cons.
    destruct (step keccak256 sender now c w) as [[w' ss]|r] eqn:Hstep.
    + simpl. apply IH. eapply payment_step_feeBounded; eassumption.
    + apply IH. exact Hfb.
Qed.

(** X21. The protocol fee never exceeds one percent: in every state
    reached from the constructor, whatever is called, [protocolFeeBps] is
    at most 100, and a successful [executePayment] makes one settlement
    transfer, of at most the payment's amount and at least 99% of it: on
    the token ledger a fee of at most one percent of the amount has gone
    from the contract to the fee recipient, the rest has gone from the
    contract to the payee, and no other balance has changed. *)
Theorem protocol_fee_is_at_most_one_percent :
  forall (keccak256 : list Z -> bytes32) (self deployer : address)
         (l : ERC20.Ledger)
         (audit : bytes32 -> address -> address -> uint256 -> uint256 -> bool)
         (txs : list Tx),
    let w := fst (run keccak256 txs
                    (mkWorld (constructor self deployer) l audit)) in
    protocolFeeBps (st w) <= 100
    /\ forall now pid w' ss,
         executePayment now pid w = Ok (w', ss) ->
         (exists x,
             ss = [x]
             /\ settled x <= Payment.amount (payments (st w) pid)
             /\ 99 * Payment.amount (payments (st w) pid) <= 100 * settled x)
         /\ 0 <= feeOf (st w) (payments (st w) pid)
         /\ 100 * feeOf (st w) (payments (st w) pid)
            <= Payment.amount (payments (st w) pid)
         /\ forall t holder,
              ERC20.balanceOf (ledger w') t holder
              = moved (Payment.targetToken (payments (st w) pid))
                  (this (st w)) (payeeOf (st w) (payments (st w) pid))
                  (Payment.amount (payments (st w) pid)
                   - feeOf (st w) (payments (st w) pid))
                  (moved (Payment.token (payments (st w) pid)) (this (st w))
                     (feeRecipient (st w))
                     (feeOf (st w) (payments (st w) pid))
                     (ERC20.balanceOf (ledger w)))
                  t holder.
Proof.
  intros keccak256 self deployer l audit txs w.
  assert (Hfb : feeBounded (st w)).
  { apply payment_run_feeBounded. split; [simpl; lia|].
    intros q. simpl. lia. }
  destruct Hfb as [Hfee Hamt]. split; [exact Hfee|].
  intros now pid w' ss H. unfold executePayment in H. inv_ok.
  pose proof (PayFlowProps.executePayment_internal _ _ _ _ _ H)
    as [_ [Hss _]].
  pose proof (PayFlowProps.executePayment_moves _ _ _ _ _ H) as Hmoved.
  specialize (Hamt pid).
  assert (Hbound : 0 <= feeOf (st w) (payments (st w) pid)
                   /\ 100 * feeOf (st w) (payments (st w) pid)
                      <= Payment.amount (payments (st w) pid)).
  { unfold feeOf.
    set (amt := Payment.amount (payments (st w) pid)) in *.
    set (bps := protocolFeeBps (st w)) in *.
    destruct (0 <? bps) eqn:Eb; [|lia].
    apply Z.ltb_lt in Eb.
    assert (H0 : 0 <= amt * bps / 10000) by (apply Z.div_pos; nia).
    pose proof (Z.mul_div_le (amt * bps) 10000 ltac:(lia)) as H1.
    split; [lia|]. nia. }
  destruct Hbound as [Hf0 Hf1].
  split; [|split; [exact Hf0|split; [exact Hf1|exact Hmoved]]].
  eexists. split; [exact Hss|]. cbn [settled]. lia.
Qed.

Lemma protocol_fee_is_at_most_one_percent_witness :
  protocolFeeBps (st (fst (run toyHash (setupTrace ++ treasuryTrace)
                             freshWorld))) = 100
  /\ exists w',
       executePayment 1700000200 thePayment
         (fst (run toyHash (setupTrace ++ treasuryTrace) freshWorld))
       = Ok (w', [mkSettlement thePayment 801 20 990])
       /\ ERC20.balanceOf (ledger w') 801 20 = 990
       /\ ERC20.balanceOf (ledger w') 800 1 = 10
       /\ ERC20.balanceOf (ledger pausedWorld) 801 20 = 0
       /\ ERC20.balanceOf (ledger pausedWorld) 800 1 = 0.
Proof.
  destruct (protocol_fee_is_at_most_one_percent toyHash 700 1
              (ledger freshWorld) (auditAccepts freshWorld)
              (setupTrace ++ treasuryTrace)) as [H1 H2].
  split; [vm_compute; reflexivity|].
  destruct (executePayment 1700000200 thePayment
              (fst (run toyHash (setupTrace ++ treasuryTrace) freshWorld)))
    as [[w' ss]|r] eqn:E; [|vm_compute in E; discriminate E].
  exists w'.
  destruct (H2 _ _ _ _ E) as [_ [_ [_ Hb]]].
  assert (Hv : outcome (executePayment 1700000200 thePayment
                 (fst (run toyHash (setupTrace ++ treasuryTrace) freshWorld)))
               = Ok ss) by (rewrite E; reflexivity).
  vm_compute in Hv. inversion Hv.
  split; [reflexivity|].
  split; [rewrite Hb; vm_compute; reflexivity|].
  split; [rewrite Hb; vm_compute; reflexivity|].
  split; vm_compute; reflexivity.
Defined.

(** X22. [createPayment] settles a payment without conditions in the
    same call and holds every other one.  After a successful call the
    amount has gone from the sender to the contract on the token ledger;
    when [_canAutoExecute] accepts the payment it is [EXECUTED] with one
    settlement transfer: the fee has gone on from the contract to the fee
    recipient and the amount less the fee to the recipient; otherwise the
    payment is [PENDING], nothing is settled and the amount stays with the
    contract.  No other balance changes. *)
Theorem createPayment_settles_or_holds :
  forall (keccak256 : list Z -> bytes32) (sender : address) (now : uint256)
         (recipient token : address) (amount : uint256)
         (conditions : PaymentConditions.t) (referenceId : bytes32)
         (memo : string) (w w' : World) (ss : list Settlement),
    createPayment keccak256 sender now recipient token amount conditions
      referenceId memo w = Ok (w', ss) ->
    let id := paymentIdOf keccak256 sender recipient token amount now
                (totalPaymentsCreated (st w)) in
    let p := payments (st w') id in
    Payment.paymentId p = id
    /\ Payment.sender p = sender
    /\ Payment.recipient p = recipient
    /\ Payment.token p = token
    /\ Payment.targetToken p = token
    /\ Payment.amount p = amount
    /\ totalPaymentsCreated (st w') = totalPaymentsCreated (st w) + 1
    /\ (if _canAutoExecute p
        then Payment.status p = EXECUTED
             /\ ss = [mkSettlement id token recipient
                        (amount - feeOf (st w) p)]
             /\ forall t holder,
                  ERC20.balanceOf (ledger w') t holder
                  = moved token (this (st w)) recipient
                      (amount - feeOf (st w) p)
                      (moved token (this (st w)) (feeRecipient (st w))
                         (feeOf (st w) p)
                         (moved token sender (this (st w)) amount
                            (ERC20.balanceOf (ledger w))))
                      t holder
        else Payment.status p = PENDING /\ ss = []
             /\ forall t holder,
                  ERC20.balanceOf (ledger w') t holder
                  = moved token sender (this (st w)) amount
                      (ERC20.balanceOf (ledger w)) t holder).
Proof.
  intros keccak256 sender now recipient token amount conditions referenceId
         memo w w' ss H.
  unfold createPayment in H.
  repeat (apply bind_Ok in H;
          let u := fresh "u" in
          let Hu := fresh "Hu" in
          destruct H as [u [Hu H]]).
  match goal with
  | Hadd : add _ _ = Ok _ |- _ =>
      unfold add in Hadd; apply checked_Ok in Hadd; destruct Hadd as [-> _]
  end.
  match goal with
  | Ht : ERC20.safeTransferFrom _ _ _ _ _ _ = Ok ?l |- _ =>
      pose proof (transferFrom_moves _ _ _ _ _ _ _ Ht) as Hin
  end.
  cbv zeta.
  match type of H with
  | (if _canAutoExecute ?p0 then _ else _) = _ =>
      set (pay := p0) in *; destruct (_canAutoExecute pay) eqn:Eauto
  end.
  - pose proof (PayFlowProps.executePayment_moves _ _ _ _ _ H) as Hmoved.
    pose proof (PayFlowProps.executePayment_internal _ _ _ _ _ H)
      as [Hp [Hss [_ Hcreated]]].
    simpl in Hp, Hss, Hcreated. rewrite upd_same in Hp, Hss.
    rewrite Hp, Z.eqb_refl.
    assert (Hauto : _canAutoExecute (Payment.set_executed now pay) = true)
      by exact Eauto.
    rewrite Hauto, Hcreated.
    repeat (split; [reflexivity|]).
    unfold _canAutoExecute in Eauto. simpl in Eauto.
    repeat (apply andb_true_iff in Eauto; destruct Eauto as [Eauto ?]).
    match goal with
    | H : negb (PaymentConditions.useEscrow conditions) = true |- _ =>
        apply negb_true_iff in H; rename H into Hesc
    end.
    split.
    + rewrite Hss. unfold payeeOf, feeOf. simpl. rewrite Hesc. reflexivity.
    + intros t holder. rewrite Hmoved.
      unfold settledBalances, payeeOf, feeOf.
      cbn [st ledger track set_payment payments this feeRecipient
           protocolFeeBps].
      rewrite upd_same. subst pay.
      cbn [Payment.targetToken Payment.token Payment.amount
           Payment.conditions Payment.recipient Payment.set_executed
           PaymentConditions.useEscrow PaymentConditions.set_approvers].
      rewrite Hesc.
      apply moved_ext. intros t1 h1. apply moved_ext. exact Hin.
  - inversion H; subst w' ss; clear H. simpl. rewrite upd_same.
    assert (Hauto : _canAutoExecute (Payment.set_status PENDING pay) = false)
      by exact Eauto.
    rewrite Hauto. simpl. repeat (split; [reflexivity|]).
    exact Hin.
Qed.

Lemma createPayment_settles_or_holds_witness :
  createPayment toyHash 10 1700000100 20 800 5000 PaymentConditions.zero
    0 "plain" readyWorld
  = Ok (plainWorld, [mkSettlement plainPayment 800 20 4995])
  /\ Payment.status (payments (st plainWorld) plainPayment) = EXECUTED
  /\ ERC20.balanceOf (ledger plainWorld) 800 20
     = ERC20.balanceOf (ledger readyWorld) 800 20 + 4995
  /\ ERC20.balanceOf (ledger plainWorld) 800 10
     = ERC20.balanceOf (ledger readyWorld) 800 10 - 5000
  /\ createPayment toyHash 10 1700000100 20 800 5000 twoOfThree 0 "held"
       readyWorld = Ok (heldWorld, [])
  /\ Payment.status (payments (st heldWorld) heldPayment) = PENDING
  /\ ERC20.balanceOf (ledger heldWorld) 800 700
     = ERC20.balanceOf (ledger readyWorld) 800 700 + 5000.
Proof.
  assert (E1 : createPayment toyHash 10 1700000100 20 800 5000
                 PaymentConditions.zero 0 "plain" readyWorld
               = Ok (plainWorld, [mkSettlement plainPayment 800 20 4995]))
    by (vm_compute; reflexivity).
  assert (E2 : createPayment toyHash 10 1700000100 20 800 5000 twoOfThree
                 0 "held" readyWorld = Ok (heldWorld, []))
    by (vm_compute; reflexivity).
  assert (Hid : paymentIdOf toyHash 10 20 800 5000 1700000100
                  (totalPaymentsCreated (st readyWorld)) = plainPayment)
    by (vm_compute; reflexivity).
  pose proof (createPayment_settles_or_holds _ _ _ _ _ _ _ _ _ _ _ _ E1)
    as H1.
  pose proof (createPayment_settles_or_holds _ _ _ _ _ _ _ _ _ _ _ _ E2)
    as H2.
  cbv zeta in H1, H2. rewrite Hid in H1, H2.
  destruct H1 as [_ [_ [_ [_ [_ [_ [_ H1]]]]]]].
  destruct H2 as [_ [_ [_ [_ [_ [_ [_ H2]]]]]]].
  assert (A1 : _canAutoExecute (payments (st plainWorld) plainPayment)
               = true) by (vm_compute; reflexivity).
  assert (A2 : _canAutoExecute (payments (st heldWorld) plainPayment)
               = false) by (vm_compute; reflexivity).
  rewrite A1 in H1. rewrite A2 in H2.
  destruct H1 as [S1 [_ B1]]. destruct H2 as [S2 [_ B2]].
  split; [exact E1|]. split; [exact S1|].
  split; [rewrite B1; vm_compute; reflexivity|].
  split; [rewrite B1; vm_compute; reflexivity|].
  split; [exact E2|]. split; [exact S2|].
  rewrite B2. vm_compute. reflexivity.
Defined.

(** X23. The sender's [cancelPayment] of a pending payment refunds out of
    the contract's pooled balance of the payment's token.  It returns
    exactly when that balance covers the amount: it then marks the payment
    [CANCELLED] and moves the amount from the contract back to the sender,
    changing no other balance; when the balance falls short, as after
    other payments have drawn on the pool, it reverts with
    "ERC20InsufficientBalance".  Made in the state in which [createPayment]
    has just left a held payment, the cancel succeeds and leaves every
    balance of every token as it was before the payment was created. *)
Theorem cancel_refunds_held_payment :
  (forall (sender : address) (pid : bytes32) (w : World),
      let p := payments (st w) pid in
      Payment.paymentId p = pid ->
      Payment.sender p = sender ->
      Payment.status p = PENDING ->
      this (st w) <> 0 ->
      sender <> 0 ->
      (Payment.amount p
         <= ERC20.balanceOf (ledger w) (Payment.token p) (this (st w)) ->
       exists w2,
         cancelPayment sender pid w = Ok (w2, [])
         /\ Payment.status (payments (st w2) pid) = CANCELLED
         /\ forall t holder,
              ERC20.balanceOf (ledger w2) t holder
              = moved (Payment.token p) (this (st w)) sender
                  (Payment.amount p) (ERC20.balanceOf (ledger w)) t holder)
      /\ (ERC20.balanceOf (ledger w) (Payment.token p) (this (st w))
            < Payment.amount p ->
          cancelPayment sender pid w = Revert "ERC20InsufficientBalance"))
  /\
  (forall (keccak256 : list Z -> bytes32) (sender : address) (now : uint256)
          (recipient token : address) (amount : uint256)
          (conditions : PaymentConditions.t) (referenceId : bytes32)
          (memo : string) (w w1 : World),
      0 <= ERC20.balanceOf (ledger w) token (this (st w)) ->
      createPayment keccak256 sender now recipient token amount conditions
        referenceId memo w = Ok (w1, []) ->
      let id := paymentIdOf keccak256 sender recipient token amount now
                  (totalPaymentsCreated (st w)) in
      exists w2,
        cancelPayment sender id w1 = Ok (w2, [])
        /\ Payment.status (payments (st w2) id) = CANCELLED
        /\ forall t holder,
             ERC20.balanceOf (ledger w2) t holder
             = ERC20.balanceOf (ledger w) t holder).
Proof.
  split.
  - intros sender pid w p Hid Hsender Hst Hthis Hs0. subst p.
    unfold cancelPayment.
    rewrite Hid, Hsender, !Z.eqb_refl, Hst.
    cbn [require bind PaymentStatus_eqb orb].
    unfold ERC20.safeTransfer. split.
    + intros Hbal.
      destruct (transfer_succeeds (Payment.token (payments (st w) pid))
                  (this (st w)) sender
                  (Payment.amount (payments (st w) pid)) (ledger w)
                  Hthis Hs0 Hbal) as [l2 Hout].
      rewrite Hout. cbn [bind].
      eexists. split; [reflexivity|].
      cbn [st ledger set_payment payments]. rewrite upd_same.
      split; [reflexivity|].
      apply transfer_moves in Hout. apply Hout.
    + intros Hshort.
      rewrite (transfer_insufficient _ _ _ _ _ Hthis Hs0 Hshort).
      reflexivity.
  - intros keccak256 sender now recipient token amount conditions
           referenceId memo w w1 Hbal H id.
    unfold createPayment in H.
    repeat (apply bind_Ok in H;
            let u := fresh "u" in
            let Hu := fresh "Hu" in
            destruct H as [u [Hu H]]).
    match goal with
    | Hadd : add _ _ = Ok _ |- _ =>
        unfold add in Hadd; apply checked_Ok in Hadd; destruct Hadd as [-> _]
    end.
    match goal with
    | Ht : ERC20.safeTransferFrom _ _ _ _ _ _ = Ok ?l |- _ =>
        rename Ht into Hin; rename l into l1
    end.
    fold id in H.
    match type of H with
    | (if ?c then _ else _) = _ => destruct c
    end.
    { apply PayFlowProps.executePayment_internal in H.
      destruct H as [_ [Hss _]]. discriminate Hss. }
    inversion H; subst w1; clear H.
    destruct (transferFrom_requires _ _ _ _ _ _ _ Hin) as [Hs0 [Ht0 Hv]].
    pose proof (transferFrom_balance _ _ _ _ _ _ _ Hin) as Hb1.
    assert (Hfund : amount <= ERC20.balanceOf l1 token (this (st w))).
    { rewrite Hb1, Z.eqb_refl.
      destruct (this (st w) =? sender) eqn:E; [|lia].
      apply Z.eqb_eq in E. rewrite E. lia. }
    destruct (transfer_succeeds token (this (st w)) sender amount l1 Ht0 Hs0
                Hfund) as [l2 Hout].
    unfold cancelPayment. simpl. rewrite upd_same. simpl.
    rewrite !Z.eqb_refl. simpl.
    unfold ERC20.safeTransfer. rewrite Hout. simpl.
    eexists. split; [reflexivity|]. simpl. rewrite upd_same. simpl.
    split; [reflexivity|].
    intros t holder.
    destruct (Z.eq_dec t token) as [->|Hne].
    + rewrite (transfer_balance _ _ _ _ _ _ Hout holder), Hb1.
      destruct (holder =? this (st w)), (holder =? sender); lia.
    + rewrite (transfer_other _ _ _ _ _ _ _ _ Hout Hne).
      apply (transferFrom_other _ _ _ _ _ _ _ _ _ Hin Hne).
Qed.

(** The held payment of [heldWorld], 5000 units of token 800: cancelled at
    once, the payer has the 1000000 units again; after the contract's
    holding of token 800 has gone, in [drainedWorld], the cancel reverts. *)
Lemma cancel_refunds_held_payment_witness :
  (exists w2,
      cancelPayment 10 heldPayment heldWorld = Ok (w2, [])
      /\ Payment.status (payments (st w2) heldPayment) = CANCELLED
      /\ ERC20.balanceOf (ledger w2) 800 10 = 1000000
      /\ ERC20.balanceOf (ledger heldWorld) 800 10 = 995000)
  /\ Payment.status (payments (st drainedWorld) heldPayment) = PENDING
  /\ cancelPayment 10 heldPayment drainedWorld
     = Revert "ERC20InsufficientBalance".
Proof.
  destruct cancel_refunds_held_payment as [Hany Hfresh].
  split; [|split].
  - destruct (Hfresh toyHash 10 1700000100 20 800 5000
                twoOfThree 0 "held"%string readyWorld heldWorld)
      as [w2 [Hc [Hs Hb]]].
    + vm_compute. discriminate.
    + vm_compute. reflexivity.
    + exists w2. split; [exact Hc|]. split; [exact Hs|].
      split; [rewrite Hb|]; vm_compute; reflexivity.
  - vm_compute. reflexivity.
  - destruct (Hany 10 heldPayment drainedWorld) as [_ Hshort];
      [ vm_compute; reflexivity
      | vm_compute; reflexivity
      | vm_compute; reflexivity
      | vm_compute; discriminate
      | vm_compute; discriminate
      | ].
    apply Hshort. vm_compute. reflexivity.
Defined.

(** X24. Pausing stops new payments and nothing else: on a paused
    contract [createPayment] and [createCrossBorderPayment] revert with
    "EnforcedPause", while [executePayment], [approvePayment] and
    [cancelPayment] settle or revert exactly as they would if the contract
    were not paused. *)
Theorem pause_blocks_creation_only :
  forall (keccak256 : list Z -> bytes32) (w : World),
    paused (st w) = true ->
    (forall sender now recipient token amount conditions referenceId memo,
        createPayment keccak256 sender now recipient token amount conditions
          referenceId memo w = Revert "EnforcedPause")
    /\ (forall sender now recipient sourceToken sourceAmount targetToken
               minTargetAmount conditions referenceId memo,
           createCrossBorderPayment keccak256 sender now recipient
             sourceToken sourceAmount targetToken minTargetAmount conditions
             referenceId memo w = Revert "EnforcedPause")
    /\ (forall now pid,
           outcome (executePayment now pid w)
           = outcome (executePayment now pid (withPaused false w)))
    /\ (forall sender now pid,
           outcome (approvePayment sender now pid w)
           = outcome (approvePayment sender now pid (withPaused false w)))
    /\ (forall sender pid,
           outcome (cancelPayment sender pid w)
           = outcome (cancelPayment sender pid (withPaused false w))).
Proof.
  intros keccak256 w Hp.
  assert (Hexec : forall now pid w0,
             outcome (_executePayment now pid w0)
             = outcome (_executePayment now pid (withPaused false w0))).
  { intros now pid w0. unfold outcome, _executePayment, withPaused.
    simpl st. simpl ledger. simpl auditAccepts.
    cbn [this payments protocolFeeBps feeRecipient escrowVault
         totalPaymentsExecuted totalVolumeProcessed averageSettlementTime
         auditRegistry set_paused].
    repeat match goal with
    | |- context [bind ?x _] =>
        lazymatch x with
        | Ok _ => fail
        | Revert _ => fail
        | bind _ _ => fail
        | _ => destruct x eqn:?; cbn [bind fst snd]
        end
    | |- context [if ?c then _ else _] =>
        match type of c with bool => destruct c eqn:? end; cbn [bind fst snd]
    end; reflexivity. }
  split; [|split; [|split; [|split]]].
  - intros. unfold createPayment. rewrite Hp. reflexivity.
  - intros. unfold createCrossBorderPayment. rewrite Hp. reflexivity.
  - intros now pid. unfold executePayment.
    change (payments (st (withPaused false w))) with (payments (st w)).
    destruct (require (Payment.paymentId (payments (st w) pid) =? pid) _);
      [|reflexivity].
    destruct (require _ "Cannot execute"); [|reflexivity].
    destruct (require _ "Conditions not met"); [|reflexivity].
    cbn [bind]. apply Hexec.
  - intros sender now pid. unfold approvePayment.
    change (st (withPaused false w)) with (set_paused false (st w)).
    change (payments (set_paused false (st w))) with (payments (st w)).
    destruct (require (Payment.paymentId (payments (st w) pid) =? pid) _);
      [|reflexivity].
    destruct (require _ "Not pending approval"); [|reflexivity].
    destruct (require _ "Already approved"); [|reflexivity].
    destruct (require _ "Not an approver"); [|reflexivity].
    cbn [bind].
    destruct (add (Payment.approvalCount (payments (st w) pid)) 1);
      [|reflexivity].
    cbn [bind].
    destruct (_allConditionsMet now _); [|reflexivity].
    rewrite Hexec. reflexivity.
  - intros sender pid. unfold cancelPayment.
    change (st (withPaused false w)) with (set_paused false (st w)).
    change (payments (set_paused false (st w))) with (payments (st w)).
    change (this (set_paused false (st w))) with (this (st w)).
    change (ledger (withPaused false w)) with (ledger w).
    destruct (require (Payment.paymentId (payments (st w) pid) =? pid) _);
      [|reflexivity].
    destruct (require _ "Not the sender"); [|reflexivity].
    destruct (require _ "Cannot cancel"); [|reflexivity].
    cbn [bind].
    destruct (ERC20.safeTransfer _ _ _ _ _); reflexivity.
Qed.

Lemma pause_blocks_creation_only_witness :
  paused (st pausedWorld) = true
  /\ createPayment toyHash 10 1700000400 20 800 500 PaymentConditions.zero
       0 "late" pausedWorld = Revert "EnforcedPause"
  /\ outcome (executePayment 1700000200 thePayment pausedWorld)
     = Ok [mkSettlement thePayment 801 20 990].
Proof.
  assert (Hp : paused (st pausedWorld) = true) by (vm_compute; reflexivity).
  destruct (pause_blocks_creation_only toyHash pausedWorld Hp)
    as [H1 [_ [H3 _]]].
  split; [exact Hp|]. split; [apply H1|].
  rewrite H3. vm_compute. reflexivity.
Defined.

(** X25. Executing a cross-border payment pays the recipient out of the
    contract's own holding of the target token and keeps the source
    tokens: for a payment whose target token differs from its token, with
    the contract neither fee recipient nor payee, a successful
    [executePayment] lowers the contract's balance of the source token by
    the fee only, and its balance of the target token by the amount less
    the fee. *)
Theorem crossBorder_keeps_source_tokens :
  forall (now : uint256) (pid : bytes32) (w w' : World)
         (ss : list Settlement),
    let p := payments (st w) pid in
    Payment.targetToken p <> Payment.token p ->
    feeRecipient (st w) <> this (st w) ->
    payeeOf (st w) p <> this (st w) ->
    executePayment now pid w = Ok (w', ss) ->
    ERC20.balanceOf (ledger w') (Payment.token p) (this (st w))
    = ERC20.balanceOf (ledger w) (Payment.token p) (this (st w))
      - feeOf (st w) p
    /\ ERC20.balanceOf (ledger w') (Payment.targetToken p) (this (st w))
       = ERC20.balanceOf (ledger w) (Payment.targetToken p) (this (st w))
         - (Payment.amount p - feeOf (st w) p)
    /\ ERC20.balanceOf (ledger w') (Payment.targetToken p)
         (payeeOf (st w) p)
       = ERC20.balanceOf (ledger w) (Payment.targetToken p)
           (payeeOf (st w) p)
         + (Payment.amount p - feeOf (st w) p).
Proof.
  intros now pid w w' ss p Htok Hfr Hpayee H. subst p.
  unfold executePayment in H. inv_ok.
  destruct (PayFlowProps.executePayment_ledger _ _ _ _ _ H) as [[l1 [Hfee Hout]] _].
  set (p := payments (st w) pid) in *.
  assert (E1 : (this (st w) =? feeRecipient (st w)) = false)
    by (apply Z.eqb_neq; congruence).
  assert (E2 : (this (st w) =? payeeOf (st w) p) = false)
    by (apply Z.eqb_neq; congruence).
  assert (E3 : (payeeOf (st w) p =? this (st w)) = false)
    by (apply Z.eqb_neq; congruence).
  assert (Hl1 : ERC20.balanceOf l1 (Payment.token p) (this (st w))
                = ERC20.balanceOf (ledger w) (Payment.token p) (this (st w))
                  - feeOf (st w) p
                /\ forall h,
                     ERC20.balanceOf l1 (Payment.targetToken p) h
                     = ERC20.balanceOf (ledger w) (Payment.targetToken p) h).
  { unfold feeOf in *. destruct (0 <? protocolFeeBps (st w)).
    - split.
      + rewrite (transfer_balance _ _ _ _ _ _ Hfee (this (st w))).
        rewrite Z.eqb_refl, E1. lia.
      + intros h. apply (transfer_other _ _ _ _ _ _ _ _ Hfee Htok).
    - subst l1. split; [lia | reflexivity]. }
  destruct Hl1 as [Hsrc Htgt].
  split; [|split].
  - rewrite (transfer_other _ _ _ _ _ _ _ _ Hout) by congruence.
    exact Hsrc.
  - rewrite (transfer_balance _ _ _ _ _ _ Hout (this (st w))).
    rewrite Z.eqb_refl, E2, Htgt. lia.
  - rewrite (transfer_balance _ _ _ _ _ _ Hout (payeeOf (st w) p)).
    rewrite Z.eqb_refl, E3, Htgt. lia.
Qed.

Lemma crossBorder_keeps_source_tokens_witness :
  (ERC20.balanceOf (ledger executedWorld)
     (Payment.token (payments (st pendingWorld) thePayment))
     (this (st pendingWorld))
   = ERC20.balanceOf (ledger pendingWorld)
       (Payment.token (payments (st pendingWorld) thePayment))
       (this (st pendingWorld))
     - feeOf (st pendingWorld) (payments (st pendingWorld) thePayment))
  /\ ERC20.balanceOf (ledger pendingWorld) 800 700 = 1000
  /\ ERC20.balanceOf (ledger executedWorld) 800 700 = 999
  /\ ERC20.balanceOf (ledger executedWorld) 801 700 = 999001
  /\ ERC20.balanceOf (ledger executedWorld) 801 20 = 999.
Proof.
  assert (E : executePayment 1700000200 thePayment pendingWorld
              = Ok (executedWorld, [mkSettlement thePayment 801 20 999]))
    by (vm_compute; reflexivity).
  assert (H1 : Payment.targetToken (payments (st pendingWorld) thePayment)
               <> Payment.token (payments (st pendingWorld) thePayment))
    by (vm_compute; discriminate).
  assert (H2 : feeRecipient (st pendingWorld) <> this (st pendingWorld))
    by (vm_compute; discriminate).
  assert (H3 : payeeOf (st pendingWorld)
                 (payments (st pendingWorld) thePayment)
               <> this (st pendingWorld))
    by (vm_compute; discriminate).
  split.
  - exact (proj1 (crossBorder_keeps_source_tokens 1700000200 thePayment
                    pendingWorld executedWorld
                    [mkSettlement thePayment 801 20 999] H1 H2 H3 E)).
  - repeat split; vm_compute; reflexivity.
Defined.

End PayFlowMoreProps.

(** ** AuditRegistry: the decimal rendering, the queries and the log *)

Module AuditProps.

Import AuditRegistry AuditSpec ListProps.

Lemma decimalValue_app (a b : list Ascii.ascii) :
  forall acc, decimalValue acc (a ++ b) = decimalValue (decimalValue acc a) b.
Proof.
  induction a as [|c a IH]; intros acc; simpl; [reflexivity|]. apply IH.
Qed.

Lemma bytes1_value (x : Z) :
  0 <= x < 256 -> Z.of_N (Ascii.N_of_ascii (bytes1 x)) = x.
Proof.
  intros Hx. unfold bytes1. rewrite Ascii.N_ascii_embedding by lia. lia.
Qed.

Lemma decimal_length (fuel : nat) :
  forall n, (List.length (decimal fuel n) <= fuel)%nat.
Proof.
  induction fuel as [|fuel IH]; intros n; cbn [decimal]; [simpl; lia|].
  destruct (n =? 0); [simpl; lia|].
  rewrite length_app. cbn [List.length]. specialize (IH (n / 10)). lia.
Qed.

Lemma decimal_value (fuel : nat) :
  forall n, 0 <= n < 2 ^ Z.of_nat fuel ->
            decimalValue 0 (decimal fuel n) = n.
Proof.
  induction fuel as [|fuel IH]; intros n Hn.
  - simpl in *. lia.
  - cbn [decimal]. destruct (n =? 0) eqn:E.
    + apply Z.eqb_eq in E. subst. reflexivity.
    + apply Z.eqb_neq in E.
      rewrite decimalValue_app. cbn [decimalValue].
      rewrite IH.
      * rewrite bytes1_value.
        -- pose proof (Z.div_mod n 10 ltac:(lia)). lia.
        -- pose proof (Z.mod_pos_bound n 10 ltac:(lia)). lia.
      * rewrite Nat2Z.inj_succ, Z.pow_succ_r in Hn by lia.
        split; [apply Z.div_pos; lia|].
        apply Z.div_lt_upper_bound; lia.
Qed.

Lemma decimal_digits (fuel : nat) :
  forall n, 0 <= n -> forallb isDigit (decimal fuel n) = true.
Proof.
  induction fuel as [|fuel IH]; intros n Hn; cbn [decimal]; [reflexivity|].
  destruct (n =? 0); [reflexivity|].
  rewrite forallb_app, IH by (apply Z.div_pos; lia).
  cbn [forallb andb]. rewrite andb_true_r.
  unfold isDigit.
  pose proof (Z.mod_pos_bound n 10 ltac:(lia)).
  rewrite bytes1_value by lia.
  replace (48 <=? 48 + n mod 10) with true by (symmetry; apply Z.leb_le; lia).
  replace (48 + n mod 10 <=? 57) with true by (symmetry; apply Z.leb_le; lia).
  reflexivity.
Qed.

Lemma decimal_head (fuel : nat) :
  forall n, 0 < n < 2 ^ Z.of_nat fuel ->
            exists c rest,
              decimal fuel n = c :: rest /\ c <> bytes1 48.
Proof.
  induction fuel as [|fuel IH]; intros n Hn.
  - simpl in Hn. lia.
  - cbn [decimal].
    destruct (n =? 0) eqn:E; [apply Z.eqb_eq in E; lia|].
    destruct (Z.eq_dec (n / 10) 0) as [Hz|Hnz].
    + rewrite Hz.
      assert (Hd : decimal fuel 0 = []) by (destruct fuel; reflexivity).
      rewrite Hd. cbn [app]. eexists. eexists. split; [reflexivity|].
      intros Heq.
      assert (Hv : Z.of_N (Ascii.N_of_ascii (bytes1 (48 + n mod 10)))
                   = Z.of_N (Ascii.N_of_ascii (bytes1 48)))
        by (rewrite Heq; reflexivity).
      pose proof (Z.mod_pos_bound n 10 ltac:(lia)).
      rewrite !bytes1_value in Hv by lia.
      pose proof (Z.div_mod n 10 ltac:(lia)). lia.
    + destruct (IH (n / 10)) as [c [rest [Hc Hne]]].
      * rewrite Nat2Z.inj_succ, Z.pow_succ_r in Hn by lia.
        split.
        -- pose proof (Z.div_pos n 10 ltac:(lia) ltac:(lia)). lia.
        -- apply Z.div_lt_upper_bound; lia.
      * rewrite Hc. cbn [app].
        eexists. eexists. split; [reflexivity|exact Hne].
Qed.

Lemma countLoop_counts (fuel : nat) :
  forall j length,
    0 <= length ->
    length + Z.of_nat fuel <= MAX_UINT256 ->
    countLoop fuel j length
    = Ok (length + Z.of_nat (List.length (decimal fuel j))).
Proof.
  induction fuel as [|fuel IH]; intros j length H0 Hmax; cbn [countLoop];
    cbn [decimal].
  - simpl. rewrite Z.add_0_r. reflexivity.
  - destruct (j =? 0).
    + simpl. rewrite Z.add_0_r. reflexivity.
    + unfold add. rewrite checked_in_range by lia. simpl.
      rewrite IH by lia. rewrite length_app. simpl.
      f_equal. lia.
Qed.

Lemma writeLoop_writes (fuel : nat) :
  forall i pre post,
    0 <= i ->
    Z.of_nat fuel <= MAX_UINT256 ->
    List.length pre = List.length (decimal fuel i) ->
    writeLoop fuel i (Z.of_nat (List.length pre)) (pre ++ post)
    = Ok (decimal fuel i ++ post).
Proof.
  induction fuel as [|fuel IH]; intros i pre post Hi Hmax Hlen;
    cbn [writeLoop]; cbn [decimal] in *.
  - destruct pre; [reflexivity | discriminate].
  - destruct (i =? 0) eqn:E.
    + destruct pre; [reflexivity | discriminate].
    + rewrite length_app in Hlen. simpl in Hlen.
      destruct (exists_last (l := pre)) as [pre' [x Hpre]].
      { intros ->. simpl in Hlen. lia. }
      subst pre. rewrite length_app in *. simpl in Hlen |- *.
      pose proof (decimal_length fuel (i / 10)) as Hdl.
      unfold sub. rewrite checked_in_range by lia. simpl.
      assert (Hdigit : uint8 (i - i / 10 * 10) = i mod 10).
      { unfold uint8.
        pose proof (Z.div_mod i 10 ltac:(lia)).
        pose proof (Z.mod_pos_bound i 10 ltac:(lia)).
        replace (i - i / 10 * 10) with (i mod 10) by lia.
        apply Z.mod_small. lia. }
      rewrite Hdigit. unfold add8.
      pose proof (Z.mod_pos_bound i 10 ltac:(lia)) as Hm.
      replace (48 + i mod 10 <=? 255) with true
        by (symmetry; apply Z.leb_le; lia).
      simpl.
      replace (Z.to_nat (Z.of_nat (List.length pre' + 1) - 1))
        with (List.length pre') by lia.
      unfold store. rewrite <- app_assoc. simpl.
      rewrite replace_app. simpl.
      replace (Z.of_nat (List.length pre' + 1) - 1)
        with (Z.of_nat (List.length pre')) by lia.
      rewrite IH; [| apply Z.div_pos; lia | lia | lia].
      rewrite <- app_assoc. reflexivity.
Qed.

(** X26. [_uint2str] renders a [uint256] in decimal: it returns for every
    value, the string it returns consists of decimal digits whose value is
    the argument, and it has no leading zero unless the argument is
    zero. *)
Theorem uint2str_is_decimal :
  forall n : uint256,
    0 <= n <= MAX_UINT256 ->
    exists digits,
      _uint2str n = Ok (string_of_list_ascii digits)
      /\ decimalValue 0 digits = n
      /\ forallb isDigit digits = true
      /\ (digits = [bytes1 48]
          \/ exists c rest, digits = c :: rest /\ c <> bytes1 48).
Proof.
  intros n Hn. unfold _uint2str.
  destruct (n =? 0) eqn:E.
  - apply Z.eqb_eq in E. subst n. exists [bytes1 48].
    repeat split; try reflexivity. left. reflexivity.
  - apply Z.eqb_neq in E.
    assert (Hpos : 0 < n) by lia.
    assert (Hlog : 0 <= Z.log2 n <= 255).
    { split; [apply Z.log2_nonneg|].
      assert (Z.log2 n < 256); [|lia].
      apply Z.log2_lt_pow2; [lia|]. unfold MAX_UINT256 in Hn. lia. }
    assert (Hfuel : n < 2 ^ Z.of_nat (rounds n)).
    { unfold rounds. rewrite Nat2Z.inj_succ, Z2Nat.id by lia.
      apply Z.log2_spec. lia. }
    assert (Hsmall : Z.of_nat (rounds n) <= MAX_UINT256).
    { unfold rounds, MAX_UINT256. rewrite Nat2Z.inj_succ, Z2Nat.id by lia.
      assert (2 ^ 9 <= 2 ^ 256) by (apply Z.pow_le_mono_r; lia).
      lia. }
    exists (decimal (rounds n) n).
    rewrite countLoop_counts by lia. cbn [bind].
    rewrite Z.add_0_l, Nat2Z.id.
    pose proof (writeLoop_writes (rounds n) n
                  (repeat Ascii.zero (List.length (decimal (rounds n) n)))
                  [] ltac:(lia) Hsmall) as Hw.
    rewrite repeat_length, app_nil_r in Hw.
    rewrite Hw by reflexivity. cbn [bind]. rewrite app_nil_r.
    split; [reflexivity|].
    split; [apply decimal_value; lia|].
    split; [apply decimal_digits; lia|].
    right. apply decimal_head. lia.
Qed.

Lemma uint2str_is_decimal_witness :
  _uint2str 1700000000 = Ok "1700000000"%string
  /\ _uint2str 0 = Ok "0"%string
  /\ exists digits,
       _uint2str 907 = Ok (string_of_list_ascii digits)
       /\ decimalValue 0 digits = 907.
Proof.
  split; [vm_compute; reflexivity|]. split; [reflexivity|].
  destruct (uint2str_is_decimal 907) as [digits [H1 [H2 _]]].
  - vm_compute. split; discriminate.
  - exists digits. split; assumption.
Defined.


Lemma trailLoop_maps (s : State) (entryIds : list bytes32) :
  forall count i,
    (i + count <= List.length entryIds)%nat ->
    trailLoop s entryIds count (Z.of_nat i)
    = Ok (map (entries s) (firstn count (skipn i entryIds))).
Proof.
  induction count as [|count IH]; intros i Hi; cbn [trailLoop].
  - reflexivity.
  - rewrite Nat2Z.id.
    destruct (nth_error entryIds i) as [id|] eqn:E;
      [|apply nth_error_None in E; lia].
    rewrite (index_nth_error _ _ _ E). cbn [bind].
    replace (Z.of_nat i + 1) with (Z.of_nat (S i)) by lia.
    rewrite IH by lia. cbn [bind].
    rewrite (skipn_cons_nth _ _ _ E). reflexivity.
Qed.



Lemma matchLoop_counts (s : State) (fromTimestamp toTimestamp limit : uint256)
  (entryIds : list bytes32) :
  forall matchCount,
    0 <= matchCount <= limit ->
    matchLoop s fromTimestamp toTimestamp limit entryIds matchCount
    = matchCount
      + Z.of_nat (List.length
                    (firstn (Z.to_nat (limit - matchCount))
                       (filter (inWindow s fromTimestamp toTimestamp)
                          entryIds))).
Proof.
  induction entryIds as [|id rest IH]; intros m Hm; cbn [matchLoop filter].
  - rewrite firstn_nil. simpl. lia.
  - destruct (m <? limit) eqn:E.
    + apply Z.ltb_lt in E.
      destruct (inWindow s fromTimestamp toTimestamp id).
      * rewrite IH by lia.
        replace (Z.to_nat (limit - m))
          with (S (Z.to_nat (limit - (m + 1)))) by lia.
        cbn [firstn List.length]. lia.
      * apply IH. lia.
    + apply Z.ltb_ge in E.
      replace (Z.to_nat (limit - m)) with 0%nat by lia.
      simpl. lia.
Qed.

Lemma fillLoop_fills (s : State) (fromTimestamp toTimestamp : uint256)
  (entryIds : list bytes32) :
  forall done pad : list AuditEntry.t,
    fillLoop s fromTimestamp toTimestamp
      (Z.of_nat (List.length done + List.length pad)) entryIds
      (Z.of_nat (List.length done)) (done ++ pad)
    = Ok (done
          ++ map (entries s)
               (firstn (List.length pad)
                  (filter (inWindow s fromTimestamp toTimestamp) entryIds))
          ++ skipn
               (List.length
                  (firstn (List.length pad)
                     (filter (inWindow s fromTimestamp toTimestamp)
                        entryIds)))
               pad).
Proof.
  induction entryIds as [|id rest IH]; intros done pad;
    cbn [fillLoop filter].
  - rewrite firstn_nil. reflexivity.
  - destruct pad as [|x pad].
    + cbn [List.length].
      replace (Z.of_nat (List.length done)
               <? Z.of_nat (List.length done + 0)) with false
        by (symmetry; apply Z.ltb_ge; lia).
      reflexivity.
    + replace (Z.of_nat (List.length done)
               <? Z.of_nat (List.length done + List.length (x :: pad)))
        with true
        by (symmetry; apply Z.ltb_lt; cbn [List.length]; lia).
      destruct (inWindow s fromTimestamp toTimestamp id).
      * rewrite Nat2Z.id. unfold store. rewrite replace_app. cbn [bind].
        specialize (IH (done ++ [entries s id]) pad).
        rewrite length_app in IH. cbn [List.length] in IH.
        rewrite <- app_assoc in IH. cbn [app] in IH.
        replace (Z.of_nat (List.length done + 1))
          with (Z.of_nat (List.length done) + 1) in IH by lia.
        replace (Z.of_nat (List.length done + 1 + List.length pad))
          with (Z.of_nat (List.length done + List.length (x :: pad))) in IH
          by (cbn [List.length]; lia).
        rewrite IH. cbn [List.length firstn map skipn].
        rewrite <- app_assoc. reflexivity.
      * apply IH.
Qed.

(** X28. [getJurisdictionEntries] returns the entries of the jurisdiction's
    trail whose timestamp lies in the closed window from [fromTimestamp] to
    [toTimestamp], in logging order, cut after the first [limit] of them.
    It never reverts; a limit of zero or an empty window gives the empty
    array. *)
Theorem jurisdiction_query_is_windowed_prefix :
  forall (s : State) (jurisdiction : string)
         (fromTimestamp toTimestamp limit : uint256),
    0 <= limit ->
    getJurisdictionEntries jurisdiction fromTimestamp toTimestamp limit s
    = Ok (map (entries s)
            (firstn (Z.to_nat limit)
               (filter (inWindow s fromTimestamp toTimestamp)
                  (jurisdictionTrail s jurisdiction)))).
Proof.
  intros s jurisdiction fromTimestamp toTimestamp limit Hlimit.
  unfold getJurisdictionEntries.
  rewrite matchLoop_counts by lia.
  rewrite Z.sub_0_r, Z.add_0_l, Nat2Z.id.
  set (found := firstn (Z.to_nat limit)
                  (filter (inWindow s fromTimestamp toTimestamp)
                     (jurisdictionTrail s jurisdiction))).
  pose proof (fillLoop_fills s fromTimestamp toTimestamp
                (jurisdictionTrail s jurisdiction) []
                (repeat AuditEntry.zero (List.length found))) as Hfill.
  rewrite repeat_length in Hfill. cbn [List.length app Nat.add] in Hfill.
  change (Z.of_nat 0) with 0 in Hfill.
  rewrite Hfill.
  assert (Hfound : firstn (List.length found)
                     (filter (inWindow s fromTimestamp toTimestamp)
                        (jurisdictionTrail s jurisdiction)) = found).
  { unfold found. rewrite length_firstn.
    destruct (Nat.le_ge_cases (Z.to_nat limit)
                (List.length
                   (filter (inWindow s fromTimestamp toTimestamp)
                      (jurisdictionTrail s jurisdiction)))) as [Hle | Hge].
    - rewrite Nat.min_l by exact Hle. reflexivity.
    - rewrite Nat.min_r by exact Hge.
      rewrite firstn_all, firstn_all2 by exact Hge. reflexivity. }
  rewrite Hfound.
  rewrite skipn_all2 by (rewrite repeat_length; lia).
  rewrite app_nil_r. reflexivity.
Qed.

Lemma jurisdiction_query_is_windowed_prefix_witness :
  map AuditEntry.description
    (commit [] (getJurisdictionEntries "US" 1700000010 1700000040 1
                  auditState))
  = ["alert"]%string
  /\ getJurisdictionEntries "US" 0 MAX_UINT256 0 auditState = Ok []
  /\ getJurisdictionEntries "US" 5 4 10 auditState = Ok [].
Proof.
  rewrite (jurisdiction_query_is_windowed_prefix auditState "US"
             1700000010 1700000040 1 ltac:(lia)).
  rewrite (jurisdiction_query_is_windowed_prefix auditState "US"
             0 MAX_UINT256 0 ltac:(lia)).
  rewrite (jurisdiction_query_is_windowed_prefix auditState "US"
             5 4 10 ltac:(lia)).
  split; [vm_compute; reflexivity|].
  split; [reflexivity|]. vm_compute. reflexivity.
Defined.

Lemma extends_refl {A : Type} (l : list A) : extends l l.
Proof. exists []. symmetry. apply app_nil_r. Qed.

Lemma extends_trans {A : Type} (l1 l2 l3 : list A) :
  extends l1 l2 -> extends l2 l3 -> extends l1 l3.
Proof.
  intros [m1 ->] [m2 ->]. exists (m1 ++ m2). symmetry. apply app_assoc.
Qed.

Lemma extends_push {A : Type} (l : list A) (x : A) : extends l (l ++ [x]).
Proof. exists [x]. reflexivity. Qed.

Lemma extends_upd {A : Type} (m : Z -> list A) (k : Z) (x : A) :
  forall k', extends (m k') (upd m k (m k ++ [x]) k').
Proof.
  intros k'. unfold upd. destruct (k' =? k) eqn:E.
  - apply Z.eqb_eq in E. subst k'. apply extends_push.
  - apply extends_refl.
Qed.

Lemma extends_updType {A : Type} (m : EventType -> list A) (k : EventType)
  (x : A) :
  forall k', extends (m k') (updType m k (m k ++ [x]) k').
Proof.
  intros k'. unfold updType. destruct (EventType_eqb k' k) eqn:E.
  - assert (k' = k) as ->
      by (destruct k', k; try reflexivity; vm_compute in E; discriminate E).
    apply extends_push.
  - apply extends_refl.
Qed.

Lemma extends_updString {A : Type} (m : string -> list A) (k : string)
  (x : A) :
  forall k', extends (m k') (updString m k (m k ++ [x]) k').
Proof.
  intros k'. unfold updString. destruct (String.eqb k' k) eqn:E.
  - apply String.eqb_eq in E. subst k'. apply extends_push.
  - apply extends_refl.
Qed.

Lemma grows_refl (s : State) : grows s s.
Proof. repeat split; intros; apply extends_refl. Qed.

Lemma grows_trans (s1 s2 s3 : State) :
  grows s1 s2 -> grows s2 s3 -> grows s1 s3.
Proof.
  intros (A1 & B1 & C1 & D1 & E1) (A2 & B2 & C2 & D2 & E2).
  repeat split; intros; eapply extends_trans; eauto.
Qed.

Section Logging.

Variable keccak256 : list Z -> bytes32.

Lemma logSimple_grows now blockNumber paymentId eventType severity actor
  subject amount token description jurisdiction s s' id :
  _logSimple keccak256 now blockNumber paymentId eventType severity actor
    subject amount token description jurisdiction s = Ok (s', id) ->
  grows s s' /\ (entriesCounted s -> entriesCounted s')
  /\ jurisdictionTrail s' = jurisdictionTrail s.
Proof.
  unfold _logSimple. intros H. inv_ok. cbn.
  repeat split.
  - apply extends_push.
  - apply extends_upd.
  - apply extends_upd.
  - apply extends_updType.
  - intros; apply extends_refl.
  - unfold entriesCounted. cbn. intros Hc. rewrite length_app. cbn.
    unfold add in *. apply checked_Ok in Ha. lia.
Qed.

Lemma logEntry_grows sender now blockNumber paymentId eventType severity
  actor subject dataHash description amount token jurisdiction s s' id :
  logEntry keccak256 sender now blockNumber paymentId eventType severity
    actor subject dataHash description amount token jurisdiction s
  = Ok (s', id) ->
  grows s s' /\ (entriesCounted s -> entriesCounted s').
Proof.
  unfold logEntry. intros H. inv_ok.
  assert (Hj : forall j,
             extends (jurisdictionTrail s j)
               ((if (0 <? String.length jurisdiction)%nat
                 then updString (jurisdictionTrail s) jurisdiction
                        (jurisdictionTrail s jurisdiction
                         ++ [entryIdOf keccak256 paymentId eventType actor
                               now (totalEntries s)])
                 else jurisdictionTrail s) j)).
  { intros j. destruct (0 <? String.length jurisdiction)%nat.
    - apply extends_updString.
    - apply extends_refl. }
  repeat split.
  - apply extends_push.
  - apply extends_upd.
  - apply extends_upd.
  - apply extends_updType.
  - exact Hj.
  - unfold entriesCounted. cbn. intros Hc. rewrite length_app. cbn.
    unfold add in *. apply checked_Ok in Ha0. lia.
Qed.

Lemma logTravelRule_grows sender now blockNumber paymentId travelRuleDataHash
  payer recipient amount jurisdiction s s' id :
  logTravelRule keccak256 sender now blockNumber paymentId travelRuleDataHash
    payer recipient amount jurisdiction s = Ok (s', id) ->
  grows s s' /\ (entriesCounted s -> entriesCounted s')
  /\ jurisdictionTrail s' = jurisdictionTrail s.
Proof.
  unfold logTravelRule. intros H. inv_ok. cbn.
  repeat split.
  - apply extends_push.
  - apply extends_upd.
  - intros; apply extends_refl.
  - intros; apply extends_refl.
  - intros; apply extends_refl.
  - unfold entriesCounted. cbn. intros Hc. rewrite length_app. cbn.
    unfold add in *. apply checked_Ok in Ha0. lia.
Qed.

Lemma access_grows r a s :
  grows s (set_access r a s)
  /\ (entriesCounted s -> entriesCounted (set_access r a s))
  /\ jurisdictionTrail (set_access r a s) = jurisdictionTrail s.
Proof.
  split; [|split; [intros Hc; exact Hc | reflexivity]].
  repeat split; intros; apply extends_refl.
Qed.

Lemma audit_step_grows sender now blockNumber c s s' :
  step keccak256 sender now blockNumber c s = Ok s' ->
  grows s s' /\ (entriesCounted s -> entriesCounted s')
  /\ (isLogEntry c = false -> jurisdictionTrail s' = jurisdictionTrail s).
Proof.
  destruct c; cbn [step]; unfold logged; intros H.
  - apply bind_Ok in H. destruct H as [[s1 id] [H1 H]]. inv_ok.
    apply logEntry_grows in H1. cbn [fst].
    split; [apply H1|]. split; [apply H1 | discriminate].
  - apply bind_Ok in H. destruct H as [[s1 id] [H1 H]].
    unfold logPaymentCreated in H1. inv_ok.
    apply logSimple_grows in H1. cbn [fst].
    split; [apply H1|]. split; [apply H1 | intros _; apply H1].
  - apply bind_Ok in H. destruct H as [[s1 id] [H1 H]].
    unfold logPaymentExecuted in H1. inv_ok.
    apply logSimple_grows in H1. cbn [fst].
    split; [apply H1|]. split; [apply H1 | intros _; apply H1].
  - apply bind_Ok in H. destruct H as [[s1 id] [H1 H]].
    unfold logComplianceCheck in H1. inv_ok.
    apply logSimple_grows in H1. cbn [fst].
    split; [apply H1|]. split; [apply H1 | intros _; apply H1].
  - apply bind_Ok in H. destruct H as [[s1 id] [H1 H]]. inv_ok.
    apply logTravelRule_grows in H1. cbn [fst].
    split; [apply H1|]. split; [apply H1 | intros _; apply H1].
  - unfold authorizeLogger in H. inv_ok.
    split; [apply access_grows|].
    split; [apply access_grows | intros _; apply access_grows].
  - unfold revokeLogger in H. inv_ok.
    split; [apply access_grows|].
    split; [apply access_grows | intros _; apply access_grows].
  - unfold grantRole in H. inv_ok.
    split; [apply access_grows|].
    split; [apply access_grows | intros _; apply access_grows].
  - unfold revokeRole in H. inv_ok.
    split; [apply access_grows|].
    split; [apply access_grows | intros _; apply access_grows].
  - unfold renounceRole in H. inv_ok.
    split; [apply access_grows|].
    split; [apply access_grows | intros _; apply access_grows].
Qed.

Lemma audit_run_grows txs :
  forall s,
    grows s (run keccak256 txs s)
    /\ (entriesCounted s -> entriesCounted (run keccak256 txs s)).
Proof.
  induction txs as [|[[[sender now] blockNumber] c] rest IH]; intros s;
    cbn [run].
  - split; [apply grows_refl | auto].
  - destruct (step keccak256 sender now blockNumber c s) as [s1|r] eqn:E;
      cbn [commit].
    + apply audit_step_grows in E. destruct E as (G & C & _).
      destruct (IH s1) as [G1 C1].
      split; [eapply grows_trans; eauto | auto].
    + apply IH.
Qed.

Lemma audit_run_keeps_jurisdictions txs :
  forallb (fun tx : Tx => negb (isLogEntry (snd tx))) txs = true ->
  forall s, jurisdictionTrail (run keccak256 txs s) = jurisdictionTrail s.
Proof.
  induction txs as [|[[[sender now] blockNumber] c] rest IH]; intros Hno s;
    cbn [run].
  - reflexivity.
  - cbn [forallb snd] in Hno. apply andb_prop in Hno.
    destruct Hno as [Hc Hrest]. apply negb_true_iff in Hc.
    rewrite (IH Hrest).
    destruct (step keccak256 sender now blockNumber c s) as [s1|r] eqn:E;
      cbn [commit]; [|reflexivity].
    apply audit_step_grows in E. apply E. exact Hc.
Qed.

End Logging.

(** X29. The registry is append-only.  From deployment on, whatever calls
    are made, by whomever, [totalEntries] equals the length of
    [allEntries], and no call removes or reorders what [allEntries] and the
    trails of a payment, an actor, an event type or a jurisdiction hold:
    each is, after any further calls, its earlier self with ids appended.
    The jurisdiction trails are extended by [logEntry] alone: calls of the
    other loggers, which store a jurisdiction in the entry too, leave every
    jurisdiction's trail as it was. *)
Theorem audit_log_is_append_only :
  forall (keccak256 : list Z -> bytes32) (deployer : address)
         (txs later : list Tx),
    let s := run keccak256 txs (constructor deployer) in
    let s' := run keccak256 later s in
    entriesCounted s
    /\ grows s s'
    /\ (forallb (fun tx : Tx => negb (isLogEntry (snd tx))) later = true ->
        forall jurisdiction,
          jurisdictionTrail s' jurisdiction
          = jurisdictionTrail s jurisdiction).
Proof.
  intros keccak256 deployer txs later s s'. split; [|split].
  - apply audit_run_grows. reflexivity.
  - apply audit_run_grows.
  - intros Hno jurisdiction. unfold s'.
    rewrite (audit_run_keeps_jurisdictions keccak256 later Hno).
    reflexivity.
Qed.

Lemma audit_log_is_append_only_witness :
  List.length (allEntries (run toyHash createdLater twoLogged)) = 3%nat
  /\ map (fun id =>
            AuditEntry.jurisdiction
              (entries (run toyHash createdLater twoLogged) id))
       (allEntries (run toyHash createdLater twoLogged))
     = ["US"; ""; "US"]%string
  /\ List.length (jurisdictionTrail twoLogged "US") = 1%nat
  /\ jurisdictionTrail (run toyHash createdLater twoLogged) "US"
     = jurisdictionTrail twoLogged "US".
Proof.
  split; [vm_compute; reflexivity|].
  split; [vm_compute; reflexivity|].
  split; [vm_compute; reflexivity|].
  apply (audit_log_is_append_only toyHash 1 (firstn 2 auditTrace)
           createdLater).
  reflexivity.
Defined.

(** X30. [logTravelRule] derives the entry id from the payment id, the data
    hash and the block timestamp only.  Two travel-rule records of the same
    payment and data hash logged at the same timestamp therefore get the
    same id: the second call overwrites the stored record of the first
    (actor, subject, amount, block number, jurisdiction), while
    [allEntries] and the payment's trail list the id twice and
    [totalEntries] rises by two, so that the payment's audit trail ends
    with the second record twice.  The per-type and per-severity counters
    and the actor, type and jurisdiction trails are untouched by either
    call. *)
Theorem travel_rule_same_timestamp_overwrites :
  forall (keccak256 : list Z -> bytes32) (logger1 logger2 : address)
         (now blockNumber1 blockNumber2 : uint256)
         (paymentId travelRuleDataHash : bytes32)
         (payer1 recipient1 : address) (amount1 : uint256)
         (jurisdiction1 : string)
         (payer2 recipient2 : address) (amount2 : uint256)
         (jurisdiction2 : string) (s : State),
    roles s LOGGER_ROLE logger1 = true ->
    roles s LOGGER_ROLE logger2 = true ->
    0 <= totalEntries s -> totalEntries s + 2 <= MAX_UINT256 ->
    exists s1 s2 id,
      logTravelRule keccak256 logger1 now blockNumber1 paymentId
        travelRuleDataHash payer1 recipient1 amount1 jurisdiction1 s
      = Ok (s1, id)
      /\ logTravelRule keccak256 logger2 now blockNumber2 paymentId
           travelRuleDataHash payer2 recipient2 amount2 jurisdiction2 s1
         = Ok (s2, id)
      /\ AuditEntry.actor (entries s1 id) = payer1
      /\ AuditEntry.actor (entries s2 id) = payer2
      /\ AuditEntry.subject (entries s2 id) = recipient2
      /\ AuditEntry.amount (entries s2 id) = amount2
      /\ AuditEntry.blockNumber (entries s2 id) = blockNumber2
      /\ AuditEntry.jurisdiction (entries s2 id) = jurisdiction2
      /\ allEntries s2 = allEntries s ++ [id; id]
      /\ paymentAuditTrail s2 paymentId
         = paymentAuditTrail s paymentId ++ [id; id]
      /\ totalEntries s2 = totalEntries s + 2
      /\ getPaymentAuditTrail paymentId s2
         = Ok (map (entries s2) (paymentAuditTrail s paymentId)
               ++ [entries s2 id; entries s2 id])
      /\ entriesByType s2 = entriesByType s
      /\ entriesBySeverity s2 = entriesBySeverity s
      /\ actorAuditTrail s2 = actorAuditTrail s
      /\ typeAuditTrail s2 = typeAuditTrail s
      /\ jurisdictionTrail s2 = jurisdictionTrail s.
Proof.
  intros keccak256 logger1 logger2 now blockNumber1 blockNumber2 paymentId
    travelRuleDataHash payer1 recipient1 amount1 jurisdiction1
    payer2 recipient2 amount2 jurisdiction2 s Hl1 Hl2 H0 Hmax.
  set (id := travelRuleIdOf keccak256 paymentId travelRuleDataHash now).
  eexists. eexists. exists id.
  split.
  { unfold logTravelRule, onlyRole. rewrite Hl1. cbn [require bind].
    unfold add. rewrite checked_in_range by lia. cbn [bind].
    fold id. reflexivity. }
  split.
  { unfold logTravelRule, onlyRole. cbn [roles]. rewrite Hl2.
    cbn [require bind totalEntries].
    unfold add. rewrite checked_in_range by lia. cbn [bind].
    fold id. reflexivity. }
  cbn [entries allEntries paymentAuditTrail totalEntries entriesByType
       entriesBySeverity actorAuditTrail typeAuditTrail jurisdictionTrail].
  rewrite !upd_same. cbn.
  repeat split.
  - rewrite <- app_assoc. reflexivity.
  - rewrite <- app_assoc. reflexivity.
  - lia.
  - unfold getPaymentAuditTrail.
    change 0 with (Z.of_nat 0).
    rewrite trailLoop_maps by (simpl; lia).
    cbn [skipn]. rewrite firstn_all.
    cbn [paymentAuditTrail entries]. rewrite !upd_same.
    rewrite <- app_assoc. rewrite map_app. cbn [app map].
    rewrite !upd_same. reflexivity.
Qed.

Lemma travel_rule_same_timestamp_overwrites_witness :
  roles (constructor 1) LOGGER_ROLE 1 = true
  /\ exists s1 s2 id,
       logTravelRule toyHash 1 1700000030 103 5 77 10 20 1000 "US"
         (constructor 1) = Ok (s1, id)
       /\ logTravelRule toyHash 1 1700000030 103 5 77 11 21 9 "DE" s1
          = Ok (s2, id)
       /\ AuditEntry.actor (entries s1 id) = 10
       /\ AuditEntry.actor (entries s2 id) = 11
       /\ allEntries s2 = [id; id]
       /\ totalEntries s2 = 2.
Proof.
  split; [reflexivity|].
  destruct (travel_rule_same_timestamp_overwrites toyHash 1 1
              1700000030 103 103 5 77 10 20 1000 "US" 11 21 9 "DE"
              (constructor 1))
    as (s1 & s2 & id & E1 & E2 & A1 & A2 & _ & _ & _ & _ & All & _ & Tot & _).
  - reflexivity.
  - reflexivity.
  - simpl. lia.
  - vm_compute. discriminate.
  - exists s1, s2, id. repeat split; assumption.
Defined.

End AuditProps.
